(** * PicoClaw core: context assembly, pruning, truncation, chunks of a
      summary, watcher classification, the skill registry with its
      frontmatter parsers, and the access checks of the Discord channel,
      embedded from the Go sources.

    Conventions of the embedding.
    - A Go [string] is a byte sequence: it is a [string] of the Standard
      Library (a list of 8-bit [ascii]), and [len] is [String.length].
    - A Go [int] is a [Z]; lengths and indices computed from slices are
      natural numbers injected with [Z.of_nat].  Where a configuration value
      enters a subtraction the 64-bit wrap-around is written with [wrap64].
    - A run-time panic (slice bounds out of range) is [None].
    - [float64] is IEEE binary64, computed with the executable
      specification of the Standard Library ([SpecFloat], precision 53,
      maximal exponent 1024, round to nearest even).
    - Functions of Go's standard library or of packages outside the
      repository ([filepath.Clean], [yaml.Unmarshal], ...) and the file
      system are section variables. *)

From Stdlib Require Import ZArith List Bool Arith Lia.
From Stdlib Require Import Strings.String Strings.Ascii.
From Stdlib Require Import Numbers.DecimalString.
From Stdlib Require Import Floats.SpecFloat.
Import ListNotations.

Open Scope string_scope.
Open Scope list_scope.

(* ================================================================== *)
(** * Part I. Definitions                                              *)
(* ================================================================== *)

(** ** Go primitives *)

(** [len(s)] for a string, as a Go [int]. *)
Definition len (s : string) : Z := Z.of_nat (String.length s).

(** Two's complement reduction of an [int] result to 64 bits. *)
Definition wrap64 (z : Z) : Z :=
  (z + 2 ^ 63) mod 2 ^ 64 - 2 ^ 63.

(** [s[lo:hi]]: panics unless [0 <= lo <= hi <= len(s)]. *)
Definition slice (s : string) (lo hi : Z) : option string :=
  if ((0 <=? lo) && (lo <=? hi) && (hi <=? len s))%bool%Z
  then Some (substring (Z.to_nat lo) (Z.to_nat (hi - lo)) s)
  else None.

(** [s[:hi]] and [s[lo:]]. *)
Definition sliceTo (s : string) (hi : Z) : option string := slice s 0 hi.
Definition sliceFrom (s : string) (lo : Z) : option string := slice s lo (len s).

(** [fmt.Sprintf("%d", n)]. *)
Definition fmt_d (n : Z) : string := NilZero.string_of_int (Z.to_int n).

(** Concatenation of strings, [s + t] in Go. *)
Infix "+++" := String.append (right associativity, at level 60).

(** The line feed byte. *)
Definition LF : string := String (ascii_of_nat 10) EmptyString.

(** ** providers.Message *)

(** Modelled from the spec: the declaration of [providers.Message] is not
    among the sources.  Section 3 gives a message a role, a textual
    content, an optional tool-call list (assistant only) and an optional
    tool-call id (tool only); the sources read and write the fields
    [Role], [Content] and [ToolCallID]. *)
Record ToolCall := mkToolCall {
  tcID : string;
  tcName : string;
  tcArguments : string
}.

Record Message := mkMessage {
  Role : string;
  Content : string;
  ToolCalls : list ToolCall;
  ToolCallID : string
}.

Definition isRole (r : string) (m : Message) : bool := String.eqb (Role m) r.

(** ** Context pruning (package agent) *)

(** [type PruningMode string], with its two named constants. *)
Definition PruningMode := string.

Definition PruningModeOff : PruningMode := "off".
Definition PruningModeCacheTTL : PruningMode := "cache-ttl".

(** [TTL], [SoftTrimRatio] and [HardClearRatio] are stored but never read
    by the pruning functions; the ratios are kept as the decimal text of
    the configuration. *)
Record PruningConfig := mkPruningConfig {
  Mode : PruningMode;
  TTL : Z;
  KeepLastAssistants : Z;
  SoftTrimRatio : string;
  HardClearRatio : string;
  MinPrunableToolChars : Z
}.

Definition DefaultPruningConfig : PruningConfig :=
  {| Mode := PruningModeOff;
     TTL := 3600 * 1000000000;
     KeepLastAssistants := 4;
     SoftTrimRatio := "0.3";
     HardClearRatio := "0.5";
     MinPrunableToolChars := 1000 |}.

Record PruningStats := mkPruningStats {
  MessagesRemoved : Z;
  ToolResultsRemoved : Z;
  CharsSaved : Z
}.

Definition noStats : PruningStats := mkPruningStats 0 0 0.

Definition emptyMessage : Message := mkMessage "" "" [] "".

(** [messages[i]] for an index already known to be in range. *)
Definition msgAt (messages : list Message) (i : nat) : Message :=
  nth i messages emptyMessage.

(** The backward scan shared by both pruning passes:
<<
  for i := len(messages) - 1; i >= 0; i-- {
      if messages[i].Role == role {
          acc = append([]int{i}, acc...)
          if len(acc) >= limit { break }
      }
  }
>>
    [i] is the number of positions still to visit, the one visited next
    is [i - 1]. *)
Fixpoint scanBack (role : string) (limit : Z) (messages : list Message)
         (i : nat) (acc : list nat) : list nat :=
  match i with
  | O => acc
  | S j =>
      if isRole role (msgAt messages j) then
        let acc' := j :: acc in
        if (Z.of_nat (List.length acc') >=? limit)%Z then acc'
        else scanBack role limit messages j acc'
      else scanBack role limit messages j acc
  end.

Definition lastIndices (role : string) (limit : Z) (messages : list Message) : list nat :=
  scanBack role limit messages (List.length messages) [].

(** The second loop of [pruneContextByTTL], over [for i, msg := range
    messages]; [i] is the index of the head of [rest]. *)
Fixpoint ttlLoop (minKeepIndex : nat) (i : nat) (rest : list Message)
         (pruned : list Message) (stats : PruningStats)
  : list Message * PruningStats :=
  match rest with
  | [] => (pruned, stats)
  | msg :: rest' =>
      if isRole "system" msg then
        ttlLoop minKeepIndex (S i) rest' (pruned ++ [msg]) stats
      else if (minKeepIndex <=? i)%nat then
        ttlLoop minKeepIndex (S i) rest' (pruned ++ [msg]) stats
      else
        ttlLoop minKeepIndex (S i) rest' pruned
          {| MessagesRemoved := MessagesRemoved stats + 1;
             ToolResultsRemoved := ToolResultsRemoved stats;
             CharsSaved := CharsSaved stats + len (Content msg) |}
  end.

Definition pruneContextByTTL (messages : list Message) (config : PruningConfig)
  : list Message * PruningStats :=
  if negb (String.eqb (Mode config) PruningModeCacheTTL) then (messages, noStats)
  else match messages with
  | [] => (messages, noStats)
  | _ =>
      let lastAssistantIndices :=
        lastIndices "assistant" (KeepLastAssistants config) messages in
      let minKeepIndex :=
        match lastAssistantIndices with
        | [] => List.length messages
        | first :: _ => first
        end in
      ttlLoop minKeepIndex 0 messages [] noStats
  end.

(** [recentToolSet[i]]: a missing key of a [map[int]bool] reads [false]. *)
Definition inSet (set : list nat) (i : nat) : bool := existsb (Nat.eqb i) set.

Fixpoint toolLoop (recentToolSet : list nat) (minChars : Z) (i : nat)
         (rest : list Message) (pruned : list Message) (stats : PruningStats)
  : list Message * PruningStats :=
  match rest with
  | [] => (pruned, stats)
  | msg :: rest' =>
      if (isRole "tool" msg && negb (inSet recentToolSet i)
          && (len (Content msg) <? minChars)%Z)%bool then
        toolLoop recentToolSet minChars (S i) rest' pruned
          {| MessagesRemoved := MessagesRemoved stats;
             ToolResultsRemoved := ToolResultsRemoved stats + 1;
             CharsSaved := CharsSaved stats + len (Content msg) |}
      else
        toolLoop recentToolSet minChars (S i) rest' (pruned ++ [msg]) stats
  end.

Definition pruneToolResults (messages : list Message) (config : PruningConfig)
  : list Message * PruningStats :=
  if negb (String.eqb (Mode config) PruningModeCacheTTL) then (messages, noStats)
  else
    let recentToolResults := lastIndices "tool" 3 messages in
    toolLoop recentToolResults (MinPrunableToolChars config) 0 messages [] noStats.

Definition ApplyPruning (messages : list Message) (config : PruningConfig)
  : list Message * PruningStats :=
  if String.eqb (Mode config) PruningModeOff then (messages, noStats)
  else
    let '(messages1, toolStats) := pruneToolResults messages config in
    let totalStats :=
      {| MessagesRemoved := 0;
         ToolResultsRemoved := 0 + ToolResultsRemoved toolStats;
         CharsSaved := 0 + CharsSaved toolStats |} in
    let '(messages2, ttlStats) := pruneContextByTTL messages1 config in
    (messages2,
     {| MessagesRemoved := MessagesRemoved totalStats + MessagesRemoved ttlStats;
        ToolResultsRemoved := ToolResultsRemoved totalStats;
        CharsSaved := CharsSaved totalStats + CharsSaved ttlStats |}).

(** ** float64 arithmetic *)

Definition float64 := spec_float.

(** [float64(n)] for an [int] [n]: the nearest binary64, ties to even. *)
Definition f64_of_int (n : Z) : float64 := binary_normalize 53 1024 n 0 false.

Definition f64_mul (x y : float64) : float64 := SFmul 53 1024 x y.

(** [int(f)]: truncation toward zero.  For a value outside the range of
    [int], and for an infinity or a NaN, Go leaves the result to the
    implementation; amd64 yields the smallest [int], which is what is
    written here. *)
Definition minInt64 : Z := - 2 ^ 63.
Definition maxInt64 : Z := 2 ^ 63 - 1.

Definition int_of_f64 (f : float64) : Z :=
  match f with
  | S754_zero _ => 0
  | S754_finite s m e =>
      let v := if (0 <=? e)%Z then (Zpos m * 2 ^ e)%Z
               else (Zpos m / 2 ^ (- e))%Z in
      let r := if s then (- v)%Z else v in
      if ((minInt64 <=? r) && (r <=? maxInt64))%bool%Z then r else minInt64
  | _ => minInt64
  end.

(** The untyped constants [0.3], [0.70], [0.20] and [4] converted to
    [float64], as the compiler does for a mixed operation. *)
Definition f64_0_3 : float64 := S754_finite false 5404319552844595 (-54).
Definition f64_0_70 : float64 := S754_finite false 6305039478318694 (-53).
Definition f64_0_20 : float64 := S754_finite false 7205759403792794 (-55).
Definition f64_4 : float64 := f64_of_int 4.

(** ** Tool result truncation (package agent) *)

Definition MAX_TOOL_RESULT_CONTEXT_SHARE : float64 := f64_0_3.
Definition HARD_MAX_TOOL_RESULT_CHARS : Z := 400000.
Definition MIN_TOOL_RESULT_CHARS : Z := 2000.

Definition calculateMaxToolResultChars (contextWindowTokens : Z) : Z :=
  let maxTokens := f64_mul (f64_of_int contextWindowTokens) MAX_TOOL_RESULT_CONTEXT_SHARE in
  let maxChars := int_of_f64 (f64_mul maxTokens f64_4) in
  if (maxChars >? HARD_MAX_TOOL_RESULT_CHARS)%Z then HARD_MAX_TOOL_RESULT_CHARS
  else if (maxChars <? MIN_TOOL_RESULT_CHARS)%Z then MIN_TOOL_RESULT_CHARS
  else maxChars.

(** [strings.LastIndex(s, sep)] for a one-byte [sep]: the index of the last
    occurrence, [-1] when there is none. *)
Fixpoint lastIndexFrom (c : ascii) (s : string) (i : Z) (found : Z) : Z :=
  match s with
  | EmptyString => found
  | String a s' => lastIndexFrom c s' (i + 1) (if Ascii.eqb a c then i else found)
  end.

Definition LastIndexByte (s : string) (c : ascii) : Z := lastIndexFrom c s 0 (-1).

Definition truncatedMarker : string := LF +++ "[...truncated...]".

Section ToolResultTruncation.

(** [utils.Truncate], of a package that is not among the sources. *)
Variable utilsTruncate : string -> Z -> string.

Definition truncateToolResultText (text : string) (maxChars : Z) : option string :=
  if (len text <=? maxChars)%Z then Some text
  else if (maxChars <=? MIN_TOOL_RESULT_CHARS)%Z then Some (utilsTruncate text maxChars)
  else
    let truncationPoint := maxChars in
    let searchStart := (maxChars - 200)%Z in
    let searchStart := if (searchStart <? 0)%Z then 0%Z else searchStart in
    match slice text searchStart truncationPoint with
    | None => None
    | Some window =>
        let lastNewline := LastIndexByte window (ascii_of_nat 10) in
        let truncationPoint :=
          if negb (lastNewline =? -1)%Z then (searchStart + lastNewline + 1)%Z
          else truncationPoint in
        match sliceTo text truncationPoint with
        | None => None
        | Some result => Some (result +++ truncatedMarker)
        end
    end.

Definition TruncateToolResult (result : string) (contextWindowTokens : Z) : option string :=
  let maxChars := calculateMaxToolResultChars contextWindowTokens in
  truncateToolResultText result maxChars.

End ToolResultTruncation.

(** ** Bootstrap files (package agent) *)

Definition SessionType := string.
Definition SessionTypeMain : SessionType := "main".
Definition SessionTypeCron : SessionType := "cron".
Definition SessionTypeSubagent : SessionType := "subagent".
Definition SessionTypeHeartbeat : SessionType := "heartbeat".

Definition DEFAULT_BOOTSTRAP_MAX_CHARS : Z := 20000.
Definition DEFAULT_BOOTSTRAP_TOTAL_MAX_CHARS : Z := 24000.
Definition BOOTSTRAP_HEAD_RATIO : float64 := f64_0_70.
Definition BOOTSTRAP_TAIL_RATIO : float64 := f64_0_20.

Record BootstrapConfig := mkBootstrapConfig {
  MaxChars : Z;
  TotalMaxChars : Z
}.

Definition DefaultBootstrapConfig : BootstrapConfig :=
  {| MaxChars := DEFAULT_BOOTSTRAP_MAX_CHARS;
     TotalMaxChars := DEFAULT_BOOTSTRAP_TOTAL_MAX_CHARS |}.

(** [int(float64(maxChars) * ratio)]. *)
Definition scaleChars (maxChars : Z) (ratio : float64) : Z :=
  int_of_f64 (f64_mul (f64_of_int maxChars) ratio).

(** The marker of a head-and-tail truncation. *)
Definition trimMarker (filename : string) (headSize tailSize total : Z) : string :=
  LF +++ LF +++ "[...truncated " +++ filename +++ ": kept " +++ fmt_d headSize +++ "+"
     +++ fmt_d tailSize +++ " chars of " +++ fmt_d total +++ ", read " +++ filename
     +++ " for full content...]" +++ LF +++ LF.

Definition trimBootstrapContent (content filename : string) (maxChars : Z) : option string :=
  if (len content <=? maxChars)%Z then Some content
  else
    let headSize := scaleChars maxChars BOOTSTRAP_HEAD_RATIO in
    let tailSize := scaleChars maxChars BOOTSTRAP_TAIL_RATIO in
    let headSize :=
      if (headSize + tailSize >? len content)%Z then
        let headSize := (len content - tailSize - 100)%Z in
        if (headSize <? 0)%Z then 0%Z else headSize
      else headSize in
    match sliceTo content headSize with
    | None => None
    | Some head =>
        let tail :=
          if ((tailSize >? 0) && (len content >? headSize))%bool%Z then
            let tailStart := (len content - tailSize)%Z in
            let tailStart := if (tailStart <? headSize)%Z then headSize else tailStart in
            sliceFrom content tailStart
          else Some "" in
        match tail with
        | None => None
        | Some tail =>
            let marker := trimMarker filename headSize tailSize (len content) in
            if negb (String.eqb tail "") then Some (head +++ marker +++ tail)
            else Some (head +++ LF +++ "[...truncated " +++ filename +++ "...]")
        end
    end.

Definition getBootstrapFilesForSession (sessionType : SessionType) : list string :=
  if String.eqb sessionType SessionTypeMain then
    ["AGENTS.md"; "SOUL.md"; "TOOLS.md"; "IDENTITY.md"; "USER.md"; "HEARTBEAT.md"]
  else if (String.eqb sessionType SessionTypeCron
           || String.eqb sessionType SessionTypeSubagent)%bool then
    ["AGENTS.md"; "TOOLS.md"]
  else if String.eqb sessionType SessionTypeHeartbeat then
    ["HEARTBEAT.md"]
  else
    ["AGENTS.md"; "SOUL.md"; "TOOLS.md"; "IDENTITY.md"; "USER.md"; "HEARTBEAT.md"].

(** The local variables of the loop of [LoadBootstrapFilesForSession]. *)
Record BootstrapState := mkBootstrapState {
  bsResult : string;
  bsTotalUsed : Z;
  bsLoadedFiles : list string
}.

(** [fmt.Sprintf("## %s\n\n%s\n\n", filename, content)]. *)
Definition bootstrapEntry (filename content : string) : string :=
  "## " +++ filename +++ LF +++ LF +++ content +++ LF +++ LF.

Section Bootstrap.

(** The file system seen through [os.ReadFile] ([None] is an error) and
    [filepath.Join] on two elements. *)
Variable ReadFile : string -> option string.
Variable filepathJoin : string -> string -> string.

(** One iteration of the loop; [None] is a panic. *)
Definition bootstrapStep (workspace : string) (config : BootstrapConfig)
           (st : BootstrapState) (filename : string) : option BootstrapState :=
  let perFileLimit := MaxChars config in
  let filePath := filepathJoin workspace filename in
  match ReadFile filePath with
  | None => Some st
  | Some data =>
      let content := data in
      match (if (len content >? perFileLimit)%Z
             then trimBootstrapContent content filename perFileLimit
             else Some content) with
      | None => None
      | Some content =>
          let include (content : string) :=
            Some {| bsResult := bsResult st +++ bootstrapEntry filename content;
                    bsTotalUsed := bsTotalUsed st + len content;
                    bsLoadedFiles := bsLoadedFiles st ++ [filename] |} in
          if (bsTotalUsed st + len content >? TotalMaxChars config)%Z then
            let remaining := wrap64 (TotalMaxChars config - bsTotalUsed st) in
            if (remaining >? 500)%Z then
              match trimBootstrapContent content filename remaining with
              | None => None
              | Some content => include content
              end
            else Some st
          else include content
      end
  end.

Fixpoint bootstrapLoop (workspace : string) (config : BootstrapConfig)
         (files : list string) (st : BootstrapState) : option BootstrapState :=
  match files with
  | [] => Some st
  | filename :: rest =>
      match bootstrapStep workspace config st filename with
      | None => None
      | Some st' => bootstrapLoop workspace config rest st'
      end
  end.

Definition initialBootstrapState : BootstrapState :=
  {| bsResult := ""; bsTotalUsed := 0; bsLoadedFiles := [] |}.

Definition LoadBootstrapFilesForSession (workspace : string) (config : BootstrapConfig)
           (sessionType : SessionType) : option string :=
  let bootstrapFiles := getBootstrapFilesForSession sessionType in
  match bootstrapLoop workspace config bootstrapFiles initialBootstrapState with
  | None => None
  | Some st => Some (bsResult st)
  end.

Definition LoadBootstrapFiles (workspace : string) (config : BootstrapConfig) : option string :=
  LoadBootstrapFilesForSession workspace config SessionTypeMain.

End Bootstrap.

(** ** Assembly of the message array (package agent) *)

(** The defensive loop of [BuildMessages]:
    [for len(history) > 0 && history[0].Role == "tool" { history = history[1:] }]. *)
Fixpoint stripLeadingTools (history : list Message) : list Message :=
  match history with
  | [] => []
  | m :: rest => if isRole "tool" m then stripLeadingTools rest else history
  end.

Section BuildMessages.

(** The value returned by [cb.BuildSystemPrompt()] when [BuildMessages]
    is called: it depends on the clock, the files of the workspace and
    the tool registry, none of which [BuildMessages] touches. *)
Variable BuildSystemPrompt : string.

Definition BuildMessages (history : list Message) (summary currentMessage : string)
           (media : list string) (channel chatID : string) : list Message :=
  let messages : list Message := [] in
  let systemPrompt := BuildSystemPrompt in
  let systemPrompt :=
    if (negb (String.eqb channel "") && negb (String.eqb chatID ""))%bool then
      systemPrompt +++ LF +++ LF +++ "## Current Session" +++ LF +++ "Channel: "
        +++ channel +++ LF +++ "Chat ID: " +++ chatID
    else systemPrompt in
  let systemPrompt :=
    if negb (String.eqb summary "") then
      systemPrompt +++ LF +++ LF +++ "## Summary of Previous Conversation" +++ LF +++ LF
        +++ summary
    else systemPrompt in
  let history := stripLeadingTools history in
  let messages := messages ++ [ {| Role := "system"; Content := systemPrompt;
                                   ToolCalls := []; ToolCallID := "" |} ] in
  let messages := messages ++ history in
  let messages := messages ++ [ {| Role := "user"; Content := currentMessage;
                                   ToolCalls := []; ToolCallID := "" |} ] in
  messages.

End BuildMessages.

(** ** File watcher: classification of a path (package reload) *)

(** [type WatchEventType int], with the constants numbered by [iota]. *)
Definition WatchEventType := Z.
Definition WatchEventConfig : WatchEventType := 0%Z.
Definition WatchEventSkill : WatchEventType := 1%Z.
Definition WatchEventBootstrap : WatchEventType := 2%Z.

Record WatcherConfig := mkWatcherConfig {
  ConfigPath : string;
  WorkspacePath : string;
  WatchSkills : bool;
  WatchBootstrap : bool
}.

Section Watcher.

(** [filepath.Clean], [filepath.Base] and [filepath.Dir]. *)
Variable filepathClean : string -> string.
Variable filepathBase : string -> string.
Variable filepathDir : string -> string.

(** [fw.determineEventType(path)], a function of [fw.config] only. *)
Definition determineEventType (config : WatcherConfig) (path : string) : WatchEventType :=
  if String.eqb (filepathClean path) (filepathClean (ConfigPath config)) then
    WatchEventConfig
  else
    let bootstrap :=
      if WatchBootstrap config then
        let base := filepathBase path in
        if (String.eqb base "IDENTITY.md" || String.eqb base "SOUL.md"
            || String.eqb base "AGENTS.md" || String.eqb base "USER.md")%bool then
          let dir := filepathDir path in
          String.eqb (filepathClean dir) (filepathClean (WorkspacePath config))
        else false
      else false in
    if bootstrap then WatchEventBootstrap
    else
      let skill :=
        if WatchSkills config then
          if String.eqb (filepathBase path) "SKILL.md" then
            let parentDir := filepathDir path in
            let grandparentDir := filepathDir parentDir in
            String.eqb (filepathBase grandparentDir) "skills"
          else false
        else false in
      if skill then WatchEventSkill else (-1)%Z.

End Watcher.

(** ** Regular expressions *)

(** The fragment of [regexp] syntax that [namePattern] uses, matched by
    derivatives.  The pattern is anchored at both ends ([^] and [$] without
    the multi-line flag), so [MatchString] holds when the whole text is in
    the language. *)
Inductive regex :=
| RNone
| REps
| RClass (p : ascii -> bool)
| RCat (r s : regex)
| RAlt (r s : regex)
| RStar (r : regex).

Definition RPlus (r : regex) : regex := RCat r (RStar r).

Fixpoint nullable (r : regex) : bool :=
  match r with
  | RNone => false
  | REps => true
  | RClass _ => false
  | RCat r s => nullable r && nullable s
  | RAlt r s => nullable r || nullable s
  | RStar _ => true
  end.

Fixpoint deriv (c : ascii) (r : regex) : regex :=
  match r with
  | RNone => RNone
  | REps => RNone
  | RClass p => if p c then REps else RNone
  | RCat r s =>
      if nullable r then RAlt (RCat (deriv c r) s) (deriv c s)
      else RCat (deriv c r) s
  | RAlt r s => RAlt (deriv c r) (deriv c s)
  | RStar r => RCat (deriv c r) (RStar r)
  end.

Fixpoint matchAnchored (r : regex) (s : string) : bool :=
  match s with
  | EmptyString => nullable r
  | String c s' => matchAnchored (deriv c r) s'
  end.

Definition inRange (lo hi : nat) (c : ascii) : bool :=
  (lo <=? nat_of_ascii c)%nat && (nat_of_ascii c <=? hi)%nat.

(** [[a-zA-Z0-9]]. *)
Definition isAlnum (c : ascii) : bool :=
  inRange 97 122 c || inRange 65 90 c || inRange 48 57 c.

Definition isHyphen (c : ascii) : bool := Ascii.eqb c "-"%char.

(** ** Markdown helpers (package markdown) *)

Definition CR : string := String (ascii_of_nat 13) EmptyString.
Definition TAB : string := String (ascii_of_nat 9) EmptyString.

Definition HasPrefix (s pre : string) : bool := String.prefix pre s.

Definition HasSuffix (s suf : string) : bool :=
  (String.length suf <=? String.length s)%nat
  && String.eqb (substring (String.length s - String.length suf) (String.length suf) s) suf.

Definition TrimSuffix (s suf : string) : string :=
  if HasSuffix s suf then substring 0 (String.length s - String.length suf) s else s.

(** [strings.Index(s, sep)], [-1] when [sep] does not occur. *)
Definition Index (s sep : string) : Z :=
  match String.index 0 sep s with
  | Some i => Z.of_nat i
  | None => (-1)%Z
  end.

Fixpoint containsByte (cutset : string) (c : ascii) : bool :=
  match cutset with
  | EmptyString => false
  | String a rest => Ascii.eqb a c || containsByte rest c
  end.

(** [strings.TrimLeft(s, cutset)] for a cutset of one-byte characters. *)
Fixpoint TrimLeft (s cutset : string) : string :=
  match s with
  | EmptyString => EmptyString
  | String c rest => if containsByte cutset c then TrimLeft rest cutset else s
  end.

(** [strings.ReplaceAll(s, "\r\n", "\n")] and [strings.ReplaceAll(s, "\r", "\n")]. *)
Fixpoint replaceCRLF (s : string) : string :=
  match s with
  | EmptyString => EmptyString
  | String c rest =>
      match rest with
      | String d rest' =>
          if (Ascii.eqb c (ascii_of_nat 13) && Ascii.eqb d (ascii_of_nat 10))%bool
          then String (ascii_of_nat 10) (replaceCRLF rest')
          else String c (replaceCRLF rest)
      | EmptyString => String c EmptyString
      end
  end.

Fixpoint replaceCR (s : string) : string :=
  match s with
  | EmptyString => EmptyString
  | String c rest =>
      String (if Ascii.eqb c (ascii_of_nat 13) then ascii_of_nat 10 else c) (replaceCR rest)
  end.

(** [map[string]string]: an association list, the first binding of a key
    is the current one; a missing key reads as the empty string. *)
Definition ParsedFrontmatter := list (string * string).

Fixpoint fmGet (fm : ParsedFrontmatter) (key : string) : string :=
  match fm with
  | [] => ""
  | (k, v) :: rest => if String.eqb k key then v else fmGet rest key
  end.

Definition fmSet (fm : ParsedFrontmatter) (key value : string) : ParsedFrontmatter :=
  (key, value) :: fm.

(** [content[start:]] is in range whenever the closing line was found, so
    the branch [None] below is not reachable. *)
Definition StripFrontmatter (content : string) : string :=
  if negb (HasPrefix content "---") then content
  else
    let endIndex := Index content (LF +++ "---") in
    if (endIndex =? -1)%Z then content
    else
      let start := (endIndex + len (LF +++ "---"))%Z in
      match sliceFrom content start with
      | None => content
      | Some result => TrimLeft result (" " +++ TAB +++ LF +++ CR)
      end.

Section Markdown.

(** [os.Getenv]. *)
Variable Getenv : string -> string.

(** [parseYamlFrontmatter] wraps [yaml.Unmarshal] of gopkg.in/yaml.v3
    ([None] is its [nil] result); [parseLineBasedFrontmatter] is the
    fallback built on package [regexp].  Both are applied to the text
    between the two [---] lines; nothing stated below depends on what
    they return. *)
Variable parseYamlFrontmatter : string -> option ParsedFrontmatter.
Variable parseLineBasedFrontmatter : string -> ParsedFrontmatter.

(** The merge loop of [ParseFrontmatterBlock]. *)
Fixpoint mergeLineParsed (result lineParsed : ParsedFrontmatter) : ParsedFrontmatter :=
  match lineParsed with
  | [] => result
  | (key, value) :: rest =>
      let result :=
        if (HasPrefix value "[" || HasPrefix value "{")%bool
        then fmSet result key value else result in
      mergeLineParsed result rest
  end.

(** [None] is the panic of [content[4:]] on a text of three bytes. *)
Definition ParseFrontmatterBlock (content : string) : option ParsedFrontmatter :=
  let content := replaceCRLF content in
  let content := replaceCR content in
  if negb (HasPrefix content "---") then Some []
  else
    match sliceFrom content 4 with
    | None => None
    | Some rest =>
        let endIndex := Index rest (LF +++ "---") in
        if (endIndex =? -1)%Z then Some []
        else
          match slice content 4 (4 + endIndex) with
          | None => None
          | Some block =>
              let yamlParsed := parseYamlFrontmatter block in
              let lineParsed := parseLineBasedFrontmatter block in
              match yamlParsed with
              | None => Some lineParsed
              | Some result => Some (mergeLineParsed result lineParsed)
              end
          end
    end.

(** [os.PathSeparator] is ['/'].  [path[len(prefix):]] is in range under
    [HasPrefix], so the branch [None] below is not reachable. *)
Definition CompactPath (path homeDir : string) : string :=
  let homeDir := if String.eqb homeDir "" then Getenv "HOME" else homeDir in
  if String.eqb homeDir "" then path
  else
    let homeDir := TrimSuffix homeDir "/" in
    let homeDir := TrimSuffix homeDir "\" in
    let prefix := homeDir +++ "/" in
    if HasPrefix path prefix then
      match sliceFrom path (len prefix) with
      | None => path
      | Some rest => "~" +++ "/" +++ rest
      end
    else path.

End Markdown.

(** ** Skill registry (package skills) *)

(** [regexp.MustCompile(`^[a-zA-Z0-9]+(-[a-zA-Z0-9]+)*$`)]. *)
Definition namePattern : regex :=
  RCat (RPlus (RClass isAlnum))
       (RStar (RCat (RClass isHyphen) (RPlus (RClass isAlnum)))).

Definition MatchString (r : regex) (s : string) : bool := matchAnchored r s.

Definition MaxNameLength : Z := 64.
Definition MaxDescriptionLength : Z := 1024.

(** Of [SkillMetadata] the registry reads the two core fields; the display
    and invocation fields ([Emoji], [OS], [AgentTypes], [Priority], ...)
    are only rendered by [BuildSkillsSummary] and are left out. *)
Record SkillMetadata := mkSkillMetadata {
  mdName : string;
  mdDescription : string
}.

Record SkillInfo := mkSkillInfo {
  Name : string;
  Path : string;
  Source : string;
  Description : string;
  Metadata : option SkillMetadata;
  siCompactPath : string
}.

(** [info.validate()]: the messages joined by [errors.Join], the empty
    list being the [nil] error. *)
Definition validate (info : SkillInfo) : list string :=
  (if String.eqb (Name info) "" then ["name is required"]
   else
     (if (len (Name info) >? MaxNameLength)%Z
      then ["name exceeds " +++ fmt_d MaxNameLength +++ " characters"] else [])
     ++ (if negb (MatchString namePattern (Name info))
         then ["name must be alphanumeric with hyphens"] else []))
  ++ (if String.eqb (Description info) "" then ["description is required"]
      else if (len (Description info) >? MaxDescriptionLength)%Z
      then ["description exceeds " +++ fmt_d MaxDescriptionLength +++ " character"]
      else []).

Definition isNil {A : Type} (errs : list A) : bool :=
  match errs with [] => true | _ => false end.

Record DirEntry := mkDirEntry {
  deName : string;
  deIsDir : bool
}.

Record SkillsLoader := mkSkillsLoader {
  workspace : string;
  workspaceSkills : string;
  globalSkills : string;
  builtinSkills : string
}.

Section Skills.

(** The file system: [os.ReadDir] and [os.ReadFile] ([None] is an
    error), [os.Stat] ([true] when it returns no error); the path
    functions of [path/filepath]; the environment; [json.Unmarshal] into
    the two-field struct of [getSkillMetadata]; the two frontmatter
    parsers. *)
Variable ReadDir : string -> option (list DirEntry).
Variable ReadFile : string -> option string.
Variable Stat : string -> bool.
Variable filepathJoin : string -> string -> string.
Variable filepathJoin3 : string -> string -> string -> string.
Variable filepathBase : string -> string.
Variable filepathDir : string -> string.
Variable Getenv : string -> string.
Variable jsonUnmarshal : string -> option (string * string).
Variable parseYamlFrontmatter : string -> option ParsedFrontmatter.
Variable parseLineBasedFrontmatter : string -> ParsedFrontmatter.

Definition NewSkillsLoader (workspace globalSkills builtinSkills : string) : SkillsLoader :=
  {| workspace := workspace;
     workspaceSkills := filepathJoin workspace "skills";
     globalSkills := globalSkills;
     builtinSkills := builtinSkills |}.

(** [sl.getSkillMetadata(skillPath)]: the outer [None] is a panic, the
    inner one the [nil] pointer returned when the file cannot be read. *)
Definition getSkillMetadata (skillPath : string) : option (option SkillMetadata) :=
  match ReadFile skillPath with
  | None => Some None
  | Some content =>
      match ParseFrontmatterBlock parseYamlFrontmatter parseLineBasedFrontmatter content with
      | None => None
      | Some frontmatter =>
          if isNil frontmatter then
            Some (Some {| mdName := filepathBase (filepathDir skillPath);
                          mdDescription := "" |})
          else
            match jsonUnmarshal content with
            | Some (name, description) =>
                Some (Some {| mdName := name; mdDescription := description |})
            | None =>
                let meta := {| mdName := fmGet frontmatter "name";
                               mdDescription := fmGet frontmatter "description" |} in
                let meta :=
                  if String.eqb (mdName meta) "" then
                    {| mdName := filepathBase (filepathDir skillPath);
                       mdDescription := mdDescription meta |}
                  else meta in
                Some (Some meta)
            end
      end
  end.

(** The inner [for _, s := range skills] of the global and builtin
    scans: is the directory name already taken by an admitted skill of
    one of the [shadowing] sources? *)
Definition shadowed (skills : list SkillInfo) (dirName : string)
           (shadowing : list string) : bool :=
  existsb (fun s => String.eqb (Name s) dirName
                    && existsb (String.eqb (Source s)) shadowing) skills.

(** The body of [for _, dir := range dirs] in the scan of one root.  The
    three scans of [ListSkills] differ in the tag [source] and in the
    sources that shadow a candidate: none for the workspace scan, which
    has no such check. *)
Definition scanEntry (root source : string) (shadowing : list string) (homeDir : string)
           (skills : list SkillInfo) (dir : DirEntry) : option (list SkillInfo) :=
  if deIsDir dir then
    let skillFile := filepathJoin3 root (deName dir) "SKILL.md" in
    if Stat skillFile then
      if shadowed skills (deName dir) shadowing then Some skills
      else
        let info := {| Name := deName dir; Path := skillFile; Source := source;
                       Description := ""; Metadata := None; siCompactPath := "" |} in
        match getSkillMetadata skillFile with
        | None => None
        | Some metadata =>
            let info :=
              match metadata with
              | Some md => {| Name := mdName md; Path := Path info; Source := Source info;
                              Description := mdDescription md; Metadata := Some md;
                              siCompactPath := siCompactPath info |}
              | None => info
              end in
            let info := {| Name := Name info; Path := Path info; Source := Source info;
                           Description := Description info; Metadata := Metadata info;
                           siCompactPath := CompactPath Getenv skillFile homeDir |} in
            if negb (isNil (validate info)) then Some skills
            else Some (skills ++ [info])
        end
    else Some skills
  else Some skills.

Fixpoint scanEntries (root source : string) (shadowing : list string) (homeDir : string)
         (dirs : list DirEntry) (skills : list SkillInfo) : option (list SkillInfo) :=
  match dirs with
  | [] => Some skills
  | dir :: rest =>
      match scanEntry root source shadowing homeDir skills dir with
      | None => None
      | Some skills' => scanEntries root source shadowing homeDir rest skills'
      end
  end.

Definition scanRoot (root source : string) (shadowing : list string) (homeDir : string)
           (skills : list SkillInfo) : option (list SkillInfo) :=
  if negb (String.eqb root "") then
    match ReadDir root with
    | Some dirs => scanEntries root source shadowing homeDir dirs skills
    | None => Some skills
    end
  else Some skills.

(** [None] is a panic of the frontmatter parser; otherwise the catalog. *)
Definition ListSkills (sl : SkillsLoader) : option (list SkillInfo) :=
  let skills : list SkillInfo := [] in
  let homeDir := Getenv "HOME" in
  let homeDir := if String.eqb homeDir "" then Getenv "USERPROFILE" else homeDir in
  match scanRoot (workspaceSkills sl) "workspace" [] homeDir skills with
  | None => None
  | Some skills =>
      match scanRoot (globalSkills sl) "global" ["workspace"] homeDir skills with
      | None => None
      | Some skills =>
          scanRoot (builtinSkills sl) "builtin" ["workspace"; "global"] homeDir skills
      end
  end.

(** One of the three numbered attempts of [LoadSkill]. *)
Definition tryLoad (root name : string) : option string :=
  if negb (String.eqb root "") then
    match ReadFile (filepathJoin3 root name "SKILL.md") with
    | Some content => Some (StripFrontmatter content)
    | None => None
    end
  else None.

Definition LoadSkill (sl : SkillsLoader) (name : string) : string * bool :=
  match tryLoad (workspaceSkills sl) name with
  | Some body => (body, true)
  | None =>
      match tryLoad (globalSkills sl) name with
      | Some body => (body, true)
      | None =>
          match tryLoad (builtinSkills sl) name with
          | Some body => (body, true)
          | None => ("", false)
          end
      end
  end.

End Skills.

(** ** The context builder's bootstrap section (package agent) *)

(** Of [ContextBuilder] the fields that the loading of the bootstrap
    section reads. *)
Record ContextBuilder := mkContextBuilder {
  cbWorkspace : string;
  bootstrapConfig : BootstrapConfig
}.

Section ContextBuilderBootstrap.

Variable ReadFile : string -> option string.
Variable filepathJoin : string -> string -> string.

(** [cb.LoadBootstrapFiles()]. *)
Definition ContextBuilder_LoadBootstrapFiles (cb : ContextBuilder) : option string :=
  let config := bootstrapConfig cb in
  let config := if (MaxChars config =? 0)%Z then DefaultBootstrapConfig else config in
  LoadBootstrapFiles ReadFile filepathJoin (cbWorkspace cb) config.

End ContextBuilderBootstrap.

(** ** Multi-part summarization: the chunks (package agent) *)

(** The loop [for _, m := range messages { totalChars += len(m.Content) }]:
    the bytes of content a list of messages holds. *)
Fixpoint sumChars (l : list Message) : Z :=
  match l with
  | [] => 0%Z
  | m :: rest => (len (Content m) + sumChars rest)%Z
  end.

(** The constants [0.40], [0.15], [0.15 + (0.40 - 0.15) * 0.5], which the
    compiler evaluates exactly to [0.275], and [1.2], converted to
    [float64]. *)
Definition BASE_CHUNK_RATIO : float64 := S754_finite false 7205759403792794 (-54).
Definition MIN_CHUNK_RATIO : float64 := S754_finite false 5404319552844595 (-55).
Definition MID_CHUNK_RATIO : float64 := S754_finite false 4953959590107546 (-54).
Definition SUMMARY_SAFETY_MARGIN : float64 := S754_finite false 5404319552844595 (-52).
Definition RESERVE_TOKENS_FLOOR : Z := 20000.

Definition f64_div (x y : float64) : float64 := SFdiv 53 1024 x y.

Definition computeAdaptiveChunkRatio (messages : list Message) (contextWindow : Z) : float64 :=
  if (Z.of_nat (List.length messages) =? 0)%Z then BASE_CHUNK_RATIO
  else
    let totalChars := sumChars messages in
    let avgMessageSize := (totalChars ÷ Z.of_nat (List.length messages))%Z in
    if (avgMessageSize >? 2000)%Z then MIN_CHUNK_RATIO
    else if (avgMessageSize >? 1000)%Z then MID_CHUNK_RATIO
    else BASE_CHUNK_RATIO.

(** The target of a chunk as [SummarizeMultipart] computes it before it
    splits the messages. *)
Definition summaryTargetTokens (messages : list Message) (contextWindow : Z) : Z :=
  let chunkRatio := computeAdaptiveChunkRatio messages contextWindow in
  let targetTokens := int_of_f64 (f64_mul (f64_of_int contextWindow) chunkRatio) in
  let targetTokens := int_of_f64 (f64_div (f64_of_int targetTokens) SUMMARY_SAFETY_MARGIN) in
  if (targetTokens <? wrap64 (contextWindow - RESERVE_TOKENS_FLOOR))%Z
  then wrap64 (contextWindow - RESERVE_TOKENS_FLOOR)
  else targetTokens.

Record ChunkInfo := mkChunkInfo {
  ciMessages : list Message;
  TargetTokens : Z;
  ActualTokens : Z
}.

(** The loop of [splitMessagesForSummary] over the messages, with its
    three variables; the division of Go truncates toward zero.  The sum
    of the lengths of contents held in memory does not leave the range
    of an [int]. *)
Fixpoint splitLoop (targetTokens targetChars : Z) (messages : list Message)
         (chunks : list ChunkInfo) (currentChunk : list Message) (currentChars : Z)
  : list ChunkInfo :=
  match messages with
  | [] =>
      if (Z.of_nat (List.length currentChunk) >? 0)%Z
      then chunks ++ [mkChunkInfo currentChunk targetTokens (currentChars ÷ 4)]
      else chunks
  | msg :: rest =>
      let msgChars := len (Content msg) in
      if (msgChars >? targetChars ÷ 2)%Z
      then splitLoop targetTokens targetChars rest chunks currentChunk currentChars
      else if ((currentChars + msgChars >? targetChars)
               && (Z.of_nat (List.length currentChunk) >? 0))%bool%Z
      then splitLoop targetTokens targetChars rest
                     (chunks ++ [mkChunkInfo currentChunk targetTokens (currentChars ÷ 4)])
                     ([] ++ [msg]) (0 + msgChars)
      else splitLoop targetTokens targetChars rest chunks
                     (currentChunk ++ [msg]) (currentChars + msgChars)
  end.

(** An empty slice and a nil slice are both the empty list. *)
Definition splitMessagesForSummary (messages : list Message) (targetTokens : Z)
  : list ChunkInfo :=
  if (Z.of_nat (List.length messages) =? 0)%Z then []
  else
    let targetChars := wrap64 (targetTokens * 4) in
    splitLoop targetTokens targetChars messages [] [] 0.

(** ** Escaping for the skills summary (package skills) *)

(** [strings.ReplaceAll(s, old, new)] for an [old] of one byte. *)
Fixpoint replaceByte (old : ascii) (new : string) (s : string) : string :=
  match s with
  | EmptyString => EmptyString
  | String c rest =>
      if Ascii.eqb c old then new +++ replaceByte old new rest
      else String c (replaceByte old new rest)
  end.

Definition escapeXML (s : string) : string :=
  let s := replaceByte "&" "&amp;" s in
  let s := replaceByte "<" "&lt;" s in
  let s := replaceByte ">" "&gt;" s in
  s.

(** ** Line-based frontmatter (package markdown) *)

Definition DQUOTE : string := String (ascii_of_nat 34) EmptyString.
Definition SQUOTE : string := String (ascii_of_nat 39) EmptyString.

(** [strings.Split(s, "\n")]. *)
Fixpoint Split (s : string) : list string :=
  match s with
  | EmptyString => [EmptyString]
  | String c rest =>
      if Ascii.eqb c (ascii_of_nat 10) then EmptyString :: Split rest
      else match Split rest with
           | [] => [String c EmptyString]
           | x :: xs => String c x :: xs
           end
  end.

(** [strings.Join(elems, sep)]. *)
Fixpoint Join (elems : list string) (sep : string) : string :=
  match elems with
  | [] => ""
  | [x] => x
  | x :: rest => x +++ sep +++ Join rest sep
  end.

(** White space in the sense of [unicode.IsSpace], as UTF-8: the six
    ASCII characters, U+0085 and U+00A0 in two bytes, and U+1680,
    U+2000 to U+200A, U+2028, U+2029, U+202F, U+205F and U+3000 in
    three. *)
Definition isAsciiSpace (c : ascii) : bool :=
  let n := nat_of_ascii c in
  ((n =? 9) || (n =? 10) || (n =? 11) || (n =? 12) || (n =? 13) || (n =? 32))%nat.

Definition isSpace2 (a b : ascii) : bool :=
  let x := nat_of_ascii a in
  let y := nat_of_ascii b in
  ((x =? 194) && ((y =? 133) || (y =? 160)))%nat.

Definition isSpace3 (a b c : ascii) : bool :=
  let x := nat_of_ascii a in
  let y := nat_of_ascii b in
  let z := nat_of_ascii c in
  (((x =? 225) && (y =? 154) && (z =? 128))
   || ((x =? 226) && (y =? 128)
       && (((128 <=? z) && (z <=? 138)) || (z =? 168) || (z =? 169) || (z =? 175)))
   || ((x =? 226) && (y =? 129) && (z =? 159))
   || ((x =? 227) && (y =? 128) && (z =? 128)))%nat.

(** [strings.TrimLeftFunc(s, unicode.IsSpace)]. *)
Fixpoint TrimLeftSpace (s : string) : string :=
  match s with
  | EmptyString => EmptyString
  | String a rest =>
      if isAsciiSpace a then TrimLeftSpace rest
      else
        match rest with
        | EmptyString => s
        | String b rest' =>
            if isSpace2 a b then TrimLeftSpace rest'
            else
              match rest' with
              | EmptyString => s
              | String c rest'' => if isSpace3 a b c then TrimLeftSpace rest'' else s
              end
        end
  end.

Fixpoint revAppend (s acc : string) : string :=
  match s with
  | EmptyString => acc
  | String c rest => revAppend rest (String c acc)
  end.

Definition reverse (s : string) : string := revAppend s EmptyString.

(** The same on the reversed text: the bytes of a character come last
    byte first. *)
Fixpoint TrimLeftSpaceReversed (s : string) : string :=
  match s with
  | EmptyString => EmptyString
  | String a rest =>
      if isAsciiSpace a then TrimLeftSpaceReversed rest
      else
        match rest with
        | EmptyString => s
        | String b rest' =>
            if isSpace2 b a then TrimLeftSpaceReversed rest'
            else
              match rest' with
              | EmptyString => s
              | String c rest'' =>
                  if isSpace3 c b a then TrimLeftSpaceReversed rest'' else s
              end
        end
  end.

(** [strings.TrimRightFunc(s, unicode.IsSpace)] and [strings.TrimSpace]. *)
Definition TrimRightSpace (s : string) : string :=
  reverse (TrimLeftSpaceReversed (reverse s)).

Definition TrimSpace (s : string) : string := TrimRightSpace (TrimLeftSpace s).

(** The longest prefix of bytes of a class, and what follows it. *)
Fixpoint spanBytes (p : ascii -> bool) (s : string) : string * string :=
  match s with
  | EmptyString => (EmptyString, EmptyString)
  | String c rest =>
      if p c then let (taken, left) := spanBytes p rest in (String c taken, left)
      else (EmptyString, s)
  end.

(** [[\w-]] and [\s] of package [regexp]: both are ASCII classes. *)
Definition isWordByte (c : ascii) : bool :=
  (isAlnum c || Ascii.eqb c "_" || Ascii.eqb c "-")%bool.

Definition isRegexSpace (c : ascii) : bool :=
  let n := nat_of_ascii c in
  ((n =? 9) || (n =? 10) || (n =? 12) || (n =? 13) || (n =? 32))%nat.

(** [FindStringSubmatch(line)] of the pattern of the two parsing
    functions: at the start of the line one or more word bytes or
    hyphens (group 1), a colon, any white space, and any bytes but a line
    feed up to the end of the line (group 2).  The result is the two
    groups, [None] when the line does not match.  Both repetitions in
    front of the second group are greedy and what they take cannot be
    taken by what follows them, so the first group is the longest prefix
    of word bytes and the second group starts behind the longest run of
    white space. *)
Definition FindStringSubmatch (line : string) : option (string * string) :=
  let (key, rest) := spanBytes isWordByte line in
  if String.eqb key "" then None
  else
    match rest with
    | EmptyString => None
    | String c rest' =>
        if Ascii.eqb c ":" then
          let (_, value) := spanBytes isRegexSpace rest' in
          if containsByte value (ascii_of_nat 10) then None else Some (key, value)
        else None
    end.

(** [None] would be the panic of [value[1 : len(value)-1]]. *)
Definition stripQuotes (value : string) : option string :=
  if (len value >=? 2)%Z then
    if ((HasPrefix value DQUOTE && HasSuffix value DQUOTE)
        || (HasPrefix value SQUOTE && HasSuffix value SQUOTE))%bool
    then slice value 1 (len value - 1)
    else Some value
  else Some value.

(** The assignment [frontmatter[key] = value] on a map kept as the list
    of its entries, one per key, as the range loop of
    [ParseFrontmatterBlock] visits them: the binding of the key is
    replaced, a new key is added behind the others.  [fmGet] reads the
    assigned value afterwards. *)
Fixpoint fmAssign (fm : ParsedFrontmatter) (key value : string) : ParsedFrontmatter :=
  match fm with
  | [] => [(key, value)]
  | (k, v) :: rest =>
      if String.eqb k key then (k, value) :: rest else (k, v) :: fmAssign rest key value
  end.

(** The lines the inner loop of [extractMultiLineValue] collects: it
    stops at the first line that is not empty and starts with neither a
    space nor a tab. *)
Fixpoint indentedLines (lines : list string) : list string :=
  match lines with
  | [] => []
  | line :: rest =>
      if (negb (String.eqb line "") && negb (HasPrefix line " ")
          && negb (HasPrefix line TAB))%bool
      then []
      else line :: indentedLines rest
  end.

Definition extractMultiLineValue (lines : list string) (startIndex : nat) : string * Z :=
  match nth_error lines startIndex with
  | None => ("", 0%Z)
  | Some startLine =>
      match FindStringSubmatch startLine with
      | None => ("", 1%Z)
      | Some (_, group2) =>
          let inlineValue := TrimSpace group2 in
          if negb (String.eqb inlineValue "") then (inlineValue, 1%Z)
          else
            let valueLines := indentedLines (skipn (S startIndex) lines) in
            let i := (S startIndex + List.length valueLines)%nat in
            let combined := Join valueLines LF in
            (TrimSpace combined, (Z.of_nat i - Z.of_nat startIndex)%Z)
      end
  end.

(** The loop [for i := 0; i < len(lines); { ... }] of
    [parseLineBasedFrontmatter], which advances [i] in its body.  [fuel]
    bounds the number of iterations; [None] is a loop that has not ended
    when the fuel is used up, or a panic. *)
Fixpoint parseLines (fuel : nat) (lines : list string) (i : nat)
         (frontmatter : ParsedFrontmatter) : option ParsedFrontmatter :=
  match nth_error lines i with
  | None => Some frontmatter
  | Some line =>
      match fuel with
      | O => None
      | S fuel' =>
          match FindStringSubmatch line with
          | None => parseLines fuel' lines (S i) frontmatter
          | Some (group1, group2) =>
              let key := TrimSpace group1 in
              if String.eqb key "" then parseLines fuel' lines (S i) frontmatter
              else
                let inlineValue := TrimSpace group2 in
                let multiLine :=
                  if String.eqb inlineValue "" then
                    match nth_error lines (S i) with
                    | Some nextLine => (HasPrefix nextLine " " || HasPrefix nextLine TAB)%bool
                    | None => false
                    end
                  else false in
                if multiLine then
                  let (value, linesConsumed) := extractMultiLineValue lines i in
                  let frontmatter :=
                    if negb (String.eqb value "") then fmAssign frontmatter key value
                    else frontmatter in
                  parseLines fuel' lines (i + Z.to_nat linesConsumed)%nat frontmatter
                else
                  match stripQuotes inlineValue with
                  | None => None
                  | Some value =>
                      let frontmatter :=
                        if negb (String.eqb value "") then fmAssign frontmatter key value
                        else frontmatter in
                      parseLines fuel' lines (S i) frontmatter
                  end
          end
      end
  end.

(** One iteration per line is enough: every iteration advances [i]. *)
Definition parseLineBasedFrontmatter (block : string) : option ParsedFrontmatter :=
  let lines := Split block in
  parseLines (List.length lines) lines 0 [].

(** ** Discord channel: access checks (package channels) *)

(** [config.DiscordChannelConfig], [config.DiscordGuildConfig] and, of
    [config.DiscordConfig], the fields the access checks read.  A Go map
    is the list of its entries, the keys pairwise distinct; [mapGet] is
    the lookup [m[k]] with its [ok] result.  The loops over a map visit
    the entries in the order of the list; Go fixes no order. *)
Record DiscordChannelConfig := mkDiscordChannelConfig {
  Allow : bool;
  ccRequireMention : bool;
  Users : list string;
  Roles : list string
}.

Record DiscordGuildConfig := mkDiscordGuildConfig {
  gcRequireMention : bool;
  Channels : list (string * DiscordChannelConfig)
}.

Record DiscordConfig := mkDiscordConfig {
  RequireMention : bool;
  DMPolicy : string;
  Guilds : list (string * DiscordGuildConfig)
}.

Fixpoint mapGet {V : Type} (m : list (string * V)) (key : string) : option V :=
  match m with
  | [] => None
  | (k, v) :: rest => if String.eqb k key then Some v else mapGet rest key
  end.

(** Of [discordgo.MessageCreate], a type of the library, what the checks
    read: the author's ID ([None] when [m.Author] is nil), the guild and
    channel, the member's roles ([None] when [m.Member] is nil), the IDs
    of the mentioned users, the two other mention fields and the ID of
    the author of the referenced message ([None] when there is none). *)
Record MessageCreate := mkMessageCreate {
  AuthorID : option string;
  GuildID : string;
  ChannelID : string;
  MemberRoles : option (list string);
  Mentions : list string;
  MentionEveryone : bool;
  MentionRoles : list string;
  ReferencedAuthorID : option string
}.

Section DiscordChannel.

Variable config : DiscordConfig.

(** [c.botUserID], and [c.IsAllowed] of the embedded [BaseChannel], whose
    source is not among the files. *)
Variable botUserID : string.
Variable IsAllowed : string -> bool.

Definition isBotMentioned (m : MessageCreate) : bool :=
  if String.eqb botUserID "" then false
  else if existsb (fun id => String.eqb id botUserID) (Mentions m) then true
  else if MentionEveryone m then true
  else if (negb (String.eqb (GuildID m) "") && (0 <? Z.of_nat (List.length (MentionRoles m)))%Z)%bool
  then true
  else false.

(** The [Author] of a referenced message is taken to be set. *)
Definition isImplicitMention (m : MessageCreate) : bool :=
  match ReferencedAuthorID m with
  | None => false
  | Some authorID => if String.eqb botUserID "" then false else String.eqb authorID botUserID
  end.

Definition shouldRequireMention (guildID channelID : string) : bool :=
  let requireMention := RequireMention config in
  if negb (String.eqb guildID "") then
    match mapGet (Guilds config) guildID with
    | Some guildConfig =>
        let requireMention := gcRequireMention guildConfig in
        if negb (String.eqb channelID "") then
          match mapGet (Channels guildConfig) channelID with
          | Some channelConfig => ccRequireMention channelConfig
          | None => requireMention
          end
        else requireMention
    | None => requireMention
    end
  else requireMention.

Definition defaultChannelConfig : DiscordChannelConfig :=
  {| Allow := true; ccRequireMention := false; Users := []; Roles := [] |}.

Definition resolveChannelConfig (guildID channelID : string) : DiscordChannelConfig * bool :=
  if String.eqb guildID "" then (defaultChannelConfig, false)
  else
    match mapGet (Guilds config) guildID with
    | None => (defaultChannelConfig, false)
    | Some guildConfig =>
        if String.eqb channelID "" then (defaultChannelConfig, false)
        else
          match mapGet (Channels guildConfig) channelID with
          | None => (defaultChannelConfig, false)
          | Some channelConfig => (channelConfig, true)
          end
    end.

(** The three loops of [isUserAllowedByRoles] over
    [guildConfig.Channels]. *)
Definition hasAllowedRole (memberRoles : list string) (channelConfig : DiscordChannelConfig)
  : bool :=
  existsb (fun userRole => existsb (fun allowedRole => String.eqb userRole allowedRole)
                                   (Roles channelConfig)) memberRoles.

Definition isUserAllowedByRoles (guildID userID : string) (memberRoles : list string) : bool :=
  if String.eqb guildID "" then true
  else
    match mapGet (Guilds config) guildID with
    | None => true
    | Some guildConfig =>
        let channels := map snd (Channels guildConfig) in
        if existsb (fun channelConfig =>
                      negb (isNil (Roles channelConfig))
                      && hasAllowedRole memberRoles channelConfig) channels
        then true
        else if existsb (fun channelConfig =>
                           negb (isNil (Users channelConfig))
                           && existsb (fun allowedUser => String.eqb allowedUser userID)
                                      (Users channelConfig)) channels
        then true
        else
          let hasRoleRestrictions :=
            existsb (fun channelConfig => negb (isNil (Roles channelConfig))) channels in
          if negb hasRoleRestrictions then true else false
    end.

(** The checks at the head of [handleMessage], up to the typing
    indicator: [true] when the message passes them, [false] when the
    handler returns early.  [selfID] is [s.State.User.ID]; the message
    itself is not nil. *)
Definition handleMessage_passes (selfID : string) (m : MessageCreate) : bool :=
  match AuthorID m with
  | None => false
  | Some authorID =>
      if String.eqb authorID selfID then false
      else
        let isDirectMessage := String.eqb (GuildID m) "" in
        let dmPolicy := DMPolicy config in
        let dmPolicy := if String.eqb dmPolicy "" then "allowlist" else dmPolicy in
        if (isDirectMessage && String.eqb dmPolicy "disabled")%bool then false
        else if (isDirectMessage && String.eqb dmPolicy "allowlist"
                 && negb (IsAllowed authorID))%bool then false
        else if negb (IsAllowed authorID) then false
        else if negb isDirectMessage then
          let '(channelConfig, hasConfig) := resolveChannelConfig (GuildID m) (ChannelID m) in
          if (hasConfig && negb (Allow channelConfig))%bool then false
          else
            let memberRoles := match MemberRoles m with Some roles => roles | None => [] end in
            if negb (isUserAllowedByRoles (GuildID m) authorID memberRoles) then false
            else
              let requireMention := shouldRequireMention (GuildID m) (ChannelID m) in
              if requireMention then
                let botMentioned := isBotMentioned m in
                let implicitMention := isImplicitMention m in
                if (negb botMentioned && negb implicitMention)%bool then false else true
              else true
        else true
  end.

End DiscordChannel.

(** ** Home directory expansion (package config) *)

Section ExpandHome.

(** The path [os.UserHomeDir] returns, empty when it fails. *)
Variable UserHomeDir : string.

(** [None] would be the panic of [path[0]], [path[1]] or [path[1:]]. *)
Definition expandHome (path : string) : option string :=
  if String.eqb path "" then Some path
  else
    match String.get 0 path with
    | None => None
    | Some first =>
        if Ascii.eqb first "~" then
          let home := UserHomeDir in
          if (len path >? 1)%Z then
            match String.get 1 path with
            | None => None
            | Some second =>
                if Ascii.eqb second "/" then
                  match sliceFrom path 1 with
                  | None => None
                  | Some rest => Some (home +++ rest)
                  end
                else Some home
            end
          else Some home
        else Some path
    end.

End ExpandHome.

(* ================================================================== *)
(** * Part II. Models of the environment and vocabulary of the statements *)
(* ================================================================== *)

(** ** A model of path/filepath on a Unix system

    The properties below hold for whatever [filepath.Clean], [filepath.Base],
    [filepath.Dir] and [filepath.Join] compute; the examples are evaluated
    with these functions, written after the documentation of the package
    for slash-separated paths. *)

Definition isSlash (c : ascii) : bool := Ascii.eqb c "/"%char.

(** [strings.Split(s, "/")]. *)
Fixpoint splitSlash (s : string) : list string :=
  match s with
  | EmptyString => [EmptyString]
  | String c rest =>
      if isSlash c then EmptyString :: splitSlash rest
      else match splitSlash rest with
           | [] => [String c EmptyString]
           | x :: xs => String c x :: xs
           end
  end.

Fixpoint joinSlash (elems : list string) : string :=
  match elems with
  | [] => ""
  | [x] => x
  | x :: rest => x +++ "/" +++ joinSlash rest
  end.

(** The elements of a path are pushed on a stack, the last one first;
    [.] and empty elements are dropped, [..] removes the element before
    it, or is dropped at the root, or is kept. *)
Fixpoint cleanElems (rooted : bool) (elems : list string) (stack : list string) : list string :=
  match elems with
  | [] => rev stack
  | e :: rest =>
      if (String.eqb e "" || String.eqb e ".")%bool then cleanElems rooted rest stack
      else if String.eqb e ".." then
        match stack with
        | top :: below =>
            if String.eqb top ".." then cleanElems rooted rest (e :: stack)
            else cleanElems rooted rest below
        | [] => if rooted then cleanElems rooted rest stack
                else cleanElems rooted rest (e :: stack)
        end
      else cleanElems rooted rest (e :: stack)
  end.

Definition unixClean (path : string) : string :=
  let rooted := HasPrefix path "/" in
  let body := joinSlash (cleanElems rooted (splitSlash path) []) in
  let out := if rooted then "/" +++ body else body in
  if String.eqb out "" then "." else out.

Fixpoint dropTrailingSlashes (elems : list string) : list string :=
  match elems with
  | [] => []
  | e :: rest =>
      match dropTrailingSlashes rest with
      | [] => if String.eqb e "" then [] else [e]
      | rest' => e :: rest'
      end
  end.

Definition unixBase (path : string) : string :=
  if String.eqb path "" then "."
  else match rev (dropTrailingSlashes (splitSlash path)) with
       | [] => "/"
       | lastElem :: _ => lastElem
       end.

Definition unixDir (path : string) : string :=
  match rev (splitSlash path) with
  | [] => "."
  | _ :: front => unixClean (joinSlash (rev (EmptyString :: front)))
  end.

Definition unixJoin (elems : list string) : string :=
  match filter (fun e => negb (String.eqb e "")) elems with
  | [] => ""
  | nonEmpty => unixClean (joinSlash nonEmpty)
  end.

Definition unixJoin2 (a b : string) : string := unixJoin [a; b].
Definition unixJoin3 (a b c : string) : string := unixJoin [a; b; c].

(** ** Example skill roots

    Two roots, each with one skill directory; the directories are named
    [a] and [b] and both SKILL.md files declare the name [foo]. *)

Definition frontmatterBlock (name description : string) : string :=
  "name: " +++ name +++ LF +++ "description: " +++ description.

Definition skillFileText (name description body : string) : string :=
  "---" +++ LF +++ frontmatterBlock name description +++ LF +++ "---" +++ LF +++ body.

Definition dupLoader : SkillsLoader :=
  {| workspace := "ws";
     workspaceSkills := "ws/skills";
     globalSkills := "home/.picoclaw/skills";
     builtinSkills := "" |}.

Definition dupReadDir (path : string) : option (list DirEntry) :=
  if String.eqb path "ws/skills" then Some [mkDirEntry "a" true]
  else if String.eqb path "home/.picoclaw/skills" then Some [mkDirEntry "b" true]
  else None.

Definition dupReadFile (path : string) : option string :=
  if String.eqb path "ws/skills/a/SKILL.md" then Some (skillFileText "foo" "first" "Body A")
  else if String.eqb path "home/.picoclaw/skills/b/SKILL.md"
  then Some (skillFileText "foo" "second" "Body B")
  else None.

Definition dupStat (path : string) : bool :=
  match dupReadFile path with Some _ => true | None => false end.

Definition noEnv (key : string) : string := "".
Definition notJSON (content : string) : option (string * string) := None.

(** A workspace whose only skill directory holds a SKILL.md without
    frontmatter. *)
Definition notesLoader : SkillsLoader :=
  {| workspace := "ws"; workspaceSkills := "ws/skills";
     globalSkills := ""; builtinSkills := "" |}.

Definition notesText : string := "# Notes" +++ LF +++ "Remember the milk.".

Definition notesReadDir (path : string) : option (list DirEntry) :=
  if String.eqb path "ws/skills" then Some [mkDirEntry "notes" true] else None.

Definition notesReadFile (path : string) : option string :=
  if String.eqb path "ws/skills/notes/SKILL.md" then Some notesText else None.

Definition notesStat (path : string) : bool :=
  match notesReadFile path with Some _ => true | None => false end.

(** ** Vocabulary: the message array *)

(** Reading of "no tool-role message precedes the first assistant-role
    message": scanning from the front, a tool message is met before any
    assistant message. *)
Fixpoint toolBeforeFirstAssistant (messages : list Message) : bool :=
  match messages with
  | [] => false
  | m :: rest =>
      if isRole "assistant" m then false
      else if isRole "tool" m then true
      else toolBeforeFirstAssistant rest
  end.

(** The prompt of the system message: the value of [BuildSystemPrompt],
    then the session block when both identifiers are given, then the
    summary block when there is a summary. *)
Definition sessionBlock (channel chatID : string) : string :=
  if (negb (String.eqb channel "") && negb (String.eqb chatID ""))%bool
  then LF +++ LF +++ "## Current Session" +++ LF +++ "Channel: " +++ channel
          +++ LF +++ "Chat ID: " +++ chatID
  else "".

Definition summaryBlock (summary : string) : string :=
  if negb (String.eqb summary "")
  then LF +++ LF +++ "## Summary of Previous Conversation" +++ LF +++ LF +++ summary
  else "".

(** ** Vocabulary: pruning *)

Definition countRole (role : string) (l : list Message) : nat :=
  List.length (filter (isRole role) l).

(** The index the scan stops at: the first collected index, or the number
    of messages when nothing was collected. *)
Definition firstOr (d : nat) (r : list nat) : nat :=
  match r with [] => d | a :: _ => a end.

(** What the scan guarantees about its result [r], with [m] the index it
    stops at. *)
Record ScanPost (role : string) (limit : Z) (l : list Message) (r : list nat) : Prop := {
  sp_bound : (firstOr (List.length l) r <= List.length l)%nat;
  sp_mem : forall j, In j r <->
             (firstOr (List.length l) r <= j < List.length l)%nat
             /\ isRole role (msgAt l j) = true;
  sp_count : List.length r = countRole role (skipn (firstOr (List.length l) r) l);
  sp_head : r <> [] ->
            (firstOr (List.length l) r < List.length l)%nat
            /\ isRole role (msgAt l (firstOr (List.length l) r)) = true;
  sp_most : (Z.of_nat (List.length r) <= Z.max 1 limit)%Z;
  sp_full : (r <> [] /\ (Z.of_nat (List.length r) >= limit)%Z)
            \/ (forall j, (j < firstOr (List.length l) r)%nat ->
                          isRole role (msgAt l j) = false)
}.

(** [l = pre ++ kept], where [kept] is empty or starts with a message of
    the role, holds at most [n] messages of the role and holds exactly [n]
    of them unless [pre] has none. *)
Record KeepSplit (role : string) (n : nat) (l pre kept : list Message) : Prop := {
  ks_app : l = pre ++ kept;
  ks_head : match kept with [] => True | x :: _ => isRole role x = true end;
  ks_most : (countRole role kept <= n)%nat;
  ks_full : countRole role kept = n \/ countRole role pre = 0%nat
}.

(** The number of messages a scan with bound [limit] keeps at most. *)
Definition keepCount (limit : Z) : nat := Z.to_nat (Z.max 1 limit).

(** A tool message is dropped by the second pass when it is small. *)
Definition keepsTool (minChars : Z) (msg : Message) : bool :=
  negb (isRole "tool" msg && (len (Content msg) <? minChars)%Z).

(** The indices at which the two passes cut the list. *)
Definition ttlCut (config : PruningConfig) (l : list Message) : nat :=
  firstOr (List.length l) (lastIndices "assistant" (KeepLastAssistants config) l).

Definition toolCut (l : list Message) : nat :=
  firstOr (List.length l) (lastIndices "tool" 3 l).

(** The last [n] elements of a list, all of them when it is shorter. *)
Definition lastN {A : Type} (n : nat) (xs : list A) : list A :=
  skipn (List.length xs - n) xs.

(** [m] is the earliest index among the last [K] assistant messages of
    [l]: an assistant message sits at [m], and from [m] on there are
    exactly [K] assistant messages, or fewer when [l] has no other. *)
Definition EarliestOfLastK (K : Z) (l : list Message) (m : nat) : Prop :=
  (m < List.length l)%nat
  /\ isRole "assistant" (msgAt l m) = true
  /\ (Z.of_nat (countRole "assistant" (skipn m l)) = K
      \/ ((Z.of_nat (countRole "assistant" (skipn m l)) < K)%Z
          /\ countRole "assistant" (firstn m l) = 0%nat)).

(** The messages returned by each pass. *)
Definition toolPass (config : PruningConfig) (l : list Message) : list Message :=
  fst (pruneToolResults l config).

Definition ttlPass (config : PruningConfig) (l : list Message) : list Message :=
  fst (pruneContextByTTL l config).

(** A history of nine messages and a configuration that keeps two
    assistant messages. *)
Definition exampleTTLConfig : PruningConfig :=
  {| Mode := PruningModeCacheTTL; TTL := 0; KeepLastAssistants := 2;
     SoftTrimRatio := "0.3"; HardClearRatio := "0.5"; MinPrunableToolChars := 1000 |}.

Definition exampleHistory : list Message :=
  [ mkMessage "system" "rules" [] ""; mkMessage "user" "q1" [] "";
    mkMessage "assistant" "a1" [] ""; mkMessage "system" "note" [] "";
    mkMessage "user" "q2" [] ""; mkMessage "assistant" "a2" [] "";
    mkMessage "tool" "t" [] "c1"; mkMessage "assistant" "a3" [] "";
    mkMessage "user" "q3" [] "" ].

(** ** Vocabulary: truncation and the bootstrap budget *)

(** [strings.Repeat] of one byte. *)
Fixpoint repeatByte (c : ascii) (n : nat) : string :=
  match n with
  | O => EmptyString
  | S k => String c (repeatByte c k)
  end.

(** The section built from the included files, and the two sums that
    account for its size. *)
Fixpoint sectionOf (entries : list (string * string)) : string :=
  match entries with
  | [] => ""
  | (filename, content) :: rest => bootstrapEntry filename content +++ sectionOf rest
  end.

Fixpoint contentChars (entries : list (string * string)) : Z :=
  match entries with
  | [] => 0
  | (_, content) :: rest => len content + contentChars rest
  end.

Fixpoint headingChars (entries : list (string * string)) : Z :=
  match entries with
  | [] => 0
  | (filename, _) :: rest => len filename + 7 + headingChars rest
  end.

Section BudgetPolicy.

Variable ReadFile : string -> option string.
Variable filepathJoin : string -> string -> string.
Variable workspace : string.
Variable config : BootstrapConfig.

(** The first check of the loop body: the per-file limit. *)
Definition perFileTrim (data filename : string) : option string :=
  if (len data >? MaxChars config)%Z
  then trimBootstrapContent data filename (MaxChars config)
  else Some data.

(** The policy of the loop as a relation between the characters used so
    far, the files still to visit and the entries they contribute:
    an unreadable file contributes nothing; a content that fits in the
    total is included as the per-file check left it; one that does not
    fit is trimmed to the remaining budget when that exceeds 500 and is
    skipped otherwise. *)
Inductive BudgetRun : Z -> list string -> list (string * string) -> Prop :=
| RunDone (used : Z) : BudgetRun used [] []
| RunUnreadable (used : Z) (f : string) (fs : list string) (es : list (string * string)) :
    ReadFile (filepathJoin workspace f) = None ->
    BudgetRun used fs es ->
    BudgetRun used (f :: fs) es
| RunFits (used : Z) (f : string) (fs : list string) (es : list (string * string))
          (data content : string) :
    ReadFile (filepathJoin workspace f) = Some data ->
    perFileTrim data f = Some content ->
    (used + len content <= TotalMaxChars config)%Z ->
    BudgetRun (used + len content) fs es ->
    BudgetRun used (f :: fs) ((f, content) :: es)
| RunCapped (used : Z) (f : string) (fs : list string) (es : list (string * string))
            (data content capped : string) :
    ReadFile (filepathJoin workspace f) = Some data ->
    perFileTrim data f = Some content ->
    (used + len content > TotalMaxChars config)%Z ->
    (wrap64 (TotalMaxChars config - used) > 500)%Z ->
    trimBootstrapContent content f (wrap64 (TotalMaxChars config - used)) = Some capped ->
    BudgetRun (used + len capped) fs es ->
    BudgetRun used (f :: fs) ((f, capped) :: es)
| RunSkipped (used : Z) (f : string) (fs : list string) (es : list (string * string))
             (data content : string) :
    ReadFile (filepathJoin workspace f) = Some data ->
    perFileTrim data f = Some content ->
    (used + len content > TotalMaxChars config)%Z ->
    (wrap64 (TotalMaxChars config - used) <= 500)%Z ->
    BudgetRun used fs es ->
    BudgetRun used (f :: fs) es.

End BudgetPolicy.

(** Two small workspaces.  Paths are joined with a single separator, as
    [filepath.Join] does for clean elements. *)
Definition joinClean (dir name : string) : string := dir +++ "/" +++ name.

Definition boundaryWorkspace (path : string) : option string :=
  if String.eqb path "ws/AGENTS.md" then Some (repeatByte "a" 100)
  else if String.eqb path "ws/SOUL.md" then Some (repeatByte "s" 600)
  else None.

Definition scenarioWorkspace (path : string) : option string :=
  if String.eqb path "ws/AGENTS.md" then Some (repeatByte "x" 400) else None.

(** ** Vocabulary: the watcher *)

(** The bootstrap files the watcher knows. *)
Definition watchedBootstrapFiles : list string :=
  ["IDENTITY.md"; "SOUL.md"; "AGENTS.md"; "USER.md"].

(** A configuration with both paths set and skill watching on. *)
Definition exampleWatcherConfig (watchBootstrap : bool) : WatcherConfig :=
  {| ConfigPath := "/home/u/.picoclaw/config.json";
     WorkspacePath := "/home/u/.picoclaw/workspace";
     WatchSkills := true;
     WatchBootstrap := watchBootstrap |}.

(** ** Vocabulary: the skill registry *)

Section Candidates.

Variable ReadFile : string -> option string.
Variable filepathJoin3 : string -> string -> string -> string.
Variable Getenv : string -> string.

(** The candidate built for a directory once its metadata is read. *)
Definition candidate (rootDir source homeDir : string) (dir : DirEntry)
           (metadata : option SkillMetadata) : SkillInfo :=
  let skillFile := filepathJoin3 rootDir (deName dir) "SKILL.md" in
  {| Name := match metadata with Some md => mdName md | None => deName dir end;
     Path := skillFile;
     Source := source;
     Description := match metadata with Some md => mdDescription md | None => "" end;
     Metadata := metadata;
     siCompactPath := CompactPath Getenv skillFile homeDir |}.

(** The first of the roots, in the given order, that is set and under
    which [<root>/<name>/SKILL.md] can be read. *)
Fixpoint firstReadable (roots : list string) (name : string) : option string :=
  match roots with
  | [] => None
  | r :: rest =>
      if String.eqb r "" then firstReadable rest name
      else match ReadFile (filepathJoin3 r name "SKILL.md") with
           | Some content => Some content
           | None => firstReadable rest name
           end
  end.

End Candidates.

(** Frontmatter parsers that know the two blocks of the example roots. *)
Definition tableYaml (block : string) : option ParsedFrontmatter :=
  if String.eqb block (frontmatterBlock "foo" "first")
  then Some [("name", "foo"); ("description", "first")]
  else if String.eqb block (frontmatterBlock "foo" "second")
  then Some [("name", "foo"); ("description", "second")]
  else None.

Definition tableLine (block : string) : ParsedFrontmatter :=
  match tableYaml block with Some fm => fm | None => [] end.

(** ** Vocabulary: the language of a regular expression *)

Inductive Lang : regex -> string -> Prop :=
| LangEps : Lang REps ""
| LangClass (p : ascii -> bool) (c : ascii) :
    p c = true -> Lang (RClass p) (String c "")
| LangCat (r s : regex) (x y : string) :
    Lang r x -> Lang s y -> Lang (RCat r s) (x +++ y)
| LangAltL (r s : regex) (x : string) : Lang r x -> Lang (RAlt r s) x
| LangAltR (r s : regex) (x : string) : Lang s x -> Lang (RAlt r s) x
| LangStarNil (r : regex) : Lang (RStar r) ""
| LangStarCons (r : regex) (x y : string) :
    Lang r x -> Lang (RStar r) y -> Lang (RStar r) (x +++ y).

Fixpoint allBytes (p : ascii -> bool) (s : string) : bool :=
  match s with
  | EmptyString => true
  | String c rest => p c && allBytes p rest
  end.

(** A non-empty run of letters and digits. *)
Definition AlnumRun (s : string) : Prop := s <> "" /\ allBytes isAlnum s = true.

(** [-seg1-seg2...]: each segment behind its hyphen. *)
Fixpoint hyphenated (segments : list string) : string :=
  match segments with
  | [] => ""
  | seg :: rest => "-" +++ seg +++ hyphenated rest
  end.

(** What the pattern says: runs of letters and digits separated by single
    hyphens. *)
Definition HyphenatedName (s : string) : Prop :=
  exists first segments,
    s = first +++ hyphenated segments
    /\ AlnumRun first /\ Forall AlnumRun segments.

(** ** Vocabulary: what pruning removes *)

(** [s] is [l] with some of its elements left out, the others in their
    order. *)
Inductive Subseq {A : Type} : list A -> list A -> Prop :=
| SubseqNil : Subseq [] []
| SubseqSkip (x : A) (s l : list A) : Subseq s l -> Subseq s (x :: l)
| SubseqKeep (x : A) (s l : list A) : Subseq s l -> Subseq (x :: s) (x :: l).

Definition notRole (r : string) (m : Message) : bool := negb (isRole r m).

(** A history without an assistant message, and a configuration whose
    bound on the assistant messages is zero. *)
Definition exampleOpening : list Message :=
  [ mkMessage "system" "rules" [] ""; mkMessage "user" "q1" [] "";
    mkMessage "tool" "t" [] "c0" ].

Definition exampleZeroKeepConfig : PruningConfig :=
  {| Mode := PruningModeCacheTTL; TTL := 0; KeepLastAssistants := 0;
     SoftTrimRatio := "0.3"; HardClearRatio := "0.5"; MinPrunableToolChars := 1000 |}.

(** The configuration with the bound on the assistant messages replaced. *)
Definition withKeepLastAssistants (config : PruningConfig) (k : Z) : PruningConfig :=
  {| Mode := Mode config; TTL := TTL config; KeepLastAssistants := k;
     SoftTrimRatio := SoftTrimRatio config; HardClearRatio := HardClearRatio config;
     MinPrunableToolChars := MinPrunableToolChars config |}.

(** ** Vocabulary: the cut of a tool result *)

(** The byte at an index of a Go string, [None] out of range. *)
Definition byteAt (s : string) (i : Z) : option ascii :=
  if (i <? 0)%Z then None else String.get (Z.to_nat i) s.

Definition LFbyte : ascii := ascii_of_nat 10.

(** A text of 2500 bytes with one line feed, at index 2300. *)
Definition exampleLongResult : string :=
  repeatByte "a" 2300 +++ LF +++ repeatByte "b" 199.

(** ** Vocabulary: the chunks of a summary *)

(** A message that is not skipped as oversized. *)
Definition fitsChunk (targetChars : Z) (m : Message) : bool :=
  (len (Content m) <=? targetChars ÷ 2)%Z.

(** No chunk could have taken the first message of the chunk behind
    it. *)
Fixpoint Greedy (targetChars : Z) (groups : list (list Message)) : Prop :=
  match groups with
  | g1 :: ((g2 :: _) as rest) =>
      match g2 with
      | m :: _ => (sumChars g1 + len (Content m) > targetChars)%Z
      | [] => False
      end
      /\ Greedy targetChars rest
  | _ => True
  end.

(** Five messages of 30 bytes. *)
Definition exampleTurns : list Message :=
  map (fun r => mkMessage r (repeatByte "x" 30) [] "")
      ["user"; "assistant"; "user"; "assistant"; "user"].

(** ** Vocabulary: the readable bootstrap files *)

Section ReadableEntries.

Variable ReadFile : string -> option string.
Variable filepathJoin : string -> string -> string.
Variable workspace : string.

(** The files of a list that can be read, each with its content. *)
Fixpoint readableEntries (files : list string) : list (string * string) :=
  match files with
  | [] => []
  | f :: rest =>
      match ReadFile (filepathJoin workspace f) with
      | Some data => (f, data) :: readableEntries rest
      | None => readableEntries rest
      end
  end.

End ReadableEntries.

(** ** Vocabulary: frontmatter and catalog entries *)

(** [t] is what is left of [s] behind some prefix. *)
Definition IsSuffix (t s : string) : Prop := exists pre, s = pre +++ t.

(** A text starts with one of the four bytes [TrimLeft] removes behind
    the frontmatter. *)
Definition startsWithBlank (s : string) : bool :=
  match s with
  | EmptyString => false
  | String c _ => containsByte (" " +++ TAB +++ LF +++ CR) c
  end.

Section CatalogEntries.

Variable ReadDir : string -> option (list DirEntry).
Variable Stat : string -> bool.
Variable filepathJoin3 : string -> string -> string -> string.

(** An entry of the catalog found under [root] by the scan tagged
    [source]: a directory of the root with a SKILL.md that [os.Stat]
    finds, admitted by validation. *)
Definition FoundUnder (root source : string) (s : SkillInfo) : Prop :=
  Source s = source
  /\ root <> ""
  /\ validate s = []
  /\ exists dirs dir,
       ReadDir root = Some dirs /\ In dir dirs /\ deIsDir dir = true
       /\ Path s = filepathJoin3 root (deName dir) "SKILL.md"
       /\ Stat (Path s) = true.

End CatalogEntries.

(** A SKILL.md that holds only the opening line of a frontmatter. *)
Definition dashesLoader : SkillsLoader :=
  {| workspace := "ws"; workspaceSkills := "ws/skills";
     globalSkills := ""; builtinSkills := "" |}.

Definition dashesReadDir (path : string) : option (list DirEntry) :=
  if String.eqb path "ws/skills" then Some [mkDirEntry "broken" true] else None.

Definition dashesReadFile (path : string) : option string :=
  if String.eqb path "ws/skills/broken/SKILL.md" then Some "---" else None.

Definition dashesStat (path : string) : bool :=
  match dashesReadFile path with Some _ => true | None => false end.

(** The catalog of the two example roots that declare the name [foo]. *)
Definition dupCatalog : list SkillInfo :=
  [ {| Name := "foo"; Path := "ws/skills/a/SKILL.md"; Source := "workspace";
       Description := "first";
       Metadata := Some {| mdName := "foo"; mdDescription := "first" |};
       siCompactPath := "ws/skills/a/SKILL.md" |};
    {| Name := "foo"; Path := "home/.picoclaw/skills/b/SKILL.md"; Source := "global";
       Description := "second";
       Metadata := Some {| mdName := "foo"; mdDescription := "second" |};
       siCompactPath := "home/.picoclaw/skills/b/SKILL.md" |} ].

(** ** Vocabulary: escaping *)

(** What one byte becomes. *)
Definition escapeByte (c : ascii) : string :=
  if Ascii.eqb c "&" then "&amp;"
  else if Ascii.eqb c "<" then "&lt;"
  else if Ascii.eqb c ">" then "&gt;"
  else String c EmptyString.

Fixpoint escapeBytes (s : string) : string :=
  match s with
  | EmptyString => EmptyString
  | String c rest => escapeByte c +++ escapeBytes rest
  end.

(** Every ampersand of the text starts one of the three entities. *)
Fixpoint ampersandsStartEntities (s : string) : bool :=
  match s with
  | EmptyString => true
  | String c rest =>
      (if Ascii.eqb c "&"
       then (String.prefix "amp;" rest || String.prefix "lt;" rest || String.prefix "gt;" rest)%bool
       else true)
      && ampersandsStartEntities rest
  end.

(** ** Vocabulary: frontmatter lines *)

(** The pattern of [parseLineBasedFrontmatter] as a regular expression. *)
Definition isColon (c : ascii) : bool := Ascii.eqb c ":".
Definition isNotLF (c : ascii) : bool := negb (Ascii.eqb c (ascii_of_nat 10)).

Definition keyLinePattern : regex :=
  RCat (RPlus (RClass isWordByte))
       (RCat (RClass isColon)
             (RCat (RStar (RClass isRegexSpace)) (RStar (RClass isNotLF)))).

(** A line [key: value], and the block of one such line per entry. *)
Definition renderEntry (entry : string * string) : string :=
  fst entry +++ ": " +++ snd entry.

Definition renderFrontmatter (entries : ParsedFrontmatter) : string :=
  Join (map renderEntry entries) LF.

(** An entry that is written as it is read: a key of word bytes and
    hyphens, and a value on one line that is not empty, has no white
    space at its ends and is not quoted. *)
Definition PlainEntry (entry : string * string) : Prop :=
  fst entry <> "" /\ allBytes isWordByte (fst entry) = true
  /\ snd entry <> "" /\ TrimSpace (snd entry) = snd entry
  /\ stripQuotes (snd entry) = Some (snd entry)
  /\ containsByte (snd entry) (ascii_of_nat 10) = false.

(** What the parser guarantees about the map it returns. *)
Definition WellFormedFrontmatter (fm : ParsedFrontmatter) : Prop :=
  NoDup (map fst fm)
  /\ Forall (fun entry => fst entry <> "" /\ allBytes isWordByte (fst entry) = true
                          /\ snd entry <> "") fm.

(** The two entries of the first example block. *)
Definition exampleEntries : ParsedFrontmatter :=
  [("name", "foo"); ("description", "first")].

(** ** Vocabulary: the frontmatter of a file *)

(** The line-based parser as the function [ParseFrontmatterBlock] calls:
    it returns on every block. *)
Definition lineBased (block : string) : ParsedFrontmatter :=
  match parseLineBasedFrontmatter block with
  | Some frontmatter => frontmatter
  | None => []
  end.

(** The test of the merge loop: a value that starts an array or an
    object. *)
Definition startsBracket (value : string) : bool :=
  (HasPrefix value "[" || HasPrefix value "{")%bool.

Definition isNotCR (c : ascii) : bool := negb (Ascii.eqb c (ascii_of_nat 13)).

(** A skill file with two entries and a body, and a YAML parser that
    rejects every block. *)
Definition exampleSkillFile : string :=
  "---" +++ LF +++ frontmatterBlock "foo" "first" +++ LF +++ "---" +++ LF +++ "body".

Definition yamlFails (block : string) : option ParsedFrontmatter := None.

(** ** Vocabulary: a Discord configuration *)

(** One guild with a channel restricted to a role and a channel with a
    list of users; a member who has the role. *)
Definition exampleDiscordConfig : DiscordConfig :=
  {| RequireMention := true;
     DMPolicy := "open";
     Guilds :=
       [("g1", {| gcRequireMention := false;
                  Channels :=
                    [("c1", {| Allow := true; ccRequireMention := false;
                               Users := []; Roles := ["admin"] |});
                     ("c2", {| Allow := false; ccRequireMention := true;
                               Users := ["u7"]; Roles := [] |})] |})] |}.

Definition exampleDirectMessage : MessageCreate :=
  {| AuthorID := Some "u1"; GuildID := ""; ChannelID := "dm1"; MemberRoles := None;
     Mentions := []; MentionEveryone := false; MentionRoles := [];
     ReferencedAuthorID := None |}.

Definition onlyU1 (id : string) : bool := String.eqb id "u1".

(** ** Vocabulary: a skill with a frontmatter that fails validation *)

(** A workspace whose only skill directory holds a SKILL.md with a
    frontmatter: the name it declares has an underscore. *)
Definition draftBlock : string := frontmatterBlock "draft_v2" "Work in progress".

Definition draftEntries : ParsedFrontmatter :=
  [("name", "draft_v2"); ("description", "Work in progress")].

Definition draftBody : string := "# Draft" +++ LF +++ "To be written.".

Definition draftText : string := skillFileText "draft_v2" "Work in progress" draftBody.

Definition draftReadDir (path : string) : option (list DirEntry) :=
  if String.eqb path "ws/skills" then Some [mkDirEntry "draft" true] else None.

Definition draftReadFile (path : string) : option string :=
  if String.eqb path "ws/skills/draft/SKILL.md" then Some draftText else None.

Definition draftStat (path : string) : bool :=
  match draftReadFile path with Some _ => true | None => false end.

(* ================================================================== *)
(** * Part III. Properties                                              *)
(* ================================================================== *)

(** ** Strings *)

Lemma length_append (s t : string) :
  String.length (s +++ t) = (String.length s + String.length t)%nat.
Proof. induction s as [|c s IH]; simpl; [reflexivity | now rewrite IH]. Qed.

Lemma len_append (s t : string) : len (s +++ t) = (len s + len t)%Z.
Proof. unfold len. rewrite length_append. lia. Qed.

Lemma len_nonneg (s : string) : (0 <= len s)%Z.
Proof. unfold len. lia. Qed.

Lemma append_assoc (s t u : string) : (s +++ t) +++ u = s +++ t +++ u.
Proof. induction s as [|c s IH]; simpl; [reflexivity | now rewrite IH]. Qed.

Lemma append_empty_r (s : string) : s +++ "" = s.
Proof. induction s as [|c s IH]; simpl; [reflexivity | now rewrite IH]. Qed.

Lemma prefix_append (s t : string) : String.prefix s (s +++ t) = true.
Proof.
  induction s as [|c s IH]; simpl.
  - now destruct t.
  - destruct (ascii_dec c c) as [_|n]; [exact IH | now elim n].
Qed.

Lemma length_substring (n m : nat) (s : string) :
  (n + m <= String.length s)%nat -> String.length (substring n m s) = m.
Proof.
  revert n m. induction s as [|c s IH]; intros n m H; simpl in *.
  - destruct n, m; simpl; try reflexivity; lia.
  - destruct n as [|n].
    + destruct m as [|m]; simpl; [reflexivity|]. f_equal. apply IH. lia.
    + apply IH. lia.
Qed.

Lemma substring_0_length (s : string) : substring 0 (String.length s) s = s.
Proof. induction s as [|c s IH]; simpl; [reflexivity | now rewrite IH]. Qed.

Lemma substring_split (s : string) (n : nat) :
  (n <= String.length s)%nat ->
  substring 0 n s +++ substring n (String.length s - n) s = s.
Proof.
  revert n. induction s as [|c s IH]; intros n H; simpl in *.
  - destruct n; [reflexivity | lia].
  - destruct n as [|n]; simpl.
    + now rewrite substring_0_length.
    + f_equal. apply IH. lia.
Qed.

Lemma slice_Some (s : string) (lo hi : Z) :
  (0 <= lo <= hi)%Z -> (hi <= len s)%Z ->
  slice s lo hi = Some (substring (Z.to_nat lo) (Z.to_nat (hi - lo)) s).
Proof.
  intros [H1 H2] H3. unfold slice.
  apply Z.leb_le in H1, H2, H3. now rewrite H1, H2, H3.
Qed.

Lemma slice_len (s r : string) (lo hi : Z) :
  slice s lo hi = Some r -> (0 <= lo <= hi)%Z /\ (hi <= len s)%Z /\ len r = (hi - lo)%Z.
Proof.
  unfold slice.
  destruct (0 <=? lo)%Z eqn:H1; simpl; [|discriminate].
  destruct (lo <=? hi)%Z eqn:H2; simpl; [|discriminate].
  destruct (hi <=? len s)%Z eqn:H3; simpl; [|discriminate].
  apply Z.leb_le in H1, H2, H3. intros [= <-].
  repeat split; try assumption.
  unfold len in *. rewrite length_substring; lia.
Qed.

(** ** float64: bounds on rounding

    The rounding of [SpecFloat] shifts the mantissa right, rounds to
    nearest even and shifts once more; a result is therefore at most the
    exact value plus one unit of the first shift.  For a mantissa of at
    least 53 bits that unit is at most [2^-52] of the value. *)

Section Float64Bounds.

Local Open Scope Z_scope.

Lemma shr_1_m (mrs : shr_record) :
  0 <= shr_m mrs -> shr_m (shr_1 mrs) = shr_m mrs / 2.
Proof.
  destruct mrs as [m r s]. cbn [shr_m]. intros Hm.
  destruct m as [|p|p]; [reflexivity | | lia].
  destruct p as [p|p|]; cbn [shr_1 shr_m].
  - rewrite Pos2Z.inj_xI. apply Z.div_unique with (r := 1); lia.
  - rewrite Pos2Z.inj_xO. apply Z.div_unique with (r := 0); lia.
  - reflexivity.
Qed.

Lemma div_pow2_nonneg (m k : Z) : 0 <= m -> 0 <= m / 2 ^ k.
Proof.
  intros Hm. destruct (Z_le_gt_dec 0 k).
  - apply Z.div_pos; [exact Hm | apply Z.pow_pos_nonneg; lia].
  - rewrite Z.pow_neg_r by lia. now rewrite Z.div_0_r.
Qed.

Lemma iter_shr_1_m (p : positive) :
  forall mrs, 0 <= shr_m mrs ->
              shr_m (iter_pos shr_1 p mrs) = shr_m mrs / 2 ^ Zpos p.
Proof.
  induction p as [p IH|p IH|]; intros mrs Hm; cbn [iter_pos].
  - assert (H1 : 0 <= shr_m (shr_1 mrs)) by (rewrite shr_1_m by exact Hm; apply Z.div_pos; lia).
    assert (H2 : 0 <= shr_m (iter_pos shr_1 p (shr_1 mrs)))
      by (rewrite IH by exact H1; now apply div_pow2_nonneg).
    rewrite IH by exact H2. rewrite IH by exact H1. rewrite shr_1_m by exact Hm.
    replace (Zpos p~1) with (1 + (Zpos p + Zpos p)) by lia.
    rewrite !Z.pow_add_r, Z.pow_1_r by lia.
    assert (0 < 2 ^ Zpos p) by (apply Z.pow_pos_nonneg; lia).
    rewrite !Z.div_div by lia. reflexivity.
  - assert (H2 : 0 <= shr_m (iter_pos shr_1 p mrs))
      by (rewrite IH by exact Hm; now apply div_pow2_nonneg).
    rewrite IH by exact H2. rewrite IH by exact Hm.
    replace (Zpos p~0) with (Zpos p + Zpos p) by lia.
    rewrite Z.pow_add_r by lia.
    assert (0 < 2 ^ Zpos p) by (apply Z.pow_pos_nonneg; lia).
    rewrite !Z.div_div by lia. reflexivity.
  - rewrite shr_1_m by exact Hm. reflexivity.
Qed.

Lemma shr_spec (mrs : shr_record) (e n : Z) :
  0 <= shr_m mrs ->
  shr_m (fst (shr mrs e n)) = shr_m mrs / 2 ^ Z.max 0 n
  /\ snd (shr mrs e n) = e + Z.max 0 n.
Proof.
  intros Hm. unfold shr. destruct n as [|p|p]; cbn [fst snd].
  - cbn. rewrite Z.div_1_r. lia.
  - rewrite iter_shr_1_m by exact Hm. replace (Z.max 0 (Zpos p)) with (Zpos p) by lia. lia.
  - replace (Z.max 0 (Zneg p)) with 0 by lia. cbn. rewrite Z.div_1_r. lia.
Qed.

Lemma shr_record_of_loc_m (m : Z) (l : location) : shr_m (shr_record_of_loc m l) = m.
Proof. destruct l as [|[ | | ]]; reflexivity. Qed.

Lemma round_nearest_even_range (m : Z) (l : location) :
  m <= round_nearest_even m l <= m + 1.
Proof.
  unfold round_nearest_even. destruct l as [|[ | | ]]; try lia.
  destruct (Z.even m); lia.
Qed.

Lemma digits2_pos_range (p : positive) :
  2 ^ (Zpos (digits2_pos p) - 1) <= Zpos p < 2 ^ Zpos (digits2_pos p).
Proof.
  induction p as [p IH|p IH|]; cbn [digits2_pos].
  - rewrite Pos2Z.inj_succ.
    replace (Z.succ (Zpos (digits2_pos p)) - 1) with (Z.succ (Zpos (digits2_pos p) - 1)) by lia.
    rewrite !Z.pow_succ_r by lia. lia.
  - rewrite Pos2Z.inj_succ.
    replace (Z.succ (Zpos (digits2_pos p)) - 1) with (Z.succ (Zpos (digits2_pos p) - 1)) by lia.
    rewrite !Z.pow_succ_r by lia. lia.
  - cbn. lia.
Qed.

Lemma binary_round_aux_bound (sx : bool) (mx ex : Z) :
  0 < mx ->
  let k1 := Z.max 0 (fexp 53 1024 (Zdigits2 mx + ex) - ex) in
  exists m3 k,
    k1 <= k /\ 0 <= m3 /\ m3 * 2 ^ k <= mx + 2 ^ k1
    /\ binary_round_aux 53 1024 sx mx ex loc_Exact
       = match m3 with
         | Z0 => S754_zero sx
         | Zpos m => if ex + k <=? 971 then S754_finite sx m (ex + k) else S754_infinity sx
         | Zneg _ => S754_nan
         end.
Proof.
  intros Hmx k1. unfold binary_round_aux, shr_fexp.
  set (n1 := fexp 53 1024 (Zdigits2 mx + ex) - ex) in *.
  assert (H0 : 0 <= shr_m (shr_record_of_loc mx loc_Exact))
    by (rewrite shr_record_of_loc_m; lia).
  destruct (shr_spec (shr_record_of_loc mx loc_Exact) ex n1 H0) as [Hm1 He1].
  rewrite shr_record_of_loc_m in Hm1.
  destruct (shr (shr_record_of_loc mx loc_Exact) ex n1) as [mrs1 e1]; cbn [fst snd] in *.
  fold k1 in Hm1, He1.
  set (m2 := round_nearest_even (shr_m mrs1) (loc_of_shr_record mrs1)).
  pose proof (round_nearest_even_range (shr_m mrs1) (loc_of_shr_record mrs1)) as Hm2.
  fold m2 in Hm2.
  assert (Hk1 : 0 <= k1) by (unfold k1; lia).
  assert (Hp1 : 0 < 2 ^ k1) by (apply Z.pow_pos_nonneg; lia).
  assert (Hm1pos : 0 <= shr_m mrs1) by (rewrite Hm1; apply Z.div_pos; lia).
  set (n2 := fexp 53 1024 (Zdigits2 m2 + e1) - e1).
  assert (H2 : 0 <= shr_m (shr_record_of_loc m2 loc_Exact))
    by (rewrite shr_record_of_loc_m; lia).
  destruct (shr_spec (shr_record_of_loc m2 loc_Exact) e1 n2 H2) as [Hm3 He3].
  rewrite shr_record_of_loc_m in Hm3.
  destruct (shr (shr_record_of_loc m2 loc_Exact) e1 n2) as [mrs3 e3]; cbn [fst snd] in *.
  set (k2 := Z.max 0 n2) in *.
  assert (Hk2 : 0 <= k2) by (unfold k2; lia).
  assert (Hp2 : 0 < 2 ^ k2) by (apply Z.pow_pos_nonneg; lia).
  exists (shr_m mrs3), (k1 + k2).
  split; [lia|]. split; [rewrite Hm3; apply Z.div_pos; lia|].
  split.
  - rewrite Hm3, Z.pow_add_r by lia.
    pose proof (Z.mul_div_le m2 (2 ^ k2) Hp2) as D2.
    pose proof (Z.mul_div_le mx (2 ^ k1) Hp1) as D1.
    rewrite <- Hm1 in D1.
    assert (m2 / 2 ^ k2 * (2 ^ k1 * 2 ^ k2) <= m2 * 2 ^ k1) by nia.
    nia.
  - replace (ex + (k1 + k2)) with e3 by lia.
    change (1024 - 53) with 971. reflexivity.
Qed.

Lemma binary_round_aux_relative (sx : bool) (mx ex : Z) :
  2 ^ 52 <= mx -> -1074 <= ex ->
  exists m3 k,
    0 <= k /\ 0 <= m3 /\ m3 * 2 ^ k * 2 ^ 52 <= mx * (2 ^ 52 + 1)
    /\ binary_round_aux 53 1024 sx mx ex loc_Exact
       = match m3 with
         | Z0 => S754_zero sx
         | Zpos m => if ex + k <=? 971 then S754_finite sx m (ex + k) else S754_infinity sx
         | Zneg _ => S754_nan
         end.
Proof.
  intros Hmx Hex.
  assert (Hpos : 0 < mx) by (assert (0 < 2 ^ 52) by reflexivity; lia).
  destruct (binary_round_aux_bound sx mx ex Hpos) as (m3 & k & Hk & Hm3 & Hle & Heq).
  cbv zeta in *.
  set (k1 := Z.max 0 (fexp 53 1024 (Zdigits2 mx + ex) - ex)) in *.
  exists m3, k. split; [lia|]. split; [exact Hm3|]. split; [|exact Heq].
  assert (Hk1 : 2 ^ k1 * 2 ^ 52 <= mx).
  { destruct mx as [|p|p]; try lia.
    pose proof (digits2_pos_range p) as [Hlo _].
    unfold k1, fexp, emin. cbn [Zdigits2].
    set (d := Zpos (digits2_pos p)) in *.
    assert (Hd : 1 <= d) by (unfold d; lia).
    destruct (Z_le_gt_dec d 53) as [Hs|Hl].
    - replace (Z.max 0 (Z.max (d + ex - 53) (3 - 1024 - 53) - ex)) with 0 by lia.
      cbn. lia.
    - replace (Z.max 0 (Z.max (d + ex - 53) (3 - 1024 - 53) - ex)) with (d - 53) by lia.
      rewrite <- Z.pow_add_r by lia. replace (d - 53 + 52) with (d - 1) by lia. exact Hlo. }
  nia.
Qed.

Lemma iter_xO_pow (d p : positive) : Zpos (Pos.iter xO p d) = Zpos p * 2 ^ Zpos d.
Proof.
  induction d as [|d IH] using Pos.peano_ind.
  - cbn. lia.
  - rewrite Pos.iter_succ, Pos2Z.inj_xO, IH, Pos2Z.inj_succ, Z.pow_succ_r by lia. ring.
Qed.

Lemma pow2_le_inv (k b : Z) : 0 <= k -> 0 <= b -> 2 ^ k < 2 ^ b -> k < b.
Proof. intros Hk Hb H. apply (Z.pow_lt_mono_r_iff 2); lia. Qed.

(** [float64(n)] for a positive [int]: a finite float [m * 2^(z + k)] with
    [m * 2^k <= n * 2^(-z) * (1 + 2^-52)]. *)
Lemma f64_of_int_bound (n : Z) :
  0 < n < 2 ^ 63 ->
  exists m3 k z,
    -52 <= z <= 0 /\ 0 <= k <= 64 /\ 0 <= m3
    /\ m3 * 2 ^ k * 2 ^ 52 <= n * 2 ^ (- z) * (2 ^ 52 + 1)
    /\ f64_of_int n = match m3 with
                      | Zpos m => S754_finite false m (z + k)
                      | _ => S754_zero false
                      end.
Proof.
  intros [Hn Hmax]. destruct n as [|p|p]; try lia.
  unfold f64_of_int, binary_normalize, binary_round.
  pose proof (digits2_pos_range p) as [Hlo Hhi].
  set (d := Zpos (digits2_pos p)) in *.
  assert (Hd : 1 <= d <= 63).
  { split; [unfold d; lia|].
    assert (2 ^ (d - 1) < 2 ^ 63) by lia.
    apply pow2_le_inv in H; unfold d in *; lia. }
  assert (Hf : fexp 53 1024 (d + 0) = d - 53) by (unfold fexp, emin; lia).
  rewrite Hf. unfold shl_align.
  destruct (Z_le_gt_dec 53 d) as [Hbig|Hsmall].
  - (* no alignment: the mantissa is [p] itself *)
    assert (E : match d - 53 - 0 with Zneg q => (Pos.iter xO p q, d - 53) | _ => (p, 0) end
                = (p, 0)) by (destruct (d - 53 - 0) eqn:E0; try reflexivity; lia).
    rewrite E.
    assert (H52 : 2 ^ 52 <= Zpos p).
    { assert (2 ^ 52 <= 2 ^ (d - 1)) by (apply Z.pow_le_mono_r; lia). lia. }
    destruct (binary_round_aux_relative false (Zpos p) 0 H52 ltac:(lia))
      as (m3 & k & Hk & Hm3 & Hle & Heq).
    assert (Hk64 : m3 <> 0 -> k <= 64).
    { intros Hnz. assert (2 ^ k < 2 ^ 65); [|apply pow2_le_inv in H; lia].
      assert (0 < 2 ^ k) by (apply Z.pow_pos_nonneg; lia).
      assert (2 ^ k * 2 ^ 52 <= m3 * 2 ^ k * 2 ^ 52) by nia.
      change (2 ^ 65) with (2 ^ 13 * 2 ^ 52).
      assert (Zpos p * (2 ^ 52 + 1) < 2 ^ 13 * 2 ^ 52 * 2 ^ 52); [|nia].
      change (2 ^ 63) with 9223372036854775808 in Hmax. cbn. lia. }
    destruct m3 as [|m|m]; try lia.
    + exists 0, 0, 0. repeat split; try lia. exact Heq.
    + specialize (Hk64 ltac:(lia)).
      exists (Zpos m), k, 0. repeat split; try lia.
      rewrite Heq. replace (0 + k <=? 971) with true by (symmetry; apply Z.leb_le; lia).
      reflexivity.
  - (* the mantissa is shifted left to 53 bits *)
    destruct (d - 53 - 0) as [|q|q] eqn:E0; try lia.
    assert (Hq : Zpos q = 53 - d) by lia.
    pose proof (iter_xO_pow q p) as Hmz. rewrite Hq in Hmz.
    set (mz := Pos.iter xO p q) in *.
    assert (H52 : 2 ^ 52 <= Zpos mz).
    { rewrite Hmz. replace 52 with ((d - 1) + (53 - d)) at 1 by lia.
      rewrite Z.pow_add_r by lia.
      assert (0 < 2 ^ (53 - d)) by (apply Z.pow_pos_nonneg; lia). nia. }
    assert (Hmz53 : Zpos mz < 2 ^ 53).
    { rewrite Hmz. replace 53 with (d + (53 - d)) at 2 by lia.
      rewrite Z.pow_add_r by lia.
      assert (0 < 2 ^ (53 - d)) by (apply Z.pow_pos_nonneg; lia). nia. }
    destruct (binary_round_aux_relative false (Zpos mz) (d - 53) H52 ltac:(lia))
      as (m3 & k & Hk & Hm3 & Hle & Heq).
    assert (Hk64 : m3 <> 0 -> k <= 64).
    { intros Hnz. assert (2 ^ k < 2 ^ 65); [|apply pow2_le_inv in H; lia].
      assert (0 < 2 ^ k) by (apply Z.pow_pos_nonneg; lia).
      assert (2 ^ k * 2 ^ 52 <= m3 * 2 ^ k * 2 ^ 52) by nia.
      change (2 ^ 65) with (2 ^ 13 * 2 ^ 52).
      assert (Zpos mz * (2 ^ 52 + 1) < 2 ^ 13 * 2 ^ 52 * 2 ^ 52); [|nia].
      change (2 ^ 53) with 9007199254740992 in Hmz53. cbn. lia. }
    destruct m3 as [|m|m]; try lia.
    + exists 0, 0, 0. repeat split; try lia. exact Heq.
    + specialize (Hk64 ltac:(lia)).
      exists (Zpos m), k, (d - 53). repeat split; try lia.
      * replace (- (d - 53)) with (53 - d) by lia. rewrite <- Hmz. exact Hle.
      * rewrite Heq.
        replace (d - 53 + k <=? 971) with true by (symmetry; apply Z.leb_le; lia).
        reflexivity.
Qed.

(** The integer part of a finite positive float, against its mantissa
    scaled by [2^K]. *)
Lemma trunc_scaled (m : positive) (K T : Z) :
  0 <= K -> 0 <= T ->
  let e := K - T in
  let v := if 0 <=? e then Zpos m * 2 ^ e else Zpos m / 2 ^ (- e) in
  0 <= v /\ v * 2 ^ T <= Zpos m * 2 ^ K.
Proof.
  intros HK HT e v. subst v e.
  destruct (0 <=? K - T) eqn:E.
  - apply Z.leb_le in E. split; [apply Z.mul_nonneg_nonneg; [lia | apply Z.pow_nonneg; lia]|].
    rewrite <- Z.mul_assoc, <- Z.pow_add_r by lia.
    replace (K - T + T) with K by lia. lia.
  - apply Z.leb_gt in E.
    assert (Hp : 0 < 2 ^ (- (K - T))) by (apply Z.pow_pos_nonneg; lia).
    split; [apply Z.div_pos; lia|].
    pose proof (Z.mul_div_le (Zpos m) _ Hp) as D.
    assert (ET : 2 ^ T = 2 ^ (- (K - T)) * 2 ^ K)
      by (rewrite <- Z.pow_add_r by lia; f_equal; lia).
    rewrite ET.
    assert (0 < 2 ^ K) by (apply Z.pow_pos_nonneg; lia).
    nia.
Qed.

(** [int(float64(n) * c)] for a constant [c = mc * 2^ec] with a 53-bit
    mantissa and [c * (1 + 2^-52)^2 <= 1]: the result is between [0] and
    [n]. *)
Lemma int_of_scaled_bound (n : Z) (mc : positive) (ec : Z) :
  0 <= n < 2 ^ 63 ->
  2 ^ 52 <= Zpos mc < 2 ^ 53 -> -1000 <= ec <= -1 ->
  let R := int_of_f64 (f64_mul (f64_of_int n) (S754_finite false mc ec)) in
  Zpos mc * (2 ^ 52 + 1) * (2 ^ 52 + 1) <= 2 ^ (- ec) * 2 ^ 104 ->
  0 <= R <= n
  /\ R * (2 ^ (- ec) * 2 ^ 104) <= n * (Zpos mc * (2 ^ 52 + 1) * (2 ^ 52 + 1)).
Proof.
  intros [Hn0 Hn] [Hmc0 Hmc] Hec R Hc. subst R.
  destruct (Z.eq_dec n 0) as [->|Hnz]; [cbn; lia|].
  destruct (f64_of_int_bound n ltac:(lia)) as (m3 & k & z & Hz & Hk & Hm3 & Hle & Heq).
  rewrite Heq.
  destruct m3 as [|mx|mx]; try (cbn; lia).
  unfold f64_mul, SFmul. cbn [xorb].
  assert (H52 : 2 ^ 52 <= Zpos (mx * mc)).
  { rewrite Pos2Z.inj_mul. assert (1 <= Zpos mx) by lia. nia. }
  destruct (binary_round_aux_relative false (Zpos (mx * mc)) (z + k + ec) H52 ltac:(lia))
    as (m4 & k' & Hk' & Hm4 & Hle' & Heq').
  rewrite Heq'. clear Heq' Heq.
  rewrite Pos2Z.inj_mul in Hle'.
  assert (P52 : 0 < 2 ^ 52) by reflexivity.
  assert (Pk : 0 < 2 ^ k) by (apply Z.pow_pos_nonneg; lia).
  assert (Pk' : 0 < 2 ^ k') by (apply Z.pow_pos_nonneg; lia).
  assert (Pz : 0 < 2 ^ (- z)) by (apply Z.pow_pos_nonneg; lia).
  assert (Pe : 0 < 2 ^ (- ec)) by (apply Z.pow_pos_nonneg; lia).
  set (C := Zpos mc * (2 ^ 52 + 1) * (2 ^ 52 + 1)) in *.
  (* the mantissa of the product, scaled, against [n] *)
  assert (Hprod : m4 * 2 ^ (k + k') * (2 ^ 52 * 2 ^ 52) <= n * 2 ^ (- z) * C).
  { rewrite Z.pow_add_r by lia.
    assert (m4 * 2 ^ k' * 2 ^ 52 * (2 ^ k * 2 ^ 52)
            <= Zpos mx * Zpos mc * (2 ^ 52 + 1) * (2 ^ k * 2 ^ 52))
      by (apply Z.mul_le_mono_nonneg_r; lia).
    assert (Zpos mx * 2 ^ k * 2 ^ 52 * (Zpos mc * (2 ^ 52 + 1))
            <= n * 2 ^ (- z) * (2 ^ 52 + 1) * (Zpos mc * (2 ^ 52 + 1)))
      by (apply Z.mul_le_mono_nonneg_r; lia).
    unfold C. nia. }
  destruct m4 as [|my|my]; [cbn [int_of_f64]; split; [lia | unfold C; nia] | | lia].
  - (* a finite product *)
    assert (Hk'170 : k' <= 200).
    { assert (2 ^ k' < 2 ^ 201); [|apply pow2_le_inv in H; lia].
      assert (2 ^ k' * 2 ^ 52 <= Zpos my * 2 ^ k' * 2 ^ 52) by nia.
      assert (Zpos mx * 2 ^ 52 <= Zpos mx * 2 ^ k * 2 ^ 52) by nia.
      assert (2 ^ (- z) <= 2 ^ 52) by (apply Z.pow_le_mono_r; lia).
      assert (Zpos mx * 2 ^ 52 <= 2 ^ 63 * 2 ^ 52 * (2 ^ 52 + 1)) by nia.
      assert (Zpos mx <= 2 ^ 63 * (2 ^ 52 + 1)) by nia.
      assert (Zpos mx * Zpos mc * (2 ^ 52 + 1)
              <= 2 ^ 63 * (2 ^ 52 + 1) * 2 ^ 53 * (2 ^ 52 + 1)) by nia.
      assert (2 ^ k' * 2 ^ 52 <= 2 ^ 63 * (2 ^ 52 + 1) * 2 ^ 53 * (2 ^ 52 + 1)) by lia.
      assert (2 ^ 63 * (2 ^ 52 + 1) * 2 ^ 53 * (2 ^ 52 + 1) < 2 ^ 201 * 2 ^ 52) by reflexivity.
      nia. }
    replace (z + k + ec + k' <=? 971) with true by (symmetry; apply Z.leb_le; lia).
    cbn [int_of_f64].
    replace (z + k + ec + k') with ((k + k') - (- z - ec)) by lia.
    destruct (trunc_scaled my (k + k') (- z - ec) ltac:(lia) ltac:(lia)) as [Hv0 Hv].
    cbv zeta in Hv0, Hv.
    set (v := if 0 <=? k + k' - (- z - ec)
              then Zpos my * 2 ^ (k + k' - (- z - ec))
              else Zpos my / 2 ^ (- (k + k' - (- z - ec)))) in *.
    assert (Hmain : v * (2 ^ (- ec) * 2 ^ 104) <= n * C).
    { replace (- z - ec) with (- z + - ec) in Hv by lia.
      rewrite Z.pow_add_r in Hv by lia.
      change (2 ^ 104) with (2 ^ 52 * 2 ^ 52).
      assert (v * (2 ^ (- z) * 2 ^ (- ec)) * (2 ^ 52 * 2 ^ 52)
              <= Zpos my * 2 ^ (k + k') * (2 ^ 52 * 2 ^ 52))
        by (apply Z.mul_le_mono_nonneg_r; lia).
      assert (2 ^ (- z) * (v * (2 ^ (- ec) * (2 ^ 52 * 2 ^ 52))) <= 2 ^ (- z) * (n * C)) by nia.
      apply Z.mul_le_mono_pos_l in H0; [exact H0 | exact Pz]. }
    assert (Hvn : v <= n).
    { change (2 ^ 104) with (2 ^ 52 * 2 ^ 52) in Hc.
      change (2 ^ 104) with (2 ^ 52 * 2 ^ 52) in Hmain.
      assert (0 < 2 ^ (- ec) * (2 ^ 52 * 2 ^ 52)) by nia.
      nia. }
    assert (Er : ((minInt64 <=? v) && (v <=? maxInt64))%bool = true).
    { apply andb_true_iff. split; apply Z.leb_le; unfold minInt64, maxInt64; lia. }
    rewrite Er. split; [lia | exact Hmain].
Qed.

End Float64Bounds.

(** ** Roles *)

Lemma isRole_eq (r : string) (m : Message) : isRole r m = true <-> Role m = r.
Proof. unfold isRole. apply String.eqb_eq. Qed.

Lemma isRole_distinct (r r' : string) (m : Message) :
  r <> r' -> isRole r m = true -> isRole r' m = false.
Proof.
  unfold isRole. intros Hne H. apply String.eqb_eq in H.
  apply String.eqb_neq. congruence.
Qed.

(** ** BuildMessages *)




Lemma stripLeadingTools_split (history : list Message) :
  exists run,
    history = run ++ stripLeadingTools history
    /\ Forall (fun m => Role m = "tool") run
    /\ match stripLeadingTools history with
       | [] => True
       | m :: _ => Role m <> "tool"
       end.
Proof.
  induction history as [|m rest IH]; simpl.
  - exists []. repeat split. constructor.
  - destruct (isRole "tool" m) eqn:E.
    + destruct IH as (run & Heq & Hall & Hhd).
      exists (m :: run). repeat split.
      * simpl. now rewrite <- Heq.
      * constructor; [now apply isRole_eq | exact Hall].
      * exact Hhd.
    + exists []. repeat split; [constructor|].
      intro H. apply isRole_eq in H. congruence.
Qed.

Lemma BuildMessages_shape (sp : string) (history : list Message)
      (summary currentMessage : string) (media : list string) (channel chatID : string) :
  BuildMessages sp history summary currentMessage media channel chatID
  = mkMessage "system" (sp +++ sessionBlock channel chatID +++ summaryBlock summary) [] ""
      :: stripLeadingTools history ++ [mkMessage "user" currentMessage [] ""].
Proof.
  unfold BuildMessages, sessionBlock, summaryBlock.
  destruct (negb (String.eqb channel "") && negb (String.eqb chatID ""))%bool;
    destruct (negb (String.eqb summary "")); cbn [List.app];
    do 2 f_equal; rewrite ?append_assoc, ?append_empty_r; reflexivity.
Qed.

(** C1, as stated, fails: with the history [user, tool, assistant] no
    leading tool message is stripped, and the returned array has a tool
    message before its first assistant message. *)
Lemma C1_tool_before_assistant_counterexample :
  let history := [mkMessage "user" "q" [] ""; mkMessage "tool" "r" [] "call-1";
                  mkMessage "assistant" "a" [] ""] in
  let out := BuildMessages "P" history "" "next" [] "" "" in
  out = [mkMessage "system" "P" [] ""; mkMessage "user" "q" [] "";
         mkMessage "tool" "r" [] "call-1"; mkMessage "assistant" "a" [] "";
         mkMessage "user" "next" [] ""]
  /\ toolBeforeFirstAssistant out = true.
Proof. split; reflexivity. Qed.

(** C1, amended: [BuildMessages] returns the system message holding the
    assembled prompt, then the history without its leading run of tool
    messages, then the new user message; the message that follows the
    system message is never a tool message. *)
Theorem C1_BuildMessages_layout (sp : string) (history : list Message)
        (summary currentMessage : string) (media : list string) (channel chatID : string) :
  let out := BuildMessages sp history summary currentMessage media channel chatID in
  exists run survivors,
    history = run ++ survivors
    /\ Forall (fun m => Role m = "tool") run
    /\ match survivors with [] => True | m :: _ => Role m <> "tool" end
    /\ out = mkMessage "system" (sp +++ sessionBlock channel chatID +++ summaryBlock summary) [] ""
               :: survivors ++ [mkMessage "user" currentMessage [] ""]
    /\ (forall m, nth_error out 1 = Some m -> Role m <> "tool").
Proof.
  intros out. subst out. rewrite BuildMessages_shape.
  destruct (stripLeadingTools_split history) as (run & Heq & Hall & Hhd).
  exists run, (stripLeadingTools history). repeat split; try assumption.
  intros m. simpl. destruct (stripLeadingTools history) as [|h t]; simpl.
  - intros [= <-]. simpl. discriminate.
  - intros [= <-]. exact Hhd.
Qed.

(** ** Pruning: the backward scan *)



Lemma skipn_msgAt (l : list Message) (j : nat) :
  (j < List.length l)%nat -> skipn j l = msgAt l j :: skipn (S j) l.
Proof.
  revert j. induction l as [|x l IH]; intros j H; simpl in H; [lia|].
  destruct j as [|j]; [reflexivity|].
  cbn [skipn]. unfold msgAt. cbn [nth]. apply IH. lia.
Qed.

Lemma filter_skipn_gap (role : string) (l : list Message) (d a : nat) :
  (a + d <= List.length l)%nat ->
  (forall x, (a <= x < a + d)%nat -> isRole role (msgAt l x) = false) ->
  filter (isRole role) (skipn a l) = filter (isRole role) (skipn (a + d) l).
Proof.
  revert a. induction d as [|d IH]; intros a Hle Hno.
  - now rewrite Nat.add_0_r.
  - rewrite skipn_msgAt by lia. cbn [filter].
    rewrite Hno by lia.
    replace (a + S d)%nat with (S a + d)%nat by lia.
    apply IH; [lia|]. intros x Hx. apply Hno. lia.
Qed.

Lemma filter_firstn_none (role : string) (l : list Message) (m : nat) :
  (forall x, (x < m)%nat -> isRole role (msgAt l x) = false) ->
  (m <= List.length l)%nat ->
  filter (isRole role) (firstn m l) = [].
Proof.
  revert m. induction l as [|y l IH]; intros m Hno Hm.
  - now rewrite firstn_nil.
  - destruct m as [|m]; [reflexivity|].
    cbn [firstn filter]. simpl in Hm.
    pose proof (Hno 0%nat ltac:(lia)) as H0. unfold msgAt in H0. cbn [nth] in H0.
    rewrite H0. apply IH; [|lia].
    intros x Hx. specialize (Hno (S x) ltac:(lia)). exact Hno.
Qed.


Lemma scanBack_post (role : string) (limit : Z) (l : list Message) :
  forall (i : nat) (acc : list nat),
    let h := firstOr (List.length l) acc in
    (i <= h <= List.length l)%nat ->
    (forall j, (i <= j < h)%nat -> isRole role (msgAt l j) = false) ->
    (forall j, In j acc <-> (h <= j < List.length l)%nat /\ isRole role (msgAt l j) = true) ->
    List.length acc = countRole role (skipn h l) ->
    (acc <> [] -> (Z.of_nat (List.length acc) < limit)%Z) ->
    (acc <> [] -> (h < List.length l)%nat /\ isRole role (msgAt l h) = true) ->
    ScanPost role limit l (scanBack role limit l i acc).
Proof.
  induction i as [|j IH]; intros acc h I1 I2 I3 I4 I5 I6.
  - cbn [scanBack]. constructor; fold h; try assumption.
    + lia.
    + destruct acc as [|a acc']; cbn [List.length]; [lia|].
      specialize (I5 ltac:(discriminate)). cbn [List.length] in I5. lia.
    + right. intros x Hx. apply I2. lia.
  - cbn [scanBack]. destruct (isRole role (msgAt l j)) eqn:Erole.
    + (* the message at [j] is collected *)
      assert (Hgap : filter (isRole role) (skipn (S j) l) = filter (isRole role) (skipn h l)).
      { replace h with (S j + (h - S j))%nat by lia.
        apply filter_skipn_gap; [lia|]. intros x Hx. apply I2. lia. }
      assert (Hcnt : List.length (j :: acc) = countRole role (skipn j l)).
      { unfold countRole. rewrite skipn_msgAt by lia. cbn [filter]. rewrite Erole.
        cbn [List.length]. rewrite Hgap. f_equal. exact I4. }
      assert (Hmem : forall x, In x (j :: acc) <->
                (j <= x < List.length l)%nat /\ isRole role (msgAt l x) = true).
      { intros x. cbn [In]. rewrite I3. split.
        - intros [<- | [Hx Hr]]; split; auto; lia.
        - intros [Hx Hr]. destruct (Nat.eq_dec j x) as [->|Hne]; [now left|right].
          split; [|exact Hr].
          destruct (Nat.lt_ge_cases x h) as [Hlt|Hge]; [|lia].
          rewrite I2 in Hr by lia. discriminate. }
      destruct (Z.of_nat (List.length (j :: acc)) >=? limit)%Z eqn:Ereach.
      * constructor; cbn [firstOr]; try assumption.
        -- lia.
        -- intros _. split; [lia | exact Erole].
        -- destruct acc as [|a acc']; [cbn [List.length]; lia|].
           specialize (I5 ltac:(discriminate)). cbn [List.length] in *. lia.
        -- left. split; [discriminate|]. apply Z.geb_le in Ereach. lia.
      * apply IH; cbn [firstOr]; try assumption.
        -- lia.
        -- intros x Hx. lia.
        -- intros _. rewrite Z.geb_leb in Ereach. apply Z.leb_gt in Ereach. exact Ereach.
        -- intros _. split; [lia | exact Erole].
    + apply IH; fold h; try assumption.
      * lia.
      * intros x Hx. destruct (Nat.eq_dec x j) as [->|Hne]; [exact Erole|].
        apply I2. lia.
Qed.

Lemma lastIndices_post (role : string) (limit : Z) (l : list Message) :
  ScanPost role limit l (lastIndices role limit l).
Proof.
  unfold lastIndices. apply scanBack_post; cbn [firstOr].
  - lia.
  - intros j Hj. lia.
  - intros j. cbn [In]. split; [tauto | lia].
  - unfold countRole. now rewrite skipn_all.
  - intros H. now elim H.
  - intros H. now elim H.
Qed.

(** ** Pruning: the split a scan induces *)


Lemma countRole_app (role : string) (a b : list Message) :
  countRole role (a ++ b) = (countRole role a + countRole role b)%nat.
Proof. unfold countRole. now rewrite filter_app, length_app. Qed.

Lemma KeepSplit_unique (role : string) (n : nat) (l p1 k1 p2 k2 : list Message) :
  (1 <= n)%nat ->
  KeepSplit role n l p1 k1 -> KeepSplit role n l p2 k2 -> p1 = p2 /\ k1 = k2.
Proof.
  assert (Hside : forall pa ka pb kb,
             KeepSplit role n l pa ka -> KeepSplit role n l pb kb ->
             forall x ys, pa = pb ++ x :: ys -> kb = (x :: ys) ++ ka ->
                          (1 <= n)%nat -> False).
  { intros pa ka pb kb [Ha Hha Hma Hfa] [Hb Hhb Hmb Hfb] x ys Hp Hk Hn.
    subst kb pa. cbn [List.app] in Hhb.
    rewrite countRole_app in Hmb, Hfb. rewrite countRole_app in Hfa.
    assert (1 <= countRole role (x :: ys))%nat.
    { unfold countRole. cbn [filter]. rewrite Hhb. cbn [List.length]. lia. }
    lia. }
  intros Hn S1 S2.
  pose proof (ks_app _ _ _ _ _ S1) as E1. pose proof (ks_app _ _ _ _ _ S2) as E2.
  rewrite E1 in E2. apply app_eq_app in E2.
  destruct E2 as (mid & [[Hp Hk] | [Hp Hk]]).
  - destruct mid as [|x ys].
    + rewrite app_nil_r in Hp. cbn [List.app] in Hk. now subst.
    + exfalso. exact (Hside p1 k1 p2 k2 S1 S2 x ys Hp Hk Hn).
  - destruct mid as [|x ys].
    + rewrite app_nil_r in Hp. cbn [List.app] in Hk. now subst.
    + exfalso. exact (Hside p2 k2 p1 k1 S2 S1 x ys Hp Hk Hn).
Qed.


Lemma keepCount_pos (limit : Z) : (1 <= keepCount limit)%nat.
Proof. unfold keepCount. lia. Qed.

Lemma lastIndices_split (role : string) (limit : Z) (l : list Message) :
  let m := firstOr (List.length l) (lastIndices role limit l) in
  KeepSplit role (keepCount limit) l (firstn m l) (skipn m l).
Proof.
  intros m. destruct (lastIndices_post role limit l) as [Hb Hmem Hcnt Hhd Hmost Hfull].
  fold m in Hb, Hmem, Hcnt, Hhd, Hfull.
  constructor.
  - symmetry. apply firstn_skipn.
  - destruct (lastIndices role limit l) as [|a r] eqn:Er.
    + cbn [firstOr] in m. subst m. now rewrite skipn_all.
    + destruct (Hhd ltac:(discriminate)) as [Hlt Hr].
      rewrite skipn_msgAt by exact Hlt. exact Hr.
  - rewrite <- Hcnt. unfold keepCount. lia.
  - destruct Hfull as [[Hne Hge] | Hnone].
    + left. rewrite <- Hcnt. unfold keepCount.
      destruct (lastIndices role limit l) as [|a r]; [now elim Hne|].
      cbn [List.length] in *. lia.
    + right. unfold countRole. now rewrite filter_firstn_none.
Qed.

(** ** Pruning: the two filtering loops *)

Lemma ttlLoop_fst (m : nat) (rest : list Message) :
  forall (i : nat) (pruned : list Message) (stats : PruningStats),
    fst (ttlLoop m i rest pruned stats)
    = pruned ++ filter (isRole "system") (firstn (m - i) rest) ++ skipn (m - i) rest.
Proof.
  induction rest as [|x rest IH]; intros i pruned stats.
  - cbn [ttlLoop fst]. rewrite firstn_nil, skipn_nil. cbn [filter List.app].
    now rewrite app_nil_r.
  - cbn [ttlLoop]. destruct (Nat.le_gt_cases m i) as [Hle|Hgt].
    + replace (m - i)%nat with 0%nat by lia.
      assert (E : (m <=? i)%nat = true) by now apply Nat.leb_le.
      rewrite E. cbn [firstn skipn filter List.app].
      assert (R : forall st, fst (ttlLoop m (S i) rest (pruned ++ [x]) st)
                             = pruned ++ x :: rest).
      { intros st. rewrite IH. replace (m - S i)%nat with 0%nat by lia.
        cbn [firstn skipn filter List.app]. now rewrite <- app_assoc. }
      destruct (isRole "system" x); apply R.
    + replace (m - i)%nat with (S (m - S i)) by lia.
      assert (E : (m <=? i)%nat = false) by now apply Nat.leb_gt.
      rewrite E. cbn [firstn skipn filter].
      destruct (isRole "system" x); rewrite IH.
      * now rewrite <- app_assoc.
      * reflexivity.
Qed.


Lemma toolLoop_fst (set : list nat) (minChars : Z) (m : nat) (rest : list Message) :
  forall (i : nat) (pruned : list Message) (stats : PruningStats),
    (forall j, (j < m)%nat -> inSet set j = false) ->
    (forall k x, nth_error rest k = Some x -> (m <= i + k)%nat ->
                 isRole "tool" x = true -> inSet set (i + k) = true) ->
    fst (toolLoop set minChars i rest pruned stats)
    = pruned ++ filter (keepsTool minChars) (firstn (m - i) rest) ++ skipn (m - i) rest.
Proof.
  induction rest as [|x rest IH]; intros i pruned stats Hout Hin.
  - cbn [toolLoop fst]. rewrite firstn_nil, skipn_nil. cbn [filter List.app].
    now rewrite app_nil_r.
  - assert (Hin' : forall k y, nth_error rest k = Some y -> (m <= S i + k)%nat ->
                       isRole "tool" y = true -> inSet set (S i + k) = true).
    { intros k y Hk Hm Hy. replace (S i + k)%nat with (i + S k)%nat by lia.
      apply Hin with (x := y); [exact Hk | lia | exact Hy]. }
    cbn [toolLoop]. destruct (Nat.le_gt_cases m i) as [Hle|Hgt].
    + replace (m - i)%nat with 0%nat by lia.
      cbn [firstn skipn filter List.app].
      assert (E : (isRole "tool" x && negb (inSet set i)
                   && (len (Content x) <? minChars)%Z)%bool = false).
      { destruct (isRole "tool" x) eqn:Et; [|reflexivity].
        specialize (Hin 0%nat x eq_refl ltac:(lia) Et).
        rewrite Nat.add_0_r in Hin. now rewrite Hin. }
      rewrite E, IH by assumption.
      replace (m - S i)%nat with 0%nat by lia.
      cbn [firstn skipn filter List.app]. now rewrite <- app_assoc.
    + replace (m - i)%nat with (S (m - S i)) by lia.
      cbn [firstn skipn filter]. rewrite (Hout i Hgt). cbn [negb].
      rewrite andb_true_r. unfold keepsTool.
      destruct (isRole "tool" x && (len (Content x) <? minChars)%Z)%bool;
        cbn [negb]; rewrite IH by assumption.
      * reflexivity.
      * now rewrite <- app_assoc.
Qed.

Lemma inSet_In (set : list nat) (i : nat) : inSet set i = true <-> In i set.
Proof.
  unfold inSet. rewrite existsb_exists. split.
  - intros (x & Hx & E). apply Nat.eqb_eq in E. now subst.
  - intros H. exists i. split; [exact H | apply Nat.eqb_refl].
Qed.

Lemma nth_error_msgAt (l : list Message) (k : nat) (x : Message) :
  nth_error l k = Some x -> msgAt l k = x /\ (k < List.length l)%nat.
Proof.
  intros H. split.
  - unfold msgAt. now apply nth_error_nth.
  - apply nth_error_Some. congruence.
Qed.

(** ** Pruning: both passes in terms of the split *)



Lemma pruneContextByTTL_cut (l : list Message) (config : PruningConfig) :
  Mode config = PruningModeCacheTTL ->
  fst (pruneContextByTTL l config)
  = filter (isRole "system") (firstn (ttlCut config l) l) ++ skipn (ttlCut config l) l.
Proof.
  intros Hmode. unfold pruneContextByTTL. rewrite Hmode, String.eqb_refl. cbn [negb].
  destruct l as [|x l']; [reflexivity|].
  set (l := x :: l').
  change (match lastIndices "assistant" (KeepLastAssistants config) l with
          | [] => List.length l | first :: _ => first end) with (ttlCut config l).
  rewrite ttlLoop_fst. now rewrite Nat.sub_0_r.
Qed.

Lemma pruneToolResults_cut (l : list Message) (config : PruningConfig) :
  Mode config = PruningModeCacheTTL ->
  fst (pruneToolResults l config)
  = filter (keepsTool (MinPrunableToolChars config)) (firstn (toolCut l) l)
      ++ skipn (toolCut l) l.
Proof.
  intros Hmode. unfold pruneToolResults. rewrite Hmode, String.eqb_refl. cbn [negb].
  destruct (lastIndices_post "tool" 3 l) as [Hb Hmem Hcnt Hhd Hmost Hfull].
  rewrite (toolLoop_fst _ _ (toolCut l)).
  - now rewrite Nat.sub_0_r.
  - intros j Hj. destruct (inSet (lastIndices "tool" 3 l) j) eqn:E; [|reflexivity].
    apply inSet_In, Hmem in E. unfold toolCut in Hj. lia.
  - intros k x Hk Hm Hx. apply nth_error_msgAt in Hk. destruct Hk as [<- Hlt].
    apply inSet_In, Hmem. cbn [Nat.add] in *. unfold toolCut in Hm. split; [lia | exact Hx].
Qed.

Lemma pruneContextByTTL_split (l pre kept : list Message) (config : PruningConfig) :
  Mode config = PruningModeCacheTTL ->
  KeepSplit "assistant" (keepCount (KeepLastAssistants config)) l pre kept ->
  fst (pruneContextByTTL l config) = filter (isRole "system") pre ++ kept.
Proof.
  intros Hmode HS. rewrite pruneContextByTTL_cut by exact Hmode. unfold ttlCut.
  destruct (KeepSplit_unique _ _ _ _ _ _ _ (keepCount_pos _)
              (lastIndices_split "assistant" (KeepLastAssistants config) l) HS) as [E1 E2].
  now rewrite E1, E2.
Qed.

Lemma pruneToolResults_split (l pre kept : list Message) (config : PruningConfig) :
  Mode config = PruningModeCacheTTL ->
  KeepSplit "tool" 3 l pre kept ->
  fst (pruneToolResults l config)
  = filter (keepsTool (MinPrunableToolChars config)) pre ++ kept.
Proof.
  intros Hmode HS. rewrite pruneToolResults_cut by exact Hmode. unfold toolCut.
  destruct (KeepSplit_unique _ _ _ _ _ _ _ (keepCount_pos 3)
              (lastIndices_split "tool" 3 l) HS) as [E1 E2].
  now rewrite E1, E2.
Qed.

(** ** Pruning: list facts *)

Lemma filter_all (A : Type) (f : A -> bool) (l : list A) :
  (forall x, In x l -> f x = true) -> filter f l = l.
Proof.
  induction l as [|x l IH]; intros H; cbn [filter]; [reflexivity|].
  rewrite (H x (or_introl eq_refl)). f_equal. apply IH.
  intros y Hy. apply H. now right.
Qed.

Lemma filter_all_inv (A : Type) (f : A -> bool) (l : list A) :
  filter f l = l -> forall x, In x l -> f x = true.
Proof.
  intros E x Hx. rewrite <- E in Hx. now apply filter_In in Hx.
Qed.

Lemma filter_filter_same (A : Type) (f : A -> bool) (l : list A) :
  filter f (filter f l) = filter f l.
Proof. apply filter_all. intros x Hx. now apply filter_In in Hx. Qed.

Lemma countRole_zero (role : string) (l : list Message) :
  countRole role l = 0%nat <-> (forall x, In x l -> isRole role x = false).
Proof.
  unfold countRole. split.
  - intros H x Hx. destruct (isRole role x) eqn:E; [|reflexivity].
    assert (Hin : In x (filter (isRole role) l)) by (apply filter_In; auto).
    apply length_zero_iff_nil in H. rewrite H in Hin. destruct Hin.
  - intros H. induction l as [|y l IH]; [reflexivity|].
    cbn [filter]. rewrite (H y (or_introl eq_refl)).
    apply IH. intros x Hx. apply H. now right.
Qed.

Lemma countRole_filter_other (role other : string) (l : list Message) :
  role <> other -> countRole role (filter (isRole other) l) = 0%nat.
Proof.
  intros Hne. apply countRole_zero. intros x Hx. apply filter_In in Hx.
  destruct Hx as [_ Hx]. apply (isRole_distinct other role); [congruence | exact Hx].
Qed.

Lemma keepsTool_other (minChars : Z) (x : Message) :
  isRole "tool" x = false -> keepsTool minChars x = true.
Proof. unfold keepsTool. now intros ->. Qed.

Lemma filter_keepsTool_none (minChars : Z) (l : list Message) :
  countRole "tool" l = 0%nat -> filter (keepsTool minChars) l = l.
Proof.
  intros H. apply filter_all. intros x Hx. apply keepsTool_other.
  now apply (proj1 (countRole_zero "tool" l) H).
Qed.

(** Cutting a list in front of its first message of a role. *)
Lemma split_at_first (role : string) (l : list Message) :
  exists u v, l = u ++ v /\ countRole role u = 0%nat
              /\ match v with [] => True | x :: _ => isRole role x = true end
              /\ countRole role v = countRole role l.
Proof.
  induction l as [|x l (u & v & E & Hu & Hv & Hc)].
  - exists [], []. repeat split.
  - destruct (isRole role x) eqn:Ex.
    + exists [], (x :: l). repeat split. exact Ex.
    + exists (x :: u), v. repeat split.
      * cbn [List.app]. now rewrite <- E.
      * unfold countRole in *. cbn [filter]. now rewrite Ex.
      * exact Hv.
      * unfold countRole in *. cbn [filter]. now rewrite Ex.
Qed.


Lemma lastN_app (A : Type) (n : nat) (xs ys : list A) :
  (n <= List.length ys)%nat -> lastN n (xs ++ ys) = lastN n ys.
Proof.
  intros H. unfold lastN. rewrite length_app, skipn_app.
  rewrite skipn_all2 by lia. cbn [List.app]. f_equal. lia.
Qed.

(** ** Pruning: fixed points of the two passes *)

Section PruningPasses.

Variable config : PruningConfig.
Hypothesis Hmode : Mode config = PruningModeCacheTTL.

Local Abbreviation keeps := (keepsTool (MinPrunableToolChars config)).

Lemma ttlPass_idempotent (l : list Message) : ttlPass config (ttlPass config l) = ttlPass config l.
Proof.
  unfold ttlPass.
  pose proof (lastIndices_split "assistant" (KeepLastAssistants config) l) as HS.
  cbv zeta in HS.
  set (pre := firstn _ l) in HS. set (kept := skipn _ l) in HS.
  rewrite (pruneContextByTTL_split l pre kept config Hmode HS).
  rewrite (pruneContextByTTL_split _ (filter (isRole "system") pre) kept config Hmode).
  - now rewrite filter_filter_same.
  - destruct HS as [Happ Hhd Hmost Hfull]. constructor; try assumption; [reflexivity|].
    right. apply countRole_filter_other. discriminate.
Qed.

Lemma toolPass_fixed_of_split (z pre kept : list Message) :
  KeepSplit "tool" 3 z pre kept ->
  (forall x, In x pre -> keeps x = true) ->
  toolPass config z = z.
Proof.
  intros HS Hall. unfold toolPass.
  rewrite (pruneToolResults_split z pre kept config Hmode HS).
  rewrite (filter_all _ keeps pre Hall).
  symmetry. exact (ks_app _ _ _ _ _ HS).
Qed.

Lemma toolPass_split_fixed (z : list Message) :
  toolPass config z = z ->
  exists pre kept, KeepSplit "tool" 3 z pre kept
                   /\ (forall x, In x pre -> keeps x = true).
Proof.
  intros Hfix.
  pose proof (lastIndices_split "tool" 3 z) as HS. cbv zeta in HS.
  set (pre := firstn _ z) in HS. set (kept := skipn _ z) in HS.
  exists pre, kept. split; [exact HS|].
  unfold toolPass in Hfix.
  rewrite (pruneToolResults_split z pre kept config Hmode HS) in Hfix.
  assert (E : filter (keepsTool (MinPrunableToolChars config)) pre ++ kept = pre ++ kept)
    by (rewrite Hfix; exact (ks_app _ _ _ _ _ HS)).
  apply app_inv_tail in E. now apply filter_all_inv.
Qed.

Lemma toolPass_idempotent (l : list Message) : toolPass config (toolPass config l) = toolPass config l.
Proof.
  pose proof (lastIndices_split "tool" 3 l) as HS. cbv zeta in HS.
  set (pre := firstn _ l) in HS. set (kept := skipn _ l) in HS.
  assert (E : toolPass config l = filter keeps pre ++ kept)
    by exact (pruneToolResults_split l pre kept config Hmode HS).
  rewrite E.
  destruct HS as [Happ Hhd Hmost Hfull].
  apply (toolPass_fixed_of_split _ (filter keeps pre) kept).
  - constructor; try assumption; [reflexivity|].
    destruct Hfull as [Hfull|Hzero]; [now left|right].
    rewrite filter_keepsTool_none by exact Hzero. exact Hzero.
  - intros x Hx. now apply filter_In in Hx.
Qed.

(** The second pass keeps what the first pass has established. *)
Lemma ttlPass_keeps_toolPass_fixed (y : list Message) :
  toolPass config y = y -> toolPass config (ttlPass config y) = ttlPass config y.
Proof.
  intros Hfix.
  destruct (toolPass_split_fixed y Hfix) as (p & k & [Hy Hkh Hkm Hkf] & Hp).
  pose proof (lastIndices_split "assistant" (KeepLastAssistants config) y) as HA.
  cbv zeta in HA.
  set (pa := firstn _ y) in HA. set (ka := skipn _ y) in HA.
  assert (E : ttlPass config y = filter (isRole "system") pa ++ ka)
    by exact (pruneContextByTTL_split y pa ka config Hmode HA).
  rewrite E.
  assert (Hsys : countRole "tool" (filter (isRole "system") pa) = 0%nat)
    by (apply countRole_filter_other; discriminate).
  assert (Hsysk : forall x, In x (filter (isRole "system") pa) -> keeps x = true).
  { intros x Hx. apply keepsTool_other.
    now apply (proj1 (countRole_zero "tool" _) Hsys). }
  pose proof (ks_app _ _ _ _ _ HA) as Hya. rewrite Hy in Hya.
  apply app_eq_app in Hya. destruct Hya as (mid & [[Ep Ek] | [Ep Ek]]).
  - (* the kept suffix of the second pass extends the one of the first *)
    apply (toolPass_fixed_of_split _ (filter (isRole "system") pa ++ mid) k).
    + constructor; try assumption.
      * rewrite Ek. now rewrite app_assoc.
      * destruct Hkf as [Hkf|Hzero]; [now left|right].
        rewrite Ep, countRole_app in Hzero. rewrite countRole_app. lia.
    + intros x Hx. apply in_app_or in Hx. destruct Hx as [Hx|Hx]; [now apply Hsysk|].
      apply Hp. rewrite Ep. apply in_or_app. now right.
  - (* the kept suffix of the second pass lies inside the one of the first *)
    destruct (split_at_first "tool" ka) as (u & v & Eka & Hu & Hv & Hc).
    apply (toolPass_fixed_of_split _ (filter (isRole "system") pa ++ u) v).
    + constructor.
      * rewrite Eka. now rewrite app_assoc.
      * exact Hv.
      * rewrite Ek, countRole_app in Hkm. lia.
      * right. rewrite countRole_app. lia.
    + intros x Hx. apply in_app_or in Hx. destruct Hx as [Hx|Hx]; [now apply Hsysk|].
      apply keepsTool_other. now apply (proj1 (countRole_zero "tool" u) Hu).
Qed.

End PruningPasses.

(** ** Pruning: the statements *)


Lemma EarliestOfLastK_split (K : Z) (l : list Message) (m : nat) :
  EarliestOfLastK K l m ->
  KeepSplit "assistant" (keepCount K) l (firstn m l) (skipn m l).
Proof.
  intros (Hlt & Hrole & Hcount).
  assert (Hone : (1 <= countRole "assistant" (skipn m l))%nat).
  { rewrite skipn_msgAt by exact Hlt. unfold countRole. cbn [filter].
    rewrite Hrole. cbn [List.length]. lia. }
  constructor.
  - symmetry. apply firstn_skipn.
  - rewrite skipn_msgAt by exact Hlt. exact Hrole.
  - unfold keepCount. lia.
  - unfold keepCount. destruct Hcount as [Heq | [Hlt' Hzero]]; [left; lia | now right].
Qed.

Lemma ttlCut_earliest (config : PruningConfig) (l : list Message) :
  (1 <= KeepLastAssistants config)%Z ->
  (1 <= countRole "assistant" l)%nat ->
  EarliestOfLastK (KeepLastAssistants config) l (ttlCut config l).
Proof.
  intros HK Hsome. unfold ttlCut.
  destruct (lastIndices_post "assistant" (KeepLastAssistants config) l)
    as [Hb Hmem Hcnt Hhd Hmost Hfull].
  set (r := lastIndices "assistant" (KeepLastAssistants config) l) in *.
  set (m := firstOr (List.length l) r) in *.
  assert (Hne : r <> []).
  { intros Hr. destruct Hfull as [[Hne _] | Hnone]; [now apply Hne|].
    subst m. rewrite Hr in Hnone. cbn [firstOr] in Hnone.
    assert (Hz : countRole "assistant" l = 0%nat).
    { unfold countRole. rewrite <- (firstn_all l). rewrite filter_firstn_none; auto. }
    lia. }
  destruct (Hhd Hne) as [Hlt Hrole].
  repeat split; try assumption.
  rewrite <- Hcnt.
  destruct Hfull as [[_ Hge] | Hnone].
  - left. lia.
  - destruct (Z.eq_dec (Z.of_nat (List.length r)) (KeepLastAssistants config)) as [E|E];
      [now left | right].
    split; [lia|]. unfold countRole. now rewrite filter_firstn_none.
Qed.

(** Without an assistant message only the system messages survive. *)
Lemma pruneContextByTTL_no_assistant (l : list Message) (config : PruningConfig) :
  Mode config = PruningModeCacheTTL ->
  countRole "assistant" l = 0%nat ->
  fst (pruneContextByTTL l config) = filter (isRole "system") l.
Proof.
  intros Hmode Hzero.
  rewrite (pruneContextByTTL_split l l [] config Hmode).
  - apply app_nil_r.
  - constructor; [now rewrite app_nil_r | exact I | cbn; lia | now right].
Qed.

(** A bound below one keeps one assistant message, as the bound one does:
    the scan tests the bound after it has collected an index. *)
Lemma pruneContextByTTL_bound_below_one (l : list Message) (config config1 : PruningConfig) :
  Mode config = PruningModeCacheTTL -> Mode config1 = PruningModeCacheTTL ->
  (KeepLastAssistants config <= 1)%Z -> KeepLastAssistants config1 = 1%Z ->
  fst (pruneContextByTTL l config) = fst (pruneContextByTTL l config1).
Proof.
  intros Hm Hm1 HK HK1.
  pose proof (lastIndices_split "assistant" (KeepLastAssistants config) l) as HS.
  cbv zeta in HS. set (pre := firstn _ l) in HS. set (kept := skipn _ l) in HS.
  rewrite (pruneContextByTTL_split l pre kept config Hm HS).
  rewrite (pruneContextByTTL_split l pre kept config1 Hm1); [reflexivity|].
  replace (keepCount (KeepLastAssistants config1))
    with (keepCount (KeepLastAssistants config)); [exact HS|].
  unfold keepCount. rewrite HK1. f_equal. lia.
Qed.

(** C5: in mode cache-ttl, with [m] the earliest index among the last
    [KeepLastAssistants] assistant messages, [pruneContextByTTL] returns
    the system messages found before [m] followed by every message from
    [m] on; the scan finds that index whenever the bound is at least one
    and there is an assistant message; all system messages and the last
    [KeepLastAssistants] assistant messages are in the output, in order. *)
Theorem C5_pruneContextByTTL_keeps (l : list Message) (config : PruningConfig) :
  Mode config = PruningModeCacheTTL ->
  let out := fst (pruneContextByTTL l config) in
  let K := KeepLastAssistants config in
  (forall m, EarliestOfLastK K l m ->
             out = filter (isRole "system") (firstn m l) ++ skipn m l)
  /\ ((1 <= K)%Z -> (1 <= countRole "assistant" l)%nat ->
      EarliestOfLastK K l (ttlCut config l))
  /\ filter (isRole "system") out = filter (isRole "system") l
  /\ lastN (Z.to_nat K) (filter (isRole "assistant") out)
     = lastN (Z.to_nat K) (filter (isRole "assistant") l).
Proof.
  intros Hmode out K. subst out K.
  split; [|split; [|split]].
  - intros m Hm. apply pruneContextByTTL_split; [exact Hmode|].
    now apply EarliestOfLastK_split.
  - apply ttlCut_earliest.
  - pose proof (lastIndices_split "assistant" (KeepLastAssistants config) l) as HS.
    cbv zeta in HS. rewrite (pruneContextByTTL_split l _ _ config Hmode HS).
    set (pre := firstn _ l) in *. set (kept := skipn _ l) in *.
    rewrite filter_app, filter_filter_same, <- filter_app.
    now rewrite <- (ks_app _ _ _ _ _ HS).
  - pose proof (lastIndices_split "assistant" (KeepLastAssistants config) l) as HS.
    cbv zeta in HS. rewrite (pruneContextByTTL_split l _ _ config Hmode HS).
    set (pre := firstn _ l) in *. set (kept := skipn _ l) in *.
    destruct HS as [Happ Hhd Hmost Hfull].
    assert (Hnil : filter (isRole "assistant") (filter (isRole "system") pre) = []).
    { apply length_zero_iff_nil. apply (countRole_filter_other "assistant" "system").
      discriminate. }
    rewrite filter_app, Hnil. cbn [List.app].
    replace (filter (isRole "assistant") l)
      with (filter (isRole "assistant") pre ++ filter (isRole "assistant") kept)
      by (now rewrite <- filter_app, <- Happ).
    destruct Hfull as [Hfull | Hzero].
    + rewrite lastN_app; [reflexivity|].
      unfold countRole, keepCount in Hfull. lia.
    + apply length_zero_iff_nil in Hzero. now rewrite Hzero.
Qed.



Lemma C5_pruneContextByTTL_keeps_witness :
  Mode exampleTTLConfig = PruningModeCacheTTL
  /\ EarliestOfLastK 2 exampleHistory 5
  /\ fst (pruneContextByTTL exampleHistory exampleTTLConfig)
     = filter (isRole "system") (firstn 5 exampleHistory) ++ skipn 5 exampleHistory.
Proof.
  assert (H : EarliestOfLastK 2 exampleHistory 5).
  { repeat split; [cbn; lia | left; reflexivity]. }
  split; [reflexivity | split; [exact H|]].
  exact (proj1 (C5_pruneContextByTTL_keeps exampleHistory exampleTTLConfig eq_refl) 5%nat H).
Defined.

Lemma ApplyPruning_fst (l : list Message) (config : PruningConfig) :
  fst (ApplyPruning l config)
  = if String.eqb (Mode config) PruningModeOff then l
    else fst (pruneContextByTTL (fst (pruneToolResults l config)) config).
Proof.
  unfold ApplyPruning. destruct (String.eqb (Mode config) PruningModeOff); [reflexivity|].
  destruct (pruneToolResults l config) as [l1 s1]. cbn [fst].
  now destruct (pruneContextByTTL l1 config) as [l2 s2].
Qed.

(** C7: for every message list and every configuration, the messages
    returned by [ApplyPruning] are unchanged by a second application. *)
Theorem C7_ApplyPruning_idempotent (l : list Message) (config : PruningConfig) :
  fst (ApplyPruning (fst (ApplyPruning l config)) config) = fst (ApplyPruning l config).
Proof.
  rewrite !ApplyPruning_fst.
  destruct (String.eqb (Mode config) PruningModeOff); [reflexivity|].
  destruct (String.eqb (Mode config) PruningModeCacheTTL) eqn:Hmode.
  - apply String.eqb_eq in Hmode.
    change (ttlPass config (toolPass config (ttlPass config (toolPass config l)))
            = ttlPass config (toolPass config l)).
    rewrite (ttlPass_keeps_toolPass_fixed config Hmode).
    + apply (ttlPass_idempotent config Hmode).
    + apply (toolPass_idempotent config Hmode).
  - unfold pruneToolResults, pruneContextByTTL. rewrite Hmode. reflexivity.
Qed.

(** ** Tool result truncation *)


Lemma calculateMaxToolResultChars_range (w : Z) :
  (MIN_TOOL_RESULT_CHARS <= calculateMaxToolResultChars w <= HARD_MAX_TOOL_RESULT_CHARS)%Z.
Proof.
  unfold calculateMaxToolResultChars, MIN_TOOL_RESULT_CHARS, HARD_MAX_TOOL_RESULT_CHARS.
  set (c := int_of_f64 _).
  destruct (c >? 400000)%Z eqn:E1; [lia|].
  destruct (c <? 2000)%Z eqn:E2; [lia|].
  apply Z.ltb_ge in E2. rewrite Z.gtb_ltb in E1. apply Z.ltb_ge in E1. lia.
Qed.

Lemma lastIndexFrom_range (c : ascii) (s : string) :
  forall i found,
    lastIndexFrom c s i found = found
    \/ (i <= lastIndexFrom c s i found < i + len s)%Z.
Proof.
  induction s as [|a s IH]; intros i found; cbn [lastIndexFrom]; [now left|].
  assert (Hl : len (String a s) = (len s + 1)%Z) by (unfold len; cbn [String.length]; lia).
  rewrite Hl.
  destruct (IH (i + 1)%Z (if Ascii.eqb a c then i else found)) as [E | R].
  - rewrite E. destruct (Ascii.eqb a c); [right; pose proof (len_nonneg s); lia | now left].
  - right. lia.
Qed.

Lemma LastIndexByte_range (s : string) (c : ascii) :
  (LastIndexByte s c = -1 \/ 0 <= LastIndexByte s c < len s)%Z.
Proof.
  unfold LastIndexByte. destruct (lastIndexFrom_range c s 0 (-1)) as [E | R]; [now left|].
  right. lia.
Qed.

Lemma len_truncatedMarker : len truncatedMarker = 18%Z.
Proof. reflexivity. Qed.

(** Above the floor the function never panics: it cuts at a point [p]
    at most 200 bytes before the cap and appends the 18 bytes of the
    marker, so the result has up to [maxChars + 18] bytes. *)
Lemma truncateToolResultText_cut (utilsTruncate : string -> Z -> string)
      (text : string) (maxChars : Z) :
  (MIN_TOOL_RESULT_CHARS < maxChars)%Z -> (maxChars < len text)%Z ->
  exists p,
    (maxChars - 200 < p <= maxChars)%Z
    /\ truncateToolResultText utilsTruncate text maxChars
       = Some (substring 0 (Z.to_nat p) text +++ truncatedMarker)
    /\ len (substring 0 (Z.to_nat p) text +++ truncatedMarker) = (p + 18)%Z.
Proof.
  unfold MIN_TOOL_RESULT_CHARS. intros Hmin Hlen.
  unfold truncateToolResultText, MIN_TOOL_RESULT_CHARS.
  assert (E1 : (len text <=? maxChars)%Z = false) by (apply Z.leb_gt; lia).
  assert (E2 : (maxChars <=? 2000)%Z = false) by (apply Z.leb_gt; lia).
  assert (E3 : (maxChars - 200 <? 0)%Z = false) by (apply Z.ltb_ge; lia).
  rewrite E1, E2, E3.
  rewrite slice_Some by lia.
  set (window := substring _ _ text).
  assert (Hw : len window = 200%Z).
  { unfold len, window. rewrite length_substring; unfold len in *; lia. }
  set (p := if negb (LastIndexByte window (ascii_of_nat 10) =? -1)%Z
            then (maxChars - 200 + LastIndexByte window (ascii_of_nat 10) + 1)%Z
            else maxChars).
  assert (Hp : (maxChars - 200 < p <= maxChars)%Z).
  { subst p. destruct (LastIndexByte_range window (ascii_of_nat 10)) as [E | R].
    - rewrite E. cbn. lia.
    - destruct (LastIndexByte window (ascii_of_nat 10) =? -1)%Z; cbn [negb]; lia. }
  exists p. split; [exact Hp|].
  unfold sliceTo. rewrite slice_Some by lia.
  rewrite Z.sub_0_r. change (Z.to_nat 0) with 0%nat.
  split; [reflexivity|].
  rewrite len_append, len_truncatedMarker. unfold len.
  rewrite length_substring; unfold len in *; lia.
Qed.

(** [TruncateToolResult] never panics: a result within the cap is
    returned as it is; at the floor the cut is left to [utils.Truncate];
    above the floor the result is a prefix of the text and the marker,
    up to 18 bytes more than the cap. *)
Lemma TruncateToolResult_cases (utilsTruncate : string -> Z -> string)
      (result : string) (contextWindowTokens : Z) :
  let cap := calculateMaxToolResultChars contextWindowTokens in
  exists out,
    TruncateToolResult utilsTruncate result contextWindowTokens = Some out
    /\ ((len result <= cap)%Z -> out = result)
    /\ ((cap < len result)%Z -> cap = MIN_TOOL_RESULT_CHARS ->
        out = utilsTruncate result cap)
    /\ ((cap < len result)%Z -> (MIN_TOOL_RESULT_CHARS < cap)%Z ->
        exists p, (cap - 200 < p <= cap)%Z
                  /\ out = substring 0 (Z.to_nat p) result +++ truncatedMarker
                  /\ len out = (p + 18)%Z).
Proof.
  intros cap. unfold TruncateToolResult. fold cap.
  pose proof (calculateMaxToolResultChars_range contextWindowTokens) as Hr. fold cap in Hr.
  destruct (Z_le_gt_dec (len result) cap) as [Hfit|Hlong].
  - exists result. unfold truncateToolResultText.
    replace (len result <=? cap)%Z with true by (symmetry; apply Z.leb_le; lia).
    repeat split; auto; intros; lia.
  - destruct (Z.eq_dec cap MIN_TOOL_RESULT_CHARS) as [Hfloor|Habove].
    + exists (utilsTruncate result cap). unfold truncateToolResultText.
      replace (len result <=? cap)%Z with false by (symmetry; apply Z.leb_gt; lia).
      replace (cap <=? MIN_TOOL_RESULT_CHARS)%Z with true by (symmetry; apply Z.leb_le; lia).
      repeat split; auto; intros; lia.
    + destruct (truncateToolResultText_cut utilsTruncate result cap ltac:(lia) ltac:(lia))
        as (p & Hp & Heq & Hlen).
      eexists. split; [exact Heq|]. repeat split; intros; try lia.
      exists p. auto.
Qed.

(** C4: evaluation at a failing input.  With a context window of 2000
    tokens the cap is 2400 characters; a result of 3000 letters is cut at
    2400 and the marker is appended after the cut, so 2418 characters are
    returned. *)
Theorem C4_TruncateToolResult_exceeds_cap (utilsTruncate : string -> Z -> string) :
  calculateMaxToolResultChars 2000 = 2400%Z
  /\ Z.min HARD_MAX_TOOL_RESULT_CHARS (Z.max MIN_TOOL_RESULT_CHARS (2000 * 3 * 4 / 10)) = 2400%Z
  /\ exists r, TruncateToolResult utilsTruncate (repeatByte "a" 3000) 2000 = Some r
               /\ len r = 2418%Z.
Proof.
  split; [reflexivity | split; [reflexivity|]].
  eexists. split; [vm_compute; reflexivity | reflexivity].
Qed.

(** ** Bootstrap files: the head-and-tail rule *)

(** For every cap an [int] can hold, the head and tail sizes are not
    negative and together do not exceed the cap. *)
Lemma scaleChars_bounds (maxChars : Z) :
  (0 <= maxChars <= maxInt64)%Z ->
  (0 <= scaleChars maxChars BOOTSTRAP_HEAD_RATIO)%Z
  /\ (0 <= scaleChars maxChars BOOTSTRAP_TAIL_RATIO)%Z
  /\ (scaleChars maxChars BOOTSTRAP_HEAD_RATIO
       + scaleChars maxChars BOOTSTRAP_TAIL_RATIO <= maxChars)%Z.
Proof.
  intros Hn. unfold maxInt64 in Hn.
  unfold scaleChars, BOOTSTRAP_HEAD_RATIO, BOOTSTRAP_TAIL_RATIO, f64_0_70, f64_0_20.
  destruct (int_of_scaled_bound maxChars 6305039478318694 (-53)
              ltac:(lia) ltac:(lia) ltac:(lia) ltac:(vm_compute; discriminate))
    as [[Hh0 _] Hh].
  destruct (int_of_scaled_bound maxChars 7205759403792794 (-55)
              ltac:(lia) ltac:(lia) ltac:(lia) ltac:(vm_compute; discriminate))
    as [[Ht0 _] Ht].
  set (hs := int_of_f64 _) in *. set (ts := int_of_f64 _) in *.
  change (2 ^ (- (-53)) * 2 ^ 104)%Z with 182687704666362864775460604089535377456991567872%Z in Hh.
  change (2 ^ (- (-55)) * 2 ^ 104)%Z with 730750818665451459101842416358141509827966271488%Z in Ht.
  change (2 ^ 52 + 1)%Z with 4503599627370497%Z in Hh, Ht.
  repeat split; try assumption. lia.
Qed.


Lemma eqb_empty_length (s : string) :
  (0 < String.length s)%nat -> String.eqb s "" = false.
Proof. destruct s; cbn; [lia | reflexivity]. Qed.

(** C6, as stated, fails: with a cap of 100 a file of 400 bytes becomes
    70 head bytes, a marker of 89 bytes and 20 tail bytes, 179 in all. *)
Lemma C6_trimmed_longer_than_cap_counterexample :
  exists r,
    trimBootstrapContent (repeatByte "x" 400) "AGENTS.md" 100 = Some r
    /\ len (trimMarker "AGENTS.md" 70 20 400) = 89%Z
    /\ len r = 179%Z
    /\ ~ (len r <= 100)%Z.
Proof.
  eexists. split; [vm_compute; reflexivity|].
  split; [reflexivity | split; [reflexivity|]].
  vm_compute. intros H. now apply H.
Qed.

(** A content longer than the cap: the function does not panic and
    returns the head, a marker and the tail. *)
Lemma trimBootstrapContent_long
        (content filename : string) (maxChars : Z) :
  (0 <= maxChars <= maxInt64)%Z ->
  (maxChars < len content)%Z ->
  let headSize := scaleChars maxChars BOOTSTRAP_HEAD_RATIO in
  let tailSize := scaleChars maxChars BOOTSTRAP_TAIL_RATIO in
  let head := substring 0 (Z.to_nat headSize) content in
  let tail := substring (Z.to_nat (len content - tailSize)) (Z.to_nat tailSize) content in
  (0 <= headSize)%Z /\ (0 <= tailSize)%Z /\ (headSize + tailSize <= maxChars)%Z
  /\ len head = headSize /\ len tail = tailSize
  /\ trimBootstrapContent content filename maxChars
     = Some (if (tailSize >? 0)%Z
             then head +++ trimMarker filename headSize tailSize (len content) +++ tail
             else head +++ LF +++ "[...truncated " +++ filename +++ "...]").
Proof.
  intros Hcap Hlong headSize tailSize head tail.
  destruct (scaleChars_bounds maxChars Hcap) as (Hh & Ht & Hsum).
  fold headSize tailSize in Hh, Ht, Hsum.
  assert (Lh : len head = headSize).
  { unfold head, len in *. rewrite length_substring; lia. }
  assert (Lt : len tail = tailSize).
  { unfold tail, len in *. rewrite length_substring; lia. }
  repeat split; try assumption; try reflexivity.
  unfold trimBootstrapContent. fold headSize tailSize.
  assert (E1 : (len content <=? maxChars)%Z = false) by (apply Z.leb_gt; lia).
  assert (E2 : (headSize + tailSize >? len content)%Z = false)
    by (rewrite Z.gtb_ltb; apply Z.ltb_ge; lia).
  assert (E4 : (len content >? headSize)%Z = true) by (rewrite Z.gtb_ltb; apply Z.ltb_lt; lia).
  assert (E5 : (len content - tailSize <? headSize)%Z = false) by (apply Z.ltb_ge; lia).
  rewrite E1, E2. unfold sliceTo, sliceFrom.
  rewrite slice_Some by lia. rewrite E4, E5, andb_true_r.
  rewrite Z.sub_0_r. change (Z.to_nat 0) with 0%nat. fold head.
  destruct (tailSize >? 0)%Z eqn:E3.
  - rewrite Z.gtb_ltb in E3. apply Z.ltb_lt in E3.
    rewrite slice_Some by lia.
    replace (len content - (len content - tailSize))%Z with tailSize by lia. fold tail.
    rewrite eqb_empty_length; [reflexivity|].
    unfold len in Lt. lia.
  - reflexivity.
Qed.


(** For a cap that is not negative the function never panics. *)
Lemma trimBootstrapContent_total (content filename : string) (maxChars : Z) :
  (0 <= maxChars <= maxInt64)%Z ->
  exists r, trimBootstrapContent content filename maxChars = Some r.
Proof.
  intros Hcap. destruct (Z_le_gt_dec (len content) maxChars) as [Hfit|Hlong].
  - exists content. unfold trimBootstrapContent.
    now replace (len content <=? maxChars)%Z with true by (symmetry; apply Z.leb_le; lia).
  - destruct (trimBootstrapContent_long content filename maxChars Hcap ltac:(lia))
      as (_ & _ & _ & _ & _ & H).
    eexists. exact H.
Qed.

(** C6, amended: for every cap an [int] can hold, a content longer than
    the cap is replaced by its first [int(cap * 0.70)] bytes, a marker
    naming the file, the two kept sizes and the original size, and its
    last [int(cap * 0.20)] bytes; the two sizes are not negative and
    their sum does not exceed the cap; when the tail size is zero the
    head is followed by a short marker naming the file.  For a cap of 100
    the two sizes are 70 and 20. *)
Theorem C6_trimBootstrapContent_head_marker_tail
        (content filename : string) (maxChars : Z) :
  (0 <= maxChars <= maxInt64)%Z ->
  (maxChars < len content)%Z ->
  let headSize := scaleChars maxChars BOOTSTRAP_HEAD_RATIO in
  let tailSize := scaleChars maxChars BOOTSTRAP_TAIL_RATIO in
  let head := substring 0 (Z.to_nat headSize) content in
  let tail := substring (Z.to_nat (len content - tailSize)) (Z.to_nat tailSize) content in
  (0 <= headSize)%Z /\ (0 <= tailSize)%Z /\ (headSize + tailSize <= maxChars)%Z
  /\ len head = headSize /\ len tail = tailSize
  /\ trimBootstrapContent content filename maxChars
     = Some (if (tailSize >? 0)%Z
             then head +++ trimMarker filename headSize tailSize (len content) +++ tail
             else head +++ LF +++ "[...truncated " +++ filename +++ "...]")
  /\ scaleChars 100 BOOTSTRAP_HEAD_RATIO = 70%Z
  /\ scaleChars 100 BOOTSTRAP_TAIL_RATIO = 20%Z.
Proof.
  intros Hcap Hlong headSize tailSize head tail.
  destruct (trimBootstrapContent_long content filename maxChars Hcap Hlong)
    as (H1 & H2 & H3 & H4 & H5 & H6).
  repeat split; try assumption; reflexivity.
Qed.

Lemma C6_trimBootstrapContent_head_marker_tail_witness :
  (0 <= 100 <= maxInt64)%Z
  /\ (100 < len (repeatByte "x" 400))%Z
  /\ trimBootstrapContent (repeatByte "x" 400) "AGENTS.md" 100
     = Some (substring 0 70 (repeatByte "x" 400)
             +++ trimMarker "AGENTS.md" 70 20 400
             +++ substring 330 20 (repeatByte "x" 400)).
Proof.
  assert (H1 : (0 <= 100 <= maxInt64)%Z) by (split; discriminate).
  assert (H2 : (100 < len (repeatByte "x" 400))%Z) by reflexivity.
  split; [exact H1 | split; [exact H2|]].
  exact (proj1 (proj2 (proj2 (proj2 (proj2 (proj2
    (C6_trimBootstrapContent_head_marker_tail (repeatByte "x" 400) "AGENTS.md" 100
       H1 H2))))))).
Defined.

(** ** Bootstrap files: the budget *)

Lemma wrap64_id (z : Z) : (minInt64 <= z <= maxInt64)%Z -> wrap64 z = z.
Proof.
  unfold wrap64, minInt64, maxInt64. intros H.
  rewrite Z.mod_small; lia.
Qed.

Lemma wrap64_range (z : Z) : (minInt64 <= wrap64 z <= maxInt64)%Z.
Proof.
  unfold wrap64, minInt64, maxInt64.
  pose proof (Z.mod_pos_bound (z + 2 ^ 63) (2 ^ 64) ltac:(reflexivity)). lia.
Qed.

Lemma len_bootstrapEntry (filename content : string) :
  len (bootstrapEntry filename content) = (len filename + len content + 7)%Z.
Proof.
  unfold bootstrapEntry. rewrite !len_append.
  change (len LF) with 1%Z. change (len "## ") with 3%Z. lia.
Qed.




Lemma len_sectionOf (entries : list (string * string)) :
  len (sectionOf entries) = (contentChars entries + headingChars entries)%Z.
Proof.
  induction entries as [|[f c] rest IH]; [reflexivity|].
  cbn [sectionOf contentChars headingChars].
  rewrite len_append, len_bootstrapEntry, IH. lia.
Qed.

Section BootstrapBudget.

Variable ReadFile : string -> option string.
Variable filepathJoin : string -> string -> string.
Variable workspace : string.
Variable config : BootstrapConfig.

Local Abbreviation BudgetRun := (BudgetRun ReadFile filepathJoin workspace config).
Local Abbreviation perFileTrim := (perFileTrim config).

Lemma bootstrapLoop_run (files : list string) :
  forall st st',
    bootstrapLoop ReadFile filepathJoin workspace config files st = Some st' ->
    exists es,
      BudgetRun (bsTotalUsed st) files es
      /\ bsResult st' = bsResult st +++ sectionOf es
      /\ bsTotalUsed st' = (bsTotalUsed st + contentChars es)%Z
      /\ bsLoadedFiles st' = bsLoadedFiles st ++ map fst es.
Proof.
  induction files as [|f fs IH]; intros st st' Hrun.
  - cbn [bootstrapLoop] in Hrun. injection Hrun as <-.
    exists []. cbn [sectionOf contentChars map].
    rewrite append_empty_r, app_nil_r. repeat split; [constructor | lia].
  - cbn [bootstrapLoop] in Hrun.
    destruct (bootstrapStep ReadFile filepathJoin workspace config st f) as [st1|] eqn:Hstep;
      [|discriminate].
    destruct (IH st1 st' Hrun) as (es & Hes & Hres & Htot & Hfiles).
    unfold bootstrapStep in Hstep.
    destruct (ReadFile (filepathJoin workspace f)) as [data|] eqn:Hread.
    + fold (perFileTrim data f) in Hstep.
      destruct (perFileTrim data f) as [content|] eqn:Htrim; [|discriminate].
      destruct (bsTotalUsed st + len content >? TotalMaxChars config)%Z eqn:Hover.
      * rewrite Z.gtb_ltb in Hover. apply Z.ltb_lt in Hover.
        destruct (wrap64 (TotalMaxChars config - bsTotalUsed st) >? 500)%Z eqn:Hrem.
        -- rewrite Z.gtb_ltb in Hrem. apply Z.ltb_lt in Hrem.
           destruct (trimBootstrapContent content f
                       (wrap64 (TotalMaxChars config - bsTotalUsed st)))
             as [capped|] eqn:Hcap; [|discriminate].
           injection Hstep as <-. cbn [bsResult bsTotalUsed bsLoadedFiles] in *.
           exists ((f, capped) :: es). cbn [sectionOf contentChars map fst].
           repeat split.
           ++ eapply RunCapped; eauto; lia.
           ++ now rewrite Hres, append_assoc.
           ++ lia.
           ++ now rewrite Hfiles, <- app_assoc.
        -- rewrite Z.gtb_ltb in Hrem. apply Z.ltb_ge in Hrem.
           injection Hstep as <-.
           exists es. repeat split; try assumption.
           eapply RunSkipped; eauto; lia.
      * rewrite Z.gtb_ltb in Hover. apply Z.ltb_ge in Hover.
        injection Hstep as <-. cbn [bsResult bsTotalUsed bsLoadedFiles] in *.
        exists ((f, content) :: es). cbn [sectionOf contentChars map fst].
        repeat split.
        -- eapply RunFits; eauto.
        -- now rewrite Hres, append_assoc.
        -- lia.
        -- now rewrite Hfiles, <- app_assoc.
    + injection Hstep as <-. exists es. repeat split; try assumption.
      now apply RunUnreadable.
Qed.

(** Conversely the loop follows the policy: it is the only run. *)
Lemma BudgetRun_loop (files : list string) (used : Z) (es : list (string * string)) :
  BudgetRun used files es ->
  forall st, bsTotalUsed st = used ->
    exists st', bootstrapLoop ReadFile filepathJoin workspace config files st = Some st'
                /\ bsResult st' = bsResult st +++ sectionOf es.
Proof.
  induction 1 as [used | used f fs es Hread _ IH
                  | used f fs es data content Hread Htrim Hfit _ IH
                  | used f fs es data content capped Hread Htrim Hover Hrem Hcap _ IH
                  | used f fs es data content Hread Htrim Hover Hrem _ IH];
    intros st Hst; cbn [bootstrapLoop].
  - exists st. cbn [sectionOf]. now rewrite append_empty_r.
  - unfold bootstrapStep. rewrite Hread. now apply IH.
  - unfold bootstrapStep. rewrite Hread. fold (perFileTrim data f). rewrite Htrim, Hst.
    assert (E : (used + len content >? TotalMaxChars config)%Z = false)
      by (rewrite Z.gtb_ltb; apply Z.ltb_ge; lia).
    rewrite E.
    match goal with |- context [bootstrapLoop _ _ _ _ fs ?s] =>
      destruct (IH s eq_refl) as (st' & Hloop & Hres) end.
    exists st'. split; [exact Hloop|].
    rewrite Hres. cbn [bsResult sectionOf]. now rewrite append_assoc.
  - unfold bootstrapStep. rewrite Hread. fold (perFileTrim data f). rewrite Htrim, Hst.
    assert (E : (used + len content >? TotalMaxChars config)%Z = true)
      by (rewrite Z.gtb_ltb; apply Z.ltb_lt; lia).
    assert (E' : (wrap64 (TotalMaxChars config - used) >? 500)%Z = true)
      by (rewrite Z.gtb_ltb; apply Z.ltb_lt; lia).
    rewrite E, E', Hcap.
    match goal with |- context [bootstrapLoop _ _ _ _ fs ?s] =>
      destruct (IH s eq_refl) as (st' & Hloop & Hres) end.
    exists st'. split; [exact Hloop|].
    rewrite Hres. cbn [bsResult sectionOf]. now rewrite append_assoc.
  - unfold bootstrapStep. rewrite Hread. fold (perFileTrim data f). rewrite Htrim, Hst.
    assert (E : (used + len content >? TotalMaxChars config)%Z = true)
      by (rewrite Z.gtb_ltb; apply Z.ltb_lt; lia).
    assert (E' : (wrap64 (TotalMaxChars config - used) >? 500)%Z = false)
      by (rewrite Z.gtb_ltb; apply Z.ltb_ge; lia).
    rewrite E, E'. now apply IH.
Qed.

Hypothesis HmaxChars : (0 <= MaxChars config <= maxInt64)%Z.

(** With a per-file limit that is not negative the loop never panics:
    the only other cap is a remaining budget above 500. *)
Lemma bootstrapStep_total (st : BootstrapState) (f : string) :
  exists st', bootstrapStep ReadFile filepathJoin workspace config st f = Some st'.
Proof.
  unfold bootstrapStep.
  destruct (ReadFile (filepathJoin workspace f)) as [data|]; [|eauto].
  assert (Hper : exists c, (if (len data >? MaxChars config)%Z
                            then trimBootstrapContent data f (MaxChars config)
                            else Some data) = Some c).
  { destruct (len data >? MaxChars config)%Z; [|eauto].
    now apply trimBootstrapContent_total. }
  destruct Hper as (content & ->).
  destruct (bsTotalUsed st + len content >? TotalMaxChars config)%Z; [|eauto].
  destruct (wrap64 (TotalMaxChars config - bsTotalUsed st) >? 500)%Z eqn:Hrem; [|eauto].
  rewrite Z.gtb_ltb in Hrem. apply Z.ltb_lt in Hrem.
  pose proof (wrap64_range (TotalMaxChars config - bsTotalUsed st)) as Hr.
  destruct (trimBootstrapContent_total content f
              (wrap64 (TotalMaxChars config - bsTotalUsed st)) ltac:(lia)) as (capped & ->).
  eauto.
Qed.

Lemma bootstrapLoop_total (files : list string) :
  forall st, exists st',
    bootstrapLoop ReadFile filepathJoin workspace config files st = Some st'.
Proof.
  induction files as [|f fs IH]; intros st; cbn [bootstrapLoop]; [eauto|].
  destruct (bootstrapStep_total st f) as (st1 & ->). apply IH.
Qed.

End BootstrapBudget.




(** C2, as stated, fails.  With [TotalMaxChars = 600] and 100 characters
    used, the 600 characters of SOUL.md do not fit and the remaining
    budget is exactly 500: the file is skipped, not trimmed to 500.  With
    [MaxChars = 100], [TotalMaxChars = 180] and a 400-character AGENTS.md
    the included content has 179 characters and the section 195. *)
Lemma C2_bootstrap_budget_counterexample :
  LoadBootstrapFilesForSession boundaryWorkspace joinClean "ws"
    {| MaxChars := 1000; TotalMaxChars := 600 |} SessionTypeMain
  = Some (bootstrapEntry "AGENTS.md" (repeatByte "a" 100))
  /\ wrap64 (600 - len (repeatByte "a" 100)) = 500%Z
  /\ exists content,
       LoadBootstrapFilesForSession scenarioWorkspace joinClean "ws"
         {| MaxChars := 100; TotalMaxChars := 180 |} SessionTypeMain
       = Some (bootstrapEntry "AGENTS.md" content)
       /\ len content = 179%Z
       /\ len (bootstrapEntry "AGENTS.md" content) = 195%Z.
Proof.
  split; [vm_compute; reflexivity | split; [reflexivity|]].
  exists (repeatByte "x" 70 +++ trimMarker "AGENTS.md" 70 20 400 +++ repeatByte "x" 20).
  split; [vm_compute; reflexivity | split; reflexivity].
Qed.

(** In scenario 3 of the specification ([MaxChars = 100],
    [TotalMaxChars = 150], a 400-character AGENTS.md) the trimmed content
    does not fit in the total and the remaining budget is below 500: the
    file is skipped and the section is empty. *)
Lemma scenario3_section_empty :
  LoadBootstrapFilesForSession scenarioWorkspace joinClean "ws"
    {| MaxChars := 100; TotalMaxChars := 150 |} SessionTypeMain = Some "".
Proof. vm_compute. reflexivity. Qed.

(** A negative per-file limit makes the head size negative and the
    slice [content[:headSize]] panics. *)
Lemma LoadBootstrapFilesForSession_negative_limit_panics :
  scaleChars (-2) BOOTSTRAP_HEAD_RATIO = (-1)%Z
  /\ LoadBootstrapFilesForSession scenarioWorkspace joinClean "ws"
       {| MaxChars := -2; TotalMaxChars := 1000 |} SessionTypeMain = None.
Proof. split; vm_compute; reflexivity. Qed.

(** C2, amended: for every workspace and every configuration whose
    per-file limit is not negative, [LoadBootstrapFilesForSession]
    returns a section, which is the concatenation, in the order of the
    session's file list, of one entry ["## name\n\ncontent\n\n"] per
    included file, chosen by the budget policy: unreadable files are
    skipped; a content (trimmed to [MaxChars] when longer) that fits in
    [TotalMaxChars] is included; one that does not fit is trimmed to the
    remaining budget when that is greater than 500 and skipped when it is
    500 or less.  The size of the section is the sum of the included
    contents plus [len(name) + 7] per entry. *)
Theorem C2_LoadBootstrapFilesForSession_policy
        (ReadFile : string -> option string) (filepathJoin : string -> string -> string)
        (workspace : string) (config : BootstrapConfig) (sessionType : SessionType) :
  (0 <= MaxChars config <= maxInt64)%Z ->
  exists section entries,
    LoadBootstrapFilesForSession ReadFile filepathJoin workspace config sessionType
    = Some section
    /\ BudgetRun ReadFile filepathJoin workspace config 0
                 (getBootstrapFilesForSession sessionType) entries
    /\ section = sectionOf entries
    /\ len section = (contentChars entries + headingChars entries)%Z.
Proof.
  intros Hcap. unfold LoadBootstrapFilesForSession.
  destruct (bootstrapLoop_total ReadFile filepathJoin workspace config Hcap
              (getBootstrapFilesForSession sessionType) initialBootstrapState)
    as (st & Hloop).
  rewrite Hloop.
  destruct (bootstrapLoop_run _ _ _ _ _ _ _ Hloop) as (es & Hrun & Hres & _ & _).
  exists (bsResult st), es. cbn [initialBootstrapState bsTotalUsed bsResult] in *.
  cbn [String.append] in Hres.
  split; [reflexivity | split; [exact Hrun | split; [exact Hres|]]].
  rewrite Hres. apply len_sectionOf.
Qed.

Lemma C2_LoadBootstrapFilesForSession_policy_witness :
  (0 <= 1000 <= maxInt64)%Z
  /\ exists section entries,
       LoadBootstrapFilesForSession boundaryWorkspace joinClean "ws"
         {| MaxChars := 1000; TotalMaxChars := 600 |} SessionTypeMain
       = Some section
       /\ BudgetRun boundaryWorkspace joinClean "ws"
                    {| MaxChars := 1000; TotalMaxChars := 600 |} 0
                    (getBootstrapFilesForSession SessionTypeMain) entries
       /\ section = sectionOf entries
       /\ len section = (contentChars entries + headingChars entries)%Z.
Proof.
  assert (H : (0 <= 1000 <= maxInt64)%Z) by (split; discriminate).
  split; [exact H|].
  exact (C2_LoadBootstrapFilesForSession_policy boundaryWorkspace joinClean "ws"
           {| MaxChars := 1000; TotalMaxChars := 600 |} SessionTypeMain H).
Defined.

(** ** File watcher *)


Lemma watchedBootstrapFiles_eqb (base : string) :
  (String.eqb base "IDENTITY.md" || String.eqb base "SOUL.md"
   || String.eqb base "AGENTS.md" || String.eqb base "USER.md")%bool = true
  <-> In base watchedBootstrapFiles.
Proof.
  unfold watchedBootstrapFiles. cbn [In].
  rewrite !orb_true_iff, !String.eqb_eq. intuition congruence.
Qed.


(** C8, as stated, fails: TOOLS.md in the workspace root is not classified
    as a bootstrap file, and neither is SOUL.md when the watcher was
    configured without bootstrap watching. *)
Lemma C8_bootstrap_set_counterexample :
  let path := "/home/u/.picoclaw/workspace/TOOLS.md" in
  unixBase path = "TOOLS.md"
  /\ unixClean (unixDir path) = unixClean (WorkspacePath (exampleWatcherConfig true))
  /\ determineEventType unixClean unixBase unixDir (exampleWatcherConfig true) path = (-1)%Z
  /\ determineEventType unixClean unixBase unixDir (exampleWatcherConfig false)
       "/home/u/.picoclaw/workspace/SOUL.md" = (-1)%Z.
Proof. repeat split; reflexivity. Qed.

(** C8, amended: the classification of a raw path is config when the
    cleaned path equals the cleaned config path; else bootstrap when
    bootstrap watching is on, the basename is one of IDENTITY.md, SOUL.md,
    AGENTS.md, USER.md and the cleaned parent equals the cleaned
    workspace; else skill when skill watching is on, the basename is
    SKILL.md and the basename of the grandparent is [skills]; else the
    path is ignored (the value -1, which is none of the three types). *)
Theorem C8_determineEventType_classification
        (filepathClean filepathBase filepathDir : string -> string)
        (config : WatcherConfig) (path : string) :
  let isConfig := filepathClean path = filepathClean (ConfigPath config) in
  let isBootstrap :=
    WatchBootstrap config = true
    /\ In (filepathBase path) watchedBootstrapFiles
    /\ filepathClean (filepathDir path) = filepathClean (WorkspacePath config) in
  let isSkill :=
    WatchSkills config = true
    /\ filepathBase path = "SKILL.md"
    /\ filepathBase (filepathDir (filepathDir path)) = "skills" in
  let result := determineEventType filepathClean filepathBase filepathDir config path in
  (isConfig -> result = WatchEventConfig)
  /\ (~ isConfig -> isBootstrap -> result = WatchEventBootstrap)
  /\ (~ isConfig -> ~ isBootstrap -> isSkill -> result = WatchEventSkill)
  /\ (~ isConfig -> ~ isBootstrap -> ~ isSkill -> result = (-1)%Z)
  /\ (-1)%Z <> WatchEventConfig /\ (-1)%Z <> WatchEventSkill /\ (-1)%Z <> WatchEventBootstrap.
Proof.
  intros isConfig isBootstrap isSkill result.
  assert (Hb : (if WatchBootstrap config
                then if (String.eqb (filepathBase path) "IDENTITY.md"
                         || String.eqb (filepathBase path) "SOUL.md"
                         || String.eqb (filepathBase path) "AGENTS.md"
                         || String.eqb (filepathBase path) "USER.md")%bool
                     then String.eqb (filepathClean (filepathDir path))
                                     (filepathClean (WorkspacePath config))
                     else false
                else false) = true <-> isBootstrap).
  { unfold isBootstrap. destruct (WatchBootstrap config); [|intuition discriminate].
    destruct (_ || _ || _ || _)%bool eqn:E.
    - apply watchedBootstrapFiles_eqb in E. rewrite String.eqb_eq. tauto.
    - split; [discriminate|]. intros (_ & Hin & _).
      apply watchedBootstrapFiles_eqb in Hin. congruence. }
  assert (Hs : (if WatchSkills config
                then if String.eqb (filepathBase path) "SKILL.md"
                     then String.eqb (filepathBase (filepathDir (filepathDir path))) "skills"
                     else false
                else false) = true <-> isSkill).
  { unfold isSkill. destruct (WatchSkills config); [|intuition discriminate].
    destruct (String.eqb (filepathBase path) "SKILL.md") eqn:E.
    - apply String.eqb_eq in E. rewrite String.eqb_eq. tauto.
    - apply String.eqb_neq in E. intuition discriminate. }
  subst result. unfold determineEventType.
  destruct (String.eqb (filepathClean path) (filepathClean (ConfigPath config))) eqn:Ec.
  - apply String.eqb_eq in Ec. repeat split; try discriminate; intros; tauto.
  - apply String.eqb_neq in Ec.
    destruct (if WatchBootstrap config then _ else false) eqn:Eb.
    + repeat split; try discriminate; intros; tauto.
    + assert (Hnb : ~ isBootstrap) by (rewrite <- Hb; discriminate).
      destruct (if WatchSkills config then _ else false) eqn:Es.
      * repeat split; try discriminate; intros; tauto.
      * assert (Hns : ~ isSkill) by (rewrite <- Hs; discriminate).
        repeat split; try discriminate; intros; tauto.
Qed.

(** ** Regular expressions: the matcher decides the language *)

Lemma append_eq_empty (x y : string) : x +++ y = "" -> x = "" /\ y = "".
Proof. destruct x; cbn; [auto | discriminate]. Qed.

Lemma nullable_Lang (r : regex) : nullable r = true <-> Lang r "".
Proof.
  induction r as [| |p|r1 IH1 r2 IH2|r1 IH1 r2 IH2|r IH]; cbn [nullable].
  - split; [discriminate | intros H; inversion H].
  - split; [constructor | reflexivity].
  - split; [discriminate | intros H; inversion H].
  - rewrite andb_true_iff, IH1, IH2. split.
    + intros [H1 H2]. exact (LangCat _ _ "" "" H1 H2).
    + intros H. inversion H as [| |ra rb x y Hx Hy E| | | |]; subst.
      match goal with E : _ +++ _ = "" |- _ => apply append_eq_empty in E; destruct E end.
      subst. auto.
  - rewrite orb_true_iff, IH1, IH2. split.
    + intros [H|H]; [now apply LangAltL | now apply LangAltR].
    + intros H. inversion H; subst; auto.
  - split; [constructor | reflexivity].
Qed.

Lemma Lang_star_cons (r : regex) (c : ascii) (s : string) :
  Lang (RStar r) (String c s) ->
  exists x y, s = x +++ y /\ Lang r (String c x) /\ Lang (RStar r) y.
Proof.
  intros H. remember (RStar r) as rs eqn:Er. remember (String c s) as cs eqn:Es.
  revert s Es. induction H as [| | | | | |r' x y Hx _ Hy IHy]; intros t Et;
    try discriminate.
  injection Er as ->.
  destruct x as [|a x'].
  - cbn in Et. now apply IHy.
  - cbn in Et. injection Et as -> <-. exists x', y. auto.
Qed.

Lemma deriv_Lang (r : regex) : forall c s, Lang (deriv c r) s <-> Lang r (String c s).
Proof.
  induction r as [| |p|r1 IH1 r2 IH2|r1 IH1 r2 IH2|r IH]; intros c s; cbn [deriv].
  - split; intros H; inversion H.
  - split; intros H; inversion H.
  - destruct (p c) eqn:Ep.
    + split; intros H; inversion H; subst; [now constructor | constructor].
    + split; intros H; inversion H; subst. congruence.
  - assert (Hfwd : forall x y, Lang (deriv c r1) x -> Lang r2 y ->
                               Lang (RCat r1 r2) (String c (x +++ y))).
    { intros x y Hx Hy. apply IH1 in Hx.
      exact (LangCat _ _ (String c x) y Hx Hy). }
    assert (Hbwd : Lang (RCat r1 r2) (String c s) ->
                   (exists x y, s = x +++ y /\ Lang (deriv c r1) x /\ Lang r2 y)
                   \/ (Lang r1 "" /\ Lang (deriv c r2) s)).
    { intros H. inversion H as [| |ra rb x y Hx Hy E| | | |]; subst.
      destruct x as [|a x'].
      - right. cbn in *. subst. split; [exact Hx | now apply IH2].
      - left. cbn in *.
        match goal with E : String _ _ = String _ _ |- _ => injection E as -> <- end.
        exists x', y. split; [reflexivity|]. split; [now apply IH1 | exact Hy]. }
    destruct (nullable r1) eqn:En.
    + split.
      * intros H. inversion H as [| | |ra rb x Hx|ra rb x Hx| |]; subst.
        -- inversion Hx; subst. now apply Hfwd.
        -- apply IH2 in Hx. apply nullable_Lang in En.
           exact (LangCat _ _ "" (String c s) En Hx).
      * intros H. destruct (Hbwd H) as [(x & y & -> & Hx & Hy) | [_ H2]].
        -- apply LangAltL. now constructor.
        -- now apply LangAltR.
    + split.
      * intros H. inversion H; subst. now apply Hfwd.
      * intros H. destruct (Hbwd H) as [(x & y & -> & Hx & Hy) | [H1 _]].
        -- now constructor.
        -- apply nullable_Lang in H1. congruence.
  - split; intros H; inversion H; subst;
      [apply LangAltL; now apply IH1 | apply LangAltR; now apply IH2
       | apply LangAltL; now apply IH1 | apply LangAltR; now apply IH2].
  - split.
    + intros H. inversion H as [| |ra rb x y Hx Hy E| | | |]; subst.
      apply IH in Hx. exact (LangStarCons _ (String c x) y Hx Hy).
    + intros H. destruct (Lang_star_cons _ _ _ H) as (x & y & -> & Hx & Hy).
      constructor; [now apply IH | exact Hy].
Qed.

Lemma matchAnchored_Lang (s : string) : forall r, matchAnchored r s = true <-> Lang r s.
Proof.
  induction s as [|c s IH]; intros r; cbn [matchAnchored].
  - apply nullable_Lang.
  - rewrite IH. apply deriv_Lang.
Qed.

Lemma Lang_class_star (p : ascii -> bool) (s : string) :
  Lang (RStar (RClass p)) s <-> allBytes p s = true.
Proof.
  split.
  - intros H. remember (RStar (RClass p)) as rs eqn:Er.
    induction H as [| | | | | |r' x y Hx _ Hy IHy]; try discriminate; [reflexivity|].
    injection Er as ->. inversion Hx; subst. cbn [String.append allBytes].
    apply andb_true_iff. split; [assumption | now apply IHy].
  - induction s as [|c t IH]; cbn [allBytes]; intros H; [constructor|].
    apply andb_true_iff in H. destruct H as [Hc Ht].
    exact (LangStarCons _ (String c "") t (LangClass p c Hc) (IH Ht)).
Qed.

Lemma Lang_alnum_run (s : string) : Lang (RPlus (RClass isAlnum)) s <-> AlnumRun s.
Proof.
  unfold RPlus, AlnumRun. split.
  - intros H. inversion H as [| |ra rb x y Hx Hy E| | | |]; subst.
    inversion Hx; subst. apply Lang_class_star in Hy. cbn [String.append allBytes].
    split; [discriminate|]. apply andb_true_iff. auto.
  - intros [Hne Hall]. destruct s as [|c t]; [now elim Hne|].
    cbn [allBytes] in Hall. apply andb_true_iff in Hall. destruct Hall as [Hc Ht].
    apply (LangCat _ _ (String c "") t); [now constructor | now apply Lang_class_star].
Qed.

Lemma isHyphen_eq (c : ascii) : isHyphen c = true -> String c "" = "-".
Proof. unfold isHyphen. intros H. apply Ascii.eqb_eq in H. now subst. Qed.

Lemma Lang_hyphenated (s : string) :
  Lang (RStar (RCat (RClass isHyphen) (RPlus (RClass isAlnum)))) s
  <-> exists segments, s = hyphenated segments /\ Forall AlnumRun segments.
Proof.
  split.
  - intros H.
    remember (RStar (RCat (RClass isHyphen) (RPlus (RClass isAlnum)))) as rs eqn:Er.
    induction H as [| | | | | |r' x y Hx _ Hy IHy]; try discriminate.
    + exists []. split; [reflexivity | constructor].
    + injection Er as ->. destruct (IHy eq_refl) as (segs & -> & Hsegs).
      inversion Hx as [| |ra rb h seg Hh Hseg E| | | |]; subst.
      inversion Hh as [|q c Hc| | | | |]; subst. apply isHyphen_eq in Hc.
      apply Lang_alnum_run in Hseg.
      exists (seg :: segs). split; [|now constructor].
      cbn [hyphenated]. rewrite Hc. now rewrite !append_assoc.
  - intros (segs & -> & Hsegs). induction Hsegs as [|seg segs Hseg _ IH]; [constructor|].
    cbn [hyphenated]. rewrite <- append_assoc.
    apply LangStarCons; [|exact IH].
    apply (LangCat _ _ "-" seg); [now constructor | now apply Lang_alnum_run].
Qed.

(** The pattern of skill names accepts exactly the hyphenated names. *)
Lemma namePattern_HyphenatedName (s : string) :
  MatchString namePattern s = true <-> HyphenatedName s.
Proof.
  unfold MatchString, namePattern, HyphenatedName. rewrite matchAnchored_Lang. split.
  - intros H. inversion H as [| |ra rb x y Hx Hy E| | | |]; subst.
    apply Lang_alnum_run in Hx. apply Lang_hyphenated in Hy.
    destruct Hy as (segs & -> & Hsegs). now exists x, segs.
  - intros (first & segs & -> & Hfirst & Hsegs).
    constructor; [now apply Lang_alnum_run|].
    apply Lang_hyphenated. now exists segs.
Qed.

(** Scenario 2 of the specification: a space is not allowed in a name. *)
Lemma namePattern_examples :
  MatchString namePattern "test-skill" = true
  /\ MatchString namePattern "bad name" = false
  /\ MatchString namePattern "a--b" = false
  /\ MatchString namePattern "-a" = false
  /\ MatchString namePattern "a-" = false
  /\ MatchString namePattern "" = false.
Proof. repeat split; reflexivity. Qed.

(** ** Markdown helpers: the slices are in range *)

Lemma substring_length_le (s : string) (n m : nat) :
  (String.length (substring n m s) <= String.length s - n)%nat.
Proof.
  revert n m. induction s as [|c s IH]; intros [|n] [|m]; cbn; try lia.
  - specialize (IH 0%nat m). lia.
  - specialize (IH n 0%nat). lia.
  - specialize (IH n (S m)). lia.
Qed.

Lemma index_in_range (sep s : string) (i : nat) :
  String.index 0 sep s = Some i ->
  (i + String.length sep <= String.length s)%nat.
Proof.
  intros H. destruct sep as [|a sep].
  - destruct s; cbn in H; injection H as <-; cbn; lia.
  - pose proof (index_correct1 _ _ _ _ H) as Hs.
    pose proof (substring_length_le s i (String.length (String a sep))) as Hl.
    rewrite Hs in Hl. cbn [String.length] in *. lia.
Qed.

Lemma prefix_length (p s : string) :
  String.prefix p s = true -> (String.length p <= String.length s)%nat.
Proof.
  revert s. induction p as [|a p IH]; intros [|b s] H; cbn in *; try lia; try discriminate.
  destruct (ascii_dec a b); [|discriminate]. specialize (IH s H). lia.
Qed.

(** [content[start:]] in [StripFrontmatter] does not panic: the branch
    [None] of its embedding is never taken. *)
Lemma StripFrontmatter_slice_in_range (content : string) :
  Index content (LF +++ "---") <> (-1)%Z ->
  exists result,
    sliceFrom content (Index content (LF +++ "---") + len (LF +++ "---"))%Z = Some result.
Proof.
  unfold Index. destruct (String.index 0 (LF +++ "---") content) as [i|] eqn:Ei;
    [intros _ | intros H; now elim H].
  apply index_in_range in Ei.
  unfold sliceFrom, slice, len.
  destruct ((0 <=? Z.of_nat i + Z.of_nat (String.length (LF +++ "---")))%Z
            && (Z.of_nat i + Z.of_nat (String.length (LF +++ "---"))
                <=? Z.of_nat (String.length content))%Z
            && (Z.of_nat (String.length content)
                <=? Z.of_nat (String.length content))%Z)%bool eqn:E.
  - eexists. reflexivity.
  - exfalso. rewrite !andb_false_iff, !Z.leb_gt in E. lia.
Qed.

(** [path[len(prefix):]] in [CompactPath] does not panic either. *)
Lemma CompactPath_slice_in_range (path prefix : string) :
  HasPrefix path prefix = true ->
  exists rest, sliceFrom path (len prefix) = Some rest.
Proof.
  unfold HasPrefix. intros H. apply prefix_length in H.
  unfold sliceFrom, slice, len.
  destruct ((0 <=? Z.of_nat (String.length prefix))%Z
            && (Z.of_nat (String.length prefix) <=? Z.of_nat (String.length path))%Z
            && (Z.of_nat (String.length path) <=? Z.of_nat (String.length path))%Z)%bool
    eqn:E.
  - eexists. reflexivity.
  - exfalso. rewrite !andb_false_iff, !Z.leb_gt in E. lia.
Qed.

(** ** Skill registry: validation *)

Lemma validate_nil_iff (info : SkillInfo) :
  validate info = [] <->
  Name info <> ""
  /\ (len (Name info) <= MaxNameLength)%Z
  /\ MatchString namePattern (Name info) = true
  /\ Description info <> ""
  /\ (len (Description info) <= MaxDescriptionLength)%Z.
Proof.
  unfold validate.
  destruct (String.eqb (Name info) "") eqn:En.
  - apply String.eqb_eq in En. split; [discriminate | tauto].
  - apply String.eqb_neq in En.
    destruct (len (Name info) >? MaxNameLength)%Z eqn:El.
    + rewrite Z.gtb_ltb in El. apply Z.ltb_lt in El. split; [discriminate | lia].
    + rewrite Z.gtb_ltb in El. apply Z.ltb_ge in El.
      destruct (MatchString namePattern (Name info)) eqn:Em; cbn [negb List.app].
      * destruct (String.eqb (Description info) "") eqn:Ed.
        -- apply String.eqb_eq in Ed. split; [discriminate | tauto].
        -- apply String.eqb_neq in Ed.
           destruct (len (Description info) >? MaxDescriptionLength)%Z eqn:Eld.
           ++ rewrite Z.gtb_ltb in Eld. apply Z.ltb_lt in Eld. split; [discriminate | lia].
           ++ rewrite Z.gtb_ltb in Eld. apply Z.ltb_ge in Eld. tauto.
      * split; [discriminate | intuition discriminate].
Qed.

Lemma isNil_iff (A : Type) (l : list A) : isNil l = true <-> l = [].
Proof. destruct l; cbn; split; congruence. Qed.

Section SkillsCatalog.

Variable ReadDir : string -> option (list DirEntry).
Variable ReadFile : string -> option string.
Variable Stat : string -> bool.
Variable filepathJoin3 : string -> string -> string -> string.
Variable filepathBase : string -> string.
Variable filepathDir : string -> string.
Variable Getenv : string -> string.
Variable jsonUnmarshal : string -> option (string * string).
Variable parseYamlFrontmatter : string -> option ParsedFrontmatter.
Variable parseLineBasedFrontmatter : string -> ParsedFrontmatter.

Local Abbreviation metadataOf :=
  (getSkillMetadata ReadFile filepathBase filepathDir jsonUnmarshal
                    parseYamlFrontmatter parseLineBasedFrontmatter).
Local Abbreviation entry :=
  (scanEntry ReadFile Stat filepathJoin3 filepathBase filepathDir Getenv
             jsonUnmarshal parseYamlFrontmatter parseLineBasedFrontmatter).
Local Abbreviation entries :=
  (scanEntries ReadFile Stat filepathJoin3 filepathBase filepathDir Getenv
               jsonUnmarshal parseYamlFrontmatter parseLineBasedFrontmatter).
Local Abbreviation root :=
  (scanRoot ReadDir ReadFile Stat filepathJoin3 filepathBase filepathDir Getenv
            jsonUnmarshal parseYamlFrontmatter parseLineBasedFrontmatter).
Local Abbreviation catalogOf :=
  (ListSkills ReadDir ReadFile Stat filepathJoin3 filepathBase filepathDir
              Getenv jsonUnmarshal parseYamlFrontmatter parseLineBasedFrontmatter).
Local Abbreviation candidate := (candidate filepathJoin3 Getenv).

Lemma scanEntry_candidate (rootDir source : string) (shadowing : list string)
      (homeDir : string) (skills : list SkillInfo) (dir : DirEntry)
      (metadata : option SkillMetadata) :
  deIsDir dir = true ->
  Stat (filepathJoin3 rootDir (deName dir) "SKILL.md") = true ->
  shadowed skills (deName dir) shadowing = false ->
  metadataOf (filepathJoin3 rootDir (deName dir) "SKILL.md") = Some metadata ->
  entry rootDir source shadowing homeDir skills dir
  = Some (if isNil (validate (candidate rootDir source homeDir dir metadata))
          then skills ++ [candidate rootDir source homeDir dir metadata]
          else skills).
Proof.
  intros Hdir Hstat Hsh Hmd. unfold scanEntry.
  rewrite Hdir, Hstat, Hsh. rewrite Hmd.
  unfold candidate. destruct metadata as [md|]; cbn [Name Path Source Description
    Metadata siCompactPath];
    match goal with |- context [isNil ?v] => destruct (isNil v) end; reflexivity.
Qed.

(** An entry either leaves the catalog as it is or appends one valid
    candidate of the scanned source. *)
Lemma scanEntry_cases (rootDir source : string) (shadowing : list string)
      (homeDir : string) (skills skills' : list SkillInfo) (dir : DirEntry) :
  entry rootDir source shadowing homeDir skills dir = Some skills' ->
  skills' = skills
  \/ exists metadata,
       skills' = skills ++ [candidate rootDir source homeDir dir metadata]
       /\ validate (candidate rootDir source homeDir dir metadata) = []
       /\ shadowed skills (deName dir) shadowing = false.
Proof.
  unfold scanEntry. intros H.
  destruct (deIsDir dir); [|left; congruence].
  destruct (Stat _); [|left; congruence].
  destruct (shadowed skills (deName dir) shadowing) eqn:Hsh; [left; congruence|].
  destruct (metadataOf _) as [metadata|]; [|discriminate].
  match type of H with context [isNil (validate ?info)] =>
    assert (Ei : info = candidate rootDir source homeDir dir metadata)
      by (unfold candidate; destruct metadata; reflexivity);
    rewrite Ei in H end.
  destruct (isNil (validate (candidate rootDir source homeDir dir metadata))) eqn:Ev;
    cbn [negb] in H.
  - right. exists metadata. apply isNil_iff in Ev. repeat split; congruence.
  - left. congruence.
Qed.

Lemma scanEntries_valid (rootDir source : string) (shadowing : list string)
      (homeDir : string) (dirs : list DirEntry) :
  forall skills skills',
    entries rootDir source shadowing homeDir dirs skills = Some skills' ->
    Forall (fun s => validate s = []) skills ->
    Forall (fun s => validate s = []) skills'.
Proof.
  induction dirs as [|dir rest IH]; intros skills skills' H Hall.
  - cbn in H. congruence.
  - cbn [scanEntries] in H.
    destruct (entry rootDir source shadowing homeDir skills dir) as [s1|] eqn:E;
      [|discriminate].
    apply (IH s1 skills' H).
    destruct (scanEntry_cases _ _ _ _ _ _ _ E) as [-> | (md & -> & Hv & _)]; [exact Hall|].
    apply Forall_app. split; [exact Hall | now constructor].
Qed.

Lemma scanRoot_valid (rootDir source : string) (shadowing : list string)
      (homeDir : string) (skills skills' : list SkillInfo) :
  root rootDir source shadowing homeDir skills = Some skills' ->
  Forall (fun s => validate s = []) skills ->
  Forall (fun s => validate s = []) skills'.
Proof.
  unfold scanRoot. intros H Hall.
  destruct (negb (String.eqb rootDir "")); [|congruence].
  destruct (ReadDir rootDir) as [dirs|]; [|congruence].
  exact (scanEntries_valid _ _ _ _ _ _ _ H Hall).
Qed.

Lemma scanEntries_total (rootDir source : string) (shadowing : list string)
      (homeDir : string) (dirs : list DirEntry) :
  (forall p, metadataOf p <> None) ->
  forall skills, exists skills',
    entries rootDir source shadowing homeDir dirs skills = Some skills'.
Proof.
  intros Hmd. induction dirs as [|dir rest IH]; intros skills.
  - exists skills. reflexivity.
  - cbn [scanEntries].
    assert (Hs : exists s1, entry rootDir source shadowing homeDir skills dir = Some s1).
    { unfold scanEntry.
      destruct (deIsDir dir); [|eauto].
      destruct (Stat _); [|eauto].
      destruct (shadowed _ _ _); [eauto|].
      destruct (metadataOf _) as [md|] eqn:E; [|now apply Hmd in E].
      match goal with |- context [negb ?b] => destruct (negb b) end; eauto. }
    destruct Hs as (s1 & ->). apply IH.
Qed.

Lemma ListSkills_total (sl : SkillsLoader) :
  (forall p, metadataOf p <> None) -> exists catalog, catalogOf sl = Some catalog.
Proof.
  intros Hmd.
  assert (Hroot : forall r src sh home skills,
             exists skills', root r src sh home skills = Some skills').
  { intros r src sh home skills. unfold scanRoot.
    destruct (negb (String.eqb r "")); [|eauto].
    destruct (ReadDir r) as [dirs|]; [|eauto].
    apply (scanEntries_total _ _ _ _ _ Hmd). }
  unfold ListSkills.
  set (home := if String.eqb (Getenv "HOME") "" then Getenv "USERPROFILE" else Getenv "HOME").
  destruct (Hroot (workspaceSkills sl) "workspace" [] home []) as (s1 & ->).
  destruct (Hroot (globalSkills sl) "global" ["workspace"] home s1) as (s2 & ->).
  apply Hroot.
Qed.

Lemma ListSkills_valid (sl : SkillsLoader) (catalog : list SkillInfo) :
  catalogOf sl = Some catalog -> Forall (fun s => validate s = []) catalog.
Proof.
  unfold ListSkills.
  set (home := if String.eqb (Getenv "HOME") "" then Getenv "USERPROFILE" else Getenv "HOME").
  intros H.
  destruct (root (workspaceSkills sl) "workspace" [] home []) as [s1|] eqn:E1; [|discriminate].
  destruct (root (globalSkills sl) "global" ["workspace"] home s1) as [s2|] eqn:E2;
    [|discriminate].
  apply (scanRoot_valid _ _ _ _ _ _ H).
  apply (scanRoot_valid _ _ _ _ _ _ E2).
  apply (scanRoot_valid _ _ _ _ _ _ E1). constructor.
Qed.

End SkillsCatalog.

Lemma validate_reject_iff (info : SkillInfo) :
  validate info <> [] <->
  Name info = ""
  \/ (len (Name info) > MaxNameLength)%Z
  \/ MatchString namePattern (Name info) = false
  \/ Description info = ""
  \/ (len (Description info) > MaxDescriptionLength)%Z.
Proof.
  rewrite validate_nil_iff. split.
  - intros H.
    destruct (string_dec (Name info) "") as [?|Hn]; [tauto|].
    destruct (Z_le_gt_dec (len (Name info)) MaxNameLength) as [Hl|?]; [|tauto].
    destruct (MatchString namePattern (Name info)) eqn:Em; [|tauto].
    destruct (string_dec (Description info) "") as [?|Hd]; [tauto|].
    destruct (Z_le_gt_dec (len (Description info)) MaxDescriptionLength) as [Hld|?]; [|tauto].
    exfalso. apply H. tauto.
  - intros H (Hn & Hl & Hm & Hd & Hld).
    destruct H as [H | [H | [H | [H | H]]]]; try congruence; lia.
Qed.

(** C9: validation rejects a candidate exactly when its name is empty,
    longer than 64, or does not match the pattern, or its description is
    empty or longer than 1024; the pattern accepts the runs of letters
    and digits separated by single hyphens; a rejected candidate leaves the catalog
    unchanged; every skill of the catalog has passed validation; and
    [ListSkills] returns a catalog whatever validation answers, as long
    as reading the metadata itself does not panic. *)
Theorem C9_validate_rejects_and_skips
        (ReadDir : string -> option (list DirEntry))
        (ReadFile : string -> option string) (Stat : string -> bool)
        (filepathJoin3 : string -> string -> string -> string)
        (filepathBase filepathDir Getenv : string -> string)
        (jsonUnmarshal : string -> option (string * string))
        (parseYamlFrontmatter : string -> option ParsedFrontmatter)
        (parseLineBasedFrontmatter : string -> ParsedFrontmatter) :
  let metadataOf := getSkillMetadata ReadFile filepathBase filepathDir jsonUnmarshal
                      parseYamlFrontmatter parseLineBasedFrontmatter in
  let entry := scanEntry ReadFile Stat filepathJoin3 filepathBase filepathDir Getenv
                 jsonUnmarshal parseYamlFrontmatter parseLineBasedFrontmatter in
  let catalogOf := ListSkills ReadDir ReadFile Stat filepathJoin3 filepathBase filepathDir
                     Getenv jsonUnmarshal parseYamlFrontmatter parseLineBasedFrontmatter in
  (forall info,
      validate info <> [] <->
      Name info = ""
      \/ (len (Name info) > 64)%Z
      \/ MatchString namePattern (Name info) = false
      \/ Description info = ""
      \/ (len (Description info) > 1024)%Z)
  /\ (forall s, MatchString namePattern s = true <-> HyphenatedName s)
  /\ (forall rootDir source shadowing homeDir skills dir metadata,
         deIsDir dir = true ->
         Stat (filepathJoin3 rootDir (deName dir) "SKILL.md") = true ->
         metadataOf (filepathJoin3 rootDir (deName dir) "SKILL.md") = Some metadata ->
         validate (candidate filepathJoin3 Getenv rootDir source homeDir dir metadata) <> [] ->
         entry rootDir source shadowing homeDir skills dir = Some skills)
  /\ (forall sl catalog, catalogOf sl = Some catalog ->
                         Forall (fun s => validate s = []) catalog)
  /\ (forall sl, (forall p, metadataOf p <> None) ->
                 exists catalog, catalogOf sl = Some catalog).
Proof.
  intros metadataOf entry catalogOf.
  split; [exact validate_reject_iff | split; [exact namePattern_HyphenatedName | split; [|split]]].
  - intros rootDir source shadowing homeDir skills dir metadata Hdir Hstat Hmd Hbad.
    destruct (shadowed skills (deName dir) shadowing) eqn:Hsh.
    + unfold entry, scanEntry. now rewrite Hdir, Hstat, Hsh.
    + unfold entry.
      rewrite (scanEntry_candidate ReadFile Stat filepathJoin3 filepathBase filepathDir
                 Getenv jsonUnmarshal parseYamlFrontmatter parseLineBasedFrontmatter
                 rootDir source shadowing homeDir skills dir metadata Hdir Hstat Hsh Hmd).
      destruct (isNil _) eqn:E; [|reflexivity].
      apply isNil_iff in E. now elim Hbad.
  - intros sl catalog. apply ListSkills_valid.
  - intros sl. apply ListSkills_total.
Qed.

(** ** Skill registry: names in the catalog *)

(** C3: evaluation at a failing input.  The workspace root has the
    directory [a] and the global root the directory [b]; both SKILL.md
    files declare the name [foo].  The global candidate is compared by its
    directory name [b] with the admitted names, so it is admitted as well
    and the catalog holds the name [foo] twice. *)
Theorem C3_ListSkills_same_name_twice
        (parseYamlFrontmatter : string -> option ParsedFrontmatter)
        (parseLineBasedFrontmatter : string -> ParsedFrontmatter) :
  parseYamlFrontmatter (frontmatterBlock "foo" "first")
  = Some [("name", "foo"); ("description", "first")] ->
  parseLineBasedFrontmatter (frontmatterBlock "foo" "first")
  = [("name", "foo"); ("description", "first")] ->
  parseYamlFrontmatter (frontmatterBlock "foo" "second")
  = Some [("name", "foo"); ("description", "second")] ->
  parseLineBasedFrontmatter (frontmatterBlock "foo" "second")
  = [("name", "foo"); ("description", "second")] ->
  exists first second,
    ListSkills dupReadDir dupReadFile dupStat unixJoin3 unixBase unixDir noEnv notJSON
               parseYamlFrontmatter parseLineBasedFrontmatter dupLoader
    = Some [first; second]
    /\ Name first = "foo" /\ Source first = "workspace"
    /\ Path first = "ws/skills/a/SKILL.md"
    /\ Name second = "foo" /\ Source second = "global"
    /\ Path second = "home/.picoclaw/skills/b/SKILL.md".
Proof.
  intros Hy1 Hl1 Hy2 Hl2.
  vm_compute in Hy1, Hy2, Hl1, Hl2.
  do 2 eexists. split.
  - vm_compute. rewrite Hy1, Hl1. vm_compute. rewrite Hy2, Hl2. vm_compute. reflexivity.
  - repeat split.
Qed.



Lemma C3_ListSkills_same_name_twice_witness :
  exists first second,
    ListSkills dupReadDir dupReadFile dupStat unixJoin3 unixBase unixDir noEnv notJSON
               tableYaml tableLine dupLoader
    = Some [first; second]
    /\ Name first = "foo" /\ Source first = "workspace"
    /\ Path first = "ws/skills/a/SKILL.md"
    /\ Name second = "foo" /\ Source second = "global"
    /\ Path second = "home/.picoclaw/skills/b/SKILL.md".
Proof.
  apply (C3_ListSkills_same_name_twice tableYaml tableLine); reflexivity.
Defined.

(** ** Skill registry: loading a body by name *)

Section LoadByName.

Variable ReadFile : string -> option string.
Variable filepathJoin3 : string -> string -> string -> string.

Local Abbreviation firstReadable := (firstReadable ReadFile filepathJoin3).

Lemma LoadSkill_firstReadable (sl : SkillsLoader) (name : string) :
  LoadSkill ReadFile filepathJoin3 sl name
  = match firstReadable [workspaceSkills sl; globalSkills sl; builtinSkills sl] name with
    | Some content => (StripFrontmatter content, true)
    | None => ("", false)
    end.
Proof.
  unfold LoadSkill, tryLoad. cbn [firstReadable].
  destruct (String.eqb (workspaceSkills sl) ""); cbn [negb];
    [|destruct (ReadFile (filepathJoin3 (workspaceSkills sl) name "SKILL.md"));
      [reflexivity|]];
    (destruct (String.eqb (globalSkills sl) ""); cbn [negb];
     [|destruct (ReadFile (filepathJoin3 (globalSkills sl) name "SKILL.md"));
       [reflexivity|]]);
    (destruct (String.eqb (builtinSkills sl) ""); cbn [negb];
     [reflexivity
     |destruct (ReadFile (filepathJoin3 (builtinSkills sl) name "SKILL.md"));
      reflexivity]).
Qed.

End LoadByName.


(** ** Pruning: what both passes keep and what they count *)

Lemma Subseq_refl (A : Type) (l : list A) : Subseq l l.
Proof. induction l; constructor; assumption. Qed.

Lemma Subseq_filter (A : Type) (f : A -> bool) (l : list A) : Subseq (filter f l) l.
Proof.
  induction l as [|x l IH]; cbn [filter]; [constructor|].
  destruct (f x); constructor; exact IH.
Qed.

Lemma Subseq_app (A : Type) (s1 l1 s2 l2 : list A) :
  Subseq s1 l1 -> Subseq s2 l2 -> Subseq (s1 ++ s2) (l1 ++ l2).
Proof.
  intros H1 H2. induction H1; cbn [List.app]; try constructor; assumption.
Qed.

Lemma Subseq_trans (A : Type) (a b c : list A) :
  Subseq a b -> Subseq b c -> Subseq a c.
Proof.
  intros Hab Hbc. revert a Hab.
  induction Hbc as [|x s l Hsl IH|x s l Hsl IH]; intros a Hab.
  - exact Hab.
  - apply SubseqSkip. now apply IH.
  - inversion Hab; subst.
    + apply SubseqSkip. now apply IH.
    + apply SubseqKeep. now apply IH.
Qed.

Lemma Subseq_In (A : Type) (s l : list A) (x : A) : Subseq s l -> In x s -> In x l.
Proof.
  intros H. induction H; cbn [In]; intros Hx; auto.
  destruct Hx as [->|Hx]; auto.
Qed.

Lemma filter_weaker (A : Type) (f g : A -> bool) (l : list A) :
  (forall x, f x = true -> g x = true) -> filter f (filter g l) = filter f l.
Proof.
  intros H. induction l as [|x l IH]; cbn [filter]; [reflexivity|].
  destruct (g x) eqn:Eg; cbn [filter].
  - now rewrite IH.
  - destruct (f x) eqn:Ef; [|exact IH]. apply H in Ef. congruence.
Qed.

Lemma sumChars_app (a b : list Message) :
  sumChars (a ++ b) = (sumChars a + sumChars b)%Z.
Proof. induction a as [|x a IH]; cbn [List.app sumChars]; lia. Qed.

Lemma sumChars_nonneg (l : list Message) : (0 <= sumChars l)%Z.
Proof.
  induction l as [|x l IH]; cbn [sumChars]; [lia|].
  pose proof (len_nonneg (Content x)). lia.
Qed.

(** The counters of the first loop account for every message it leaves
    out. *)
Lemma ttlLoop_stats (m : nat) (rest : list Message) :
  forall (i : nat) (pruned : list Message) (stats : PruningStats),
    let r := ttlLoop m i rest pruned stats in
    (Z.of_nat (List.length (fst r)) + MessagesRemoved (snd r)
     = Z.of_nat (List.length pruned) + Z.of_nat (List.length rest) + MessagesRemoved stats)%Z
    /\ (sumChars (fst r) + CharsSaved (snd r)
        = sumChars pruned + sumChars rest + CharsSaved stats)%Z
    /\ ToolResultsRemoved (snd r) = ToolResultsRemoved stats
    /\ (MessagesRemoved stats <= MessagesRemoved (snd r))%Z
    /\ (CharsSaved stats <= CharsSaved (snd r))%Z.
Proof.
  induction rest as [|x rest IH]; intros i pruned stats; cbv zeta.
  - cbn [ttlLoop fst snd List.length sumChars]. lia.
  - cbn [ttlLoop].
    pose proof (len_nonneg (Content x)) as Hx.
    destruct (isRole "system" x); [|destruct (m <=? i)%nat].
    + specialize (IH (S i) (pruned ++ [x]) stats). cbv zeta in IH.
      rewrite length_app, sumChars_app in IH. cbn [List.length sumChars] in *. lia.
    + specialize (IH (S i) (pruned ++ [x]) stats). cbv zeta in IH.
      rewrite length_app, sumChars_app in IH. cbn [List.length sumChars] in *. lia.
    + match goal with |- context [ttlLoop m (S i) rest pruned ?st] =>
        specialize (IH (S i) pruned st) end.
      cbv zeta in IH.
      cbn [List.length sumChars MessagesRemoved ToolResultsRemoved CharsSaved] in *. lia.
Qed.

Lemma toolLoop_stats (set : list nat) (minChars : Z) (rest : list Message) :
  forall (i : nat) (pruned : list Message) (stats : PruningStats),
    let r := toolLoop set minChars i rest pruned stats in
    (Z.of_nat (List.length (fst r)) + ToolResultsRemoved (snd r)
     = Z.of_nat (List.length pruned) + Z.of_nat (List.length rest)
       + ToolResultsRemoved stats)%Z
    /\ (sumChars (fst r) + CharsSaved (snd r)
        = sumChars pruned + sumChars rest + CharsSaved stats)%Z
    /\ MessagesRemoved (snd r) = MessagesRemoved stats
    /\ (ToolResultsRemoved stats <= ToolResultsRemoved (snd r))%Z
    /\ (CharsSaved stats <= CharsSaved (snd r))%Z.
Proof.
  induction rest as [|x rest IH]; intros i pruned stats; cbv zeta.
  - cbn [toolLoop fst snd List.length sumChars]. lia.
  - cbn [toolLoop].
    pose proof (len_nonneg (Content x)) as Hx.
    destruct (isRole "tool" x && negb (inSet set i) && (len (Content x) <? minChars)%Z)%bool.
    + match goal with |- context [toolLoop set minChars (S i) rest pruned ?st] =>
        specialize (IH (S i) pruned st) end.
      cbv zeta in IH.
      cbn [List.length sumChars MessagesRemoved ToolResultsRemoved CharsSaved] in *. lia.
    + specialize (IH (S i) (pruned ++ [x]) stats). cbv zeta in IH.
      rewrite length_app, sumChars_app in IH. cbn [List.length sumChars] in *. lia.
Qed.

Lemma pruneContextByTTL_stats (l : list Message) (config : PruningConfig) :
  let r := pruneContextByTTL l config in
  (MessagesRemoved (snd r) = Z.of_nat (List.length l) - Z.of_nat (List.length (fst r)))%Z
  /\ (CharsSaved (snd r) = sumChars l - sumChars (fst r))%Z
  /\ ToolResultsRemoved (snd r) = 0%Z
  /\ (0 <= MessagesRemoved (snd r))%Z /\ (0 <= CharsSaved (snd r))%Z.
Proof.
  cbv zeta. unfold pruneContextByTTL.
  destruct (negb (String.eqb (Mode config) PruningModeCacheTTL)).
  - cbn [fst snd noStats MessagesRemoved ToolResultsRemoved CharsSaved]. lia.
  - destruct l as [|x l'].
    + cbn [fst snd noStats MessagesRemoved ToolResultsRemoved CharsSaved List.length sumChars].
      lia.
    + match goal with |- context [ttlLoop ?m 0 ?rest [] noStats] =>
        pose proof (ttlLoop_stats m rest 0 [] noStats) as H end.
      cbv zeta in H.
      cbn [noStats MessagesRemoved ToolResultsRemoved CharsSaved List.length sumChars] in H.
      cbn [List.length sumChars]. lia.
Qed.

Lemma pruneToolResults_stats (l : list Message) (config : PruningConfig) :
  let r := pruneToolResults l config in
  (ToolResultsRemoved (snd r) = Z.of_nat (List.length l) - Z.of_nat (List.length (fst r)))%Z
  /\ (CharsSaved (snd r) = sumChars l - sumChars (fst r))%Z
  /\ MessagesRemoved (snd r) = 0%Z
  /\ (0 <= ToolResultsRemoved (snd r))%Z /\ (0 <= CharsSaved (snd r))%Z.
Proof.
  cbv zeta. unfold pruneToolResults.
  destruct (negb (String.eqb (Mode config) PruningModeCacheTTL)).
  - cbn [fst snd noStats MessagesRemoved ToolResultsRemoved CharsSaved]. lia.
  - match goal with |- context [toolLoop ?set ?n 0 l [] noStats] =>
      pose proof (toolLoop_stats set n l 0 [] noStats) as H end.
    cbv zeta in H.
    cbn [noStats MessagesRemoved ToolResultsRemoved CharsSaved List.length sumChars] in H.
    lia.
Qed.

Lemma ApplyPruning_pair (l : list Message) (config : PruningConfig) :
  ApplyPruning l config
  = if String.eqb (Mode config) PruningModeOff then (l, noStats)
    else
      let t := pruneToolResults l config in
      let c := pruneContextByTTL (fst t) config in
      (fst c,
       {| MessagesRemoved := 0 + MessagesRemoved (snd c);
          ToolResultsRemoved := 0 + ToolResultsRemoved (snd t);
          CharsSaved := 0 + CharsSaved (snd t) + CharsSaved (snd c) |}).
Proof.
  unfold ApplyPruning. destruct (String.eqb (Mode config) PruningModeOff); [reflexivity|].
  destruct (pruneToolResults l config) as [l1 s1]. cbn [fst snd].
  destruct (pruneContextByTTL l1 config) as [l2 s2]. reflexivity.
Qed.

(** X3: the statistics [ApplyPruning] returns account for its output:
    the two removal counters add up to the number of messages that are
    gone, and [CharsSaved] is the content that went with them. *)
Theorem ApplyPruning_stats_account (l : list Message) (config : PruningConfig) :
  let out := fst (ApplyPruning l config) in
  let stats := snd (ApplyPruning l config) in
  (MessagesRemoved stats + ToolResultsRemoved stats
   = Z.of_nat (List.length l) - Z.of_nat (List.length out))%Z
  /\ (CharsSaved stats = sumChars l - sumChars out)%Z
  /\ (0 <= MessagesRemoved stats)%Z
  /\ (0 <= ToolResultsRemoved stats)%Z
  /\ (0 <= CharsSaved stats)%Z.
Proof.
  cbv zeta. rewrite ApplyPruning_pair.
  destruct (String.eqb (Mode config) PruningModeOff).
  - cbn [fst snd noStats MessagesRemoved ToolResultsRemoved CharsSaved]. lia.
  - cbv zeta. cbn [fst snd MessagesRemoved ToolResultsRemoved CharsSaved].
    pose proof (pruneToolResults_stats l config) as Ht.
    pose proof (pruneContextByTTL_stats (fst (pruneToolResults l config)) config) as Hc.
    cbv zeta in Ht, Hc. lia.
Qed.

Lemma not_cache_ttl_passes (l : list Message) (config : PruningConfig) :
  Mode config <> PruningModeCacheTTL ->
  pruneToolResults l config = (l, noStats) /\ pruneContextByTTL l config = (l, noStats).
Proof.
  intros H. apply String.eqb_neq in H.
  unfold pruneToolResults, pruneContextByTTL. now rewrite H.
Qed.

Lemma toolPass_keeps_filter (config : PruningConfig) (l : list Message) :
  Mode config = PruningModeCacheTTL ->
  filter (keepsTool (MinPrunableToolChars config)) (fst (pruneToolResults l config))
  = filter (keepsTool (MinPrunableToolChars config)) l.
Proof.
  intros Hmode. rewrite pruneToolResults_cut by exact Hmode.
  rewrite filter_app, filter_filter_same, <- filter_app. now rewrite firstn_skipn.
Qed.

Lemma toolPass_system (config : PruningConfig) (l : list Message) :
  filter (isRole "system") (fst (pruneToolResults l config)) = filter (isRole "system") l.
Proof.
  destruct (string_dec (Mode config) PruningModeCacheTTL) as [Hmode|Hmode].
  - rewrite <- (filter_weaker _ (isRole "system") (keepsTool (MinPrunableToolChars config))
                  (fst (pruneToolResults l config))).
    + rewrite toolPass_keeps_filter by exact Hmode. apply filter_weaker.
      intros x Hx. apply keepsTool_other. apply (isRole_distinct "system" "tool"); [discriminate|exact Hx].
    + intros x Hx. apply keepsTool_other. apply (isRole_distinct "system" "tool"); [discriminate|exact Hx].
  - now rewrite (proj1 (not_cache_ttl_passes l config Hmode)).
Qed.

Lemma ttlPass_system (config : PruningConfig) (l : list Message) :
  filter (isRole "system") (fst (pruneContextByTTL l config)) = filter (isRole "system") l.
Proof.
  destruct (string_dec (Mode config) PruningModeCacheTTL) as [Hmode|Hmode].
  - rewrite pruneContextByTTL_cut by exact Hmode.
    rewrite filter_app, filter_filter_same, <- filter_app. now rewrite firstn_skipn.
  - now rewrite (proj2 (not_cache_ttl_passes l config Hmode)).
Qed.

Lemma toolPass_Subseq (config : PruningConfig) (l : list Message) :
  Subseq (fst (pruneToolResults l config)) l.
Proof.
  destruct (string_dec (Mode config) PruningModeCacheTTL) as [Hmode|Hmode].
  - rewrite pruneToolResults_cut by exact Hmode.
    set (m := toolCut l).
    pose proof (Subseq_app _ _ _ _ _ (Subseq_filter _ (keepsTool (MinPrunableToolChars config))
                                       (firstn m l)) (Subseq_refl _ (skipn m l))) as H.
    now rewrite firstn_skipn in H.
  - rewrite (proj1 (not_cache_ttl_passes l config Hmode)). apply Subseq_refl.
Qed.

Lemma ttlPass_Subseq (config : PruningConfig) (l : list Message) :
  Subseq (fst (pruneContextByTTL l config)) l.
Proof.
  destruct (string_dec (Mode config) PruningModeCacheTTL) as [Hmode|Hmode].
  - rewrite pruneContextByTTL_cut by exact Hmode.
    set (m := ttlCut config l).
    pose proof (Subseq_app _ _ _ _ _ (Subseq_filter _ (isRole "system") (firstn m l))
                           (Subseq_refl _ (skipn m l))) as H.
    now rewrite firstn_skipn in H.
  - rewrite (proj2 (not_cache_ttl_passes l config Hmode)). apply Subseq_refl.
Qed.

(** X1: whatever the configuration, [ApplyPruning] returns every system
    message of its input, in the order they had. *)
Theorem ApplyPruning_keeps_system_messages (l : list Message) (config : PruningConfig) :
  filter (isRole "system") (fst (ApplyPruning l config)) = filter (isRole "system") l.
Proof.
  rewrite ApplyPruning_fst.
  destruct (String.eqb (Mode config) PruningModeOff); [reflexivity|].
  now rewrite ttlPass_system, toolPass_system.
Qed.

(** X2: [ApplyPruning] only removes: its output is the input with some
    messages left out, nothing added, changed or reordered. *)
Theorem ApplyPruning_only_removes (l : list Message) (config : PruningConfig) :
  Subseq (fst (ApplyPruning l config)) l.
Proof.
  rewrite ApplyPruning_fst.
  destruct (String.eqb (Mode config) PruningModeOff); [apply Subseq_refl|].
  apply (Subseq_trans _ _ (fst (pruneToolResults l config))).
  - apply ttlPass_Subseq.
  - apply toolPass_Subseq.
Qed.

(** X4: in mode cache-ttl, [pruneToolResults] keeps, in order, every
    message that is not a tool result shorter than
    [MinPrunableToolChars]; it keeps the last three tool results whatever
    their size; and a message that is gone was a tool result shorter than
    the threshold. *)
Theorem pruneToolResults_keeps (l : list Message) (config : PruningConfig) :
  Mode config = PruningModeCacheTTL ->
  let out := fst (pruneToolResults l config) in
  let minChars := MinPrunableToolChars config in
  filter (keepsTool minChars) out = filter (keepsTool minChars) l
  /\ lastN 3 (filter (isRole "tool") out) = lastN 3 (filter (isRole "tool") l)
  /\ (forall m, In m l -> ~ In m out ->
                isRole "tool" m = true /\ (len (Content m) < minChars)%Z).
Proof.
  intros Hmode out minChars. subst out minChars.
  split; [now apply toolPass_keeps_filter | split].
  - pose proof (lastIndices_split "tool" 3 l) as HS. cbv zeta in HS.
    rewrite (pruneToolResults_split l _ _ config Hmode HS).
    set (pre := firstn _ l) in *. set (kept := skipn _ l) in *.
    destruct HS as [Happ Hhd Hmost Hfull].
    replace (filter (isRole "tool") l)
      with (filter (isRole "tool") pre ++ filter (isRole "tool") kept)
      by (now rewrite <- filter_app, <- Happ).
    rewrite filter_app.
    destruct Hfull as [Hfull | Hzero].
    + rewrite !lastN_app; [reflexivity| |]; unfold countRole, keepCount in Hfull; lia.
    + assert (Hpre : filter (isRole "tool") pre = []) by now apply length_zero_iff_nil.
      rewrite Hpre. rewrite filter_keepsTool_none by exact Hzero. now rewrite Hpre.
  - intros m Hin Hout. rewrite pruneToolResults_cut in Hout by exact Hmode.
    rewrite <- (firstn_skipn (toolCut l) l) in Hin.
    apply in_app_or in Hin. destruct Hin as [Hpre | Hkept].
    + destruct (keepsTool (MinPrunableToolChars config) m) eqn:Ek.
      * exfalso. apply Hout. apply in_or_app. left. apply filter_In. auto.
      * unfold keepsTool in Ek. apply negb_false_iff, andb_true_iff in Ek.
        destruct Ek as [Et Es]. apply Z.ltb_lt in Es. auto.
    + exfalso. apply Hout. apply in_or_app. now right.
Qed.

Lemma pruneToolResults_keeps_witness :
  Mode exampleTTLConfig = PruningModeCacheTTL
  /\ filter (keepsTool 1000) (fst (pruneToolResults exampleHistory exampleTTLConfig))
     = filter (keepsTool 1000) exampleHistory.
Proof.
  split; [reflexivity|].
  exact (proj1 (pruneToolResults_keeps exampleHistory exampleTTLConfig eq_refl)).
Defined.

Lemma filter_notRole_isRole (r : string) (l : list Message) :
  filter (notRole r) (filter (isRole r) l) = [].
Proof.
  induction l as [|x l IH]; [reflexivity|]. cbn [filter].
  destruct (isRole r x) eqn:E; [|exact IH].
  cbn [filter]. unfold notRole at 1. rewrite E. exact IH.
Qed.

Lemma stripLeadingTools_id (l : list Message) :
  match l with [] => True | x :: _ => isRole "tool" x = false end ->
  stripLeadingTools l = l.
Proof. destruct l as [|x l]; cbn [stripLeadingTools]; [reflexivity|]. now intros ->. Qed.

(** X5: in mode cache-ttl the first message of the pruned history that
    is not a system message is an assistant message, so the history never
    opens with a tool result: the defensive loop of [BuildMessages] has
    nothing to strip from it. *)
Theorem ApplyPruning_opens_with_assistant (l : list Message) (config : PruningConfig) :
  Mode config = PruningModeCacheTTL ->
  let out := fst (ApplyPruning l config) in
  match filter (notRole "system") out with
  | [] => True
  | x :: _ => isRole "assistant" x = true
  end
  /\ stripLeadingTools out = out.
Proof.
  intros Hmode out. subst out. rewrite ApplyPruning_fst, Hmode.
  change (String.eqb PruningModeCacheTTL PruningModeOff) with false. cbv iota.
  set (y := fst (pruneToolResults l config)).
  pose proof (lastIndices_split "assistant" (KeepLastAssistants config) y) as HS.
  cbv zeta in HS. rewrite (pruneContextByTTL_split y _ _ config Hmode HS).
  set (pre := firstn _ y) in *. set (kept := skipn _ y) in *.
  destruct HS as [Happ Hhd Hmost Hfull].
  pose proof (filter_notRole_isRole "system" pre) as Hsys.
  split.
  - rewrite filter_app, Hsys. cbn [List.app].
    destruct kept as [|x kept']; [exact I|]. cbn [filter]. unfold notRole at 1.
    rewrite (isRole_distinct "assistant" "system" x ltac:(discriminate) Hhd).
    exact Hhd.
  - apply stripLeadingTools_id.
    destruct (filter (isRole "system") pre) as [|s rest] eqn:Es.
    + cbn [List.app]. destruct kept as [|x kept']; [exact I|].
      apply (isRole_distinct "assistant" "tool"); [discriminate | exact Hhd].
    + cbn [List.app].
      assert (Hs : In s (filter (isRole "system") pre)) by (rewrite Es; now left).
      apply filter_In in Hs. destruct Hs as [_ Hs].
      apply (isRole_distinct "system" "tool"); [discriminate | exact Hs].
Qed.

Lemma ApplyPruning_opens_with_assistant_witness :
  Mode exampleTTLConfig = PruningModeCacheTTL
  /\ stripLeadingTools (fst (ApplyPruning exampleHistory exampleTTLConfig))
     = fst (ApplyPruning exampleHistory exampleTTLConfig).
Proof.
  split; [reflexivity|].
  exact (proj2 (ApplyPruning_opens_with_assistant exampleHistory exampleTTLConfig eq_refl)).
Defined.

(** X6: in mode cache-ttl a history without an assistant message is
    reduced to its system messages: the user's messages and the tool
    results are removed, the newest included. *)
Theorem ApplyPruning_without_assistant (l : list Message) (config : PruningConfig) :
  Mode config = PruningModeCacheTTL ->
  countRole "assistant" l = 0%nat ->
  fst (ApplyPruning l config) = filter (isRole "system") l.
Proof.
  intros Hmode Hzero. rewrite ApplyPruning_fst, Hmode.
  change (String.eqb PruningModeCacheTTL PruningModeOff) with false. cbv iota.
  rewrite pruneContextByTTL_no_assistant; [apply toolPass_system | exact Hmode |].
  apply countRole_zero. intros x Hx.
  apply (proj1 (countRole_zero "assistant" l) Hzero).
  exact (Subseq_In _ _ _ _ (toolPass_Subseq config l) Hx).
Qed.

Lemma ApplyPruning_without_assistant_witness :
  Mode exampleTTLConfig = PruningModeCacheTTL
  /\ countRole "assistant" exampleOpening = 0%nat
  /\ fst (ApplyPruning exampleOpening exampleTTLConfig) = [mkMessage "system" "rules" [] ""].
Proof.
  split; [reflexivity | split; [reflexivity|]].
  exact (ApplyPruning_without_assistant exampleOpening exampleTTLConfig eq_refl eq_refl).
Defined.

Lemma scanBack_limit_below_one (role : string) (limit : Z) (l : list Message) (i : nat) :
  (limit <= 1)%Z -> scanBack role limit l i [] = scanBack role 1 l i [].
Proof.
  intros H. induction i as [|j IH]; cbn [scanBack]; [reflexivity|].
  destruct (isRole role (msgAt l j)); [|exact IH].
  cbn [List.length].
  replace (Z.of_nat 1 >=? limit)%Z with true by (symmetry; apply Z.geb_le; lia).
  reflexivity.
Qed.

(** X7: a bound [KeepLastAssistants] of one, zero or less keeps one
    assistant message: the scan tests the bound only after it has
    collected a message, so such a configuration prunes, and counts, as
    the bound one does. *)
Theorem ApplyPruning_keep_bound_below_one (l : list Message) (config : PruningConfig) :
  (KeepLastAssistants config <= 1)%Z ->
  ApplyPruning l config = ApplyPruning l (withKeepLastAssistants config 1).
Proof.
  intros HK.
  assert (Htool : forall x, pruneToolResults x (withKeepLastAssistants config 1)
                            = pruneToolResults x config) by reflexivity.
  assert (Httl : forall x, pruneContextByTTL x (withKeepLastAssistants config 1)
                           = pruneContextByTTL x config).
  { intros x. unfold pruneContextByTTL.
    cbn [withKeepLastAssistants Mode KeepLastAssistants].
    unfold lastIndices. now rewrite (scanBack_limit_below_one _ _ _ _ HK). }
  rewrite !ApplyPruning_pair. cbv zeta.
  cbn [withKeepLastAssistants Mode]. now rewrite !Htool, !Httl.
Qed.

Lemma ApplyPruning_keep_bound_below_one_witness :
  (KeepLastAssistants exampleZeroKeepConfig <= 1)%Z
  /\ ApplyPruning exampleHistory exampleZeroKeepConfig
     = ApplyPruning exampleHistory (withKeepLastAssistants exampleZeroKeepConfig 1).
Proof.
  split; [cbn; lia|].
  apply (ApplyPruning_keep_bound_below_one exampleHistory exampleZeroKeepConfig).
  cbn; lia.
Defined.

(** X8: every mode other than cache-ttl switches pruning off: an empty
    or misspelt mode returns the history as it is, with all counters at
    zero, as the mode off does. *)
Theorem ApplyPruning_other_modes (l : list Message) (config : PruningConfig) :
  Mode config <> PruningModeCacheTTL -> ApplyPruning l config = (l, noStats).
Proof.
  intros H. rewrite ApplyPruning_pair.
  destruct (String.eqb (Mode config) PruningModeOff); [reflexivity|].
  cbv zeta. destruct (not_cache_ttl_passes l config H) as [-> _].
  cbn [fst snd]. destruct (not_cache_ttl_passes l config H) as [_ ->].
  reflexivity.
Qed.

Lemma ApplyPruning_other_modes_witness :
  Mode DefaultPruningConfig <> PruningModeCacheTTL
  /\ ApplyPruning exampleHistory DefaultPruningConfig = (exampleHistory, noStats).
Proof.
  split; [discriminate|].
  apply (ApplyPruning_other_modes exampleHistory DefaultPruningConfig). discriminate.
Defined.

(** ** Multi-part summarization: the chunks *)

Lemma splitLoop_app (targetTokens targetChars : Z) (messages : list Message) :
  forall chunks currentChunk currentChars,
    splitLoop targetTokens targetChars messages chunks currentChunk currentChars
    = chunks ++ splitLoop targetTokens targetChars messages [] currentChunk currentChars.
Proof.
  induction messages as [|msg rest IH]; intros chunks cur chars; cbn [splitLoop].
  - destruct (Z.of_nat (List.length cur) >? 0)%Z; [reflexivity | now rewrite app_nil_r].
  - destruct (len (Content msg) >? targetChars ÷ 2)%Z; [apply IH|].
    destruct ((chars + len (Content msg) >? targetChars)
              && (Z.of_nat (List.length cur) >? 0))%bool%Z.
    + rewrite IH. rewrite (IH ([] ++ _)). now rewrite app_assoc.
    + apply IH.
Qed.

Lemma nonempty_length {A : Type} (l : list A) :
  (Z.of_nat (List.length l) >? 0)%Z = negb (isNil l).
Proof. destruct l; reflexivity. Qed.

Lemma sumChars_snoc (l : list Message) (m : Message) :
  sumChars (l ++ [m]) = (sumChars l + len (Content m))%Z.
Proof. rewrite sumChars_app. cbn [sumChars]. lia. Qed.

(** The messages of the chunks, in order, are the current chunk and the
    messages still to come that are not oversized. *)
Lemma splitLoop_concat (targetTokens targetChars : Z) (messages : list Message) :
  forall currentChunk currentChars,
    List.concat (map ciMessages
                (splitLoop targetTokens targetChars messages [] currentChunk currentChars))
    = currentChunk ++ filter (fitsChunk targetChars) messages.
Proof.
  induction messages as [|msg rest IH]; intros cur chars; cbn [splitLoop filter].
  - rewrite nonempty_length. destruct cur; cbn; [reflexivity | now rewrite !app_nil_r].
  - unfold fitsChunk at 1. rewrite Z.gtb_ltb, Z.ltb_antisym.
    destruct (len (Content msg) <=? targetChars ÷ 2)%Z; cbn [negb]; [|apply IH].
    destruct ((chars + len (Content msg) >? targetChars)
              && (Z.of_nat (List.length cur) >? 0))%bool%Z.
    + rewrite splitLoop_app. cbn [app map List.concat ciMessages]. now rewrite IH.
    + rewrite IH. now rewrite <- app_assoc.
Qed.

(** What holds of every chunk when the current one is in order. *)
Lemma splitLoop_chunks (targetTokens targetChars : Z) (messages : list Message) :
  targetChars <> (-1)%Z ->
  forall currentChunk currentChars,
    currentChars = sumChars currentChunk ->
    (currentChunk <> [] -> (sumChars currentChunk <= targetChars)%Z) ->
    Forall (fun c => ciMessages c <> []
                     /\ TargetTokens c = targetTokens
                     /\ ActualTokens c = (sumChars (ciMessages c) ÷ 4)%Z
                     /\ (sumChars (ciMessages c) <= targetChars)%Z)
           (splitLoop targetTokens targetChars messages [] currentChunk currentChars).
Proof.
  intros Hodd.
  induction messages as [|msg rest IH]; intros cur chars Hchars Hcur; cbn [splitLoop].
  - rewrite nonempty_length. destruct cur as [|m cur]; cbn [isNil negb]; [constructor|].
    constructor; [|constructor]. cbn [ciMessages TargetTokens ActualTokens].
    repeat split; [discriminate | now rewrite Hchars | apply Hcur; discriminate].
  - destruct (len (Content msg) >? targetChars ÷ 2)%Z eqn:Ebig; [now apply IH|].
    rewrite Z.gtb_ltb in Ebig. apply Z.ltb_ge in Ebig.
    pose proof (len_nonneg (Content msg)) as Hm.
    assert (Hfit : (len (Content msg) <= targetChars)%Z).
    { assert (0 <= targetChars)%Z.
      { destruct (Z.lt_ge_cases targetChars 0) as [Hneg|]; [|assumption].
        assert (targetChars ÷ 2 < 0)%Z; [|lia].
        assert (targetChars <= -2)%Z by lia.
        pose proof (Z.quot_le_mono targetChars (-2) 2 ltac:(lia) ltac:(lia)) as Hq.
        change (-2 ÷ 2)%Z with (-1)%Z in Hq. lia. }
      pose proof (Z.quot_le_upper_bound targetChars 2 targetChars ltac:(lia) ltac:(lia)).
      lia. }
    destruct (chars + len (Content msg) >? targetChars)%Z eqn:Eover;
      rewrite nonempty_length; cbn [andb].
    + destruct cur as [|m cur]; cbn [isNil negb].
      * apply IH; [cbn [app sumChars]; subst chars; cbn [sumChars]; lia|].
        intros _. cbn [app sumChars]. lia.
      * rewrite splitLoop_app. cbn [app]. constructor.
        -- cbn [ciMessages TargetTokens ActualTokens].
           repeat split; [discriminate | now rewrite Hchars | apply Hcur; discriminate].
        -- apply IH; [cbn [sumChars]; lia|]. intros _. cbn [sumChars]. lia.
    + rewrite Z.gtb_ltb in Eover. apply Z.ltb_ge in Eover.
      apply IH; [rewrite sumChars_snoc; lia|].
      intros _. rewrite sumChars_snoc. lia.
Qed.

Lemma wrap64_times4 (z : Z) : wrap64 (z * 4) <> (-1)%Z.
Proof.
  unfold wrap64. intros H.
  pose proof (Z.div_mod (z * 4 + 2 ^ 63) (2 ^ 64) ltac:(lia)) as Hdm.
  set (q := ((z * 4 + 2 ^ 63) / 2 ^ 64)%Z) in *.
  set (r := ((z * 4 + 2 ^ 63) mod 2 ^ 64)%Z) in *.
  change (2 ^ 63)%Z with 9223372036854775808%Z in *.
  change (2 ^ 64)%Z with 18446744073709551616%Z in *.
  lia.
Qed.

(** The first chunk starts with the first message of the current one. *)
Lemma splitLoop_head (targetTokens targetChars : Z) (messages : list Message) :
  forall m currentChunk currentChars,
    exists more chunks actual,
      splitLoop targetTokens targetChars messages [] (m :: currentChunk) currentChars
      = mkChunkInfo (m :: more) targetTokens actual :: chunks.
Proof.
  induction messages as [|msg rest IH]; intros m cur chars; cbn [splitLoop].
  - cbn. eauto.
  - destruct (len (Content msg) >? targetChars ÷ 2)%Z; [apply IH|].
    rewrite nonempty_length. cbn [isNil negb]. rewrite andb_true_r.
    destruct (chars + len (Content msg) >? targetChars)%Z.
    + rewrite splitLoop_app. cbn [app]. eauto.
    + apply (IH m (cur ++ [msg])).
Qed.

Lemma splitLoop_greedy (targetTokens targetChars : Z) (messages : list Message) :
  forall currentChunk currentChars,
    currentChars = sumChars currentChunk ->
    Greedy targetChars
           (map ciMessages
                (splitLoop targetTokens targetChars messages [] currentChunk currentChars))
    /\ (currentChunk = [] \/
        exists more chunks actual,
          splitLoop targetTokens targetChars messages [] currentChunk currentChars
          = mkChunkInfo (currentChunk ++ more) targetTokens actual :: chunks
          /\ Greedy targetChars (map ciMessages chunks)
          /\ match chunks with
             | c :: _ =>
                 match ciMessages c with
                 | m :: _ => (sumChars (currentChunk ++ more) + len (Content m) > targetChars)%Z
                 | [] => False
                 end
             | [] => True
             end).
Proof.
  induction messages as [|msg rest IH]; intros cur chars Hchars; cbn [splitLoop].
  - rewrite nonempty_length. destruct cur as [|m cur]; cbn [isNil negb].
    + split; [exact I | now left].
    + split; [exact I|]. right. exists [], [], (chars ÷ 4)%Z.
      rewrite app_nil_r. repeat split.
  - destruct (len (Content msg) >? targetChars ÷ 2)%Z; [now apply IH|].
    rewrite nonempty_length.
    destruct (chars + len (Content msg) >? targetChars)%Z eqn:Eover; cbn [andb].
    + destruct cur as [|m cur]; cbn [isNil negb].
      * destruct (IH ([] ++ [msg]) (chars + len (Content msg))%Z) as [Hg _].
        { cbn [app sumChars]. subst chars. cbn [sumChars]. lia. }
        split; [exact Hg | now left].
      * rewrite splitLoop_app. cbn [app].
        destruct (IH [msg] (0 + len (Content msg))%Z) as [Hg _];
          [cbn [sumChars]; lia|].
        destruct (splitLoop_head targetTokens targetChars rest msg []
                                 (0 + len (Content msg))%Z) as (more & chunks & actual & E).
        rewrite E in *. rewrite Z.gtb_ltb in Eover. apply Z.ltb_lt in Eover.
        assert (Hstep : (sumChars (m :: cur) + len (Content msg) > targetChars)%Z) by lia.
        split.
        -- cbn [map ciMessages Greedy]. split; [exact Hstep | exact Hg].
        -- right. exists [], (mkChunkInfo (msg :: more) targetTokens actual :: chunks),
                     (chars ÷ 4)%Z.
           rewrite app_nil_r. split; [reflexivity|]. split; [exact Hg|].
           cbn [ciMessages]. exact Hstep.
    + destruct (IH (cur ++ [msg]) (chars + len (Content msg))%Z) as [Hg Hhead];
        [rewrite sumChars_snoc; lia|].
      split; [exact Hg|].
      destruct cur as [|m cur]; [now left|]. right.
      destruct Hhead as [Hnil|(more & chunks & actual & E & Hgc & Hnext)];
        [destruct cur; discriminate|].
      exists (msg :: more), chunks, actual.
      rewrite <- app_assoc in E. cbn [app] in E. cbn [app].
      rewrite <- app_assoc in Hnext. cbn [app] in Hnext.
      split; [exact E | split; [exact Hgc | exact Hnext]].
Qed.

(** X26: [splitMessagesForSummary] loses no message but the oversized
    ones and keeps the order: the messages of its chunks, one chunk
    after the other, are the messages whose content is not longer than
    half of the target of [4 * targetTokens] bytes; a longer message is
    in no chunk.  No chunk is empty, every chunk records the target it
    was given, and its [ActualTokens] is a quarter of its content,
    rounded down. *)
Theorem splitMessagesForSummary_partition (messages : list Message) (targetTokens : Z) :
  let targetChars := wrap64 (targetTokens * 4) in
  let chunks := splitMessagesForSummary messages targetTokens in
  List.concat (map ciMessages chunks) = filter (fitsChunk targetChars) messages
  /\ Forall (fun c => ciMessages c <> []
                      /\ TargetTokens c = targetTokens
                      /\ ActualTokens c = (sumChars (ciMessages c) ÷ 4)%Z) chunks.
Proof.
  intros targetChars chunks. subst chunks. unfold splitMessagesForSummary.
  destruct messages as [|m rest]; [split; [reflexivity | constructor]|].
  change (Z.of_nat (List.length (m :: rest)) =? 0)%Z with false. cbv iota.
  fold targetChars. split.
  - now rewrite splitLoop_concat.
  - pose proof (splitLoop_chunks targetTokens targetChars (m :: rest)
                  (wrap64_times4 targetTokens) [] 0%Z eq_refl ltac:(congruence)) as H.
    eapply Forall_impl; [|exact H]. cbn beta. intros c (H1 & H2 & H3 & _). auto.
Qed.

(** X27: for a target an [int] can hold four times, no chunk holds more
    than [4 * targetTokens] bytes of content, and the [ActualTokens] of
    a chunk does not exceed its [TargetTokens]. *)
Theorem splitMessagesForSummary_within_target (messages : list Message) (targetTokens : Z) :
  (- 2 ^ 61 <= targetTokens < 2 ^ 61)%Z ->
  Forall (fun c => (sumChars (ciMessages c) <= 4 * targetTokens)%Z
                   /\ (ActualTokens c <= TargetTokens c)%Z)
         (splitMessagesForSummary messages targetTokens).
Proof.
  intros Hrange. unfold splitMessagesForSummary.
  destruct messages as [|m rest]; [constructor|].
  change (Z.of_nat (List.length (m :: rest)) =? 0)%Z with false. cbv iota.
  assert (Hw : wrap64 (targetTokens * 4) = (4 * targetTokens)%Z).
  { rewrite wrap64_id; [lia|]. unfold minInt64, maxInt64.
    change (2 ^ 61)%Z with 2305843009213693952%Z in Hrange. lia. }
  pose proof (splitLoop_chunks targetTokens (wrap64 (targetTokens * 4)) (m :: rest)
                (wrap64_times4 targetTokens) [] 0%Z eq_refl ltac:(congruence)) as H.
  eapply Forall_impl; [|exact H]. cbn beta. intros c (_ & H2 & H3 & H4).
  rewrite Hw in H4. split; [exact H4|]. rewrite H2, H3.
  apply Z.quot_le_upper_bound; lia.
Qed.

Lemma splitMessagesForSummary_within_target_witness :
  (- 2 ^ 61 <= 20 < 2 ^ 61)%Z
  /\ Forall (fun c => (sumChars (ciMessages c) <= 4 * 20)%Z
                      /\ (ActualTokens c <= TargetTokens c)%Z)
            (splitMessagesForSummary exampleTurns 20).
Proof.
  assert (H : (- 2 ^ 61 <= 20 < 2 ^ 61)%Z) by (split; [discriminate | reflexivity]).
  split; [exact H|].
  exact (splitMessagesForSummary_within_target exampleTurns 20 H).
Defined.

(** X28: the chunks are filled greedily: the content of a chunk and the
    first message of the chunk behind it are together longer than the
    target, so no two neighbouring chunks could have been one. *)
Theorem splitMessagesForSummary_greedy (messages : list Message) (targetTokens : Z) :
  Greedy (wrap64 (targetTokens * 4))
         (map ciMessages (splitMessagesForSummary messages targetTokens)).
Proof.
  unfold splitMessagesForSummary.
  destruct messages as [|m rest]; [exact I|].
  change (Z.of_nat (List.length (m :: rest)) =? 0)%Z with false. cbv iota.
  exact (proj1 (splitLoop_greedy targetTokens (wrap64 (targetTokens * 4)) (m :: rest)
                                 [] 0%Z eq_refl)).
Qed.

(** Five messages of 30 bytes and a target of 20 tokens: two messages
    to a chunk, the last one alone. *)
Lemma splitMessagesForSummary_example :
  map (fun c => (List.length (ciMessages c), ActualTokens c))
      (splitMessagesForSummary exampleTurns 20)
  = [(2%nat, 15%Z); (2%nat, 15%Z); (1%nat, 7%Z)].
Proof. vm_compute. reflexivity. Qed.

(** ** Multi-part summarization: the target of a chunk *)

Section Float64Division.

Local Open Scope Z_scope.

(** The bound on rounding, for a mantissa that comes with a location. *)
Lemma binary_round_aux_bound_loc (sx : bool) (mx ex : Z) (l : location) :
  0 < mx ->
  let k1 := Z.max 0 (fexp 53 1024 (Zdigits2 mx + ex) - ex) in
  exists m3 k,
    k1 <= k /\ 0 <= m3 /\ m3 * 2 ^ k <= mx + 2 ^ k1
    /\ binary_round_aux 53 1024 sx mx ex l
       = match m3 with
         | Z0 => S754_zero sx
         | Zpos m => if ex + k <=? 971 then S754_finite sx m (ex + k) else S754_infinity sx
         | Zneg _ => S754_nan
         end.
Proof.
  intros Hmx k1. unfold binary_round_aux, shr_fexp.
  set (n1 := fexp 53 1024 (Zdigits2 mx + ex) - ex) in *.
  assert (H0 : 0 <= shr_m (shr_record_of_loc mx l))
    by (rewrite shr_record_of_loc_m; lia).
  destruct (shr_spec (shr_record_of_loc mx l) ex n1 H0) as [Hm1 He1].
  rewrite shr_record_of_loc_m in Hm1.
  destruct (shr (shr_record_of_loc mx l) ex n1) as [mrs1 e1]; cbn [fst snd] in *.
  fold k1 in Hm1, He1.
  set (m2 := round_nearest_even (shr_m mrs1) (loc_of_shr_record mrs1)).
  pose proof (round_nearest_even_range (shr_m mrs1) (loc_of_shr_record mrs1)) as Hm2.
  fold m2 in Hm2.
  assert (Hk1 : 0 <= k1) by (unfold k1; lia).
  assert (Hp1 : 0 < 2 ^ k1) by (apply Z.pow_pos_nonneg; lia).
  assert (Hm1pos : 0 <= shr_m mrs1) by (rewrite Hm1; apply Z.div_pos; lia).
  set (n2 := fexp 53 1024 (Zdigits2 m2 + e1) - e1).
  assert (H2 : 0 <= shr_m (shr_record_of_loc m2 loc_Exact))
    by (rewrite shr_record_of_loc_m; lia).
  destruct (shr_spec (shr_record_of_loc m2 loc_Exact) e1 n2 H2) as [Hm3 He3].
  rewrite shr_record_of_loc_m in Hm3.
  destruct (shr (shr_record_of_loc m2 loc_Exact) e1 n2) as [mrs3 e3]; cbn [fst snd] in *.
  set (k2 := Z.max 0 n2) in *.
  assert (Hk2 : 0 <= k2) by (unfold k2; lia).
  assert (Hp2 : 0 < 2 ^ k2) by (apply Z.pow_pos_nonneg; lia).
  exists (shr_m mrs3), (k1 + k2).
  split; [lia|]. split; [rewrite Hm3; apply Z.div_pos; lia|].
  split.
  - rewrite Hm3, Z.pow_add_r by lia.
    pose proof (Z.mul_div_le m2 (2 ^ k2) Hp2) as D2.
    pose proof (Z.mul_div_le mx (2 ^ k1) Hp1) as D1.
    rewrite <- Hm1 in D1.
    assert (m2 / 2 ^ k2 * (2 ^ k1 * 2 ^ k2) <= m2 * 2 ^ k1) by nia.
    nia.
  - replace (ex + (k1 + k2)) with e3 by lia.
    change (1024 - 53) with 971. reflexivity.
Qed.

Lemma binary_round_aux_relative_loc (sx : bool) (mx ex : Z) (l : location) :
  2 ^ 52 <= mx -> -1074 <= ex ->
  exists m3 k,
    0 <= k /\ 0 <= m3 /\ m3 * 2 ^ k * 2 ^ 52 <= mx * (2 ^ 52 + 1)
    /\ binary_round_aux 53 1024 sx mx ex l
       = match m3 with
         | Z0 => S754_zero sx
         | Zpos m => if ex + k <=? 971 then S754_finite sx m (ex + k) else S754_infinity sx
         | Zneg _ => S754_nan
         end.
Proof.
  intros Hmx Hex.
  assert (Hpos : 0 < mx) by (assert (0 < 2 ^ 52) by reflexivity; lia).
  destruct (binary_round_aux_bound_loc sx mx ex l Hpos) as (m3 & k & Hk & Hm3 & Hle & Heq).
  cbv zeta in *.
  set (k1 := Z.max 0 (fexp 53 1024 (Zdigits2 mx + ex) - ex)) in *.
  exists m3, k. split; [lia|]. split; [exact Hm3|]. split; [|exact Heq].
  assert (Hk1 : 2 ^ k1 * 2 ^ 52 <= mx).
  { destruct mx as [|p|p]; try lia.
    pose proof (digits2_pos_range p) as [Hlo _].
    unfold k1, fexp, emin. cbn [Zdigits2].
    set (d := Zpos (digits2_pos p)) in *.
    assert (Hd : 1 <= d) by (unfold d; lia).
    destruct (Z_le_gt_dec d 53) as [Hs|Hl].
    - replace (Z.max 0 (Z.max (d + ex - 53) (3 - 1024 - 53) - ex)) with 0 by lia.
      cbn. lia.
    - replace (Z.max 0 (Z.max (d + ex - 53) (3 - 1024 - 53) - ex)) with (d - 53) by lia.
      rewrite <- Z.pow_add_r by lia. replace (d - 53 + 52) with (d - 1) by lia. exact Hlo. }
  nia.
Qed.

Lemma digits2_of_range (p : positive) (d : Z) :
  1 <= d -> 2 ^ (d - 1) <= Zpos p < 2 ^ d -> Zpos (digits2_pos p) = d.
Proof.
  intros Hd [Hlo Hhi]. pose proof (digits2_pos_range p) as [Glo Ghi].
  set (g := Zpos (digits2_pos p)) in *.
  assert (Hg : 1 <= g) by (unfold g; lia).
  assert (H1 : 2 ^ (d - 1) < 2 ^ g) by lia.
  assert (H2 : 2 ^ (g - 1) < 2 ^ d) by lia.
  apply pow2_le_inv in H1; [|lia|lia]. apply pow2_le_inv in H2; [|lia|lia]. lia.
Qed.

(** [int(float64(n) / c)] for a constant [c = my * 2^-52] in [1, 2) with
    [(1 + 2^-52)^2 <= c]: the result is between [0] and [n], and at most
    [n / c] times [(1 + 2^-52)^2]. *)
Lemma int_of_div_bound (n : Z) (my : positive) :
  0 <= n < 2 ^ 63 ->
  2 ^ 52 <= Zpos my < 2 ^ 53 ->
  (2 ^ 52 + 1) * (2 ^ 52 + 1) <= Zpos my * 2 ^ 52 ->
  let R := int_of_f64 (f64_div (f64_of_int n) (S754_finite false my (-52))) in
  0 <= R <= n /\ R * (Zpos my * 2 ^ 52) <= n * ((2 ^ 52 + 1) * (2 ^ 52 + 1)).
Proof.
  intros [Hn0 Hn] [Hmy0 Hmy] Hc R. subst R.
  destruct (Z.eq_dec n 0) as [->|Hnz]; [cbn; lia|].
  destruct (f64_of_int_bound n ltac:(lia)) as (m3 & k & z & Hz & Hk & Hm3 & Hle & Heq).
  rewrite Heq.
  destruct m3 as [|mx|mx]; try (cbn; lia).
  unfold f64_div, SFdiv, SFdiv_core_binary. cbn [xorb Zdigits2].
  assert (P52 : 0 < 2 ^ 52) by reflexivity.
  assert (Pk : 0 < 2 ^ k) by (apply Z.pow_pos_nonneg; lia).
  assert (Pzn : 0 < 2 ^ (- z)) by (apply Z.pow_pos_nonneg; lia).
  assert (Pzp : 0 < 2 ^ (z + 52)) by (apply Z.pow_pos_nonneg; lia).
  assert (Hzz : 2 ^ (z + 52) * 2 ^ (- z) = 2 ^ 52).
  { rewrite <- Z.pow_add_r by lia. f_equal. lia. }
  rewrite (digits2_of_range my 53 ltac:(lia) ltac:(split; [exact Hmy0 | exact Hmy])).
  pose proof (digits2_pos_range mx) as [Dlo Dhi].
  set (d1 := Zpos (digits2_pos mx)) in *.
  assert (Hd1 : 1 <= d1) by (unfold d1; lia).
  (* the mantissa of [float64(n)] has at most 116 bits *)
  assert (Hmx116 : Zpos mx < 2 ^ 116).
  { assert (2 ^ (- z) <= 2 ^ 52) by (apply Z.pow_le_mono_r; lia).
    assert (Zpos mx * 2 ^ 52 <= Zpos mx * 2 ^ k * 2 ^ 52) by nia.
    assert (n * 2 ^ (- z) <= 2 ^ 63 * 2 ^ 52) by nia.
    assert (n * 2 ^ (- z) * (2 ^ 52 + 1) <= 2 ^ 63 * 2 ^ 52 * (2 ^ 52 + 1)) by nia.
    assert (2 ^ 63 * 2 ^ 52 * (2 ^ 52 + 1) < 2 ^ 116 * 2 ^ 52) by reflexivity.
    nia. }
  assert (Hd116 : d1 <= 116).
  { assert (2 ^ (d1 - 1) < 2 ^ 116) by lia. apply pow2_le_inv in H; lia. }
  set (e1 := z + k) in *.
  assert (Hf : fexp 53 1024 (d1 + e1 - (53 + -52)) = d1 + e1 - 54)
    by (unfold fexp, emin, e1; lia).
  rewrite Hf.
  set (e' := Z.min (d1 + e1 - 54) (e1 - -52)).
  set (s := e1 - -52 - e').
  assert (Hs : s = Z.max (106 - d1) 0) by (unfold s, e'; lia).
  assert (Hs0 : 0 <= s) by lia.
  assert (Ps : 0 < 2 ^ s) by (apply Z.pow_pos_nonneg; lia).
  set (m' := match s with Z0 => Zpos mx | Zpos _ => Z.shiftl (Zpos mx) s | Zneg _ => 0 end).
  assert (Hm' : m' = Zpos mx * 2 ^ s).
  { unfold m'. destruct s as [|ps|ps] eqn:Es; [cbn; lia | | lia].
    apply Z.shiftl_mul_pow2. lia. }
  assert (Hm'lo : 2 ^ 105 <= m').
  { rewrite Hm'. destruct (Z_le_gt_dec d1 106) as [Hsmall|Hbig].
    - replace s with (106 - d1) by lia.
      replace 105 with ((d1 - 1) + (106 - d1)) by lia.
      rewrite Z.pow_add_r by lia.
      assert (0 < 2 ^ (106 - d1)) by (apply Z.pow_pos_nonneg; lia). nia.
    - replace s with 0 by lia. rewrite Z.pow_0_r, Z.mul_1_r.
      assert (2 ^ 105 <= 2 ^ (d1 - 1)) by (apply Z.pow_le_mono_r; lia). lia. }
  assert (Hm'hi : m' < 2 ^ 116).
  { rewrite Hm'. destruct (Z_le_gt_dec d1 106) as [Hsmall|Hbig].
    - replace s with (106 - d1) by lia.
      assert (Zpos mx * 2 ^ (106 - d1) < 2 ^ d1 * 2 ^ (106 - d1)).
      { apply Z.mul_lt_mono_pos_r; [apply Z.pow_pos_nonneg; lia | exact Dhi]. }
      rewrite <- Z.pow_add_r in H by lia. replace (d1 + (106 - d1)) with 106 in H by lia.
      assert (2 ^ 106 < 2 ^ 116) by reflexivity. lia.
    - replace s with 0 by lia. rewrite Z.pow_0_r, Z.mul_1_r. exact Hmx116. }
  pose proof (Z_div_mod m' (Zpos my) ltac:(lia)) as Hdiv.
  destruct (Z.div_eucl m' (Zpos my)) as [q r]. destruct Hdiv as [Hq Hr].
  assert (Hq52 : 2 ^ 52 <= q).
  { change (2 ^ 105) with (2 ^ 52 * 2 ^ 53) in Hm'lo.
    change (2 ^ 53) with 9007199254740992 in *.
    change (2 ^ 52) with 4503599627370496 in *. nia. }
  assert (Hq64 : q < 2 ^ 64).
  { change (2 ^ 116) with (2 ^ 64 * 2 ^ 52) in Hm'hi.
    change (2 ^ 64) with 18446744073709551616 in *.
    change (2 ^ 52) with 4503599627370496 in *. nia. }
  assert (He' : -105 <= e' <= 116) by (unfold e', e1; lia).
  destruct (binary_round_aux_relative_loc false q e' (new_location (Zpos my) r)
              Hq52 ltac:(lia)) as (m4 & k' & Hk' & Hm4 & Hle' & Heq').
  rewrite Heq'. clear Heq' Heq.
  destruct m4 as [|mr|mr]; [cbn [int_of_f64]; nia | | lia].
  assert (Pk' : 0 < 2 ^ k') by (apply Z.pow_pos_nonneg; lia).
  assert (Hk'65 : k' <= 65).
  { assert (2 ^ k' < 2 ^ 66); [|apply pow2_le_inv in H; lia].
    assert (2 ^ k' * 2 ^ 52 <= Zpos mr * 2 ^ k' * 2 ^ 52).
    { rewrite <- Z.mul_assoc. set (X := 2 ^ k' * 2 ^ 52).
      assert (0 < X) by (apply Z.mul_pos_pos; lia).
      assert (1 * X <= Zpos mr * X) by (apply Z.mul_le_mono_nonneg_r; lia). lia. }
    assert (q * (2 ^ 52 + 1) < 2 ^ 66 * 2 ^ 52).
    { change (2 ^ 66) with 73786976294838206464.
      change (2 ^ 64) with 18446744073709551616 in Hq64.
      change (2 ^ 52) with 4503599627370496. lia. }
    nia. }
  replace (e' + k' <=? 971) with true by (symmetry; apply Z.leb_le; lia).
  cbn [int_of_f64].
  replace (e' + k') with ((e' + 105 + k') - 105) by lia.
  destruct (trunc_scaled mr (e' + 105 + k') 105 ltac:(lia) ltac:(lia)) as [Hv0 Hv].
  cbv zeta in Hv0, Hv.
  set (v := if 0 <=? e' + 105 + k' - 105
            then Zpos mr * 2 ^ (e' + 105 + k' - 105)
            else Zpos mr / 2 ^ (- (e' + 105 + k' - 105))) in *.
  assert (PA : 0 < 2 ^ (e' + 105)) by (apply Z.pow_pos_nonneg; lia).
  assert (HA : 2 ^ (e' + 105 + k') = 2 ^ k' * 2 ^ (e' + 105)).
  { rewrite <- Z.pow_add_r by lia. f_equal. lia. }
  assert (HAS : 2 ^ (e' + 105) * 2 ^ s = 2 ^ k * 2 ^ (z + 52) * 2 ^ 105).
  { rewrite <- !Z.pow_add_r by lia. f_equal. unfold s, e1. lia. }
  rewrite HA in Hv.
  set (A := 2 ^ (e' + 105)) in *. set (S' := 2 ^ s) in *.
  set (Kp := 2 ^ k') in *. set (Kk := 2 ^ k) in *.
  set (Zp := 2 ^ (z + 52)) in *. set (Zn := 2 ^ (- z)) in *.
  set (P := 2 ^ 105) in *. set (T := 2 ^ 52) in *.
  assert (PP : 0 < P) by reflexivity.
  assert (Hmain : v * (Zpos my * T) <= n * ((T + 1) * (T + 1))).
  { assert (S1 : v * P * (T * Zpos my) <= Zpos mr * (Kp * A) * (T * Zpos my))
      by (apply Z.mul_le_mono_nonneg_r; [nia | exact Hv]).
    assert (S2 : Zpos mr * Kp * T * (A * Zpos my) <= q * (T + 1) * (A * Zpos my))
      by (apply Z.mul_le_mono_nonneg_r; [nia | exact Hle']).
    assert (S3 : q * Zpos my * ((T + 1) * A) <= Zpos mx * S' * ((T + 1) * A)).
    { apply Z.mul_le_mono_nonneg_r; [nia|]. rewrite Hm' in Hq. fold S' in Hq. nia. }
    assert (S4 : Zpos mx * Kk * T * Zp <= n * Zn * (T + 1) * Zp)
      by (apply Z.mul_le_mono_nonneg_r; [lia | exact Hle]).
    assert (S5 : Zpos mx * Kk * Zp <= n * (T + 1)).
    { assert (T * (Zpos mx * Kk * Zp) <= T * (n * (T + 1))).
      { replace (T * (Zpos mx * Kk * Zp)) with (Zpos mx * Kk * T * Zp) by ring.
        replace (T * (n * (T + 1))) with (n * (Zp * Zn) * (T + 1)) by (rewrite Hzz; ring).
        replace (n * (Zp * Zn) * (T + 1)) with (n * Zn * (T + 1) * Zp) by ring.
        exact S4. }
      apply Z.mul_le_mono_pos_l in H; [exact H | exact P52]. }
    assert (S6 : P * (v * (Zpos my * T)) <= P * (n * ((T + 1) * (T + 1)))).
    { replace (P * (v * (Zpos my * T))) with (v * P * (T * Zpos my)) by ring.
      eapply Z.le_trans; [exact S1|].
      replace (Zpos mr * (Kp * A) * (T * Zpos my))
        with (Zpos mr * Kp * T * (A * Zpos my)) by ring.
      eapply Z.le_trans; [exact S2|].
      replace (q * (T + 1) * (A * Zpos my)) with (q * Zpos my * ((T + 1) * A)) by ring.
      eapply Z.le_trans; [exact S3|].
      replace (Zpos mx * S' * ((T + 1) * A)) with (Zpos mx * (A * S') * (T + 1)) by ring.
      rewrite HAS.
      replace (Zpos mx * (Kk * Zp * P) * (T + 1))
        with (P * ((Zpos mx * Kk * Zp) * (T + 1))) by ring.
      replace (P * (n * ((T + 1) * (T + 1)))) with (P * ((n * (T + 1)) * (T + 1))) by ring.
      apply Z.mul_le_mono_nonneg_l; [lia|].
      apply Z.mul_le_mono_nonneg_r; [lia | exact S5]. }
    apply Z.mul_le_mono_pos_l in S6; [exact S6 | exact PP]. }
  assert (Hvn : v <= n).
  { assert (0 < Zpos my * T) by nia.
    assert (v * (Zpos my * T) <= n * (Zpos my * T)).
    { eapply Z.le_trans; [exact Hmain|]. apply Z.mul_le_mono_nonneg_l; [lia | exact Hc]. }
    apply Z.mul_le_mono_pos_r in H0; [exact H0 | exact H]. }
  assert (Er : ((minInt64 <=? v) && (v <=? maxInt64))%bool = true).
  { apply andb_true_iff. split; apply Z.leb_le; unfold minInt64, maxInt64; lia. }
  rewrite Er. split; [lia | exact Hmain].
Qed.

(** The ratio is one of three constants, none above [0.40]. *)
Lemma int_of_ratio_bound (messages : list Message) (contextWindow : Z) :
  0 <= contextWindow < 2 ^ 63 ->
  let t := int_of_f64 (f64_mul (f64_of_int contextWindow)
                               (computeAdaptiveChunkRatio messages contextWindow)) in
  0 <= t <= contextWindow
  /\ t * (2 ^ 54 * 2 ^ 104)
     <= contextWindow * (7205759403792794 * (2 ^ 52 + 1) * (2 ^ 52 + 1)).
Proof.
  intros Hcw t. subst t. unfold computeAdaptiveChunkRatio.
  destruct (Z.of_nat (List.length messages) =? 0);
    [|destruct (_ >? 2000); [|destruct (_ >? 1000)]].
  - exact (int_of_scaled_bound contextWindow 7205759403792794 (-54) Hcw
             ltac:(split; [discriminate | reflexivity]) ltac:(lia) ltac:(discriminate)).
  - destruct (int_of_scaled_bound contextWindow 5404319552844595 (-55) Hcw
                ltac:(split; [discriminate | reflexivity]) ltac:(lia) ltac:(discriminate))
      as [H1 H2].
    cbv zeta in H1, H2. fold MIN_CHUNK_RATIO in H1, H2. split; [exact H1|].
    change (2 ^ (- -55)) with (2 * 2 ^ 54) in H2.
    change (2 ^ 54) with 18014398509481984 in *.
    change (2 ^ 104) with 20282409603651670423947251286016 in *.
    change (2 ^ 52) with 4503599627370496 in *. lia.
  - destruct (int_of_scaled_bound contextWindow 4953959590107546 (-54) Hcw
                ltac:(split; [discriminate | reflexivity]) ltac:(lia) ltac:(discriminate))
      as [H1 H2].
    cbv zeta in H1, H2. fold MID_CHUNK_RATIO in H1, H2. split; [exact H1|].
    change (2 ^ (- -54)) with (2 ^ 54) in H2.
    change (2 ^ 54) with 18014398509481984 in *.
    change (2 ^ 104) with 20282409603651670423947251286016 in *.
    change (2 ^ 52) with 4503599627370496 in *. lia.
  - exact (int_of_scaled_bound contextWindow 7205759403792794 (-54) Hcw
             ltac:(split; [discriminate | reflexivity]) ltac:(lia) ltac:(discriminate)).
Qed.

End Float64Division.

(** X30: for every context window above 30000 tokens the target of a
    chunk that [SummarizeMultipart] hands to [splitMessagesForSummary] is
    the context window less the reserve of 20000 tokens, whatever the
    messages are: the adaptive chunk ratio and the safety margin give at
    most a third of the window, and the comparison with the reserve
    raises the target to the larger value. *)
Theorem summaryTargetTokens_is_reserve (messages : list Message) (contextWindow : Z) :
  (30000 < contextWindow < 2 ^ 63)%Z ->
  summaryTargetTokens messages contextWindow = (contextWindow - 20000)%Z.
Proof.
  intros Hcw. unfold summaryTargetTokens, RESERVE_TOKENS_FLOOR.
  rewrite wrap64_id
    by (unfold minInt64, maxInt64; change (2 ^ 63)%Z with 9223372036854775808%Z in *; lia).
  destruct (int_of_ratio_bound messages contextWindow ltac:(lia)) as [Ht1 Hb1].
  cbv zeta in Ht1, Hb1.
  set (t1 := int_of_f64 (f64_mul (f64_of_int contextWindow)
                                 (computeAdaptiveChunkRatio messages contextWindow))) in *.
  destruct (int_of_div_bound t1 5404319552844595 ltac:(lia)
              ltac:(split; [discriminate | reflexivity]) ltac:(discriminate)) as [Ht2 Hb2].
  cbv zeta in Ht2, Hb2. fold SUMMARY_SAFETY_MARGIN in Ht2, Hb2.
  set (t2 := int_of_f64 (f64_div (f64_of_int t1) SUMMARY_SAFETY_MARGIN)) in *.
  assert (Hlt : (t2 < contextWindow - 20000)%Z).
  { change (2 ^ 54)%Z with 18014398509481984%Z in *.
    change (2 ^ 104)%Z with 20282409603651670423947251286016%Z in *.
    change (2 ^ 52)%Z with 4503599627370496%Z in *.
    change (2 ^ 63)%Z with 9223372036854775808%Z in *.
    cbn in Hb1, Hb2. nia. }
  apply Z.ltb_lt in Hlt. now rewrite Hlt.
Qed.

Lemma summaryTargetTokens_is_reserve_witness :
  (30000 < 128000 < 2 ^ 63)%Z
  /\ summaryTargetTokens exampleTurns 128000 = 108000%Z.
Proof.
  assert (H : (30000 < 128000 < 2 ^ 63)%Z) by (split; reflexivity).
  split; [exact H|].
  exact (summaryTargetTokens_is_reserve exampleTurns 128000 H).
Defined.

(** ** Tool result truncation: where the text is cut *)

Lemma get_String_S (c : ascii) (s : string) (k : nat) :
  String.get (S k) (String c s) = String.get k s.
Proof. reflexivity. Qed.

(** [lastIndexFrom] returns the index of the last occurrence. *)
Lemma lastIndexFrom_last (c : ascii) (s : string) :
  forall (i found : Z),
    let r := lastIndexFrom c s i found in
    (r = found /\ forall k, String.get k s <> Some c)
    \/ ((i <= r < i + len s)%Z
        /\ String.get (Z.to_nat (r - i)) s = Some c
        /\ forall k, (Z.to_nat (r - i) < k)%nat -> String.get k s <> Some c).
Proof.
  induction s as [|a s IH]; intros i found; cbv zeta; cbn [lastIndexFrom].
  - left. split; [reflexivity|]. intros k. destruct k; discriminate.
  - assert (Hl : len (String a s) = (len s + 1)%Z) by (unfold len; cbn [String.length]; lia).
    pose proof (len_nonneg s) as Hs.
    specialize (IH (i + 1)%Z (if Ascii.eqb a c then i else found)). cbv zeta in IH.
    destruct IH as [[E Hnone] | (Hr & Hget & Hafter)].
    + rewrite E. destruct (Ascii.eqb a c) eqn:Ea.
      * right. apply Ascii.eqb_eq in Ea. subst a.
        replace (i - i)%Z with 0%Z by lia. change (Z.to_nat 0) with 0%nat.
        split; [lia|]. split; [reflexivity|].
        intros k Hk. destruct k as [|k]; [lia|]. rewrite get_String_S. apply Hnone.
      * left. split; [reflexivity|]. intros k. destruct k as [|k].
        -- cbn [String.get]. intros H. injection H as ->. now rewrite Ascii.eqb_refl in Ea.
        -- rewrite get_String_S. apply Hnone.
    + right. set (r := lastIndexFrom c s (i + 1) _) in *.
      replace (Z.to_nat (r - i)) with (S (Z.to_nat (r - (i + 1)))) by lia.
      split; [lia|]. split; [exact Hget|].
      intros k Hk. destruct k as [|k]; [lia|]. rewrite get_String_S. apply Hafter. lia.
Qed.

Lemma LastIndexByte_last (s : string) (c : ascii) :
  (LastIndexByte s c = -1 /\ forall k, String.get k s <> Some c)%Z
  \/ ((0 <= LastIndexByte s c < len s)%Z
      /\ String.get (Z.to_nat (LastIndexByte s c)) s = Some c
      /\ forall k, (Z.to_nat (LastIndexByte s c) < k)%nat -> String.get k s <> Some c).
Proof.
  unfold LastIndexByte. pose proof (lastIndexFrom_last c s 0 (-1)) as H. cbv zeta in H.
  destruct H as [H | (Hr & Hget & Hafter)]; [now left | right].
  rewrite Z.sub_0_r in Hget, Hafter. repeat split; try lia; assumption.
Qed.

(** X9: [TruncateToolResult] never panics, and a result of at most 2000
    bytes is returned as it is whatever the context window: the cap is
    never below the floor. *)
Theorem TruncateToolResult_total_small_unchanged
        (utilsTruncate : string -> Z -> string) (result : string) (contextWindowTokens : Z) :
  (exists out, TruncateToolResult utilsTruncate result contextWindowTokens = Some out)
  /\ ((len result <= calculateMaxToolResultChars contextWindowTokens)%Z ->
      TruncateToolResult utilsTruncate result contextWindowTokens = Some result)
  /\ ((len result <= 2000)%Z ->
      TruncateToolResult utilsTruncate result contextWindowTokens = Some result).
Proof.
  destruct (TruncateToolResult_cases utilsTruncate result contextWindowTokens)
    as (out & Hout & Hfit & _).
  pose proof (calculateMaxToolResultChars_range contextWindowTokens) as Hr.
  unfold MIN_TOOL_RESULT_CHARS in Hr.
  split; [now exists out | split].
  - intros H. rewrite Hout. f_equal. now apply Hfit.
  - intros H. rewrite Hout. f_equal. apply Hfit. lia.
Qed.

(** X10: a text longer than a cap above the floor is cut at a point [p]
    less than 200 bytes before the cap and the marker is appended: [p] is
    the cap when the 200 bytes before the cap hold no line feed, and
    otherwise the position just behind the last line feed among them, so
    that the kept prefix ends with that line feed. *)
Theorem truncateToolResultText_cut_at_newline
        (utilsTruncate : string -> Z -> string) (text : string) (maxChars : Z) :
  (MIN_TOOL_RESULT_CHARS < maxChars)%Z -> (maxChars < len text)%Z ->
  exists p,
    truncateToolResultText utilsTruncate text maxChars
    = Some (substring 0 (Z.to_nat p) text +++ truncatedMarker)
    /\ (maxChars - 200 < p <= maxChars)%Z
    /\ ((p = maxChars
         /\ forall i, (maxChars - 200 <= i < maxChars)%Z -> byteAt text i <> Some LFbyte)
        \/ (byteAt text (p - 1) = Some LFbyte
            /\ forall i, (p <= i < maxChars)%Z -> byteAt text i <> Some LFbyte)).
Proof.
  unfold MIN_TOOL_RESULT_CHARS. intros Hmin Hlen.
  unfold truncateToolResultText, MIN_TOOL_RESULT_CHARS.
  assert (E1 : (len text <=? maxChars)%Z = false) by (apply Z.leb_gt; lia).
  assert (E2 : (maxChars <=? 2000)%Z = false) by (apply Z.leb_gt; lia).
  assert (E3 : (maxChars - 200 <? 0)%Z = false) by (apply Z.ltb_ge; lia).
  rewrite E1, E2, E3.
  rewrite slice_Some by lia.
  replace (maxChars - (maxChars - 200))%Z with 200%Z by lia.
  set (a := Z.to_nat (maxChars - 200)).
  set (window := substring a (Z.to_nat 200) text).
  assert (Hwin : forall k, (k < 200)%nat -> String.get k window = String.get (k + a) text).
  { intros k Hk. unfold window. apply substring_correct1.
    change (Z.to_nat 200) with 200%nat. exact Hk. }
  assert (Hw : len window = 200%Z).
  { unfold len, window. rewrite length_substring; unfold len in *; lia. }
  assert (Hat : forall i, (maxChars - 200 <= i < maxChars)%Z ->
                          byteAt text i = String.get (Z.to_nat (i - (maxChars - 200))) window).
  { intros i Hi. unfold byteAt.
    replace (i <? 0)%Z with false by (symmetry; apply Z.ltb_ge; lia).
    rewrite Hwin by lia. f_equal. unfold a. lia. }
  unfold sliceTo.
  destruct (LastIndexByte_last window LFbyte) as [[E Hnone] | (Hr & Hget & Hafter)];
    fold LFbyte.
  - rewrite E, Z.eqb_refl. cbn [negb]. rewrite slice_Some by lia.
    exists maxChars. rewrite Z.sub_0_r. change (Z.to_nat 0) with 0%nat.
    split; [reflexivity|]. split; [lia|]. left. split; [reflexivity|].
    intros i Hi. rewrite (Hat i Hi). apply Hnone.
  - set (j := LastIndexByte window LFbyte) in *.
    replace (j =? -1)%Z with false by (symmetry; apply Z.eqb_neq; lia).
    cbn [negb]. rewrite slice_Some by lia.
    exists (maxChars - 200 + j + 1)%Z. rewrite Z.sub_0_r. change (Z.to_nat 0) with 0%nat.
    split; [reflexivity|]. split; [lia|]. right. split.
    + rewrite Hat by lia. rewrite <- Hget. f_equal. lia.
    + intros i Hi. rewrite Hat by lia. apply Hafter. lia.
Qed.

Lemma truncateToolResultText_cut_at_newline_witness :
  (MIN_TOOL_RESULT_CHARS < 2400)%Z /\ (2400 < len exampleLongResult)%Z
  /\ exists p,
       truncateToolResultText (fun s _ => s) exampleLongResult 2400
       = Some (substring 0 (Z.to_nat p) exampleLongResult +++ truncatedMarker)
       /\ (2400 - 200 < p <= 2400)%Z
       /\ ((p = 2400%Z
            /\ forall i, (2400 - 200 <= i < 2400)%Z ->
                         byteAt exampleLongResult i <> Some LFbyte)
           \/ (byteAt exampleLongResult (p - 1) = Some LFbyte
               /\ forall i, (p <= i < 2400)%Z -> byteAt exampleLongResult i <> Some LFbyte)).
Proof.
  assert (H1 : (MIN_TOOL_RESULT_CHARS < 2400)%Z) by reflexivity.
  assert (H2 : (2400 < len exampleLongResult)%Z) by (vm_compute; reflexivity).
  split; [exact H1 | split; [exact H2|]].
  exact (truncateToolResultText_cut_at_newline (fun s _ => s) exampleLongResult 2400 H1 H2).
Defined.

(** ** Bootstrap files: a workspace within the budget *)

Lemma contentChars_nonneg (entries : list (string * string)) : (0 <= contentChars entries)%Z.
Proof.
  induction entries as [|[f c] rest IH]; cbn [contentChars]; [lia|].
  pose proof (len_nonneg c). lia.
Qed.

Lemma BudgetRun_readable (ReadFile : string -> option string)
      (filepathJoin : string -> string -> string) (workspace : string)
      (config : BootstrapConfig) (files : list string) :
  forall used,
    Forall (fun e => (len (snd e) <= MaxChars config)%Z)
           (readableEntries ReadFile filepathJoin workspace files) ->
    (used + contentChars (readableEntries ReadFile filepathJoin workspace files)
     <= TotalMaxChars config)%Z ->
    BudgetRun ReadFile filepathJoin workspace config used files
              (readableEntries ReadFile filepathJoin workspace files).
Proof.
  induction files as [|f fs IH]; intros used Hall Hsum; cbn [readableEntries] in *.
  - constructor.
  - destruct (ReadFile (filepathJoin workspace f)) as [data|] eqn:Hread.
    + inversion Hall as [|e es Hfit Hrest]; subst. cbn [snd contentChars] in *.
      pose proof (contentChars_nonneg (readableEntries ReadFile filepathJoin workspace fs)).
      apply RunFits with (data := data).
      * exact Hread.
      * unfold perFileTrim.
        replace (len data >? MaxChars config)%Z with false; [reflexivity|].
        symmetry. rewrite Z.gtb_ltb. apply Z.ltb_ge. lia.
      * lia.
      * apply IH; [exact Hrest | lia].
    + apply RunUnreadable; [exact Hread | now apply IH].
Qed.

(** X11: when every readable bootstrap file of the session is within
    [MaxChars] and their contents together are within [TotalMaxChars],
    nothing is trimmed or skipped: the section is the concatenation, in
    the order of the session's list, of one entry per readable file with
    its whole content; files that cannot be read leave no trace. *)
Theorem LoadBootstrapFilesForSession_within_budget
        (ReadFile : string -> option string) (filepathJoin : string -> string -> string)
        (workspace : string) (config : BootstrapConfig) (sessionType : SessionType) :
  let entries := readableEntries ReadFile filepathJoin workspace
                   (getBootstrapFilesForSession sessionType) in
  Forall (fun e => (len (snd e) <= MaxChars config)%Z) entries ->
  (contentChars entries <= TotalMaxChars config)%Z ->
  LoadBootstrapFilesForSession ReadFile filepathJoin workspace config sessionType
  = Some (sectionOf entries).
Proof.
  intros entries Hall Hsum. subst entries.
  pose proof (BudgetRun_readable ReadFile filepathJoin workspace config
                (getBootstrapFilesForSession sessionType) 0 Hall ltac:(lia)) as Hrun.
  destruct (BudgetRun_loop _ _ _ _ _ _ _ Hrun initialBootstrapState eq_refl)
    as (st' & Hloop & Hres).
  unfold LoadBootstrapFilesForSession. rewrite Hloop, Hres. reflexivity.
Qed.

Lemma LoadBootstrapFilesForSession_within_budget_witness :
  Forall (fun e => (len (snd e) <= 1000)%Z)
         (readableEntries boundaryWorkspace joinClean "ws"
            (getBootstrapFilesForSession SessionTypeMain))
  /\ (contentChars (readableEntries boundaryWorkspace joinClean "ws"
                      (getBootstrapFilesForSession SessionTypeMain)) <= 2000)%Z
  /\ LoadBootstrapFilesForSession boundaryWorkspace joinClean "ws"
       {| MaxChars := 1000; TotalMaxChars := 2000 |} SessionTypeMain
     = Some (bootstrapEntry "AGENTS.md" (repeatByte "a" 100)
             +++ bootstrapEntry "SOUL.md" (repeatByte "s" 600)).
Proof.
  assert (H1 : Forall (fun e => (len (snd e) <= 1000)%Z)
                      (readableEntries boundaryWorkspace joinClean "ws"
                         (getBootstrapFilesForSession SessionTypeMain))).
  { vm_compute. repeat constructor; discriminate. }
  assert (H2 : (contentChars (readableEntries boundaryWorkspace joinClean "ws"
                                (getBootstrapFilesForSession SessionTypeMain)) <= 2000)%Z).
  { vm_compute. discriminate. }
  split; [exact H1 | split; [exact H2|]].
  exact (LoadBootstrapFilesForSession_within_budget boundaryWorkspace joinClean "ws"
           {| MaxChars := 1000; TotalMaxChars := 2000 |} SessionTypeMain H1 H2).
Defined.

(** X12: the context builder never panics on a configuration whose
    per-file limit is not negative, and a configuration whose [MaxChars]
    is zero is replaced as a whole by the default one: its
    [TotalMaxChars] is not read. *)
Theorem ContextBuilder_LoadBootstrapFiles_default
        (ReadFile : string -> option string) (filepathJoin : string -> string -> string)
        (cb : ContextBuilder) :
  (0 <= MaxChars (bootstrapConfig cb) <= maxInt64)%Z ->
  (exists section, ContextBuilder_LoadBootstrapFiles ReadFile filepathJoin cb = Some section)
  /\ (MaxChars (bootstrapConfig cb) = 0%Z ->
      ContextBuilder_LoadBootstrapFiles ReadFile filepathJoin cb
      = LoadBootstrapFilesForSession ReadFile filepathJoin (cbWorkspace cb)
          {| MaxChars := 20000; TotalMaxChars := 24000 |} SessionTypeMain).
Proof.
  intros Hcap. unfold ContextBuilder_LoadBootstrapFiles, LoadBootstrapFiles. split.
  - set (config := if (MaxChars (bootstrapConfig cb) =? 0)%Z
                   then DefaultBootstrapConfig else bootstrapConfig cb).
    assert (Hc : (0 <= MaxChars config <= maxInt64)%Z).
    { subst config. destruct (MaxChars (bootstrapConfig cb) =? 0)%Z; [|exact Hcap].
      split; discriminate. }
    unfold LoadBootstrapFilesForSession.
    destruct (bootstrapLoop_total ReadFile filepathJoin (cbWorkspace cb) config Hc
                (getBootstrapFilesForSession SessionTypeMain) initialBootstrapState)
      as (st & ->).
    eauto.
  - intros ->. reflexivity.
Qed.

Lemma ContextBuilder_LoadBootstrapFiles_default_witness :
  (0 <= 0 <= maxInt64)%Z
  /\ ContextBuilder_LoadBootstrapFiles boundaryWorkspace joinClean
       {| cbWorkspace := "ws";
          bootstrapConfig := {| MaxChars := 0; TotalMaxChars := 50 |} |}
     = LoadBootstrapFilesForSession boundaryWorkspace joinClean "ws"
         {| MaxChars := 20000; TotalMaxChars := 24000 |} SessionTypeMain.
Proof.
  assert (H : (0 <= 0 <= maxInt64)%Z) by (split; discriminate).
  split; [exact H|].
  exact (proj2 (ContextBuilder_LoadBootstrapFiles_default boundaryWorkspace joinClean
                  {| cbWorkspace := "ws";
                     bootstrapConfig := {| MaxChars := 0; TotalMaxChars := 50 |} |} H)
               eq_refl).
Defined.

(** ** Markdown helpers: frontmatter and paths *)

Lemma prefix_split (p s : string) :
  String.prefix p s = true -> exists rest, s = p +++ rest.
Proof.
  revert s. induction p as [|a p IH]; intros s H.
  - exists s. reflexivity.
  - destruct s as [|b s]; [discriminate|]. cbn [String.prefix] in H.
    destruct (ascii_dec a b) as [->|]; [|discriminate].
    destruct (IH s H) as (rest & ->). exists rest. reflexivity.
Qed.

Lemma substring_from_length (s : string) (n : nat) :
  (n <= String.length s)%nat ->
  s = substring 0 n s +++ substring n (String.length s - n) s.
Proof.
  revert n. induction s as [|c s IH]; intros n Hn.
  - destruct n; [reflexivity | cbn in Hn; lia].
  - destruct n as [|n].
    + cbn [substring String.append String.length Nat.sub].
      f_equal. clear. induction s as [|d s IH]; [reflexivity|].
      cbn [String.length substring]. now rewrite <- IH.
    + cbn [String.length] in *. cbn [substring String.append Nat.sub]. f_equal.
      apply IH. lia.
Qed.

Lemma sliceFrom_suffix (s t : string) (lo : Z) :
  sliceFrom s lo = Some t -> s = substring 0 (Z.to_nat lo) s +++ t.
Proof.
  unfold sliceFrom, slice.
  destruct ((0 <=? lo)%Z && (lo <=? len s)%Z && (len s <=? len s)%Z)%bool eqn:E; [|discriminate].
  apply andb_true_iff in E. destruct E as [E _]. apply andb_true_iff in E.
  destruct E as [E1 E2]. apply Z.leb_le in E1, E2. unfold len in *.
  intros H. injection H as <-.
  replace (Z.to_nat (Z.of_nat (String.length s) - lo))
    with (String.length s - Z.to_nat lo)%nat by lia.
  apply substring_from_length. lia.
Qed.

Lemma TrimLeft_suffix (s cutset : string) : IsSuffix (TrimLeft s cutset) s.
Proof.
  induction s as [|c s (pre & IH)]; cbn [TrimLeft].
  - exists "". reflexivity.
  - destruct (containsByte cutset c).
    + exists (String c pre). cbn [String.append]. now rewrite <- IH.
    + exists "". reflexivity.
Qed.

Lemma TrimLeft_head (s cutset : string) :
  match TrimLeft s cutset with
  | EmptyString => True
  | String c _ => containsByte cutset c = false
  end.
Proof.
  induction s as [|c s IH]; cbn [TrimLeft]; [exact I|].
  destruct (containsByte cutset c) eqn:E; [exact IH | exact E].
Qed.

(** X14: [StripFrontmatter] returns a suffix of the content; a content
    that does not start with three dashes, or has no line starting with
    three dashes behind its first, is returned as it is; otherwise the
    result is what follows the first such line start, without leading
    spaces, tabs, line feeds or carriage returns; the function never
    slices out of range. *)
Theorem StripFrontmatter_suffix (content : string) :
  IsSuffix (StripFrontmatter content) content
  /\ (HasPrefix content "---" = false -> StripFrontmatter content = content)
  /\ (Index content (LF +++ "---") = (-1)%Z -> StripFrontmatter content = content)
  /\ (HasPrefix content "---" = true -> Index content (LF +++ "---") <> (-1)%Z ->
      startsWithBlank (StripFrontmatter content) = false
      /\ exists rest,
           sliceFrom content (Index content (LF +++ "---") + 4) = Some rest
           /\ StripFrontmatter content = TrimLeft rest (" " +++ TAB +++ LF +++ CR)).
Proof.
  assert (Hcase : HasPrefix content "---" = true -> Index content (LF +++ "---") <> (-1)%Z ->
                  exists rest,
                    sliceFrom content (Index content (LF +++ "---") + 4) = Some rest
                    /\ StripFrontmatter content = TrimLeft rest (" " +++ TAB +++ LF +++ CR)).
  { intros Hp Hi. destruct (StripFrontmatter_slice_in_range content Hi) as (rest & Hrest).
    change (len (LF +++ "---")) with 4%Z in Hrest.
    exists rest. split; [exact Hrest|].
    unfold StripFrontmatter. rewrite Hp. cbn [negb].
    replace (Index content (LF +++ "---") =? -1)%Z with false
      by (symmetry; now apply Z.eqb_neq).
    change (len (LF +++ "---")) with 4%Z. now rewrite Hrest. }
  split; [|split; [|split]].
  - unfold IsSuffix.
    destruct (HasPrefix content "---") eqn:Hp.
    + destruct (Z.eq_dec (Index content (LF +++ "---")) (-1)) as [Hi|Hi].
      * exists "". unfold StripFrontmatter. rewrite Hp, Hi. reflexivity.
      * destruct (Hcase eq_refl Hi) as (rest & Hrest & ->).
        apply sliceFrom_suffix in Hrest.
        destruct (TrimLeft_suffix rest (" " +++ TAB +++ LF +++ CR)) as (pre & Hpre).
        exists (substring 0 (Z.to_nat (Index content (LF +++ "---") + 4)) content +++ pre).
        rewrite append_assoc, <- Hpre. exact Hrest.
    + exists "". unfold StripFrontmatter. now rewrite Hp.
  - intros Hp. unfold StripFrontmatter. now rewrite Hp.
  - intros Hi. unfold StripFrontmatter. rewrite Hi.
    now destruct (negb (HasPrefix content "---")).
  - intros Hp Hi. split; [|now apply Hcase].
    destruct (Hcase Hp Hi) as (rest & _ & ->).
    pose proof (TrimLeft_head rest (" " +++ TAB +++ LF +++ CR)) as H.
    unfold startsWithBlank. destruct (TrimLeft rest _); [reflexivity | exact H].
Qed.

Lemma replace_normal_length (content : string) :
  HasPrefix content "---" = true -> sliceFrom content 4 = None -> content = "---".
Proof.
  unfold HasPrefix. intros Hp Hs. apply prefix_split in Hp. destruct Hp as (rest & ->).
  destruct rest as [|c rest]; [reflexivity|].
  unfold sliceFrom, slice, len in Hs. cbn [String.append String.length] in Hs.
  match type of Hs with (if ?b then _ else _) = _ =>
    replace b with true in Hs; [discriminate|] end.
  symmetry. rewrite !andb_true_iff, !Z.leb_le. lia.
Qed.

Lemma ParseFrontmatterBlock_None_iff
        (parseYamlFrontmatter : string -> option ParsedFrontmatter)
        (parseLineBasedFrontmatter : string -> ParsedFrontmatter) (content : string) :
  ParseFrontmatterBlock parseYamlFrontmatter parseLineBasedFrontmatter content = None
  <-> replaceCR (replaceCRLF content) = "---".
Proof.
  unfold ParseFrontmatterBlock. set (c := replaceCR (replaceCRLF content)).
  split.
  - intros H. destruct (HasPrefix c "---") eqn:Hp; cbn [negb] in H; [|discriminate].
    destruct (sliceFrom c 4) as [rest|] eqn:Hs; [|now apply replace_normal_length].
    exfalso.
    destruct (Index rest (LF +++ "---") =? -1)%Z eqn:Hi; [discriminate|].
    apply Z.eqb_neq in Hi.
    assert (Hrange : (0 <= Index rest (LF +++ "---") <= len rest - 4)%Z).
    { unfold Index in *. destruct (String.index 0 (LF +++ "---") rest) as [i|] eqn:Ei;
        [|now elim Hi].
      apply index_in_range in Ei. unfold len. change (String.length (LF +++ "---")) with 4%nat in Ei.
      lia. }
    assert (Hlen : len c = (len rest + 4)%Z).
    { unfold sliceFrom, slice in Hs.
      destruct ((0 <=? 4)%Z && (4 <=? len c)%Z && (len c <=? len c)%Z)%bool eqn:E; [|discriminate].
      injection Hs as <-. apply andb_true_iff in E. destruct E as [E _].
      apply andb_true_iff in E. destruct E as [_ E]. apply Z.leb_le in E.
      unfold len in *. rewrite length_substring; lia. }
    rewrite slice_Some in H by lia.
    destruct (parseYamlFrontmatter _); discriminate.
  - intros ->. reflexivity.
Qed.

Lemma CompactPath_cases (Getenv : string -> string) (path homeDir : string) :
  let home := if String.eqb homeDir "" then Getenv "HOME" else homeDir in
  let base := TrimSuffix (TrimSuffix home "/") "\" in
  CompactPath Getenv path homeDir = path
  \/ exists rest,
       CompactPath Getenv path homeDir = "~/" +++ rest
       /\ path = base +++ "/" +++ rest
       /\ home <> "".
Proof.
  intros home base. unfold CompactPath. fold home.
  destruct (String.eqb home "") eqn:Eh; [now left|].
  fold base.
  destruct (HasPrefix path (base +++ "/")) eqn:Hp; [|now left].
  right. unfold HasPrefix in Hp.
  destruct (prefix_split _ _ Hp) as (rest & Hrest).
  exists rest.
  assert (Hs : sliceFrom path (len (base +++ "/")) = Some rest).
  { rewrite Hrest at 1. unfold sliceFrom, slice.
    rewrite !len_append.
    pose proof (len_nonneg base). pose proof (len_nonneg rest).
    change (len "/") with 1%Z.
    match goal with |- (if ?b then _ else _) = _ =>
      replace b with true by (symmetry; rewrite !andb_true_iff, !Z.leb_le; lia) end.
    f_equal.
    replace (len base + 1 + len rest - (len base + 1))%Z with (len rest) by lia.
    unfold len. rewrite Nat2Z.id.
    replace (Z.to_nat (Z.of_nat (String.length base) + 1))
      with (String.length (base +++ "/")) by (rewrite length_append; cbn; lia).
    clear. induction (base +++ "/") as [|c s IH]; cbn [String.append String.length substring].
    - induction rest as [|d r IHr]; [reflexivity|]. cbn [String.length substring]. now rewrite IHr.
    - exact IH. }
  rewrite Hs. split; [reflexivity|]. split.
  - rewrite Hrest. now rewrite append_assoc.
  - intros E. rewrite E in Eh. discriminate.
Qed.

(** X15: [CompactPath] abbreviates without loss: it returns the path as
    it is, or [~/rest] where the path is [home/rest], [home] being the
    home directory (the argument, or [$HOME] when the argument is empty)
    without one trailing separator; it never slices out of range. *)
Theorem CompactPath_reversible (Getenv : string -> string) (path homeDir : string) :
  let home := if String.eqb homeDir "" then Getenv "HOME" else homeDir in
  let base := TrimSuffix (TrimSuffix home "/") "\" in
  CompactPath Getenv path homeDir = path
  \/ exists rest,
       CompactPath Getenv path homeDir = "~/" +++ rest
       /\ path = base +++ "/" +++ rest
       /\ home <> "".
Proof. exact (CompactPath_cases Getenv path homeDir). Qed.

Section CatalogProvenance.

Variable ReadDir : string -> option (list DirEntry).
Variable ReadFile : string -> option string.
Variable Stat : string -> bool.
Variable filepathJoin3 : string -> string -> string -> string.
Variable filepathBase : string -> string.
Variable filepathDir : string -> string.
Variable Getenv : string -> string.
Variable jsonUnmarshal : string -> option (string * string).
Variable parseYamlFrontmatter : string -> option ParsedFrontmatter.
Variable parseLineBasedFrontmatter : string -> ParsedFrontmatter.

Local Abbreviation metadataOf :=
  (getSkillMetadata ReadFile filepathBase filepathDir jsonUnmarshal
                    parseYamlFrontmatter parseLineBasedFrontmatter).
Local Abbreviation entry :=
  (scanEntry ReadFile Stat filepathJoin3 filepathBase filepathDir Getenv
             jsonUnmarshal parseYamlFrontmatter parseLineBasedFrontmatter).
Local Abbreviation entries :=
  (scanEntries ReadFile Stat filepathJoin3 filepathBase filepathDir Getenv
               jsonUnmarshal parseYamlFrontmatter parseLineBasedFrontmatter).
Local Abbreviation root :=
  (scanRoot ReadDir ReadFile Stat filepathJoin3 filepathBase filepathDir Getenv
            jsonUnmarshal parseYamlFrontmatter parseLineBasedFrontmatter).
Local Abbreviation catalogOf :=
  (ListSkills ReadDir ReadFile Stat filepathJoin3 filepathBase filepathDir
              Getenv jsonUnmarshal parseYamlFrontmatter parseLineBasedFrontmatter).

Lemma scanEntry_added (rootDir source : string) (shadowing : list string)
      (homeDir : string) (skills skills' : list SkillInfo) (dir : DirEntry) :
  entry rootDir source shadowing homeDir skills dir = Some skills' ->
  skills' = skills
  \/ exists s,
       skills' = skills ++ [s]
       /\ Source s = source /\ validate s = [] /\ deIsDir dir = true
       /\ Path s = filepathJoin3 rootDir (deName dir) "SKILL.md"
       /\ Stat (Path s) = true.
Proof.
  unfold scanEntry. intros H.
  destruct (deIsDir dir) eqn:Hdir; [|left; congruence].
  destruct (Stat _) eqn:Hstat; [|left; congruence].
  destruct (shadowed skills (deName dir) shadowing); [left; congruence|].
  destruct (metadataOf _) as [metadata|]; [|discriminate].
  match type of H with context [isNil (validate ?info)] =>
    set (s := info) in *; destruct (isNil (validate s)) eqn:Ev end;
    cbn [negb] in H; [|left; congruence].
  right. exists s. apply isNil_iff in Ev.
  assert (Hsrc : Source s = source) by (subst s; destruct metadata; reflexivity).
  assert (Hpath : Path s = filepathJoin3 rootDir (deName dir) "SKILL.md")
    by (subst s; destruct metadata; reflexivity).
  repeat split; try congruence.
Qed.

Lemma scanEntries_added (rootDir source : string) (shadowing : list string)
      (homeDir : string) (dirs : list DirEntry) :
  forall skills skills',
    entries rootDir source shadowing homeDir dirs skills = Some skills' ->
    exists added,
      skills' = skills ++ added
      /\ Forall (fun s => Source s = source /\ validate s = []
                          /\ exists dir, In dir dirs /\ deIsDir dir = true
                               /\ Path s = filepathJoin3 rootDir (deName dir) "SKILL.md"
                               /\ Stat (Path s) = true) added.
Proof.
  induction dirs as [|dir rest IH]; intros skills skills' H.
  - cbn in H. injection H as <-. exists []. now rewrite app_nil_r.
  - cbn [scanEntries] in H.
    destruct (entry rootDir source shadowing homeDir skills dir) as [s1|] eqn:E;
      [|discriminate].
    destruct (IH s1 skills' H) as (added & -> & Hall).
    assert (Hall' : Forall (fun s => Source s = source /\ validate s = []
                          /\ exists d, In d (dir :: rest) /\ deIsDir d = true
                               /\ Path s = filepathJoin3 rootDir (deName d) "SKILL.md"
                               /\ Stat (Path s) = true) added).
    { eapply Forall_impl; [|exact Hall]. cbn beta.
      intros s (Hs & Hv & d & Hd & Hrest). repeat split; auto.
      exists d. split; [now right | exact Hrest]. }
    destruct (scanEntry_added _ _ _ _ _ _ _ E)
      as [-> | (s & -> & Hsrc & Hv & Hdir & Hpath & Hstat)].
    + exists added. split; [reflexivity | exact Hall'].
    + exists (s :: added). split; [now rewrite <- app_assoc|].
      constructor; [|exact Hall'].
      repeat split; auto. exists dir. repeat split; auto. now left.
Qed.

Lemma scanRoot_added (rootDir source : string) (shadowing : list string)
      (homeDir : string) (skills skills' : list SkillInfo) :
  root rootDir source shadowing homeDir skills = Some skills' ->
  exists added,
    skills' = skills ++ added
    /\ Forall (FoundUnder ReadDir Stat filepathJoin3 rootDir source) added.
Proof.
  unfold scanRoot. intros H.
  destruct (String.eqb rootDir "") eqn:Er; cbn [negb] in H.
  - injection H as <-. exists []. now rewrite app_nil_r.
  - apply String.eqb_neq in Er.
    destruct (ReadDir rootDir) as [dirs|] eqn:Hd.
    + destruct (scanEntries_added _ _ _ _ _ _ _ H) as (added & -> & Hall).
      exists added. split; [reflexivity|].
      eapply Forall_impl; [|exact Hall]. cbn beta.
      intros s (Hs & Hv & d & Hin & Hrest). unfold FoundUnder.
      repeat split; auto. exists dirs, d. repeat split; tauto.
    + injection H as <-. exists []. now rewrite app_nil_r.
Qed.

Lemma ListSkills_grouped (sl : SkillsLoader) (catalog : list SkillInfo) :
  catalogOf sl = Some catalog ->
  exists fromWorkspace fromGlobal fromBuiltin,
    catalog = fromWorkspace ++ fromGlobal ++ fromBuiltin
    /\ Forall (FoundUnder ReadDir Stat filepathJoin3 (workspaceSkills sl) "workspace")
              fromWorkspace
    /\ Forall (FoundUnder ReadDir Stat filepathJoin3 (globalSkills sl) "global") fromGlobal
    /\ Forall (FoundUnder ReadDir Stat filepathJoin3 (builtinSkills sl) "builtin")
              fromBuiltin.
Proof.
  unfold ListSkills.
  set (home := if String.eqb (Getenv "HOME") "" then Getenv "USERPROFILE" else Getenv "HOME").
  intros H.
  destruct (root (workspaceSkills sl) "workspace" [] home []) as [s1|] eqn:E1; [|discriminate].
  destruct (root (globalSkills sl) "global" ["workspace"] home s1) as [s2|] eqn:E2;
    [|discriminate].
  destruct (scanRoot_added _ _ _ _ _ _ E1) as (a1 & -> & H1).
  destruct (scanRoot_added _ _ _ _ _ _ E2) as (a2 & -> & H2).
  destruct (scanRoot_added _ _ _ _ _ _ H) as (a3 & -> & H3).
  exists a1, a2, a3. cbn [List.app]. rewrite <- app_assoc. auto.
Qed.

Lemma shadowed_none (skills : list SkillInfo) (dirName : string) :
  shadowed skills dirName [] = false.
Proof.
  unfold shadowed. induction skills as [|s rest IH]; [reflexivity|].
  cbn [existsb]. now rewrite andb_false_r.
Qed.

Lemma scanEntries_panics (rootDir source : string) (homeDir : string)
      (dirs : list DirEntry) (dir : DirEntry) :
  In dir dirs -> deIsDir dir = true ->
  Stat (filepathJoin3 rootDir (deName dir) "SKILL.md") = true ->
  metadataOf (filepathJoin3 rootDir (deName dir) "SKILL.md") = None ->
  forall skills, entries rootDir source [] homeDir dirs skills = None.
Proof.
  intros Hin Hdir Hstat Hmd.
  induction dirs as [|d rest IH]; intros skills; [destruct Hin|].
  cbn [scanEntries].
  destruct (entry rootDir source [] homeDir skills d) as [s1|] eqn:E; [|reflexivity].
  destruct Hin as [->|Hin]; [|now apply IH].
  unfold scanEntry in E. rewrite Hdir, Hstat, shadowed_none, Hmd in E. discriminate.
Qed.

Lemma ListSkills_panics (sl : SkillsLoader) (dirs : list DirEntry) (dir : DirEntry) :
  workspaceSkills sl <> "" ->
  ReadDir (workspaceSkills sl) = Some dirs ->
  In dir dirs -> deIsDir dir = true ->
  Stat (filepathJoin3 (workspaceSkills sl) (deName dir) "SKILL.md") = true ->
  metadataOf (filepathJoin3 (workspaceSkills sl) (deName dir) "SKILL.md") = None ->
  catalogOf sl = None.
Proof.
  intros Hne Hrd Hin Hdir Hstat Hmd. unfold ListSkills.
  set (home := if String.eqb (Getenv "HOME") "" then Getenv "USERPROFILE" else Getenv "HOME").
  assert (E : root (workspaceSkills sl) "workspace" [] home [] = None).
  { unfold scanRoot. apply String.eqb_neq in Hne. rewrite Hne, Hrd. cbn [negb].
    exact (scanEntries_panics _ _ _ _ _ Hin Hdir Hstat Hmd []). }
  now rewrite E.
Qed.

Lemma getSkillMetadata_panics_iff (skillPath : string) :
  metadataOf skillPath = None
  <-> exists content, ReadFile skillPath = Some content
                      /\ replaceCR (replaceCRLF content) = "---".
Proof.
  unfold getSkillMetadata. split.
  - destruct (ReadFile skillPath) as [content|]; [|discriminate].
    intros H. exists content. split; [reflexivity|].
    apply (ParseFrontmatterBlock_None_iff parseYamlFrontmatter parseLineBasedFrontmatter).
    destruct (ParseFrontmatterBlock _ _ content) as [fm|]; [|reflexivity].
    destruct (isNil fm); [discriminate|].
    destruct (jsonUnmarshal content) as [[? ?]|]; discriminate.
  - intros (content & -> & Hc).
    apply (ParseFrontmatterBlock_None_iff parseYamlFrontmatter parseLineBasedFrontmatter)
      in Hc.
    now rewrite Hc.
Qed.

End CatalogProvenance.

(** X13: the frontmatter parser panics on exactly one input: a content
    that, once its line endings are normalised, is the three dashes and
    nothing more, where [content[4:]] is out of range; on every other
    content it returns, whatever the two parsers do.  Reading the
    metadata of a skill panics exactly on such a file, and one such
    SKILL.md in a directory of the workspace root makes [ListSkills]
    panic. *)
Theorem ParseFrontmatterBlock_panics_on_dashes
        (ReadDir : string -> option (list DirEntry))
        (ReadFile : string -> option string) (Stat : string -> bool)
        (filepathJoin3 : string -> string -> string -> string)
        (filepathBase filepathDir Getenv : string -> string)
        (jsonUnmarshal : string -> option (string * string))
        (parseYamlFrontmatter : string -> option ParsedFrontmatter)
        (parseLineBasedFrontmatter : string -> ParsedFrontmatter) :
  (forall content,
      ParseFrontmatterBlock parseYamlFrontmatter parseLineBasedFrontmatter content = None
      <-> replaceCR (replaceCRLF content) = "---")
  /\ (forall skillPath,
         getSkillMetadata ReadFile filepathBase filepathDir jsonUnmarshal
                          parseYamlFrontmatter parseLineBasedFrontmatter skillPath = None
         <-> exists content, ReadFile skillPath = Some content
                             /\ replaceCR (replaceCRLF content) = "---")
  /\ (forall sl dirs dir content,
         workspaceSkills sl <> "" ->
         ReadDir (workspaceSkills sl) = Some dirs ->
         In dir dirs -> deIsDir dir = true ->
         Stat (filepathJoin3 (workspaceSkills sl) (deName dir) "SKILL.md") = true ->
         ReadFile (filepathJoin3 (workspaceSkills sl) (deName dir) "SKILL.md") = Some content ->
         replaceCR (replaceCRLF content) = "---" ->
         ListSkills ReadDir ReadFile Stat filepathJoin3 filepathBase filepathDir Getenv
                    jsonUnmarshal parseYamlFrontmatter parseLineBasedFrontmatter sl = None).
Proof.
  split; [|split].
  - apply ParseFrontmatterBlock_None_iff.
  - apply getSkillMetadata_panics_iff.
  - intros sl dirs dir content Hne Hrd Hin Hdir Hstat Hread Hc.
    apply (ListSkills_panics ReadDir ReadFile Stat filepathJoin3 filepathBase filepathDir
             Getenv jsonUnmarshal parseYamlFrontmatter parseLineBasedFrontmatter
             sl dirs dir Hne Hrd Hin Hdir Hstat).
    apply getSkillMetadata_panics_iff. now exists content.
Qed.

(** X17: the catalog is grouped by source in the order of priority: the
    entries found under the workspace root, then those of the global
    root, then those of the builtin root.  Every entry has passed
    validation and stands for a directory of its root, listed by
    [os.ReadDir], whose SKILL.md [os.Stat] finds; its path is that
    file. *)
Theorem ListSkills_grouped_by_source
        (ReadDir : string -> option (list DirEntry))
        (ReadFile : string -> option string) (Stat : string -> bool)
        (filepathJoin3 : string -> string -> string -> string)
        (filepathBase filepathDir Getenv : string -> string)
        (jsonUnmarshal : string -> option (string * string))
        (parseYamlFrontmatter : string -> option ParsedFrontmatter)
        (parseLineBasedFrontmatter : string -> ParsedFrontmatter)
        (sl : SkillsLoader) (catalog : list SkillInfo) :
  ListSkills ReadDir ReadFile Stat filepathJoin3 filepathBase filepathDir Getenv
             jsonUnmarshal parseYamlFrontmatter parseLineBasedFrontmatter sl = Some catalog ->
  exists fromWorkspace fromGlobal fromBuiltin,
    catalog = fromWorkspace ++ fromGlobal ++ fromBuiltin
    /\ Forall (FoundUnder ReadDir Stat filepathJoin3 (workspaceSkills sl) "workspace")
              fromWorkspace
    /\ Forall (FoundUnder ReadDir Stat filepathJoin3 (globalSkills sl) "global") fromGlobal
    /\ Forall (FoundUnder ReadDir Stat filepathJoin3 (builtinSkills sl) "builtin")
              fromBuiltin.
Proof. apply ListSkills_grouped. Qed.

Lemma ListSkills_grouped_by_source_witness :
  ListSkills dupReadDir dupReadFile dupStat unixJoin3 unixBase unixDir noEnv notJSON
             tableYaml tableLine dupLoader = Some dupCatalog
  /\ exists fromWorkspace fromGlobal fromBuiltin,
       dupCatalog = fromWorkspace ++ fromGlobal ++ fromBuiltin
       /\ Forall (FoundUnder dupReadDir dupStat unixJoin3 (workspaceSkills dupLoader)
                             "workspace") fromWorkspace
       /\ Forall (FoundUnder dupReadDir dupStat unixJoin3 (globalSkills dupLoader) "global")
                 fromGlobal
       /\ Forall (FoundUnder dupReadDir dupStat unixJoin3 (builtinSkills dupLoader) "builtin")
                 fromBuiltin.
Proof.
  assert (H : ListSkills dupReadDir dupReadFile dupStat unixJoin3 unixBase unixDir noEnv
                notJSON tableYaml tableLine dupLoader = Some dupCatalog)
    by (vm_compute; reflexivity).
  split; [exact H|].
  exact (ListSkills_grouped_by_source dupReadDir dupReadFile dupStat unixJoin3 unixBase
           unixDir noEnv notJSON tableYaml tableLine dupLoader dupCatalog H).
Defined.

Lemma ParseFrontmatterBlock_panics_on_dashes_witness :
  ListSkills dashesReadDir dashesReadFile dashesStat unixJoin3 unixBase unixDir noEnv notJSON
             tableYaml tableLine dashesLoader = None.
Proof.
  refine (proj2 (proj2 (ParseFrontmatterBlock_panics_on_dashes
                          dashesReadDir dashesReadFile dashesStat unixJoin3 unixBase unixDir
                          noEnv notJSON tableYaml tableLine))
                dashesLoader [mkDirEntry "broken" true] (mkDirEntry "broken" true) "---"
                _ _ _ _ _ _ _);
    try (vm_compute; reflexivity); try discriminate.
  now left.
Defined.

(** ** Escaping for the skills summary *)

Lemma replaceByte_append (old : ascii) (new s t : string) :
  replaceByte old new (s +++ t) = replaceByte old new s +++ replaceByte old new t.
Proof.
  induction s as [|c s IH]; cbn [String.append replaceByte]; [reflexivity|].
  destruct (Ascii.eqb c old); rewrite IH; [now rewrite append_assoc | reflexivity].
Qed.

Lemma escapeXML_append (s t : string) : escapeXML (s +++ t) = escapeXML s +++ escapeXML t.
Proof. unfold escapeXML. now rewrite !replaceByte_append. Qed.

Lemma escapeXML_byte (c : ascii) : escapeXML (String c EmptyString) = escapeByte c.
Proof.
  unfold escapeXML, escapeByte. cbn [replaceByte].
  destruct (Ascii.eqb c "&") eqn:E1.
  - reflexivity.
  - cbn [replaceByte]. destruct (Ascii.eqb c "<") eqn:E2.
    + reflexivity.
    + cbn [replaceByte]. destruct (Ascii.eqb c ">") eqn:E3; reflexivity.
Qed.

Lemma escapeXML_one_pass (s : string) : escapeXML s = escapeBytes s.
Proof.
  induction s as [|c s IH]; [reflexivity|].
  change (String c s) with (String c EmptyString +++ s).
  rewrite escapeXML_append, escapeXML_byte, IH. reflexivity.
Qed.

Lemma escapeByte_cases (c : ascii) :
  (c = "&"%char /\ escapeByte c = "&amp;")
  \/ (c = "<"%char /\ escapeByte c = "&lt;")
  \/ (c = ">"%char /\ escapeByte c = "&gt;")
  \/ (c <> "&"%char /\ c <> "<"%char /\ c <> ">"%char /\ escapeByte c = String c EmptyString).
Proof.
  unfold escapeByte.
  destruct (Ascii.eqb c "&") eqn:E1; [apply Ascii.eqb_eq in E1; now left|].
  destruct (Ascii.eqb c "<") eqn:E2; [apply Ascii.eqb_eq in E2; right; now left|].
  destruct (Ascii.eqb c ">") eqn:E3; [apply Ascii.eqb_eq in E3; right; right; now left|].
  apply Ascii.eqb_neq in E1, E2, E3. right. right. right. auto.
Qed.

Lemma escapeBytes_injective (s : string) :
  forall t, escapeBytes s = escapeBytes t -> s = t.
Proof.
  induction s as [|c s IH]; intros t H.
  - destruct t as [|d t]; [reflexivity|]. cbn [escapeBytes] in H.
    destruct (escapeByte_cases d) as [[_ E]|[[_ E]|[[_ E]|(_ & _ & _ & E)]]];
      rewrite E in H; discriminate.
  - destruct t as [|d t]; cbn [escapeBytes] in H.
    + destruct (escapeByte_cases c) as [[_ E]|[[_ E]|[[_ E]|(_ & _ & _ & E)]]];
        rewrite E in H; discriminate.
    + destruct (escapeByte_cases c) as [[Hc E]|[[Hc E]|[[Hc E]|(Hc1 & Hc2 & Hc3 & E)]]];
        destruct (escapeByte_cases d) as [[Hd E']|[[Hd E']|[[Hd E']|(Hd1 & Hd2 & Hd3 & E')]]];
        rewrite E, E' in H; cbn [String.append] in H;
        try discriminate;
        try (injection H as H; subst; f_equal; now apply IH);
        try (injection H as H0 H; congruence).
Qed.

Lemma escapeBytes_no_angle (s : string) :
  containsByte (escapeBytes s) "<" = false /\ containsByte (escapeBytes s) ">" = false.
Proof.
  induction s as [|c s [IH1 IH2]]; [split; reflexivity|].
  cbn [escapeBytes].
  destruct (escapeByte_cases c) as [[Hc E]|[[Hc E]|[[Hc E]|(Hc1 & Hc2 & Hc3 & E)]]];
    rewrite E; cbn [String.append containsByte]; rewrite IH1, IH2.
  - split; reflexivity.
  - split; reflexivity.
  - split; reflexivity.
  - rewrite !orb_false_r. split; apply Ascii.eqb_neq; congruence.
Qed.

Lemma escapeBytes_ampersands (s : string) : ampersandsStartEntities (escapeBytes s) = true.
Proof.
  induction s as [|c s IH]; [reflexivity|].
  cbn [escapeBytes].
  destruct (escapeByte_cases c) as [[Hc E]|[[Hc E]|[[Hc E]|(Hc1 & Hc2 & Hc3 & E)]]];
    rewrite E.
  - cbn. now rewrite IH; destruct (escapeBytes s).
  - cbn. now rewrite IH; destruct (escapeBytes s).
  - cbn. now rewrite IH; destruct (escapeBytes s).
  - cbn [String.append ampersandsStartEntities]. apply Ascii.eqb_neq in Hc1.
    rewrite Hc1, IH. reflexivity.
Qed.

(** X16: the three replacements of [escapeXML] act as one pass over the
    bytes: an ampersand, a less-than and a greater-than sign become their
    entities and no entity is escaped a second time.  The escaped text
    holds no angle bracket, each of its ampersands starts one of the
    three entities, and escaping loses nothing: two texts with the same
    escaped form are the same text. *)
Theorem escapeXML_safe_and_injective (s : string) :
  escapeXML s = escapeBytes s
  /\ containsByte (escapeXML s) "<" = false
  /\ containsByte (escapeXML s) ">" = false
  /\ ampersandsStartEntities (escapeXML s) = true
  /\ (forall t, escapeXML s = escapeXML t -> s = t).
Proof.
  rewrite escapeXML_one_pass.
  destruct (escapeBytes_no_angle s) as [H1 H2].
  repeat split; auto using escapeBytes_ampersands.
  intros t H. rewrite escapeXML_one_pass in H. now apply escapeBytes_injective.
Qed.

(** ** Line-based frontmatter *)

Lemma stripQuotes_total (value : string) : exists r, stripQuotes value = Some r.
Proof.
  unfold stripQuotes. destruct (len value >=? 2)%Z eqn:E; [|eauto].
  destruct (_ || _)%bool; [|eauto].
  rewrite Z.geb_leb in E. apply Z.leb_le in E.
  rewrite slice_Some by lia. eauto.
Qed.

Lemma length_Split_pos (s : string) : Split s <> [].
Proof.
  induction s as [|c s IH]; cbn [Split]; [discriminate|].
  destruct (Ascii.eqb c (ascii_of_nat 10)); [discriminate|].
  destruct (Split s); discriminate.
Qed.

Lemma extractMultiLineValue_advances (lines : list string) (i : nat) (line : string) :
  nth_error lines i = Some line -> (1 <= snd (extractMultiLineValue lines i))%Z.
Proof.
  intros H. unfold extractMultiLineValue. rewrite H.
  destruct (FindStringSubmatch line) as [[g1 g2]|]; [|cbn; lia].
  destruct (negb (String.eqb (TrimSpace g2) "")); cbn [snd]; lia.
Qed.

(** With one unit of fuel per line that is left the loop ends. *)
Lemma parseLines_total (fuel : nat) :
  forall (lines : list string) (i : nat) (frontmatter : ParsedFrontmatter),
    (List.length lines - i <= fuel)%nat ->
    exists result, parseLines fuel lines i frontmatter = Some result.
Proof.
  induction fuel as [|fuel IH]; intros lines i fm Hfuel.
  - cbn [parseLines].
    destruct (nth_error lines i) eqn:E; [|eauto].
    assert (i < List.length lines)%nat by (apply nth_error_Some; congruence). lia.
  - cbn [parseLines].
    destruct (nth_error lines i) as [line|] eqn:E; [|eauto].
    assert (Hi : (i < List.length lines)%nat) by (apply nth_error_Some; congruence).
    destruct (FindStringSubmatch line) as [[g1 g2]|]; [|apply IH; lia].
    destruct (String.eqb (TrimSpace g1) ""); [apply IH; lia|].
    match goal with |- context [if ?b then _ else _] => destruct b end.
    + pose proof (extractMultiLineValue_advances lines i line E) as Hadv.
      destruct (extractMultiLineValue lines i) as [value consumed]. cbn [snd] in Hadv.
      apply IH. lia.
    + destruct (stripQuotes_total (TrimSpace g2)) as (value & ->). apply IH. lia.
Qed.

(** Reading a key after an assignment, as a Go map does. *)
Lemma fmGet_fmAssign (fm : ParsedFrontmatter) (key value k : string) :
  fmGet (fmAssign fm key value) k = if String.eqb key k then value else fmGet fm k.
Proof.
  induction fm as [|[k0 v0] fm IH]; cbn [fmAssign fmGet]; [reflexivity|].
  destruct (String.eqb k0 key) eqn:E; cbn [fmGet].
  - apply String.eqb_eq in E. subst k0. now destruct (String.eqb key k).
  - rewrite IH. destruct (String.eqb k0 k) eqn:E2; [|reflexivity].
    apply String.eqb_eq in E2. subst k0.
    rewrite String.eqb_sym in E. now rewrite E.
Qed.

Lemma isWordByte_range (a : ascii) :
  isWordByte a = true -> (45 <= nat_of_ascii a <= 122)%nat.
Proof.
  unfold isWordByte, isAlnum, inRange.
  rewrite !orb_true_iff, !andb_true_iff, !Nat.leb_le, !Ascii.eqb_eq.
  intros H.
  repeat match goal with
         | H : _ \/ _ |- _ => destruct H
         | H : _ /\ _ |- _ => destruct H
         end; try lia; subst a; cbn; lia.
Qed.

Lemma isAsciiSpace_range (a : ascii) : isAsciiSpace a = true -> (nat_of_ascii a <= 32)%nat.
Proof.
  unfold isAsciiSpace. cbv zeta. rewrite !orb_true_iff, !Nat.eqb_eq. lia.
Qed.

Lemma isRegexSpace_ascii (a : ascii) : isRegexSpace a = true -> isAsciiSpace a = true.
Proof.
  unfold isRegexSpace, isAsciiSpace. cbv zeta. rewrite !orb_true_iff, !Nat.eqb_eq. lia.
Qed.

Lemma isSpace2_range (a b : ascii) :
  isSpace2 a b = true -> (128 <= nat_of_ascii a)%nat /\ (128 <= nat_of_ascii b)%nat.
Proof.
  unfold isSpace2. cbv zeta. rewrite !andb_true_iff, !orb_true_iff, !Nat.eqb_eq. lia.
Qed.

Lemma isSpace3_range (a b c : ascii) :
  isSpace3 a b c = true ->
  (128 <= nat_of_ascii a)%nat /\ (128 <= nat_of_ascii b)%nat /\ (128 <= nat_of_ascii c)%nat.
Proof.
  unfold isSpace3. cbv zeta.
  rewrite !orb_true_iff, !andb_true_iff, !orb_true_iff, !andb_true_iff, !Nat.eqb_eq,
    !Nat.leb_le.
  lia.
Qed.

(** A byte below 128 that is not ASCII white space starts no white-space
    character and ends none. *)
Lemma TrimLeftSpace_head (a : ascii) (rest : string) :
  (nat_of_ascii a < 128)%nat -> isAsciiSpace a = false ->
  TrimLeftSpace (String a rest) = String a rest.
Proof.
  intros Ha Hs. cbn [TrimLeftSpace]. rewrite Hs.
  destruct rest as [|b rest']; [reflexivity|].
  destruct (isSpace2 a b) eqn:E2; [apply isSpace2_range in E2; lia|].
  destruct rest' as [|c rest'']; [reflexivity|].
  destruct (isSpace3 a b c) eqn:E3; [apply isSpace3_range in E3; lia | reflexivity].
Qed.

Lemma TrimLeftSpaceReversed_head (a : ascii) (rest : string) :
  (nat_of_ascii a < 128)%nat -> isAsciiSpace a = false ->
  TrimLeftSpaceReversed (String a rest) = String a rest.
Proof.
  intros Ha Hs. cbn [TrimLeftSpaceReversed]. rewrite Hs.
  destruct rest as [|b rest']; [reflexivity|].
  destruct (isSpace2 b a) eqn:E2; [apply isSpace2_range in E2; lia|].
  destruct rest' as [|c rest'']; [reflexivity|].
  destruct (isSpace3 c b a) eqn:E3; [apply isSpace3_range in E3; lia | reflexivity].
Qed.

Lemma revAppend_append (s acc : string) : revAppend s acc = reverse s +++ acc.
Proof.
  unfold reverse. revert acc. induction s as [|c s IH]; intros acc; [reflexivity|].
  cbn [revAppend]. rewrite IH, (IH (String c "")). now rewrite append_assoc.
Qed.

Lemma reverse_String (c : ascii) (s : string) : reverse (String c s) = reverse s +++ String c "".
Proof. unfold reverse at 1. cbn [revAppend]. apply revAppend_append. Qed.

Lemma reverse_append (s t : string) : reverse (s +++ t) = reverse t +++ reverse s.
Proof.
  induction s as [|c s IH]; cbn [String.append].
  - now rewrite append_empty_r.
  - now rewrite !reverse_String, IH, append_assoc.
Qed.

Lemma reverse_involutive (s : string) : reverse (reverse s) = s.
Proof.
  induction s as [|c s IH]; [reflexivity|].
  now rewrite reverse_String, reverse_append, IH.
Qed.

Lemma length_reverse (s : string) : String.length (reverse s) = String.length s.
Proof.
  induction s as [|c s IH]; [reflexivity|].
  rewrite reverse_String, length_append, IH. cbn. lia.
Qed.

Lemma allBytes_append (p : ascii -> bool) (s t : string) :
  allBytes p (s +++ t) = (allBytes p s && allBytes p t)%bool.
Proof.
  induction s as [|c s IH]; cbn [String.append allBytes]; [reflexivity|].
  now rewrite IH, andb_assoc.
Qed.

Lemma allBytes_reverse (p : ascii -> bool) (s : string) :
  allBytes p (reverse s) = allBytes p s.
Proof.
  induction s as [|c s IH]; [reflexivity|].
  rewrite reverse_String, allBytes_append, IH. cbn [allBytes].
  rewrite andb_true_r. apply andb_comm.
Qed.

Lemma TrimSpace_word (s : string) : allBytes isWordByte s = true -> TrimSpace s = s.
Proof.
  intros H.
  assert (Hhead : forall t, allBytes isWordByte t = true ->
                            TrimLeftSpace t = t /\ TrimLeftSpaceReversed t = t).
  { intros [|a t] Ht; [split; reflexivity|].
    cbn [allBytes] in Ht. apply andb_true_iff in Ht. destruct Ht as [Ha _].
    pose proof (isWordByte_range a Ha) as Hr.
    assert (Hs : isAsciiSpace a = false).
    { destruct (isAsciiSpace a) eqn:E; [|reflexivity]. apply isAsciiSpace_range in E. lia. }
    split; [apply TrimLeftSpace_head | apply TrimLeftSpaceReversed_head]; auto; lia. }
  unfold TrimSpace, TrimRightSpace.
  rewrite (proj1 (Hhead s H)).
  rewrite (proj2 (Hhead (reverse s) ltac:(now rewrite allBytes_reverse))).
  apply reverse_involutive.
Qed.

Lemma spanBytes_spec (p : ascii -> bool) (s : string) :
  let (taken, left) := spanBytes p s in
  s = taken +++ left /\ allBytes p taken = true
  /\ match left with EmptyString => True | String c _ => p c = false end.
Proof.
  induction s as [|c s IH]; cbn [spanBytes]; [repeat split|].
  destruct (p c) eqn:E.
  - destruct (spanBytes p s) as [taken left]. destruct IH as (-> & Hall & Hleft).
    cbn [String.append allBytes]. rewrite E, Hall. repeat split. exact Hleft.
  - cbn [String.append allBytes]. repeat split. exact E.
Qed.

Lemma spanBytes_append (p : ascii -> bool) (taken left : string) :
  allBytes p taken = true ->
  match left with EmptyString => True | String c _ => p c = false end ->
  spanBytes p (taken +++ left) = (taken, left).
Proof.
  intros Hall Hleft. induction taken as [|c t IH]; cbn [String.append].
  - destruct left as [|c l]; [reflexivity|]. cbn [spanBytes]. now rewrite Hleft.
  - cbn [allBytes] in Hall. apply andb_true_iff in Hall. destruct Hall as [Hc Ht].
    cbn [spanBytes]. rewrite Hc, (IH Ht). reflexivity.
Qed.

(** The shape of a line that matches, and of its two groups. *)
Lemma FindStringSubmatch_shape (line group1 group2 : string) :
  FindStringSubmatch line = Some (group1, group2)
  <-> group1 <> "" /\ allBytes isWordByte group1 = true
      /\ containsByte group2 (ascii_of_nat 10) = false
      /\ match group2 with EmptyString => True | String c _ => isRegexSpace c = false end
      /\ exists blanks, allBytes isRegexSpace blanks = true
                        /\ line = group1 +++ ":" +++ blanks +++ group2.
Proof.
  unfold FindStringSubmatch. split.
  - pose proof (spanBytes_spec isWordByte line) as Hk.
    destruct (spanBytes isWordByte line) as [key rest]. destruct Hk as (-> & Hkey & _).
    destruct (String.eqb key "") eqn:Ek; [discriminate|]. apply String.eqb_neq in Ek.
    destruct rest as [|c rest']; [discriminate|].
    destruct (Ascii.eqb c ":") eqn:Ec; [|discriminate]. apply Ascii.eqb_eq in Ec. subst c.
    pose proof (spanBytes_spec isRegexSpace rest') as Hv.
    destruct (spanBytes isRegexSpace rest') as [blanks value].
    destruct Hv as (-> & Hblanks & Hvalue).
    destruct (containsByte value (ascii_of_nat 10)) eqn:Elf; [discriminate|].
    intros H. injection H as <- <-. repeat split; auto.
    exists blanks. split; [exact Hblanks | reflexivity].
  - intros (Hne & Hkey & Hlf & Hhead & blanks & Hblanks & ->).
    rewrite (spanBytes_append isWordByte group1 (":" +++ blanks +++ group2) Hkey);
      [|reflexivity].
    apply String.eqb_neq in Hne. rewrite Hne. cbn [String.append]. 
    change (Ascii.eqb ":" ":") with true. cbv iota.
    rewrite (spanBytes_append isRegexSpace blanks group2 Hblanks Hhead).
    now rewrite Hlf.
Qed.

Lemma fmAssign_keys (fm : ParsedFrontmatter) (key value : string) :
  map fst (fmAssign fm key value)
  = if existsb (String.eqb key) (map fst fm) then map fst fm else map fst fm ++ [key].
Proof.
  induction fm as [|[k v] rest IH]; [reflexivity|].
  cbn [fmAssign map fst existsb].
  rewrite (String.eqb_sym key k).
  destruct (String.eqb k key) eqn:E; cbn [map fst orb]; [reflexivity|].
  rewrite IH. destruct (existsb (String.eqb key) (map fst rest)); reflexivity.
Qed.

Lemma fmAssign_In (fm : ParsedFrontmatter) (key value : string) (entry : string * string) :
  In entry (fmAssign fm key value) -> In entry fm \/ entry = (key, value).
Proof.
  induction fm as [|[k v] rest IH]; cbn [fmAssign In].
  - intros [<-|[]]. now right.
  - destruct (String.eqb k key) eqn:E.
    + apply String.eqb_eq in E. subst k. cbn [In]. intros [<-|H]; auto.
    + cbn [In]. intros [<-|H]; [auto|]. destruct (IH H); auto.
Qed.

Lemma fmAssign_wellFormed (fm : ParsedFrontmatter) (key value : string) :
  WellFormedFrontmatter fm ->
  key <> "" -> allBytes isWordByte key = true -> value <> "" ->
  WellFormedFrontmatter (fmAssign fm key value).
Proof.
  intros [Hnd Hall] Hk Hw Hv. split.
  - rewrite fmAssign_keys.
    destruct (existsb (String.eqb key) (map fst fm)) eqn:E; [exact Hnd|].
    apply NoDup_app; [exact Hnd | repeat constructor; intros [] | ].
    intros x Hx [Ex|[]]. subst x.
    assert (Ht : existsb (String.eqb key) (map fst fm) = true).
    { apply existsb_exists. exists key. split; [exact Hx | apply String.eqb_refl]. }
    congruence.
  - apply Forall_forall. intros entry Hin.
    destruct (fmAssign_In _ _ _ _ Hin) as [H | ->].
    + exact (proj1 (Forall_forall _ _) Hall entry H).
    + cbn [fst snd]. auto.
Qed.

Lemma eqb_empty_false (s : string) : String.eqb s "" = false -> s <> "".
Proof. intros H. now apply String.eqb_neq. Qed.

Lemma parseLines_wellFormed (fuel : nat) :
  forall (lines : list string) (i : nat) (frontmatter result : ParsedFrontmatter),
    parseLines fuel lines i frontmatter = Some result ->
    WellFormedFrontmatter frontmatter -> WellFormedFrontmatter result.
Proof.
  induction fuel as [|fuel IH]; intros lines i fm result H Hwf; cbn [parseLines] in H.
  - destruct (nth_error lines i); [discriminate | congruence].
  - destruct (nth_error lines i) as [line|]; [|congruence].
    destruct (FindStringSubmatch line) as [[g1 g2]|] eqn:Em; [|now apply (IH _ _ _ _ H)].
    apply FindStringSubmatch_shape in Em. destruct Em as (Hne & Hword & _).
    rewrite (TrimSpace_word g1 Hword) in H.
    destruct (String.eqb g1 "") eqn:Ek; [now apply (IH _ _ _ _ H)|].
    match type of H with context [if ?b then _ else _] => destruct b end.
    + destruct (extractMultiLineValue lines i) as [value consumed].
      apply (IH _ _ _ _ H).
      destruct (String.eqb value "") eqn:Ev; cbn [negb]; [exact Hwf|].
      apply fmAssign_wellFormed; auto using eqb_empty_false.
    + destruct (stripQuotes (TrimSpace g2)) as [value|]; [|discriminate].
      apply (IH _ _ _ _ H).
      destruct (String.eqb value "") eqn:Ev; cbn [negb]; [exact Hwf|].
      apply fmAssign_wellFormed; auto using eqb_empty_false.
Qed.

Lemma TrimLeftSpace_length (n : nat) :
  forall s, (String.length s <= n)%nat ->
            (String.length (TrimLeftSpace s) <= String.length s)%nat
            /\ (String.length (TrimLeftSpaceReversed s) <= String.length s)%nat.
Proof.
  induction n as [|n IH]; intros s Hn.
  - destruct s; [split; cbn; lia | cbn in Hn; lia].
  - destruct s as [|a rest]; [split; cbn; lia|].
    cbn [String.length] in Hn.
    assert (H1 := IH rest ltac:(lia)).
    split.
    + cbn [TrimLeftSpace]. destruct (isAsciiSpace a); [cbn [String.length]; lia|].
      destruct rest as [|b rest']; [lia|].
      cbn [String.length] in *.
      assert (H2 := IH rest' ltac:(lia)).
      destruct (isSpace2 a b); [lia|].
      destruct rest' as [|c rest'']; [cbn [String.length]; lia|].
      cbn [String.length] in *.
      assert (H3 := IH rest'' ltac:(lia)).
      destruct (isSpace3 a b c); [lia | cbn [String.length]; lia].
    + cbn [TrimLeftSpaceReversed]. destruct (isAsciiSpace a); [cbn [String.length]; lia|].
      destruct rest as [|b rest']; [lia|].
      cbn [String.length] in *.
      assert (H2 := IH rest' ltac:(lia)).
      destruct (isSpace2 b a); [lia|].
      destruct rest' as [|c rest'']; [cbn [String.length]; lia|].
      cbn [String.length] in *.
      assert (H3 := IH rest'' ltac:(lia)).
      destruct (isSpace3 c b a); [lia | cbn [String.length]; lia].
Qed.

Lemma TrimSpace_length (s : string) :
  (String.length (TrimSpace s) <= String.length (TrimLeftSpace s) <= String.length s)%nat.
Proof.
  unfold TrimSpace, TrimRightSpace. rewrite length_reverse.
  pose proof (proj2 (TrimLeftSpace_length _ (reverse (TrimLeftSpace s)) (Nat.le_refl _))) as H.
  rewrite length_reverse in H.
  pose proof (proj1 (TrimLeftSpace_length _ s (Nat.le_refl _))). lia.
Qed.

(** A text that [TrimSpace] leaves as it is does not start with white
    space. *)
Lemma TrimSpace_fixed_head (a : ascii) (rest : string) :
  TrimSpace (String a rest) = String a rest -> isAsciiSpace a = false.
Proof.
  intros H. destruct (isAsciiSpace a) eqn:E; [|reflexivity]. exfalso.
  pose proof (TrimSpace_length (String a rest)) as [H1 _].
  rewrite H in H1. cbn [TrimLeftSpace] in H1. rewrite E in H1.
  pose proof (proj1 (TrimLeftSpace_length _ rest (Nat.le_refl _))).
  cbn [String.length] in H1. lia.
Qed.

Lemma Split_no_LF (s : string) :
  containsByte s (ascii_of_nat 10) = false -> Split s = [s].
Proof.
  induction s as [|c s IH]; cbn [containsByte Split]; [reflexivity|].
  intros H. apply orb_false_iff in H. destruct H as [Hc Hs].
  rewrite Hc, (IH Hs). reflexivity.
Qed.

Lemma Split_append_LF (x s : string) :
  containsByte x (ascii_of_nat 10) = false -> Split (x +++ LF +++ s) = x :: Split s.
Proof.
  induction x as [|c x IH]; cbn [containsByte String.append]; intros H.
  - cbn [Split LF String.append]. now rewrite Ascii.eqb_refl.
  - apply orb_false_iff in H. destruct H as [Hc Hx].
    cbn [Split]. rewrite Hc, (IH Hx). reflexivity.
Qed.

Lemma Split_Join (lines : list string) :
  lines <> [] ->
  Forall (fun line => containsByte line (ascii_of_nat 10) = false) lines ->
  Split (Join lines LF) = lines.
Proof.
  induction lines as [|x rest IH]; intros Hne Hall; [now elim Hne|].
  inversion Hall as [|y ys Hx Hrest]; subst.
  destruct rest as [|y rest'].
  - cbn [Join]. now apply Split_no_LF.
  - change (Join (x :: y :: rest') LF) with (x +++ LF +++ Join (y :: rest') LF).
    rewrite Split_append_LF by exact Hx. f_equal. apply IH; [discriminate | exact Hrest].
Qed.

Lemma containsByte_append (s t : string) (c : ascii) :
  containsByte (s +++ t) c = (containsByte s c || containsByte t c)%bool.
Proof.
  induction s as [|a s IH]; cbn [String.append containsByte]; [reflexivity|].
  now rewrite IH, orb_assoc.
Qed.

Lemma word_no_LF (k : string) :
  allBytes isWordByte k = true -> containsByte k (ascii_of_nat 10) = false.
Proof.
  induction k as [|a k IH]; cbn [allBytes containsByte]; [reflexivity|].
  intros H. apply andb_true_iff in H. destruct H as [Ha Hk].
  rewrite (IH Hk), orb_false_r. apply Ascii.eqb_neq. intros ->.
  apply isWordByte_range in Ha. cbn in Ha. lia.
Qed.

Lemma FindStringSubmatch_plain (entry : string * string) :
  PlainEntry entry -> FindStringSubmatch (renderEntry entry) = Some entry.
Proof.
  destruct entry as [k v]. unfold PlainEntry, renderEntry. cbn [fst snd].
  intros (Hk & Hw & Hv & Ht & _ & Hlf).
  apply FindStringSubmatch_shape. repeat split; auto.
  - destruct v as [|a rest]; [exact I|].
    apply TrimSpace_fixed_head in Ht.
    destruct (isRegexSpace a) eqn:E; [|reflexivity].
    apply isRegexSpace_ascii in E. congruence.
  - exists " ". split; reflexivity.
Qed.

Lemma renderEntry_no_LF (entry : string * string) :
  PlainEntry entry -> containsByte (renderEntry entry) (ascii_of_nat 10) = false.
Proof.
  destruct entry as [k v]. unfold PlainEntry, renderEntry. cbn [fst snd].
  intros (_ & Hw & _ & _ & _ & Hlf).
  rewrite !containsByte_append, (word_no_LF k Hw), Hlf. reflexivity.
Qed.

Lemma fmAssign_fresh (fm : ParsedFrontmatter) (key value : string) :
  ~ In key (map fst fm) -> fmAssign fm key value = fm ++ [(key, value)].
Proof.
  induction fm as [|[k v] rest IH]; cbn [fmAssign map fst In List.app]; intros H; [reflexivity|].
  destruct (String.eqb k key) eqn:E.
  - apply String.eqb_eq in E. tauto.
  - rewrite IH by tauto. reflexivity.
Qed.

Lemma nth_error_middle (A : Type) (front : list A) (x : A) (back : list A) :
  nth_error (front ++ x :: back) (List.length front) = Some x.
Proof. induction front as [|y front IH]; [reflexivity | exact IH]. Qed.

Lemma parseLines_plain (todo : list (string * string)) :
  forall (done : list (string * string)) (fuel : nat),
    Forall PlainEntry (done ++ todo) ->
    NoDup (map fst (done ++ todo)) ->
    (List.length todo <= fuel)%nat ->
    parseLines fuel (map renderEntry (done ++ todo)) (List.length done) done
    = Some (done ++ todo).
Proof.
  induction todo as [|entry todo IH]; intros done fuel Hall Hnd Hfuel.
  - rewrite app_nil_r.
    assert (E : nth_error (map renderEntry done) (List.length done) = None).
    { apply nth_error_None. now rewrite length_map. }
    destruct fuel; cbn [parseLines]; now rewrite E.
  - destruct fuel as [|fuel]; [cbn in Hfuel; lia|].
    cbn [List.length] in Hfuel.
    assert (Hentry : PlainEntry entry).
    { apply (proj1 (Forall_forall _ _) Hall). apply in_or_app. right. now left. }
    assert (Hfresh : ~ In (fst entry) (map fst done)).
    { rewrite map_app in Hnd. cbn [map] in Hnd.
      apply NoDup_remove_2 in Hnd. intros H. apply Hnd. apply in_or_app. now left. }
    assert (Hnth : nth_error (map renderEntry (done ++ entry :: todo)) (List.length done)
                   = Some (renderEntry entry)).
    { rewrite map_app. cbn [map].
      replace (List.length done) with (List.length (map renderEntry done))
        by apply length_map.
      apply nth_error_middle. }
    specialize (IH (done ++ [entry]) fuel).
    rewrite <- app_assoc in IH. cbn [List.app] in IH.
    rewrite length_app in IH. cbn [List.length] in IH.
    rewrite Nat.add_1_r in IH.
    specialize (IH Hall Hnd ltac:(lia)).
    set (lines := map renderEntry (done ++ entry :: todo)) in *.
    cbn [parseLines]. rewrite Hnth.
    rewrite (FindStringSubmatch_plain entry Hentry).
    destruct entry as [k v]. destruct Hentry as (Hk & Hw & Hv & Ht & Hq & Hlf).
    cbn [fst snd] in *.
    rewrite (TrimSpace_word k Hw), Ht, Hq.
    apply String.eqb_neq in Hk, Hv. rewrite Hk, Hv. cbn [negb].
    rewrite (fmAssign_fresh done k v Hfresh).
    exact IH.
Qed.

Lemma allBytes_isNotLF (s : string) :
  allBytes isNotLF s = true <-> containsByte s (ascii_of_nat 10) = false.
Proof.
  induction s as [|c s IH]; cbn [allBytes containsByte]; [tauto|].
  unfold isNotLF at 1. rewrite andb_true_iff, orb_false_iff, negb_true_iff, IH. tauto.
Qed.

Lemma spanBytes_prefix (p : ascii -> bool) (blanks s : string) :
  allBytes p blanks = true ->
  spanBytes p (blanks +++ s) = (blanks +++ fst (spanBytes p s), snd (spanBytes p s)).
Proof.
  induction blanks as [|c b IH]; cbn [allBytes String.append]; intros H.
  - now destruct (spanBytes p s).
  - apply andb_true_iff in H. destruct H as [Hc Hb].
    cbn [spanBytes]. rewrite Hc, (IH Hb). reflexivity.
Qed.

(** The lines that match are the lines of the language of the pattern. *)
Lemma FindStringSubmatch_keyLinePattern (line : string) :
  MatchString keyLinePattern line = true
  <-> exists group1 group2, FindStringSubmatch line = Some (group1, group2).
Proof.
  unfold MatchString, keyLinePattern. rewrite matchAnchored_Lang. split.
  - intros H.
    inversion H as [| |ra rb k rest Hk Hrest E| | | |]; subst.
    inversion Hrest as [| |ra rb colon rest2 Hcolon Hrest2 E| | | |]; subst.
    inversion Hrest2 as [| |ra rb blanks value Hblanks Hvalue E| | | |]; subst.
    inversion Hcolon as [|q c Hc| | | | |]; subst.
    unfold isColon in Hc. apply Ascii.eqb_eq in Hc. subst c.
    apply Lang_class_star in Hblanks, Hvalue.
    unfold RPlus in Hk.
    inversion Hk as [| |ra rb k1 k2 Hk1 Hk2 E| | | |]; subst.
    inversion Hk1 as [|q c Hc| | | | |]; subst. apply Lang_class_star in Hk2.
    pose proof (spanBytes_spec isRegexSpace value) as Hs.
    destruct (spanBytes isRegexSpace value) as [more left] eqn:Es.
    destruct Hs as (Hval & Hmore & Hleft).
    exists (String c k2), left. apply FindStringSubmatch_shape.
    split; [discriminate|]. split; [cbn [String.append allBytes]; now rewrite Hc|].
    assert (Hl : containsByte left (ascii_of_nat 10) = false).
    { apply allBytes_isNotLF in Hvalue. rewrite Hval, containsByte_append in Hvalue.
      now apply orb_false_iff in Hvalue. }
    split; [exact Hl|]. split; [exact Hleft|].
    exists (blanks +++ more). split.
    + now rewrite allBytes_append, Hblanks, Hmore.
    + rewrite Hval. cbn [String.append]. now rewrite !append_assoc.
  - intros (g1 & g2 & H). apply FindStringSubmatch_shape in H.
    destruct H as (Hne & Hw & Hlf & _ & blanks & Hblanks & ->).
    apply LangCat.
    + destruct g1 as [|c k]; [now elim Hne|].
      cbn [allBytes] in Hw. apply andb_true_iff in Hw. destruct Hw as [Hc Hk].
      apply (LangCat _ _ (String c "") k); [now constructor | now apply Lang_class_star].
    + apply (LangCat _ _ ":" (blanks +++ g2)); [now constructor|].
      apply LangCat; apply Lang_class_star; [exact Hblanks | now apply allBytes_isNotLF].
Qed.

Lemma parseLineBasedFrontmatter_total_wf (block : string) :
  exists frontmatter,
    parseLineBasedFrontmatter block = Some frontmatter
    /\ WellFormedFrontmatter frontmatter.
Proof.
  unfold parseLineBasedFrontmatter.
  destruct (parseLines_total (List.length (Split block)) (Split block) 0 [] ltac:(lia))
    as (result & H).
  exists result. split; [exact H|].
  apply (parseLines_wellFormed _ _ _ _ _ H). split; constructor.
Qed.

Lemma substring_append_left (a b : string) :
  substring 0 (String.length a) (a +++ b) = a.
Proof.
  induction a as [|c a IH]; cbn [String.length String.append substring].
  - now destruct b.
  - now rewrite IH.
Qed.

Lemma substring_append_right (a b : string) :
  substring (String.length a) (String.length b) (a +++ b) = b.
Proof.
  induction a as [|c a IH]; cbn [String.length String.append substring]; [|exact IH].
  induction b as [|d b IHb]; [reflexivity|]. cbn [String.length substring]. now rewrite IHb.
Qed.

Lemma HasSuffix_append (a q : string) : HasSuffix (a +++ q) q = true.
Proof.
  unfold HasSuffix. rewrite length_append.
  replace (String.length a + String.length q - String.length q)%nat
    with (String.length a) by lia.
  rewrite substring_append_right, String.eqb_refl, andb_true_r.
  apply Nat.leb_le. lia.
Qed.

Lemma stripQuotes_quoted (q s : string) :
  String.length q = 1%nat -> q = DQUOTE \/ q = SQUOTE ->
  stripQuotes (q +++ s +++ q) = Some s.
Proof.
  intros Hlen Hq. unfold stripQuotes.
  assert (Hl : len (q +++ s +++ q) = (len s + 2)%Z).
  { unfold len. rewrite !length_append, Hlen. lia. }
  rewrite Hl. pose proof (len_nonneg s) as Hs.
  replace (len s + 2 >=? 2)%Z with true by (symmetry; rewrite Z.geb_leb; apply Z.leb_le; lia).
  assert (Hp : HasPrefix (q +++ s +++ q) q = true) by (unfold HasPrefix; apply prefix_append).
  assert (Hx : HasSuffix (q +++ s +++ q) q = true).
  { rewrite <- append_assoc. apply HasSuffix_append. }
  assert (Hc : ((HasPrefix (q +++ s +++ q) DQUOTE && HasSuffix (q +++ s +++ q) DQUOTE)
                || (HasPrefix (q +++ s +++ q) SQUOTE && HasSuffix (q +++ s +++ q) SQUOTE))%bool
               = true).
  { destruct Hq as [E|E]; rewrite <- E, Hp, Hx; [reflexivity | apply orb_true_r]. }
  rewrite Hc, slice_Some by (rewrite ?Hl; lia).
  f_equal. replace (Z.to_nat (len s + 2 - 1 - 1)) with (String.length s) by (unfold len; lia).
  change (Z.to_nat 1) with 1%nat.
  destruct q as [|c [|d q']]; try discriminate.
  cbn [String.append substring]. apply substring_append_left.
Qed.

(** X23: [stripQuotes] never slices out of range; it returns the value
    as it is or the value without its first and last byte; and it undoes
    quoting: a text put between two double quotes, or between two single
    quotes, comes back as that text, whatever it contains. *)
Theorem stripQuotes_unquotes (s : string) :
  (exists r, stripQuotes s = Some r /\ (r = s \/ len r = (len s - 2)%Z))
  /\ stripQuotes (DQUOTE +++ s +++ DQUOTE) = Some s
  /\ stripQuotes (SQUOTE +++ s +++ SQUOTE) = Some s.
Proof.
  split; [|split].
  - unfold stripQuotes. destruct (len s >=? 2)%Z eqn:E; [|eauto].
    destruct (_ || _)%bool; [|eauto].
    rewrite Z.geb_leb in E. apply Z.leb_le in E.
    rewrite slice_Some by lia. eexists. split; [reflexivity|]. right.
    unfold len in *. rewrite length_substring; lia.
  - apply stripQuotes_quoted; [reflexivity | now left].
  - apply stripQuotes_quoted; [reflexivity | now right].
Qed.

(** X20: [parseLineBasedFrontmatter] ends on every block, without a
    panic, after at most one iteration per line; the keys of the map it
    returns are pairwise distinct, not empty and made of letters,
    digits, underscores and hyphens, and no key is bound to the empty
    string. *)
Theorem parseLineBasedFrontmatter_wellFormed (block : string) :
  exists frontmatter,
    parseLineBasedFrontmatter block = Some frontmatter
    /\ WellFormedFrontmatter frontmatter.
Proof.
  destruct (parseLineBasedFrontmatter_total_wf block) as (frontmatter & H & Hwf).
  exists frontmatter. split; [exact H | exact Hwf].
Qed.

(** X21: reading is the inverse of writing: a block that has one line
    [key: value] per entry, the keys pairwise distinct and each entry
    plain (a key of word bytes, a value on one line that is not empty,
    not quoted and without white space at its ends), is parsed into
    exactly these entries, in their order. *)
Theorem parseLineBasedFrontmatter_reads_rendered (entries : ParsedFrontmatter) :
  Forall PlainEntry entries ->
  NoDup (map fst entries) ->
  parseLineBasedFrontmatter (renderFrontmatter entries) = Some entries.
Proof.
  intros Hall Hnd. unfold parseLineBasedFrontmatter, renderFrontmatter.
  destruct entries as [|entry rest]; [reflexivity|].
  rewrite Split_Join.
  - apply (parseLines_plain (entry :: rest) []); [exact Hall | exact Hnd|].
    now rewrite length_map.
  - discriminate.
  - apply Forall_forall. intros line Hin. apply in_map_iff in Hin.
    destruct Hin as (e & <- & He). apply renderEntry_no_LF.
    exact (proj1 (Forall_forall _ _) Hall e He).
Qed.

Lemma parseLineBasedFrontmatter_reads_rendered_witness :
  Forall PlainEntry exampleEntries
  /\ NoDup (map fst exampleEntries)
  /\ parseLineBasedFrontmatter (frontmatterBlock "foo" "first") = Some exampleEntries.
Proof.
  assert (H1 : Forall PlainEntry exampleEntries).
  { repeat constructor; try discriminate. }
  assert (H2 : NoDup (map fst exampleEntries)).
  { repeat constructor; cbn [In map fst exampleEntries]; intuition discriminate. }
  split; [exact H1 | split; [exact H2|]].
  exact (parseLineBasedFrontmatter_reads_rendered exampleEntries H1 H2).
Defined.

(** X22: a line yields an entry only if it matches the pattern of the
    parser, and the lines that match are those made of a key, a colon,
    white space and a rest without line feed: the first group is the
    key, the longest run of letters, digits, underscores and hyphens at
    the start of the line, and the second group is the rest behind the
    longest run of white space. *)
Theorem FindStringSubmatch_matches_pattern (line : string) :
  (MatchString keyLinePattern line = true
   <-> exists group1 group2, FindStringSubmatch line = Some (group1, group2))
  /\ (forall group1 group2,
         FindStringSubmatch line = Some (group1, group2)
         <-> group1 <> "" /\ allBytes isWordByte group1 = true
             /\ containsByte group2 (ascii_of_nat 10) = false
             /\ match group2 with
                | EmptyString => True
                | String c _ => isRegexSpace c = false
                end
             /\ exists blanks, allBytes isRegexSpace blanks = true
                               /\ line = group1 +++ ":" +++ blanks +++ group2).
Proof.
  split; [apply FindStringSubmatch_keyLinePattern|].
  intros group1 group2. apply FindStringSubmatch_shape.
Qed.

(** ** Markdown helpers: what the frontmatter parser reads *)

Lemma fmGet_notin (fm : ParsedFrontmatter) (key : string) :
  ~ In key (map fst fm) -> fmGet fm key = "".
Proof.
  induction fm as [|[k v] fm IH]; cbn [fmGet map fst In]; [reflexivity|].
  intros H. destruct (String.eqb k key) eqn:E.
  - apply String.eqb_eq in E. elim H. now left.
  - apply IH. intros Hin. apply H. now right.
Qed.

Section MergeReads.

Variable parseYamlFrontmatter : string -> option ParsedFrontmatter.
Variable parseLineBasedFrontmatter : string -> ParsedFrontmatter.

Lemma mergeLineParsed_reads (lineParsed : ParsedFrontmatter) :
  NoDup (map fst lineParsed) ->
  forall result key,
    fmGet (mergeLineParsed result lineParsed) key
    = if startsBracket (fmGet lineParsed key) then fmGet lineParsed key
      else fmGet result key.
Proof.
  induction lineParsed as [|[k v] rest IH]; intros Hnd result key.
  - reflexivity.
  - cbn [map fst] in Hnd. apply NoDup_cons_iff in Hnd. destruct Hnd as [Hk Hnd].
    cbn [mergeLineParsed]. rewrite (IH Hnd). cbn [fmGet].
    fold (startsBracket v).
    destruct (String.eqb k key) eqn:E.
    + apply String.eqb_eq in E. subst key.
      rewrite (fmGet_notin rest k Hk). cbn.
      destruct (startsBracket v); [|reflexivity].
      unfold fmSet. cbn [fmGet]. now rewrite String.eqb_refl.
    + destruct (startsBracket (fmGet rest key)); [reflexivity|].
      destruct (startsBracket v); [|reflexivity].
      unfold fmSet. cbn [fmGet]. now rewrite E.
Qed.

End MergeReads.

Lemma substring_append_inside (s t : string) (m n : nat) :
  (m + n <= String.length s)%nat -> substring m n (s +++ t) = substring m n s.
Proof.
  revert m n. induction s as [|c s IH]; intros m n H; cbn [String.length] in H.
  - assert (m = 0%nat) by lia. assert (n = 0%nat) by lia. subst. cbn. now destruct t.
  - destruct m as [|m]; cbn [String.append substring].
    + destruct n as [|n]; [reflexivity|]. f_equal.
      apply (IH 0%nat n). lia.
    + apply IH. lia.
Qed.

Lemma get_append_left (s t : string) (n : nat) :
  (n < String.length s)%nat -> String.get n (s +++ t) = String.get n s.
Proof.
  revert n. induction s as [|c s IH]; intros n H; cbn [String.length] in H; [lia|].
  destruct n as [|n]; [reflexivity|]. cbn [String.append String.get]. apply IH. lia.
Qed.

Lemma get_append_right (s t : string) (n : nat) :
  String.get (String.length s + n) (s +++ t) = String.get n t.
Proof. induction s as [|c s IH]; [reflexivity | exact IH]. Qed.

Lemma get_substring (s : string) (m n p : nat) :
  (p < n)%nat -> String.get p (substring m n s) = String.get (m + p) s.
Proof.
  intros H. rewrite (substring_correct1 s m n p H). f_equal. lia.
Qed.

(** The closing line is found right behind a block that holds none. *)
Lemma Index_fence (block tail : string) :
  Index block (LF +++ "---") = (-1)%Z ->
  Index (block +++ LF +++ "---" +++ tail) (LF +++ "---") = len block.
Proof.
  unfold Index, len. set (fence := LF +++ "---"). intros Hb.
  assert (Hnone : String.index 0 fence block = None).
  { destruct (String.index 0 fence block); [lia | reflexivity]. }
  clear Hb. set (s := block +++ LF +++ "---" +++ tail).
  assert (Hs : s = block +++ fence +++ tail) by reflexivity.
  assert (Hat : substring (String.length block) (String.length fence) s = fence).
  { rewrite Hs. clear. induction block as [|c b IH]; [|exact IH].
    cbn [String.append String.length]. apply substring_append_left. }
  destruct (String.index 0 fence s) as [m|] eqn:E.
  - f_equal. pose proof (index_correct1 _ _ _ _ E) as Hm.
    pose proof (index_correct2 _ _ _ _ E) as Hfirst.
    destruct (Nat.lt_trichotomy m (String.length block)) as [Hlt|[Heq|Hgt]];
      [|exact Heq|].
    + exfalso.
      destruct (Nat.le_gt_cases (m + 4) (String.length block)) as [Hin|Hout].
      * rewrite Hs in Hm. change (String.length fence) with 4%nat in Hm.
        rewrite substring_append_inside in Hm by exact Hin.
        exact (index_correct3 0 m fence block Hnone ltac:(discriminate) ltac:(lia) Hm).
      * assert (Hget : String.get (String.length block - m)
                                  (substring m (String.length fence) s)
                       = String.get (String.length block) s).
        { change (String.length fence) with 4%nat.
          rewrite get_substring by lia. f_equal. lia. }
        rewrite Hm in Hget. rewrite Hs in Hget.
        replace (String.length block) with (String.length block + 0)%nat in Hget at 2 by lia.
        rewrite get_append_right in Hget. cbn [fence LF String.append String.get] in Hget.
        destruct (String.length block - m)%nat as [|[|[|[|k]]]] eqn:Ek;
          try lia; cbn in Hget; discriminate.
    + exfalso. exact (Hfirst (String.length block) ltac:(lia) Hgt Hat).
  - exfalso.
    exact (index_correct3 0 (String.length block) fence s E ltac:(discriminate)
                          ltac:(lia) Hat).
Qed.

Lemma allBytes_replaceCR (s : string) : allBytes isNotCR (replaceCR s) = true.
Proof.
  induction s as [|c s IH]; [reflexivity|]. cbn [replaceCR allBytes]. rewrite IH, andb_true_r.
  unfold isNotCR. destruct (Ascii.eqb c (ascii_of_nat 13)) eqn:E; [reflexivity|].
  now rewrite E.
Qed.

Lemma replaceCR_noCR (s : string) : allBytes isNotCR s = true -> replaceCR s = s.
Proof.
  induction s as [|c s IH]; [reflexivity|]. cbn [replaceCR allBytes].
  intros H. apply andb_true_iff in H. destruct H as [Hc Hs]. rewrite (IH Hs).
  unfold isNotCR in Hc. apply negb_true_iff in Hc. now rewrite Hc.
Qed.

Lemma replaceCRLF_noCR (n : nat) :
  forall s, (String.length s <= n)%nat -> allBytes isNotCR s = true -> replaceCRLF s = s.
Proof.
  induction n as [|n IH]; intros s Hlen H.
  - destruct s; [reflexivity | cbn in Hlen; lia].
  - destruct s as [|c s]; [reflexivity|]. cbn [allBytes] in H.
    apply andb_true_iff in H. destruct H as [Hc Hs].
    unfold isNotCR in Hc. apply negb_true_iff in Hc.
    cbn [String.length] in Hlen.
    destruct s as [|d s]; [reflexivity|].
    change (replaceCRLF (String c (String d s)))
      with (if (Ascii.eqb c (ascii_of_nat 13) && Ascii.eqb d (ascii_of_nat 10))%bool
            then String (ascii_of_nat 10) (replaceCRLF s)
            else String c (replaceCRLF (String d s))).
    rewrite Hc. cbn [andb]. f_equal. apply IH; [lia | exact Hs].
Qed.

Lemma normalise_idempotent (content : string) :
  replaceCR (replaceCRLF (replaceCR (replaceCRLF content))) = replaceCR (replaceCRLF content).
Proof.
  rewrite (replaceCRLF_noCR _ _ (Nat.le_refl _) (allBytes_replaceCR _)).
  apply replaceCR_noCR, allBytes_replaceCR.
Qed.

(** X24: what [ParseFrontmatterBlock] reads, with the line-based parser
    of the code.  Once the line endings are normalised, a content made of
    three dashes, one more byte whatever it is, a block that holds no
    line starting with three dashes, and such a line, has a frontmatter:
    both parsers are applied to the block.  When the YAML parser fails the
    result is the map of the line-based parser; otherwise a key reads as
    the line-based parser found it when that value starts an array or an
    object, and as the YAML parser found it in every other case.  The
    order in which the range loop visits the entries plays no part. *)
Theorem ParseFrontmatterBlock_reads
        (parseYamlFrontmatter : string -> option ParsedFrontmatter)
        (content : string) (byte : ascii) (block tail : string) :
  replaceCR (replaceCRLF content) = "---" +++ String byte (block +++ LF +++ "---" +++ tail) ->
  Index block (LF +++ "---") = (-1)%Z ->
  exists frontmatter,
    ParseFrontmatterBlock parseYamlFrontmatter lineBased content = Some frontmatter
    /\ (parseYamlFrontmatter block = None -> frontmatter = lineBased block)
    /\ forall key,
         fmGet frontmatter key
         = match parseYamlFrontmatter block with
           | None => fmGet (lineBased block) key
           | Some fromYaml =>
               if startsBracket (fmGet (lineBased block) key)
               then fmGet (lineBased block) key
               else fmGet fromYaml key
           end.
Proof.
  intros Hc Hblock. unfold ParseFrontmatterBlock. rewrite Hc.
  change (HasPrefix ("---" +++ String byte (block +++ LF +++ "---" +++ tail)) "---")
    with true.
  cbn [negb].
  set (rest := block +++ LF +++ "---" +++ tail).
  assert (Hrest : sliceFrom ("---" +++ String byte rest) 4 = Some rest).
  { unfold sliceFrom. rewrite slice_Some.
    - f_equal. unfold len. cbn [String.append String.length].
      replace (Z.to_nat (Z.of_nat (S (S (S (S (String.length rest))))) - 4))
        with (String.length rest) by lia.
      change (Z.to_nat 4) with 4%nat. cbn [substring]. apply substring_0_length.
    - unfold len. cbn [String.append String.length]. lia.
    - lia. }
  rewrite Hrest.
  assert (HI : Index rest (LF +++ "---") = len block) by exact (Index_fence block tail Hblock).
  rewrite !HI.
  pose proof (len_nonneg block) as Hnn.
  replace (len block =? -1)%Z with false by (symmetry; apply Z.eqb_neq; lia).
  assert (Hslice : slice ("---" +++ String byte rest) 4 (4 + len block) = Some block).
  { rewrite slice_Some.
    - f_equal. change (Z.to_nat 4) with 4%nat.
      replace (Z.to_nat (4 + len block - 4)) with (String.length block) by (unfold len; lia).
      cbn [String.append substring]. unfold rest. apply substring_append_left.
    - lia.
    - unfold len, rest. cbn [String.append String.length]. rewrite !length_append. lia. }
  rewrite Hslice.
  destruct (parseLineBasedFrontmatter_total_wf block) as (lp & Hlp & Hwf).
  destruct (parseYamlFrontmatter block) as [fromYaml|] eqn:Ey.
  - eexists. split; [reflexivity|]. split; [discriminate|].
    intros key. apply mergeLineParsed_reads.
    unfold lineBased. rewrite Hlp. exact (proj1 Hwf).
  - eexists. split; [reflexivity|]. split; reflexivity.
Qed.

Lemma ParseFrontmatterBlock_reads_witness :
  Index (frontmatterBlock "foo" "first") (LF +++ "---") = (-1)%Z
  /\ exists frontmatter,
       ParseFrontmatterBlock yamlFails lineBased exampleSkillFile = Some frontmatter
       /\ (yamlFails (frontmatterBlock "foo" "first") = None ->
           frontmatter = lineBased (frontmatterBlock "foo" "first"))
       /\ forall key,
            fmGet frontmatter key
            = match yamlFails (frontmatterBlock "foo" "first") with
              | None => fmGet (lineBased (frontmatterBlock "foo" "first")) key
              | Some fromYaml =>
                  if startsBracket (fmGet (lineBased (frontmatterBlock "foo" "first")) key)
                  then fmGet (lineBased (frontmatterBlock "foo" "first")) key
                  else fmGet fromYaml key
              end.
Proof.
  assert (H : Index (frontmatterBlock "foo" "first") (LF +++ "---") = (-1)%Z)
    by (vm_compute; reflexivity).
  split; [exact H|].
  exact (ParseFrontmatterBlock_reads yamlFails exampleSkillFile (ascii_of_nat 10)
           (frontmatterBlock "foo" "first") (LF +++ "body") ltac:(vm_compute; reflexivity) H).
Defined.

(** X25: [ParseFrontmatterBlock] does not depend on the style of the
    line endings: a content and the content with every CRLF and every
    remaining CR replaced by a line feed give the same result, whatever
    the two parsers are. *)
Theorem ParseFrontmatterBlock_line_endings
        (parseYamlFrontmatter : string -> option ParsedFrontmatter)
        (parseLineBasedFrontmatter : string -> ParsedFrontmatter) (content : string) :
  ParseFrontmatterBlock parseYamlFrontmatter parseLineBasedFrontmatter
                        (replaceCR (replaceCRLF content))
  = ParseFrontmatterBlock parseYamlFrontmatter parseLineBasedFrontmatter content.
Proof.
  unfold ParseFrontmatterBlock. now rewrite normalise_idempotent.
Qed.

(** ** Discord channel: who gets through *)

Lemma existsb_eqb_In (x : string) (l : list string) :
  existsb (fun y => String.eqb x y) l = true <-> In x l.
Proof.
  rewrite existsb_exists. split.
  - intros (y & Hy & E). apply String.eqb_eq in E. now subst.
  - intros H. exists x. split; [exact H | apply String.eqb_refl].
Qed.

Lemma existsb_eqb_In_sym (x : string) (l : list string) :
  existsb (fun y => String.eqb y x) l = true <-> In x l.
Proof.
  rewrite existsb_exists. split.
  - intros (y & Hy & E). apply String.eqb_eq in E. now subst.
  - intros H. exists x. split; [exact H | apply String.eqb_refl].
Qed.

Lemma hasAllowedRole_iff (memberRoles : list string) (channelConfig : DiscordChannelConfig) :
  hasAllowedRole memberRoles channelConfig = true
  <-> exists r, In r memberRoles /\ In r (Roles channelConfig).
Proof.
  unfold hasAllowedRole. rewrite existsb_exists. split.
  - intros (r & Hr & E). apply existsb_eqb_In in E. eauto.
  - intros (r & Hr & E). exists r. split; [exact Hr | now apply existsb_eqb_In].
Qed.

Lemma isNil_false_of_In (A : Type) (x : A) (l : list A) : In x l -> isNil l = false.
Proof. destruct l; [intros [] | reflexivity]. Qed.

(** X19: in a configured guild, [isUserAllowedByRoles] admits a user
    exactly when one of the member's roles is listed for some channel of
    the guild, or the user is listed for some channel, or no channel of
    the guild lists any role; direct messages and guilds without
    configuration are always admitted.  The answer is about the guild as
    a whole, not the channel of the message, lists of users alone exclude
    nobody, and the order in which the channels are visited does not
    matter. *)
Theorem isUserAllowedByRoles_decides (config : DiscordConfig)
        (guildID userID : string) (memberRoles : list string) :
  isUserAllowedByRoles config guildID userID memberRoles = true
  <-> guildID = ""
      \/ mapGet (Guilds config) guildID = None
      \/ exists guildConfig,
           mapGet (Guilds config) guildID = Some guildConfig
           /\ ((exists channelConfig r,
                   In channelConfig (map snd (Channels guildConfig))
                   /\ In r memberRoles /\ In r (Roles channelConfig))
               \/ (exists channelConfig,
                      In channelConfig (map snd (Channels guildConfig))
                      /\ In userID (Users channelConfig))
               \/ (forall channelConfig,
                      In channelConfig (map snd (Channels guildConfig)) ->
                      Roles channelConfig = [])).
Proof.
  unfold isUserAllowedByRoles.
  destruct (String.eqb guildID "") eqn:Eg.
  { apply String.eqb_eq in Eg. tauto. }
  apply String.eqb_neq in Eg.
  destruct (mapGet (Guilds config) guildID) as [guildConfig|] eqn:Hg; [|tauto].
  set (channels := map snd (Channels guildConfig)).
  assert (H1 : existsb (fun channelConfig =>
                          negb (isNil (Roles channelConfig))
                          && hasAllowedRole memberRoles channelConfig) channels = true
               <-> exists channelConfig r,
                     In channelConfig channels /\ In r memberRoles
                     /\ In r (Roles channelConfig)).
  { rewrite existsb_exists. split.
    - intros (ch & Hch & E). apply andb_true_iff in E. destruct E as [_ E].
      apply hasAllowedRole_iff in E. destruct E as (r & Hr & Hr'). eauto.
    - intros (ch & r & Hch & Hr & Hr'). exists ch. split; [exact Hch|].
      rewrite (isNil_false_of_In _ r _ Hr'). cbn [negb andb].
      apply hasAllowedRole_iff. eauto. }
  assert (H2 : existsb (fun channelConfig =>
                          negb (isNil (Users channelConfig))
                          && existsb (fun allowedUser => String.eqb allowedUser userID)
                                     (Users channelConfig)) channels = true
               <-> exists channelConfig,
                     In channelConfig channels /\ In userID (Users channelConfig)).
  { rewrite existsb_exists. split.
    - intros (ch & Hch & E). apply andb_true_iff in E. destruct E as [_ E].
      apply existsb_eqb_In_sym in E. eauto.
    - intros (ch & Hch & Hu). exists ch. split; [exact Hch|].
      rewrite (isNil_false_of_In _ userID _ Hu). cbn [negb andb].
      now apply existsb_eqb_In_sym. }
  assert (H3 : existsb (fun channelConfig => negb (isNil (Roles channelConfig))) channels
               = false
               <-> forall channelConfig, In channelConfig channels -> Roles channelConfig = []).
  { split.
    - intros E ch Hch. destruct (Roles ch) as [|r rs] eqn:Er; [reflexivity|].
      assert (Ht : existsb (fun channelConfig => negb (isNil (Roles channelConfig))) channels
                   = true).
      { apply existsb_exists. exists ch. split; [exact Hch|]. now rewrite Er. }
      congruence.
    - intros Hall.
      destruct (existsb (fun channelConfig => negb (isNil (Roles channelConfig))) channels)
        eqn:E; [|reflexivity].
      apply existsb_exists in E. destruct E as (ch & Hch & E).
      rewrite (Hall ch Hch) in E. discriminate. }
  split.
  - intros H. right. right. exists guildConfig. split; [reflexivity|].
    destruct (existsb _ channels) eqn:E1 in H.
    + left. now apply H1.
    + destruct (existsb _ channels) eqn:E2 in H.
      * right. left. now apply H2.
      * right. right. apply H3.
        destruct (existsb (fun channelConfig => negb (isNil (Roles channelConfig))) channels);
          [discriminate | reflexivity].
  - intros [H | [H | (gc & Hgc & H)]]; [congruence | discriminate |].
    injection Hgc as <-.
    destruct H as [H | [H | H]].
    + apply H1 in H. now rewrite H.
    + apply H2 in H. rewrite H. now destruct (existsb _ channels).
    + apply H3 in H. rewrite H.
      destruct (existsb _ channels); [reflexivity|].
      now destruct (existsb _ channels).
Qed.

Lemma resolveChannelConfig_found (config : DiscordConfig) (guildID channelID : string)
      (channelConfig : DiscordChannelConfig) :
  resolveChannelConfig config guildID channelID = (channelConfig, true)
  <-> guildID <> "" /\ channelID <> ""
      /\ exists guildConfig,
           mapGet (Guilds config) guildID = Some guildConfig
           /\ mapGet (Channels guildConfig) channelID = Some channelConfig.
Proof.
  unfold resolveChannelConfig.
  destruct (String.eqb guildID "") eqn:Eg.
  { apply String.eqb_eq in Eg. split; [discriminate | tauto]. }
  apply String.eqb_neq in Eg.
  destruct (mapGet (Guilds config) guildID) as [guildConfig|] eqn:Hg.
  - destruct (String.eqb channelID "") eqn:Ec.
    { apply String.eqb_eq in Ec. split; [discriminate | tauto]. }
    apply String.eqb_neq in Ec.
    destruct (mapGet (Channels guildConfig) channelID) as [cc|] eqn:Hc.
    + split.
      * intros H. injection H as <-. repeat split; auto. eauto.
      * intros (_ & _ & gc & Hgc & Hcc). congruence.
    + split; [discriminate|]. intros (_ & _ & gc & Hgc & Hcc). congruence.
  - split; [discriminate|]. intros (_ & _ & gc & Hgc & _). discriminate.
Qed.

(** X18: the checks at the head of [handleMessage] let a message
    through exactly when it has an author who is not the bot itself and
    is admitted by [IsAllowed], and, for a direct message, the policy is
    not [disabled]; for a guild message, the channel is not configured
    with [Allow] off, the role check admits the author, and, where the
    most specific configured level requires a mention, the bot is
    mentioned or replied to.  The allow list is consulted for every
    message, so for direct messages the policy [open] admits the same
    messages as [allowlist] and as the empty default. *)
Theorem handleMessage_passes_iff (config : DiscordConfig) (botUserID : string)
        (IsAllowed : string -> bool) (selfID : string) (m : MessageCreate) :
  handleMessage_passes config botUserID IsAllowed selfID m = true
  <-> exists authorID,
        AuthorID m = Some authorID
        /\ authorID <> selfID
        /\ IsAllowed authorID = true
        /\ (GuildID m = "" -> DMPolicy config <> "disabled")
        /\ (GuildID m <> "" ->
            (forall channelConfig,
                resolveChannelConfig config (GuildID m) (ChannelID m) = (channelConfig, true) ->
                Allow channelConfig = true)
            /\ isUserAllowedByRoles config (GuildID m) authorID
                 (match MemberRoles m with Some roles => roles | None => [] end) = true
            /\ (shouldRequireMention config (GuildID m) (ChannelID m) = true ->
                isBotMentioned botUserID m = true \/ isImplicitMention botUserID m = true)).
Proof.
  unfold handleMessage_passes.
  destruct (AuthorID m) as [authorID|]; [|split; [discriminate | intros (a & H & _); discriminate]].
  destruct (String.eqb authorID selfID) eqn:Eself.
  { apply String.eqb_eq in Eself. split; [discriminate|].
    intros (a & Ha & Hne & _). congruence. }
  apply String.eqb_neq in Eself.
  destruct (String.eqb (GuildID m) "") eqn:Eg.
  - (* a direct message *)
    apply String.eqb_eq in Eg. cbn [andb negb].
    set (policy := if String.eqb (DMPolicy config) "" then "allowlist" else DMPolicy config).
    assert (Hpol : String.eqb policy "disabled" = true <-> DMPolicy config = "disabled").
    { subst policy. destruct (String.eqb (DMPolicy config) "") eqn:E.
      - apply String.eqb_eq in E. rewrite E. split; discriminate.
      - apply String.eqb_eq. }
    destruct (String.eqb policy "disabled") eqn:Ed.
    + split; [discriminate|]. intros (a & Ha & _ & _ & Hdm & _).
      exfalso. apply (Hdm Eg). now apply Hpol.
    + assert (Hnd : DMPolicy config <> "disabled").
      { intros H. apply Hpol in H. discriminate. }
      destruct (IsAllowed authorID) eqn:Ea.
      * cbn [negb]. rewrite andb_false_r. split; [|reflexivity].
        intros _. exists authorID.
        split; [reflexivity|]. split; [exact Eself|]. split; [exact Ea|].
        split; [intros _; exact Hnd | intros H; congruence].
      * cbn [negb]. split.
        -- destruct (String.eqb policy "allowlist"); discriminate.
        -- intros (a & Ha & _ & Hal & _). injection Ha as <-. congruence.
  - (* a message of a guild *)
    apply String.eqb_neq in Eg. cbn [andb negb].
    destruct (IsAllowed authorID) eqn:Ea; cbn [negb].
    2:{ split; [discriminate|]. intros (a & Ha & _ & Hal & _). injection Ha as <-. congruence. }
    destruct (resolveChannelConfig config (GuildID m) (ChannelID m)) as [cc hasConfig] eqn:Er.
    set (roles := match MemberRoles m with Some r => r | None => [] end).
    assert (Hallow : (hasConfig && negb (Allow cc))%bool = false
                     <-> forall channelConfig, (cc, hasConfig) = (channelConfig, true) ->
                                               Allow channelConfig = true).
    { destruct hasConfig; cbn [andb].
      - split.
        + intros H c' Hc. injection Hc as <-. now apply negb_false_iff in H.
        + intros H. apply negb_false_iff. now apply H.
      - split; [intros _ c' Hc; discriminate | reflexivity]. }
    destruct (hasConfig && negb (Allow cc))%bool eqn:Eal.
    { split; [discriminate|]. intros (a & _ & _ & _ & _ & Hg).
      destruct (Hg Eg) as (Hal & _). apply Hallow in Hal. discriminate. }
    destruct (isUserAllowedByRoles config (GuildID m) authorID roles) eqn:Erole; cbn [negb].
    2:{ split; [discriminate|]. intros (a & Ha & _ & _ & _ & Hg). injection Ha as <-.
        destruct (Hg Eg) as (_ & Hr & _). congruence. }
    destruct (shouldRequireMention config (GuildID m) (ChannelID m)) eqn:Em.
    + destruct (isBotMentioned botUserID m) eqn:Eb; cbn [negb andb].
      * split; [|reflexivity]. intros _. exists authorID.
        split; [reflexivity|]. split; [exact Eself|]. split; [exact Ea|].
        split; [intros H; congruence|]. intros _.
        split; [now apply Hallow|]. split; [exact Erole|]. intros _. now left.
      * destruct (isImplicitMention botUserID m) eqn:Ei; cbn [negb].
        -- split; [|reflexivity]. intros _. exists authorID.
           split; [reflexivity|]. split; [exact Eself|]. split; [exact Ea|].
           split; [intros H; congruence|]. intros _.
           split; [now apply Hallow|]. split; [exact Erole|]. intros _. now right.
        -- split; [discriminate|]. intros (a & _ & _ & _ & _ & Hg).
           destruct (Hg Eg) as (_ & _ & Hm). destruct (Hm eq_refl); discriminate.
    + split; [|reflexivity]. intros _. exists authorID.
      split; [reflexivity|]. split; [exact Eself|]. split; [exact Ea|].
      split; [intros H; congruence|]. intros _.
      split; [now apply Hallow|]. split; [exact Erole|]. discriminate.
Qed.

(** With the policy [open] and an allow list that holds one user, a
    direct message of another user is dropped and one of the listed user
    passes. *)
Lemma handleMessage_open_policy_example :
  DMPolicy exampleDiscordConfig = "open"
  /\ handleMessage_passes exampleDiscordConfig "bot" onlyU1 "bot" exampleDirectMessage = true
  /\ handleMessage_passes exampleDiscordConfig "bot" onlyU1 "bot"
       {| AuthorID := Some "u2"; GuildID := ""; ChannelID := "dm2"; MemberRoles := None;
          Mentions := []; MentionEveryone := false; MentionRoles := [];
          ReferencedAuthorID := None |} = false.
Proof. repeat split. Qed.

(** ** Home directory expansion *)

Lemma sliceFrom_one (c : ascii) (s : string) : sliceFrom (String c s) 1 = Some s.
Proof.
  unfold sliceFrom. rewrite slice_Some.
  - f_equal. unfold len. cbn [String.length].
    replace (Z.to_nat (Z.of_nat (S (String.length s)) - 1)) with (String.length s) by lia.
    change (Z.to_nat 1) with 1%nat. cbn [substring]. apply substring_0_length.
  - unfold len. cbn [String.length]. lia.
  - lia.
Qed.

Lemma expandHome_cases (home path : string) :
  expandHome home path
  = Some match path with
         | EmptyString => ""
         | String first rest =>
             if Ascii.eqb first "~" then
               match rest with
               | String second _ => if Ascii.eqb second "/" then home +++ rest else home
               | EmptyString => home
               end
             else path
         end.
Proof.
  unfold expandHome. destruct path as [|first rest]; [reflexivity|].
  change (String.eqb (String first rest) "") with false. cbv iota.
  cbn [String.get]. destruct (Ascii.eqb first "~"); [|reflexivity].
  destruct rest as [|second rest]; [reflexivity|].
  replace (len (String first (String second rest)) >? 1)%Z with true
    by (symmetry; rewrite Z.gtb_ltb; apply Z.ltb_lt; unfold len; cbn [String.length]; lia).
  cbn [String.get]. destruct (Ascii.eqb second "/"); [|reflexivity].
  now rewrite sliceFrom_one.
Qed.

(** X29: [expandHome] never indexes or slices out of range.  A path
    that does not start with a tilde is returned as it is; [~/rest]
    becomes the home directory followed by [/rest]; a tilde followed by
    anything else is the home directory alone, the rest of the path is
    dropped.  For a home directory that is not empty and has no trailing
    separator, expanding undoes [CompactPath]: a path that does not
    start with a tilde comes back from its compact form. *)
Theorem expandHome_undoes_CompactPath (Getenv : string -> string) (home path : string) :
  (exists expanded, expandHome home path = Some expanded)
  /\ (forall first rest, path = String first rest -> first <> "~"%char ->
                         expandHome home path = Some path)
  /\ (forall rest, path = "~/" +++ rest -> expandHome home path = Some (home +++ "/" +++ rest))
  /\ (forall second rest, path = String "~" (String second rest) -> second <> "/"%char ->
                          expandHome home path = Some home)
  /\ (home <> "" -> HasSuffix home "/" = false -> HasSuffix home "\" = false ->
      HasPrefix path "~" = false ->
      expandHome home (CompactPath Getenv path home) = Some path).
Proof.
  split; [|split; [|split; [|split]]].
  - rewrite expandHome_cases. eauto.
  - intros first rest -> Hne. rewrite expandHome_cases.
    destruct (Ascii.eqb first "~") eqn:E; [|reflexivity].
    apply Ascii.eqb_eq in E. contradiction.
  - intros rest ->. rewrite expandHome_cases. reflexivity.
  - intros second rest -> Hne. rewrite expandHome_cases.
    change (Ascii.eqb "~" "~") with true. cbv iota.
    destruct (Ascii.eqb second "/") eqn:E; [|reflexivity].
    apply Ascii.eqb_eq in E. contradiction.
  - intros Hhome Hs1 Hs2 Htilde.
    assert (Hid : expandHome home path = Some path).
    { rewrite expandHome_cases. destruct path as [|first rest]; [reflexivity|].
      unfold HasPrefix in Htilde. cbn [String.prefix] in Htilde.
      destruct (Ascii.eqb first "~") eqn:E; [|reflexivity].
      apply Ascii.eqb_eq in E. subst first.
      destruct (ascii_dec "~" "~") as [_|n]; [|now elim n].
      destruct rest; discriminate. }
    pose proof (CompactPath_cases Getenv path home) as Hc. cbv zeta in Hc.
    destruct (String.eqb home "") eqn:Eh; [apply String.eqb_eq in Eh; contradiction|].
    unfold TrimSuffix in Hc. rewrite Hs1, Hs2 in Hc.
    destruct Hc as [-> | (rest & -> & Hpath & _)]; [exact Hid|].
    rewrite expandHome_cases. cbn. now rewrite Hpath.
Qed.

Lemma expandHome_undoes_CompactPath_witness :
  CompactPath noEnv "/home/u/skills/a/SKILL.md" "/home/u" = "~/skills/a/SKILL.md"
  /\ expandHome "/home/u" (CompactPath noEnv "/home/u/skills/a/SKILL.md" "/home/u")
     = Some "/home/u/skills/a/SKILL.md".
Proof.
  split; [vm_compute; reflexivity|].
  refine (proj2 (proj2 (proj2 (proj2
            (expandHome_undoes_CompactPath noEnv "/home/u" "/home/u/skills/a/SKILL.md"))))
            _ _ _ _);
    try discriminate; vm_compute; reflexivity.
Defined.

(** ** Skill registry: the body that is loaded *)

(** A content whose first part starts with three dashes and holds no
    later line that starts with them, followed by such a line: what is
    left is what follows the three dashes of that line, without leading
    blanks. *)
Lemma StripFrontmatter_closing (opening body : string) :
  HasPrefix opening "---" = true ->
  Index opening (LF +++ "---") = (-1)%Z ->
  StripFrontmatter (opening +++ LF +++ "---" +++ body)
  = TrimLeft body (" " +++ TAB +++ LF +++ CR).
Proof.
  intros Hp Hblock. unfold StripFrontmatter.
  assert (Hp' : HasPrefix (opening +++ LF +++ "---" +++ body) "---" = true).
  { unfold HasPrefix in *. destruct (prefix_split _ _ Hp) as (rest & ->).
    rewrite append_assoc. apply prefix_append. }
  rewrite Hp'. cbn [negb]. rewrite (Index_fence opening body Hblock).
  pose proof (len_nonneg opening) as Hnn.
  replace (len opening =? -1)%Z with false by (symmetry; apply Z.eqb_neq; lia).
  assert (Hf : len (LF +++ "---") = 4%Z) by reflexivity.
  rewrite Hf.
  assert (Hl : String.length (opening +++ LF +++ "---") = (String.length opening + 4)%nat).
  { rewrite length_append. reflexivity. }
  assert (Hs : sliceFrom (opening +++ LF +++ "---" +++ body) (len opening + 4) = Some body).
  { assert (Hc : opening +++ LF +++ "---" +++ body = (opening +++ LF +++ "---") +++ body).
    { rewrite append_assoc. reflexivity. }
    rewrite Hc. unfold sliceFrom. rewrite slice_Some.
    - f_equal.
      replace (Z.to_nat (len opening + 4)) with (String.length (opening +++ LF +++ "---"))
        by (rewrite Hl; unfold len; lia).
      replace (Z.to_nat (len ((opening +++ LF +++ "---") +++ body) - (len opening + 4)))
        with (String.length body)
        by (unfold len; rewrite length_append, Hl; lia).
      apply substring_append_right.
    - unfold len. rewrite length_append, Hl. lia.
    - lia. }
  now rewrite Hs.
Qed.

Lemma StripFrontmatter_fenced (block body : string) :
  Index ("---" +++ LF +++ block) (LF +++ "---") = (-1)%Z ->
  StripFrontmatter ("---" +++ LF +++ block +++ LF +++ "---" +++ body)
  = TrimLeft body (" " +++ TAB +++ LF +++ CR).
Proof.
  intros Hblock.
  exact (StripFrontmatter_closing ("---" +++ LF +++ block) body eq_refl Hblock).
Qed.

(** C10: [LoadSkill] returns the body, with the frontmatter stripped, of
    the first [<root>/<name>/SKILL.md] it can read, the roots being tried
    in the order workspace, global, builtin, and reports absence
    otherwise.  Stripping leaves a content that does not start with three
    dashes as it is, and of a content made of an opening line of three
    dashes, a block without such a line and a closing line it keeps what
    follows the closing dashes, without leading blanks.  [LoadSkill] does
    not validate.  The skill [notes], whose SKILL.md has no frontmatter
    and therefore no description, is rejected by validation and absent
    from the catalog, and [LoadSkill] returns its whole text with
    [ok = true].  The skill [draft], whose frontmatter declares a name
    with an underscore, is rejected by validation and absent from the
    catalog, with the line-based parser of the code and a YAML parser
    that fails on the block or reads the same two entries, and
    [LoadSkill] returns its body, the frontmatter removed, with
    [ok = true]. *)
Theorem C10_LoadSkill_ignores_validation
        (jsonUnmarshal : string -> option (string * string))
        (parseYamlFrontmatter : string -> option ParsedFrontmatter)
        (parseLineBasedFrontmatter : string -> ParsedFrontmatter) :
  (forall ReadFile filepathJoin3 sl name,
      LoadSkill ReadFile filepathJoin3 sl name
      = match firstReadable ReadFile filepathJoin3
                [workspaceSkills sl; globalSkills sl; builtinSkills sl] name with
        | Some content => (StripFrontmatter content, true)
        | None => ("", false)
        end)
  /\ (forall content, HasPrefix content "---" = false -> StripFrontmatter content = content)
  /\ (forall block body,
         Index ("---" +++ LF +++ block) (LF +++ "---") = (-1)%Z ->
         StripFrontmatter ("---" +++ LF +++ block +++ LF +++ "---" +++ body)
         = TrimLeft body (" " +++ TAB +++ LF +++ CR))
  /\ getSkillMetadata notesReadFile unixBase unixDir jsonUnmarshal
       parseYamlFrontmatter parseLineBasedFrontmatter "ws/skills/notes/SKILL.md"
     = Some (Some {| mdName := "notes"; mdDescription := "" |})
  /\ validate (candidate unixJoin3 noEnv "ws/skills" "workspace" ""
                 (mkDirEntry "notes" true)
                 (Some {| mdName := "notes"; mdDescription := "" |}))
     = ["description is required"]
  /\ ListSkills notesReadDir notesReadFile notesStat unixJoin3 unixBase unixDir noEnv
       jsonUnmarshal parseYamlFrontmatter parseLineBasedFrontmatter notesLoader
     = Some []
  /\ LoadSkill notesReadFile unixJoin3 notesLoader "notes" = (notesText, true)
  /\ (parseYamlFrontmatter draftBlock = None
      \/ parseYamlFrontmatter draftBlock = Some draftEntries ->
      getSkillMetadata draftReadFile unixBase unixDir notJSON
        parseYamlFrontmatter lineBased "ws/skills/draft/SKILL.md"
      = Some (Some {| mdName := "draft_v2"; mdDescription := "Work in progress" |})
      /\ ListSkills draftReadDir draftReadFile draftStat unixJoin3 unixBase unixDir noEnv
           notJSON parseYamlFrontmatter lineBased notesLoader
         = Some [])
  /\ validate (candidate unixJoin3 noEnv "ws/skills" "workspace" ""
                 (mkDirEntry "draft" true)
                 (Some {| mdName := "draft_v2"; mdDescription := "Work in progress" |}))
     = ["name must be alphanumeric with hyphens"]
  /\ draftText <> draftBody
  /\ LoadSkill draftReadFile unixJoin3 notesLoader "draft" = (draftBody, true).
Proof.
  split; [intros; apply LoadSkill_firstReadable|].
  split.
  { intros content H. unfold StripFrontmatter. now rewrite H. }
  split; [exact StripFrontmatter_fenced|].
  split; [vm_compute; reflexivity|].
  split; [vm_compute; reflexivity|].
  split; [vm_compute; reflexivity|].
  split; [vm_compute; reflexivity|].
  split.
  { intros Hyaml.
    assert (Hy : parseYamlFrontmatter draftBlock = None
                 \/ parseYamlFrontmatter draftBlock = Some draftEntries) by exact Hyaml.
    vm_compute in Hy.
    split; vm_compute; destruct Hy as [Hy|Hy]; rewrite Hy; vm_compute; reflexivity. }
  split; [vm_compute; reflexivity|].
  split; [vm_compute; discriminate|].
  vm_compute. reflexivity.
Qed.

Lemma C10_LoadSkill_ignores_validation_witness :
  yamlFails draftBlock = None
  /\ ListSkills draftReadDir draftReadFile draftStat unixJoin3 unixBase unixDir noEnv
       notJSON yamlFails lineBased notesLoader
     = Some []
  /\ LoadSkill draftReadFile unixJoin3 notesLoader "draft" = (draftBody, true).
Proof.
  pose proof (C10_LoadSkill_ignores_validation notJSON yamlFails lineBased) as H.
  destruct H as (_ & _ & _ & _ & _ & _ & _ & Hdraft & _ & _ & Hload).
  split; [reflexivity|].
  split; [exact (proj2 (Hdraft (or_introl eq_refl))) | exact Hload].
Defined.
